(** * CRM backend: segment rules, personalization, campaign delivery, queue drain

    A shallow embedding of the TypeScript sources of the CRM backend
    (rule evaluator, segment controller and population service, message
    personalization, message queue, delivery receipts, campaign delivery
    and campaign statistics), followed by the properties proved about it.

    Modelling conventions.
    - A MongoDB collection is a list of documents in insertion (natural)
      order; [find] is [List.filter], [findOne] is [List.find] and
      [countDocuments] is the length of the filtered list.
    - ObjectIds are integers; [String(id)] is decimal printing.
    - JavaScript numbers that hold counts, amounts and timestamps are
      integers ([Z], timestamps in milliseconds; a count is below
      [2 ^ 53], so it is a binary64 number).  A percentage is a binary64
      number, given by its rational value ([Q]); the arithmetic that
      computes it rounds every result to the nearest binary64 number
      (module [Number]).
    - Strings are [string]; [toLowerCase] lowers the ASCII letters.
    - [new Date()], [Date.now()] and [Math.random()] are explicit inputs.
    - An [await]ed handler runs atomically.  The wake-up of the queue
      processor is also given in its two parts, before and after its
      delay, between which other handlers may write.
    - In a Mongoose update document a key whose value is [undefined] is
      left out of the update. *)

From Stdlib Require Import ZArith Lia Ascii String List QArith Qround Qpower Lqa Bool.
From Stdlib Require Import Floats.SpecFloat.
From stdpp Require Import base option list strings pretty.
Import ListNotations.

#[local] Set Warnings "-register-all".
#[local] Open Scope string_scope.
#[local] Open Scope list_scope.
#[local] Open Scope Z_scope.

(** The type of MongoDB ObjectIds. *)
Definition ObjectId := Z.

(** [String(id)] for an ObjectId. *)
Definition String_ (id : ObjectId) : string := pretty id.

(** ** JavaScript helpers *)

Module Js.

(** [a || b] on strings: the empty string is falsy. *)
Definition or_str (a b : string) : string :=
  match a with EmptyString => b | _ => a end.

(** [a || b] where [a] may be [undefined]. *)
Definition or_ostr (a : option string) (b : string) : string :=
  match a with Some s => or_str s b | None => b end.

(** [a || 0] where [a] may be [undefined]. *)
Definition or_zero (a : option Z) : Z :=
  match a with Some z => z | None => 0 end.

(** [String.prototype.startsWith]. *)
Definition startsWith (s p : string) : bool := String.prefix p s.

Definition lower_ascii (c : ascii) : ascii :=
  let n := nat_of_ascii c in
  if (Nat.leb 65 n && Nat.leb n 90)%bool then ascii_of_nat (n + 32) else c.

(** [String.prototype.toLowerCase], on ASCII letters. *)
Fixpoint toLowerCase (s : string) : string :=
  match s with
  | EmptyString => EmptyString
  | String c s' => String (lower_ascii c) (toLowerCase s')
  end.

Fixpoint drop (n : nat) (s : string) : string :=
  match n, s with
  | O, _ => s
  | S k, EmptyString => EmptyString
  | S k, String _ s' => drop k s'
  end.

Fixpoint take (n : nat) (s : string) : string :=
  match n, s with
  | O, _ => EmptyString
  | S k, EmptyString => EmptyString
  | S k, String c s' => String c (take k s')
  end.

(** [GetSubstitution] of ECMAScript for a pattern without capture
    groups: in the replacement text [$$] is a dollar, [$&] the matched
    text, [$`] the text before the match, [$'] the text after it; any
    other character, a [$] included, stands for itself. *)
Fixpoint GetSubstitution (matched before after replacement : string) : string :=
  match replacement with
  | EmptyString => EmptyString
  | String c tl =>
      if Ascii.eqb c "$" then
        match tl with
        | String d tl' =>
            if Ascii.eqb d "$" then String "$" (GetSubstitution matched before after tl')
            else if Ascii.eqb d "&" then matched +:+ GetSubstitution matched before after tl'
            else if Ascii.eqb d "`" then before +:+ GetSubstitution matched before after tl'
            else if Ascii.eqb d "'" then after +:+ GetSubstitution matched before after tl'
            else String "$" (GetSubstitution matched before after tl)
        | EmptyString => String "$" EmptyString
        end
      else String c (GetSubstitution matched before after tl)
  end.

(** The scan of [s.replace(/pat/g, rep)] for a literal, non-empty
    pattern: [whole] is the string being searched, [pos] the index of
    the head of [s] in it, and [skip] the number of characters of a
    match still to be consumed. *)
Fixpoint replace_from (pat rep whole : string) (pos skip : nat) (s : string) : string :=
  match s with
  | EmptyString => EmptyString
  | String c s' =>
      match skip with
      | S k => replace_from pat rep whole (S pos) k s'
      | O =>
          if String.prefix pat s then
            GetSubstitution pat (take pos whole) (drop (String.length pat) s) rep
              +:+ replace_from pat rep whole (S pos) (String.length pat - 1) s'
          else String c (replace_from pat rep whole (S pos) 0 s')
      end
  end.

(** [s.replace(/pat/g, rep)] for a literal, non-empty pattern. *)
Definition replace_g (pat rep s : string) : string :=
  replace_from pat rep s 0 0 s.

(** The character [c] occurs in [s]. *)
Fixpoint has_char (c : ascii) (s : string) : bool :=
  match s with
  | EmptyString => false
  | String a s' => Ascii.eqb a c || has_char c s'
  end.

(** [String.prototype.includes] on an array of strings. *)
Definition includes (l : list string) (x : string) : bool :=
  existsb (String.eqb x) l.

End Js.

(** ** JavaScript numbers *)

(** A finite JavaScript number is a binary64 number; it is given here by
    its rational value.  The numbers of this development are far below
    [2 ^ 1024], where binary64 overflows. *)
Module Number.

(** [2 ^ e]. *)
Definition pow2 (e : Z) : Q := (2 ^ e)%Q.

(** The integer nearest to [x], a tie going to the even one. *)
Definition round_even (x : Q) : Z :=
  let f := Qfloor x in
  match Qcompare (x - inject_Z f) (1 # 2) with
  | Lt => f
  | Gt => f + 1
  | Eq => if Z.even f then f else f + 1
  end.

(** The exponent [e] of [x > 0]: [2 ^ e <= x < 2 ^ (e + 1)]. *)
Definition exponent (x : Q) : Z :=
  let c := Z.log2 (Qnum x) - Z.log2 (Zpos (Qden x)) in
  if Qle_bool (pow2 c) x then c else c - 1.

(** The binary64 number nearest to [x > 0], a tie going to the even
    significand: 53 binary digits from the leading one, and no digit
    below [2 ^ -1074]. *)
Definition nearest_pos (x : Q) : Q :=
  let e := Z.max (exponent x) (-1022) - 52 in
  Qred (inject_Z (round_even (x / pow2 e)) * pow2 e).

(** The binary64 number nearest to [x]. *)
Definition nearest (x : Q) : Q :=
  match Qcompare x 0 with
  | Eq => 0%Q
  | Gt => nearest_pos x
  | Lt => Qred (- nearest_pos (- x))
  end.

(** [a + b], [a * b] and [a / b] on numbers: the exact result, rounded
    to the nearest binary64 number. *)
Definition add (a b : Q) : Q := nearest (a + b).
Definition mul (a b : Q) : Q := nearest (a * b).
Definition div (a b : Q) : Q := nearest (a / b).

(** [Math.round(x)]: the integer nearest to [x], a tie going up. *)
Definition Math_round (x : Q) : Z := Qfloor (x + (1 # 2)).

(** The integer [n] of [x.toFixed(2)]: [n / 100] is nearest to [x], a
    tie going up. *)
Definition toFixed_hundredths (x : Q) : Z := Qfloor (x * 100 + (1 # 2)).

End Number.

(** The same arithmetic in the specification of binary64 of the Standard
    Library, which the rounding of [Number] is compared with. *)
Module Binary64.

Definition of_Z (z : Z) : spec_float := binary_normalize 53 1024 z 0 false.

(** The value of a finite number. *)
Definition to_Q (f : spec_float) : Q :=
  match f with
  | S754_finite s m e =>
      ((if s then -1 else 1) * inject_Z (Zpos m) * Number.pow2 e)%Q
  | _ => 0%Q
  end.

Definition add (a b : spec_float) : spec_float := SFadd 53 1024 a b.
Definition mul (a b : spec_float) : spec_float := SFmul 53 1024 a b.
Definition div (a b : spec_float) : spec_float := SFdiv 53 1024 a b.

(** [num / total], [(num / total) * 100], [((num / total) * 100) * 100]
    and [k / 100] for the rounded product [k], computed in both ways,
    are the same numbers. *)
Definition agrees (num total : Z) : bool :=
  let d := div (of_Z num) (of_Z total) in
  let p := mul d (of_Z 100) in
  let q := mul p (of_Z 100) in
  let d' := Number.div (inject_Z num) (inject_Z total) in
  let p' := Number.mul d' 100 in
  let q' := Number.mul p' 100 in
  let k := Number.Math_round q' in
  Qeq_bool (to_Q d) d' && Qeq_bool (to_Q p) p' && Qeq_bool (to_Q q) q'
  && Qeq_bool (to_Q (div (of_Z k) (of_Z 100))) (Number.div (inject_Z k) 100).

(** The pairs [(num, total)] with [0 <= num <= total] and
    [1 <= total <= n]. *)
Definition pairs (n : nat) : list (Z * Z) :=
  flat_map (fun total => map (fun num => (Z.of_nat num, Z.of_nat (S total)))
                             (seq 0 (S (S total))))
           (seq 0 n).

End Binary64.

(** ** models/Customer.ts *)

Module CustomerModel.
Record t := {
  _id : ObjectId;
  userId : ObjectId;
  name : string;
  email : string;
  phone : option string;
  spend : option Z;
  visits : option Z;
  last_active : option Z;
  created_at : Z
}.
End CustomerModel.

(** ** services/segmentRules.ts *)

Module SegmentRules.

Inductive FieldName := spend | visits | inactive_days.

Inductive Op := gt | ge | lt | le | eq | ne.

(** A rule object as the evaluator and the segment controller read it:
    the keys [field], [operator], [op], [value], [and], [or], each
    possibly absent ([None]).  Under [field], [Some None] is a key that
    is present with the value [undefined]; under [op], [None] is also
    any string that is not one of the six operators; [and]/[or] hold
    arrays of rule objects. *)
Inductive node :=
| Node (field : option (option FieldName))
       (operator : option Op)
       (op : option Op)
       (value : option Z)
       (and : option (list node))
       (or : option (list node)).

Definition n_field (n : node) := let 'Node f _ _ _ _ _ := n in f.
Definition n_operator (n : node) := let 'Node _ o _ _ _ _ := n in o.
Definition n_op (n : node) := let 'Node _ _ o _ _ _ := n in o.
Definition n_value (n : node) := let 'Node _ _ _ v _ _ := n in v.
Definition n_and (n : node) := let 'Node _ _ _ _ a _ := n in a.
Definition n_or (n : node) := let 'Node _ _ _ _ _ o := n in o.

(** A leaf [{field, op, value}]. *)
Definition Rule (f : FieldName) (o : Op) (v : Z) : node :=
  Node (Some (Some f)) None (Some o) (Some v) None None.

(** [Number.MAX_SAFE_INTEGER]. *)
Definition MAX_SAFE_INTEGER : Z := 2 ^ 53 - 1.

(** [compare(a, op, b)]: a comparison against [undefined] is false,
    except [!==], which is true; an unknown operator gives false. *)
Definition compare (a : Z) (op : option Op) (b : option Z) : bool :=
  match op with
  | Some gt => match b with Some b => b <? a | None => false end
  | Some ge => match b with Some b => b <=? a | None => false end
  | Some lt => match b with Some b => a <? b | None => false end
  | Some le => match b with Some b => a <=? b | None => false end
  | Some eq => match b with Some b => a =? b | None => false end
  | Some ne => match b with Some b => negb (a =? b) | None => true end
  | None => false
  end.

(** [dayjs().diff(last, 'day')]: whole days, truncated towards zero. *)
Definition diff_days (now last : Z) : Z := Z.quot (now - last) 86400000.

(** [customer[rule.field] ?? 0] for the numeric attributes; an
    [undefined] field name reads a missing attribute. *)
Definition attribute (customer : CustomerModel.t) (f : option FieldName) : Z :=
  match f with
  | Some spend => Js.or_zero (CustomerModel.spend customer)
  | Some visits => Js.or_zero (CustomerModel.visits customer)
  | _ => 0
  end.

Fixpoint evaluateRule (now : Z) (customer : CustomerModel.t) (rule : node) : bool :=
  match rule with
  | Node (Some f) _ op value _ _ =>
      match f with
      | Some inactive_days =>
          let days :=
            match CustomerModel.last_active customer with
            | Some last => diff_days now last
            | None => MAX_SAFE_INTEGER
            end in
          compare days op value
      | _ => compare (attribute customer f) op value
      end
  | Node None _ _ _ (Some and) _ => forallb (evaluateRule now customer) and
  | Node None _ _ _ None (Some or) => existsb (evaluateRule now customer) or
  | Node None _ _ _ None None => true
  end.

End SegmentRules.

(** ** What Mongoose stores for a value of type [Mixed] *)

Module Mongoose.
Import SegmentRules.

(** The rules as [SegmentModel.create] saves them: a key whose value is
    [undefined] is left out, in the objects of the arrays too.  In a rule
    object only the key [field] can be present with the value
    [undefined]; an [op] or a [value] that is [undefined] is [None]
    already. *)
Fixpoint saved (rules : node) : node :=
  match rules with
  | Node field operator op value and or =>
      Node (match field with Some None => None | _ => field end)
           operator op value
           (option_map (map saved) and) (option_map (map saved) or)
  end.

(** The rules are an object without keys.  [SegmentModel.create] saves
    no [rules_json] at all for such rules, and the segment is then not a
    document of this model (see [SegmentModel]). *)
Definition empty_object (rules : node) : bool :=
  match rules with
  | Node None None None None None None => true
  | _ => false
  end.

End Mongoose.

(** ** models/Segment.ts *)

(** A segment of this model has rules: [rules_json] is required by the
    schema.  (Mongoose stores a segment that is created with the rules
    [{}] without the key; such a segment is not a document of this
    model.) *)
Module SegmentModel.
Record t := {
  _id : ObjectId;
  userId : ObjectId;
  name : string;
  rules_json : SegmentRules.node;
  created_by : ObjectId;
  created_at : Z;
  customer_ids : list string;
  customer_count : Z;
  last_populated_at : option Z
}.
End SegmentModel.

(** ** models/Campaign.ts, models/CommunicationLog.ts, models/SentMessage.ts *)

(** [DeliveryStatus] and [SentMessageStatus]: the same four strings. *)
Inductive Status := PENDING | SENT | FAILED | QUEUED.

Definition Status_eqb (a b : Status) : bool :=
  match a, b with
  | PENDING, PENDING | SENT, SENT | FAILED, FAILED | QUEUED, QUEUED => true
  | _, _ => false
  end.

(** The terminal statuses of a message. *)
Definition terminal (s : Status) : bool :=
  match s with SENT | FAILED => true | _ => false end.

Module CampaignModel.
Inductive CampaignStatus := DRAFT | ACTIVE | PAUSED | COMPLETED | CANCELLED.

Record t := {
  _id : ObjectId;
  userId : ObjectId;
  segment_id : ObjectId;
  message : string;
  subject : string;
  status : CampaignStatus;
  created_at : Z
}.

Definition set_status (s : CampaignStatus) (c : t) : t :=
  {| _id := _id c; userId := userId c; segment_id := segment_id c;
     message := message c; subject := subject c; status := s;
     created_at := created_at c |}.
End CampaignModel.

Module CommunicationLogModel.
Definition DeliveryStatus := Status.

Record t := {
  _id : ObjectId;
  userId : ObjectId;
  campaign_id : option ObjectId;
  customer_id : option ObjectId;
  status : DeliveryStatus;
  sent_at : option Z;
  updated_at : option Z;
  message : string;
  vendor_message_id : option string;
  error_message : option string
}.

(** Schema validation on [create]: [message] is a required string. *)
Definition valid (d : t) : bool := negb (String.eqb (message d) "").
End CommunicationLogModel.

Module SentMessageModel.
Definition SentMessageStatus := Status.

Record DiscountInfo := {
  discount : option string;
  storeName : option string;
  couponCode : option string
}.

Record PersonalizationFlags := {
  customerName : bool;
  customerEmail : bool;
  customFields : list string
}.

Record t := {
  _id : ObjectId;
  userId : ObjectId;
  recipientEmail : string;
  recipientName : option string;
  subject : string;
  textContent : string;
  htmlContent : option string;
  status : SentMessageStatus;
  sentAt : Z;
  messageId : option string;
  errorMessage : option string;
  campaignId : option ObjectId;
  discountInfo : option DiscountInfo;
  personalizationData : option PersonalizationFlags;
  createdAt : Z;
  updatedAt : Z
}.

(** Schema validation on [create]: [recipientEmail], [subject] and
    [textContent] are required strings. *)
Definition valid (d : t) : bool :=
  negb (String.eqb (recipientEmail d) "")
  && negb (String.eqb (subject d) "")
  && negb (String.eqb (textContent d) "").
End SentMessageModel.

(** ** models/User.ts *)

Module UserModel.
Record t := {
  _id : ObjectId;
  email : string
}.
End UserModel.

(** ** The database *)

Record DB := {
  users : list UserModel.t;
  customers : list CustomerModel.t;
  segments : list SegmentModel.t;
  campaigns : list CampaignModel.t;
  communication_log : list CommunicationLogModel.t;
  sent_messages : list SentMessageModel.t;
  next_id : ObjectId
}.

Module Mongo.

(** [findOneAndUpdate(filter, update)]: the first document that matches
    is updated, the others are left as they are. *)
Fixpoint updateOne {A : Type} (p : A -> bool) (f : A -> A) (l : list A) : list A :=
  match l with
  | [] => []
  | x :: l' => if p x then f x :: l' else x :: updateOne p f l'
  end.

(** [countDocuments(filter)]. *)
Definition countDocuments {A : Type} (p : A -> bool) (l : list A) : Z :=
  Z.of_nat (length (List.filter p l)).

(** The first document with the least key: [findOne().sort({key: 1})]. *)
Fixpoint oldest {A : Type} (key : A -> Z) (l : list A) : option A :=
  match l with
  | [] => None
  | x :: l' =>
      match oldest key l' with
      | Some y => if key x <=? key y then Some x else Some y
      | None => Some x
      end
  end.

Definition with_segments (db : DB) (l : list SegmentModel.t) : DB :=
  {| users := users db; customers := customers db; segments := l; campaigns := campaigns db;
     communication_log := communication_log db;
     sent_messages := sent_messages db; next_id := next_id db |}.

Definition with_campaigns (db : DB) (l : list CampaignModel.t) : DB :=
  {| users := users db; customers := customers db; segments := segments db; campaigns := l;
     communication_log := communication_log db;
     sent_messages := sent_messages db; next_id := next_id db |}.

Definition with_communication_log (db : DB) (l : list CommunicationLogModel.t) : DB :=
  {| users := users db; customers := customers db; segments := segments db;
     campaigns := campaigns db; communication_log := l;
     sent_messages := sent_messages db; next_id := next_id db |}.

Definition with_sent_messages (db : DB) (l : list SentMessageModel.t) : DB :=
  {| users := users db; customers := customers db; segments := segments db;
     campaigns := campaigns db; communication_log := communication_log db;
     sent_messages := l; next_id := next_id db |}.

(** A fresh ObjectId is drawn for every created document. *)
Definition fresh (db : DB) : DB :=
  {| users := users db; customers := customers db; segments := segments db;
     campaigns := campaigns db; communication_log := communication_log db;
     sent_messages := sent_messages db; next_id := next_id db + 1 |}.

End Mongo.

(** ** services/segmentPopulation.ts *)

Module SegmentPopulation.

(** [CustomerModel.find({ userId })]. *)
Definition customers_of (userId : ObjectId) (db : DB) : list CustomerModel.t :=
  List.filter (fun c => CustomerModel.userId c =? userId) (customers db).

Definition set_population (ids : list string) (now : Z) (s : SegmentModel.t)
  : SegmentModel.t :=
  {| SegmentModel._id := SegmentModel._id s;
     SegmentModel.userId := SegmentModel.userId s;
     SegmentModel.name := SegmentModel.name s;
     SegmentModel.rules_json := SegmentModel.rules_json s;
     SegmentModel.created_by := SegmentModel.created_by s;
     SegmentModel.created_at := SegmentModel.created_at s;
     SegmentModel.customer_ids := ids;
     SegmentModel.customer_count := Z.of_nat (length ids);
     SegmentModel.last_populated_at := Some now |}.

(** [populateSegmentCustomers]: [None] is the thrown
    ['Segment not found'].  The segment that is found has rules, as all
    segments of [SegmentModel] have.  (On a document stored without the
    key [rules_json] the source reads [rule.and] of [undefined] and throws
    for the first customer of the owner; such a document is no value of
    [SegmentModel.t], and what is proved of this function says nothing
    about it.) *)
Definition populateSegmentCustomers (now : Z) (segmentId : ObjectId) (db : DB)
  : option (DB * Z) :=
  match List.find (fun s => SegmentModel._id s =? segmentId) (segments db) with
  | None => None
  | Some segment =>
      let allCustomers := customers_of (SegmentModel.userId segment) db in
      let matchingCustomers :=
        List.filter (fun customer =>
                       SegmentRules.evaluateRule now customer
                         (SegmentModel.rules_json segment))
                    allCustomers in
      let customerIds :=
        map (fun customer => String_ (CustomerModel._id customer)) matchingCustomers in
      Some (Mongo.with_segments db
              (Mongo.updateOne (fun s => SegmentModel._id s =? segmentId)
                               (set_population customerIds now) (segments db)),
            Z.of_nat (length customerIds))
  end.

End SegmentPopulation.

(** ** controllers/segments.ts *)

Module Segments.
Import SegmentRules.

(** [rule.operator || rule.op]. *)
Definition operator_or_op (rule : node) : option Op :=
  match n_operator rule with Some o => Some o | None => n_op rule end.

(** [{field: rule.field, op: rule.operator || rule.op, value: rule.value}]:
    the key [field] is always present in the result, with the value
    [undefined] when [rule] has none. *)
Definition leaf_of (rule : node) : node :=
  Node (Some (match n_field rule with Some f => f | None => None end))
       None (operator_or_op rule) (n_value rule) None None.

(** [rules.x || []]. *)
Definition or_empty (l : option (list node)) : list node :=
  match l with Some l => l | None => [] end.

(** [rules.field] is truthy: present and not [undefined]. *)
Definition field_truthy (rules : node) : bool :=
  match n_field rules with Some (Some _) => true | _ => false end.

Definition fixRuleStructure (rules : node) : node :=
  match n_and rules with
  | Some and =>
      Node None None None None (Some (map leaf_of and)) (Some (or_empty (n_or rules)))
  | None =>
      match n_or rules with
      | Some or =>
          Node None None None None (Some (or_empty (n_and rules))) (Some (map leaf_of or))
      | None => if field_truthy rules then leaf_of rules else rules
      end
  end.

(** The comparison that [leaf_of] makes of [rule] has a value, or no
    operator to compare with. *)
Definition leaf_has_value (rule : node) : bool :=
  match operator_or_op rule, n_value rule with
  | Some _, None => false
  | _, _ => true
  end.

(** Every comparison that [fixRuleStructure] makes for [rules] has a
    value, or no operator.  An update ([findOneAndUpdate]) stores [null]
    where a key of the new rules has the value [undefined].  For the keys
    [field] and [op] that reads as [undefined] does: a [field] that is
    [null] names no attribute of a customer, and an [op] that is [null]
    is no operator.  For [value] it does not ([spend > null] is
    [spend > 0]), so the model of an update is for these rules. *)
Definition leaves_have_values (rules : node) : bool :=
  match n_and rules with
  | Some and => forallb leaf_has_value and
  | None =>
      match n_or rules with
      | Some or => forallb leaf_has_value or
      | None => if field_truthy rules then leaf_has_value rules else true
      end
  end.

Record SegmentBody := { name : string; rules_json : node }.

Inductive Response :=
| Created (id : string) (name : string) (customer_count : Z) (note : string)
| Updated (segment : option SegmentModel.t) (note : string)
| NotFound.

(** [createSegment] for the authenticated owner [userId], with a body
    that passed the request schema.  The rules are stored as
    [SegmentModel.create] saves them ([Mongoose.saved]); the model is for
    bodies whose saved rules are not the empty object
    ([Mongoose.empty_object]), for which no rules are stored. *)
Definition createSegment (now : Z) (userId : ObjectId) (body : SegmentBody) (db : DB)
  : DB * Response :=
  let fixedRules := fixRuleStructure (rules_json body) in
  let seg :=
    {| SegmentModel._id := next_id db;
       SegmentModel.userId := userId;
       SegmentModel.name := name body;
       SegmentModel.rules_json := Mongoose.saved fixedRules;
       SegmentModel.created_by := userId;
       SegmentModel.created_at := now;
       SegmentModel.customer_ids := [];
       SegmentModel.customer_count := 0;
       SegmentModel.last_populated_at := None |} in
  let db1 := Mongo.fresh (Mongo.with_segments db (segments db ++ [seg])) in
  match SegmentPopulation.populateSegmentCustomers now (SegmentModel._id seg) db1 with
  | Some (db2, customerCount) =>
      (db2, Created (String_ (SegmentModel._id seg)) (SegmentModel.name seg) customerCount
              ("Segment created with " +:+ pretty customerCount +:+ " customers"))
  | None =>
      (db1, Created (String_ (SegmentModel._id seg)) (SegmentModel.name seg) 0
              "Segment created but customer population failed")
  end.

Definition set_rules (rules : node) (s : SegmentModel.t) : SegmentModel.t :=
  {| SegmentModel._id := SegmentModel._id s;
     SegmentModel.userId := SegmentModel.userId s;
     SegmentModel.name := SegmentModel.name s;
     SegmentModel.rules_json := rules;
     SegmentModel.created_by := SegmentModel.created_by s;
     SegmentModel.created_at := SegmentModel.created_at s;
     SegmentModel.customer_ids := SegmentModel.customer_ids s;
     SegmentModel.customer_count := SegmentModel.customer_count s;
     SegmentModel.last_populated_at := SegmentModel.last_populated_at s |}.

(** [updateSegment] with a body whose only key is [rules_json] (the
    request is not validated, and every other key of the body that the
    schema knows would be written too), for rules whose comparisons have
    values ([leaves_have_values]). *)
Definition updateSegment (now : Z) (userId id : ObjectId) (rules : node) (db : DB)
  : DB * Response :=
  let owned s := (SegmentModel._id s =? id) && (SegmentModel.userId s =? userId) in
  match List.find owned (segments db) with
  | None => (db, NotFound)
  | Some found =>
      let segment := set_rules (fixRuleStructure rules) found in
      let db1 := Mongo.with_segments db
                   (Mongo.updateOne owned (set_rules (fixRuleStructure rules)) (segments db)) in
      match SegmentPopulation.populateSegmentCustomers now id db1 with
      | Some (db2, customerCount) =>
          let updatedSegment :=
            List.find (fun s => SegmentModel._id s =? id) (segments db2) in
          (db2, Updated updatedSegment
                  ("Segment updated with " +:+ pretty customerCount +:+ " customers"))
      | None =>
          (db1, Updated (Some segment) "Segment updated but customer repopulation failed")
      end
  end.

End Segments.

(** ** services/messagePersonalization.ts *)

Module MessagePersonalizationService.

Record PersonalizationData := {
  customerName : string;
  customerEmail : string;
  customerPhone : option string;
  customerSpend : Z;
  customerVisits : Z;
  lastActive : string;
  discount : string;
  storeName : string;
  couponCode : string
}.

Record PersonalizedMessage := {
  originalMessage : string;
  personalizedMessage : string;
  personalizationData : PersonalizationData
}.

(** The [customData] argument; [storeAddress] and [storePhone] are read
    by the campaign delivery service only. *)
Record CustomData := {
  cd_discount : option string;
  cd_storeName : option string;
  cd_couponCode : option string;
  cd_storeAddress : option string;
  cd_storePhone : option string
}.

Definition no_customData : CustomData :=
  {| cd_discount := None; cd_storeName := None; cd_couponCode := None;
     cd_storeAddress := None; cd_storePhone := None |}.

Section with_locale.
(** [new Date(t).toLocaleDateString()], which depends on the locale. *)
Variable toLocaleDateString : Z -> string.

Definition build_data (customer : CustomerModel.t) (fallbackName : string)
           (customData : CustomData) : PersonalizationData :=
  {| customerName := Js.or_str (CustomerModel.name customer) fallbackName;
     customerEmail := CustomerModel.email customer;
     customerPhone := CustomerModel.phone customer;
     customerSpend := Js.or_zero (CustomerModel.spend customer);
     customerVisits := Js.or_zero (CustomerModel.visits customer);
     lastActive :=
       match CustomerModel.last_active customer with
       | Some t => toLocaleDateString t
       | None => "Never"
       end;
     discount := Js.or_ostr (cd_discount customData) "10";
     storeName := Js.or_ostr (cd_storeName customData) "Our Store";
     couponCode := Js.or_ostr (cd_couponCode customData) "WELCOME10" |}.

(** The thirteen [replace] calls, in the order of the source. *)
Definition substitute (d : PersonalizationData) (message : string) : string :=
  let m := message in
  let m := Js.replace_g "{customerName}" (customerName d) m in
  let m := Js.replace_g "{customerEmail}" (customerEmail d) m in
  let m := Js.replace_g "{customerPhone}" (Js.or_ostr (customerPhone d) "N/A") m in
  let m := Js.replace_g "{customerSpend}" (pretty (customerSpend d)) m in
  let m := Js.replace_g "{customerVisits}" (pretty (customerVisits d)) m in
  let m := Js.replace_g "{lastActive}" (Js.or_str (lastActive d) "Never") m in
  let m := Js.replace_g "{name}" (customerName d) m in
  let m := Js.replace_g "{Name}" (customerName d) m in
  let m := Js.replace_g "{email}" (customerEmail d) m in
  let m := Js.replace_g "{phone}" (Js.or_ostr (customerPhone d) "N/A") m in
  let m := Js.replace_g "{discount}" (Js.or_str (discount d) "10") m in
  let m := Js.replace_g "{storeName}" (Js.or_str (storeName d) "Our Store") m in
  let m := Js.replace_g "{couponCode}" (Js.or_str (couponCode d) "WELCOME10") m in
  m.

(** The message already starts with a greeting. *)
Definition has_greeting (m : string) : bool :=
  Js.startsWith (Js.toLowerCase m) "hi "
  || Js.startsWith (Js.toLowerCase m) "hello "
  || Js.startsWith (Js.toLowerCase m) "dear ".

Definition personalizeMessage (message : string) (customer : CustomerModel.t)
           (fallbackName : string) (customData : CustomData) : PersonalizedMessage :=
  let d := build_data customer fallbackName customData in
  let m := substitute d message in
  let m := if negb (has_greeting m) then "Hi " +:+ customerName d +:+ ", " +:+ m else m in
  {| originalMessage := message; personalizedMessage := m; personalizationData := d |}.

Definition personalizeMessages (message : string) (customers : list CustomerModel.t)
           (fallbackName : string) (customData : CustomData) : list PersonalizedMessage :=
  map (fun customer => personalizeMessage message customer fallbackName customData)
      customers.
End with_locale.

Definition getAvailablePlaceholders : list string :=
  [ "{customerName}"; "{customerEmail}"; "{customerPhone}"; "{customerSpend}";
    "{customerVisits}"; "{lastActive}"; "{name}"; "{Name}"; "{email}"; "{phone}";
    "{discount}"; "{storeName}"; "{couponCode}" ].

(** The characters up to the first closing brace, and the rest after it. *)
Fixpoint until_close (s : string) : option (string * string) :=
  match s with
  | EmptyString => None
  | String c s' =>
      if Ascii.eqb c "}" then Some (EmptyString, s')
      else match until_close s' with
           | Some (body, rest) => Some (String c body, rest)
           | None => None
           end
  end.

(** [message.match(/\{[^}]+\}/g) || []]: the matches from left to
    right, without overlap; [skip] counts the characters of the last
    match still to be consumed. *)
Fixpoint match_placeholders (skip : nat) (s : string) : list string :=
  match s with
  | EmptyString => []
  | String c s' =>
      match skip with
      | S k => match_placeholders k s'
      | O =>
          if Ascii.eqb c "{" then
            match until_close s' with
            | Some (String b body, _) =>
                ("{" +:+ String b body +:+ "}")
                  :: match_placeholders (S (S (String.length body))) s'
            | _ => match_placeholders 0 s'
            end
          else match_placeholders 0 s'
      end
  end.

Record Validation := { isValid : bool; invalidPlaceholders : list string }.

Definition validateTemplate (message : string) : Validation :=
  let availablePlaceholders := getAvailablePlaceholders in
  let foundPlaceholders := match_placeholders 0 message in
  let invalidPlaceholders :=
    List.filter (fun placeholder => negb (Js.includes availablePlaceholders placeholder))
                foundPlaceholders in
  {| isValid := Nat.eqb (length invalidPlaceholders) 0;
     invalidPlaceholders := invalidPlaceholders |}.

(** A [{...}] token, in the words of the specification: an opening
    brace, one or more characters other than a closing brace, and a
    closing brace. *)
Definition is_token (t : string) : Prop :=
  exists body,
    body <> EmptyString /\ Js.has_char "}" body = false /\ t = "{" +:+ body +:+ "}".

(** The text [t] occurs in [s]. *)
Definition occurs_in (t s : string) : Prop :=
  exists pre post, s = pre +:+ t +:+ post.

End MessagePersonalizationService.

(** ** Promises over the database *)

Module Async.

(** The outcome of an awaited call. *)
Inductive Outcome (A : Type) :=
| Resolved (a : A)
| Rejected (error : string).
Arguments Resolved {A} a.
Arguments Rejected {A} error.

(** An asynchronous computation: it reads and writes the database and
    resolves or rejects; the writes made before a rejection stay. *)
Definition M (A : Type) : Type := DB -> Outcome A * DB.

Definition ret {A} (a : A) : M A := fun db => (Resolved a, db).

Definition throw {A} (error : string) : M A := fun db => (Rejected error, db).

Definition bind {A B} (m : M A) (k : A -> M B) : M B :=
  fun db =>
    match m db with
    | (Resolved a, db') => k a db'
    | (Rejected e, db') => (Rejected e, db')
    end.

(** [try { m } catch (error) { handler(error) }]. *)
Definition try_catch {A} (m : M A) (handler : string -> M A) : M A :=
  fun db =>
    match m db with
    | (Resolved a, db') => (Resolved a, db')
    | (Rejected e, db') => handler e db'
    end.

Definition get : M DB := fun db => (Resolved db, db).

Definition put (db : DB) : M unit := fun _ => (Resolved tt, db).

End Async.

#[global] Instance Async_ret : MRet Async.M := @Async.ret.
#[global] Instance Async_bind : MBind Async.M := fun A B k m => Async.bind m k.

(** ** services/messageQueueService.ts *)

Module MessageQueueService.
Import Async.

Record QueueMessage := {
  messageId : string;
  recipientEmail : string;
  recipientName : option string;
  subject : string;
  textContent : string;
  htmlContent : option string;
  userId : ObjectId;
  personalizationData : option SentMessageModel.PersonalizationFlags
}.

(** The state of the singleton service. *)
Record t := { isProcessing : bool }.

(** [SentMessageModel.create(doc)]: rejects on a validation error. *)
Definition SentMessage_create (mk : ObjectId -> SentMessageModel.t) : M SentMessageModel.t :=
  fun db =>
    let doc := mk (next_id db) in
    if SentMessageModel.valid doc
    then (Resolved doc,
          Mongo.fresh (Mongo.with_sent_messages db (sent_messages db ++ [doc])))
    else (Rejected "sent_messages validation failed", db).

(** [CommunicationLogModel.create(doc)]: rejects on a validation error. *)
Definition CommunicationLog_create (mk : ObjectId -> CommunicationLogModel.t)
  : M CommunicationLogModel.t :=
  fun db =>
    let doc := mk (next_id db) in
    if CommunicationLogModel.valid doc
    then (Resolved doc,
          Mongo.fresh (Mongo.with_communication_log db (communication_log db ++ [doc])))
    else (Rejected "communication_log validation failed", db).

(** [addToQueue]: the error of a failed [create] is logged and thrown
    again. *)
Definition addToQueue (now : Z) (message : QueueMessage) : M unit :=
  try_catch
    (SentMessage_create (fun id =>
       {| SentMessageModel._id := id;
          SentMessageModel.userId := userId message;
          SentMessageModel.recipientEmail := recipientEmail message;
          SentMessageModel.recipientName := recipientName message;
          SentMessageModel.subject := subject message;
          SentMessageModel.textContent := textContent message;
          SentMessageModel.htmlContent := htmlContent message;
          SentMessageModel.status := QUEUED;
          SentMessageModel.sentAt := now;
          SentMessageModel.messageId := Some (messageId message);
          SentMessageModel.errorMessage := None;
          SentMessageModel.campaignId := None;
          SentMessageModel.discountInfo := None;
          SentMessageModel.personalizationData := personalizationData message;
          SentMessageModel.createdAt := now;
          SentMessageModel.updatedAt := now |}) ≫= fun _ =>
     CommunicationLog_create (fun id =>
       {| CommunicationLogModel._id := id;
          CommunicationLogModel.userId := userId message;
          CommunicationLogModel.campaign_id := None;
          CommunicationLogModel.customer_id := None;
          CommunicationLogModel.status := QUEUED;
          CommunicationLogModel.sent_at := Some now;
          CommunicationLogModel.updated_at := Some now;
          CommunicationLogModel.message := textContent message;
          CommunicationLogModel.vendor_message_id := Some (messageId message);
          CommunicationLogModel.error_message := None |}) ≫= fun _ =>
     ret tt)
    (fun error => throw error).

Definition failureReasons : list string :=
  [ "Invalid email address"; "Recipient mailbox full"; "Domain not found";
    "Recipient blocked sender"; "Temporary delivery failure"; "Network timeout";
    "Recipient server unavailable"; "Message too large"; "Spam filter blocked";
    "Authentication failed" ].

(** Equality of optional message ids, as a query filter compares them. *)
Definition same_id (a b : option string) : bool :=
  match a, b with
  | Some x, Some y => String.eqb x y
  | None, None => true
  | _, _ => false
  end.

(** The update of the sent-message record: [errorMessage] is left out
    of the update when it is [undefined]. *)
Definition set_sent (finalStatus : Status) (now : Z) (errorMessage : option string)
           (m : SentMessageModel.t) : SentMessageModel.t :=
  {| SentMessageModel._id := SentMessageModel._id m;
     SentMessageModel.userId := SentMessageModel.userId m;
     SentMessageModel.recipientEmail := SentMessageModel.recipientEmail m;
     SentMessageModel.recipientName := SentMessageModel.recipientName m;
     SentMessageModel.subject := SentMessageModel.subject m;
     SentMessageModel.textContent := SentMessageModel.textContent m;
     SentMessageModel.htmlContent := SentMessageModel.htmlContent m;
     SentMessageModel.status := finalStatus;
     SentMessageModel.sentAt := now;
     SentMessageModel.messageId := SentMessageModel.messageId m;
     SentMessageModel.errorMessage :=
       match errorMessage with
       | Some e => Some e
       | None => SentMessageModel.errorMessage m
       end;
     SentMessageModel.campaignId := SentMessageModel.campaignId m;
     SentMessageModel.discountInfo := SentMessageModel.discountInfo m;
     SentMessageModel.personalizationData := SentMessageModel.personalizationData m;
     SentMessageModel.createdAt := SentMessageModel.createdAt m;
     SentMessageModel.updatedAt := now |}.

(** The update of the communication-log record: [sent_at] is set on
    success only, [error_message] on failure only. *)
Definition set_log (communicationStatus : Status) (now : Z) (isSuccess : bool)
           (errorMessage : option string) (l : CommunicationLogModel.t)
  : CommunicationLogModel.t :=
  {| CommunicationLogModel._id := CommunicationLogModel._id l;
     CommunicationLogModel.userId := CommunicationLogModel.userId l;
     CommunicationLogModel.campaign_id := CommunicationLogModel.campaign_id l;
     CommunicationLogModel.customer_id := CommunicationLogModel.customer_id l;
     CommunicationLogModel.status := communicationStatus;
     CommunicationLogModel.sent_at :=
       if isSuccess then Some now else CommunicationLogModel.sent_at l;
     CommunicationLogModel.updated_at := Some now;
     CommunicationLogModel.message := CommunicationLogModel.message l;
     CommunicationLogModel.vendor_message_id := CommunicationLogModel.vendor_message_id l;
     CommunicationLogModel.error_message :=
       match errorMessage with
       | Some e => Some e
       | None => CommunicationLogModel.error_message l
       end |}.

(** [getNextMessage]: the oldest QUEUED sent-message record. *)
Definition getNextMessage (db : DB) : option SentMessageModel.t :=
  Mongo.oldest SentMessageModel.createdAt
    (List.filter (fun m => Status_eqb (SentMessageModel.status m) QUEUED)
                 (sent_messages db)).

(** One wake-up of the queue processor.  [random1] and [random2] are
    the two values that [Math.random()] returns, in [[0, 1)]. *)
Definition processQueue (now : Z) (random1 random2 : Q) (this : t) (db : DB) : t * DB :=
  if isProcessing this then (this, db)
  else
    match getNextMessage db with
    | None => ({| isProcessing := false |}, db)
    | Some queuedMessage =>
        let isSuccess := if Qlt_le_dec random1 (9 # 10) then true else false in
        let finalStatus := if isSuccess then SENT else FAILED in
        let communicationStatus := if isSuccess then SENT else FAILED in
        let errorMessage :=
          if isSuccess then None
          else nth_error failureReasons
                 (Z.to_nat (Qfloor (random2 * inject_Z (Z.of_nat (length failureReasons))))) in
        let db1 :=
          Mongo.with_sent_messages db
            (Mongo.updateOne
               (fun m => SentMessageModel._id m =? SentMessageModel._id queuedMessage)
               (set_sent finalStatus now errorMessage) (sent_messages db)) in
        let db2 :=
          Mongo.with_communication_log db1
            (Mongo.updateOne
               (fun l => same_id (CommunicationLogModel.vendor_message_id l)
                                 (SentMessageModel.messageId queuedMessage))
               (set_log communicationStatus now isSuccess errorMessage)
               (communication_log db1)) in
        ({| isProcessing := false |}, db2)
    end.

(** The wake-up in two parts.  Between [findOne] and the two updates the
    handler waits for [messageDelay]
    ([await new Promise(resolve => setTimeout(resolve, this.messageDelay))]),
    and other handlers run meanwhile.  [processQueue_take] is the part
    before the delay: the message that the wake-up takes, if it goes
    on. *)
Definition processQueue_take (this : t) (db : DB) : option SentMessageModel.t :=
  if isProcessing this then None else getNextMessage db.

(** The part after the delay, on the database as it is then:
    [findByIdAndUpdate] with the [_id] of the message taken, and
    [findOneAndUpdate] of the communication log with its message id.
    Neither filter reads the status. *)
Definition processQueue_write (now : Z) (random1 random2 : Q)
           (queuedMessage : SentMessageModel.t) (db : DB) : DB :=
  let isSuccess := if Qlt_le_dec random1 (9 # 10) then true else false in
  let finalStatus := if isSuccess then SENT else FAILED in
  let communicationStatus := if isSuccess then SENT else FAILED in
  let errorMessage :=
    if isSuccess then None
    else nth_error failureReasons
           (Z.to_nat (Qfloor (random2 * inject_Z (Z.of_nat (length failureReasons))))) in
  let db1 :=
    Mongo.with_sent_messages db
      (Mongo.updateOne
         (fun m => SentMessageModel._id m =? SentMessageModel._id queuedMessage)
         (set_sent finalStatus now errorMessage) (sent_messages db)) in
  Mongo.with_communication_log db1
    (Mongo.updateOne
       (fun l => same_id (CommunicationLogModel.vendor_message_id l)
                         (SentMessageModel.messageId queuedMessage))
       (set_log communicationStatus now isSuccess errorMessage)
       (communication_log db1)).

(** The result of [getQueueStats] and of the other status aggregations:
    a [Record<string, number>] with the four status keys. *)
Record Stats := { n_QUEUED : Z; n_SENT : Z; n_FAILED : Z; n_PENDING : Z }.

Definition Stats_set (k : Status) (v : Z) (r : Stats) : Stats :=
  match k with
  | QUEUED => {| n_QUEUED := v; n_SENT := n_SENT r; n_FAILED := n_FAILED r; n_PENDING := n_PENDING r |}
  | SENT => {| n_QUEUED := n_QUEUED r; n_SENT := v; n_FAILED := n_FAILED r; n_PENDING := n_PENDING r |}
  | FAILED => {| n_QUEUED := n_QUEUED r; n_SENT := n_SENT r; n_FAILED := v; n_PENDING := n_PENDING r |}
  | PENDING => {| n_QUEUED := n_QUEUED r; n_SENT := n_SENT r; n_FAILED := n_FAILED r; n_PENDING := v |}
  end.

Definition Stats_get (k : Status) (r : Stats) : Z :=
  match k with
  | QUEUED => n_QUEUED r | SENT => n_SENT r | FAILED => n_FAILED r | PENDING => n_PENDING r
  end.

(** One step of [$group: {_id: '$status', count: {$sum: 1}}]. *)
Fixpoint group_add (k : Status) (groups : list (Status * Z)) : list (Status * Z) :=
  match groups with
  | [] => [(k, 1)]
  | (k', n) :: rest =>
      if Status_eqb k' k then (k', n + 1) :: rest else (k', n) :: group_add k rest
  end.

(** The [$group] stage over the statuses of the matched documents. *)
Definition group_by_status (statuses : list Status) : list (Status * Z) :=
  fold_left (fun groups k => group_add k groups) statuses [].

(** [stats.forEach(stat => result[stat._id] = stat.count)] from zeros. *)
Definition format_stats (stats : list (Status * Z)) : Stats :=
  fold_left (fun result stat => Stats_set (fst stat) (snd stat) result) stats
            {| n_QUEUED := 0; n_SENT := 0; n_FAILED := 0; n_PENDING := 0 |}.

(** The count that a group list holds for a status, 0 when it has none. *)
Definition group_count (k : Status) (groups : list (Status * Z)) : Z :=
  match List.find (fun g => Status_eqb (fst g) k) groups with
  | Some g => snd g
  | None => 0
  end.

(** [getQueueStats]: the aggregation has no [$match] stage. *)
Definition getQueueStats (db : DB) : Stats :=
  format_stats (group_by_status (map SentMessageModel.status (sent_messages db))).

End MessageQueueService.

(** ** controllers/deliveryReceipt.ts *)

Module DeliveryReceipt.

(** The body of a delivery receipt.  An absent [messageId] or [status]
    is the empty string (both are falsy); [deliveredAt] is the parsed
    date, [None] when the key is absent. *)
Record DeliveryReceiptRequest := {
  messageId : string;
  status : string;
  deliveredAt : option Z;
  errorMessage : option string;
  customerId : option ObjectId;
  campaignId : option ObjectId
}.

Inductive Response :=
| BadRequest (error : string)
| NotFound (error : string)
| Success (messageId : string) (status : string) (updatedAt : Z).

Definition truthy (s : option string) : bool :=
  match s with Some (String _ _) => true | _ => false end.

(** [status as DeliveryStatus] for a validated status. *)
Definition as_status (s : string) : Status :=
  if String.eqb s "SENT" then SENT else FAILED.

Definition update_log (st : string) (now deliveredAt : Z) (errorMessage : option string)
           (l : CommunicationLogModel.t) : CommunicationLogModel.t :=
  {| CommunicationLogModel._id := CommunicationLogModel._id l;
     CommunicationLogModel.userId := CommunicationLogModel.userId l;
     CommunicationLogModel.campaign_id := CommunicationLogModel.campaign_id l;
     CommunicationLogModel.customer_id := CommunicationLogModel.customer_id l;
     CommunicationLogModel.status := as_status st;
     CommunicationLogModel.sent_at :=
       if String.eqb st "SENT" then Some deliveredAt else CommunicationLogModel.sent_at l;
     CommunicationLogModel.updated_at := Some now;
     CommunicationLogModel.message := CommunicationLogModel.message l;
     CommunicationLogModel.vendor_message_id := CommunicationLogModel.vendor_message_id l;
     CommunicationLogModel.error_message :=
       if String.eqb st "SENT" then CommunicationLogModel.error_message l
       else if String.eqb st "FAILED" && truthy errorMessage then errorMessage
       else CommunicationLogModel.error_message l |}.

Definition update_sent (st : string) (deliveredAt : Z) (errorMessage : option string)
           (m : SentMessageModel.t) : SentMessageModel.t :=
  {| SentMessageModel._id := SentMessageModel._id m;
     SentMessageModel.userId := SentMessageModel.userId m;
     SentMessageModel.recipientEmail := SentMessageModel.recipientEmail m;
     SentMessageModel.recipientName := SentMessageModel.recipientName m;
     SentMessageModel.subject := SentMessageModel.subject m;
     SentMessageModel.textContent := SentMessageModel.textContent m;
     SentMessageModel.htmlContent := SentMessageModel.htmlContent m;
     SentMessageModel.status := as_status st;
     SentMessageModel.sentAt := deliveredAt;
     SentMessageModel.messageId := SentMessageModel.messageId m;
     SentMessageModel.errorMessage :=
       if String.eqb st "FAILED" && truthy errorMessage then errorMessage
       else SentMessageModel.errorMessage m;
     SentMessageModel.campaignId := SentMessageModel.campaignId m;
     SentMessageModel.discountInfo := SentMessageModel.discountInfo m;
     SentMessageModel.personalizationData := SentMessageModel.personalizationData m;
     SentMessageModel.createdAt := SentMessageModel.createdAt m;
     SentMessageModel.updatedAt := SentMessageModel.updatedAt m |}.

(** The lookup of the communication log; its second branch is only
    reached with a falsy [messageId]. *)
Definition find_log (req : DeliveryReceiptRequest) (db : DB)
  : option CommunicationLogModel.t :=
  match messageId req with
  | String _ _ =>
      List.find (fun l => MessageQueueService.same_id
                            (CommunicationLogModel.vendor_message_id l)
                            (Some (messageId req)))
                (communication_log db)
  | EmptyString =>
      match customerId req, campaignId req with
      | Some cu, Some ca =>
          List.find (fun l =>
                       match CommunicationLogModel.customer_id l,
                             CommunicationLogModel.campaign_id l with
                       | Some cu', Some ca' => (cu' =? cu) && (ca' =? ca)
                       | _, _ => false
                       end)
                    (communication_log db)
      | _, _ => None
      end
  end.

Definition handleDeliveryReceipt (now : Z) (req : DeliveryReceiptRequest) (db : DB)
  : DB * Response :=
  match messageId req, status req, deliveredAt req with
  | String _ _, String _ _, Some at_ =>
      if negb (Js.includes ["SENT"; "FAILED"] (status req))
      then (db, BadRequest "Invalid status")
      else
        match find_log req db with
        | None => (db, NotFound "Message not found")
        | Some communicationLog =>
            let db1 :=
              Mongo.with_communication_log db
                (Mongo.updateOne
                   (fun l => CommunicationLogModel._id l
                             =? CommunicationLogModel._id communicationLog)
                   (update_log (status req) now at_ (errorMessage req))
                   (communication_log db)) in
            let db2 :=
              Mongo.with_sent_messages db1
                (Mongo.updateOne
                   (fun m => MessageQueueService.same_id (SentMessageModel.messageId m)
                                                         (Some (messageId req)))
                   (update_sent (status req) at_ (errorMessage req))
                   (sent_messages db1)) in
            (db2, Success (messageId req) (status req) now)
        end
  | _, _, _ => (db, BadRequest "Missing required fields")
  end.

(** Two digits after the point for a number of hundredths. *)
Definition toFixed2 (hundredths : Z) : string :=
  pretty (hundredths / 100) +:+ "."
    +:+ pretty (hundredths mod 100 / 10) +:+ pretty (hundredths mod 10).

(** The number of hundredths that [((num / den) * 100).toFixed(2)]
    prints: the quotient and the product are binary64 numbers, and the
    hundredths are those nearest to the product, a tie going up. *)
Definition round_hundredths (num den : Z) : Z :=
  Number.toFixed_hundredths
    (Number.mul (Number.div (inject_Z num) (inject_Z den)) 100).

Record DeliveryStats := {
  stats : MessageQueueService.Stats;
  total : Z;
  successRate : string
}.

(** [getDeliveryStats] for an authenticated [userId].  With a
    [campaignId] the [$match] stage also asks for the key
    [campaign_id], which no sent-message document has. *)
Definition getDeliveryStats (userId : ObjectId) (campaignId : option ObjectId) (db : DB)
  : DeliveryStats :=
  let matched :=
    List.filter (fun m => (SentMessageModel.userId m =? userId)
                          && match campaignId with Some _ => false | None => true end)
                (sent_messages db) in
  let formattedStats :=
    MessageQueueService.format_stats
      (MessageQueueService.group_by_status (map SentMessageModel.status matched)) in
  let total :=
    MessageQueueService.n_PENDING formattedStats
    + MessageQueueService.n_QUEUED formattedStats
    + MessageQueueService.n_SENT formattedStats
    + MessageQueueService.n_FAILED formattedStats in
  let successRate :=
    if 0 <? total
    then toFixed2 (round_hundredths (MessageQueueService.n_SENT formattedStats) total)
    else "0.00" in
  {| stats := formattedStats; total := total; successRate := successRate +:+ "%" |}.

End DeliveryReceipt.

(** ** controllers/campaignStats.ts *)

Module CampaignStats.

Record Stats := {
  total : Z;
  sent : Z;
  failed : Z;
  pending : Z;
  queued : Z;
  deliveryRate : Q;
  successRate : Q;
  failureRate : Q
}.

(** [total > 0 ? (num / total) * 100 : 0]. *)
Definition rate (num total : Z) : Q :=
  if 0 <? total then Number.mul (Number.div (inject_Z num) (inject_Z total)) 100 else 0%Q.

(** [Math.round(x * 100) / 100]. *)
Definition round2 (x : Q) : Q :=
  Number.div (inject_Z (Number.Math_round (Number.mul x 100))) 100.

(** The number of hundredths of a rounded rate: the integer that
    [Math.round] returns in [round2 (rate num total)]. *)
Definition hundredths (num total : Z) : Z :=
  Number.Math_round (Number.mul (rate num total) 100).

(** The rate in the words of the specification: [num / total * 100]
    as a rational number, 0 when [total] is 0. *)
Definition exact_rate (num total : Z) : Q :=
  if 0 <? total then (inject_Z num / inject_Z total * 100)%Q else 0%Q.

(** Rounding to two decimals in the words of the specification: the
    number of hundredths nearest to [x], a tie going up, over 100. *)
Definition exact_round2 (x : Q) : Q := (inject_Z (Qfloor (x * 100 + (1 # 2))) / 100)%Q.

(** The statistics object of [getCampaignStats] for an authenticated
    owner; the list of recent activity is left out. *)
Definition getCampaignStats (campaignId userId : ObjectId) (db : DB) : Stats :=
  let of_campaign l :=
    match CommunicationLogModel.campaign_id l with
    | Some c => (c =? campaignId) && (CommunicationLogModel.userId l =? userId)
    | None => false
    end in
  let count st :=
    Mongo.countDocuments
      (fun l => of_campaign l && Status_eqb (CommunicationLogModel.status l) st)
      (communication_log db) in
  let total := Mongo.countDocuments of_campaign (communication_log db) in
  let sent := count SENT in
  let failed := count FAILED in
  let pending := count PENDING in
  let queued := count QUEUED in
  let deliveryRate := rate (sent + failed) total in
  let successRate := rate sent total in
  let failureRate := rate failed total in
  {| total := total; sent := sent; failed := failed; pending := pending; queued := queued;
     deliveryRate := round2 deliveryRate;
     successRate := round2 successRate;
     failureRate := round2 failureRate |}.

End CampaignStats.

(** ** services/campaignDeliveryService.ts *)

Module CampaignDeliveryService.
Import Async.
Import MessagePersonalizationService.

Record DeliveryLog := {
  customerId : string;
  customerEmail : string;
  status : Status;
  messageId : string;
  error : option string
}.

Record CampaignDeliveryResult := {
  campaignId : string;
  totalCustomers : Z;
  messagesQueued : Z;
  messagesSent : Z;
  messagesFailed : Z;
  deliveryLogs : list DeliveryLog
}.

(** [CampaignModel.create(doc)]: [message] is a required string. *)
Definition Campaign_create (mk : ObjectId -> CampaignModel.t) : M CampaignModel.t :=
  fun db =>
    let doc := mk (next_id db) in
    if negb (String.eqb (CampaignModel.message doc) "")
    then (Resolved doc, Mongo.fresh (Mongo.with_campaigns db (campaigns db ++ [doc])))
    else (Rejected "campaigns validation failed", db).

(** [getCustomersForSegment]: the owner's customers that match the
    rules of the segment. *)
Definition getCustomersForSegment (now : Z) (segment : SegmentModel.t) (db : DB)
  : list CustomerModel.t :=
  let allCustomers :=
    List.filter (fun c => CustomerModel.userId c =? SegmentModel.userId segment)
                (customers db) in
  List.filter (fun customer =>
                 SegmentRules.evaluateRule now customer (SegmentModel.rules_json segment))
              allCustomers.

(** The private [personalizeMessage] applied to the subject. *)
Definition personalizeSubject (message : string) (customer : CustomerModel.t)
           (personalizationData : option CustomData) : string :=
  let m := message in
  let m := Js.replace_g "{customerName}" (Js.or_str (CustomerModel.name customer) "Customer") m in
  let m := Js.replace_g "{customerEmail}" (CustomerModel.email customer) m in
  let m := Js.replace_g "{customerPhone}" (Js.or_ostr (CustomerModel.phone customer) "") m in
  let m := Js.replace_g "{customerSpend}" (pretty (Js.or_zero (CustomerModel.spend customer))) m in
  let m := Js.replace_g "{customerVisits}" (pretty (Js.or_zero (CustomerModel.visits customer))) m in
  match personalizationData with
  | Some data =>
      let m := Js.replace_g "{storeName}" (Js.or_ostr (cd_storeName data) "Your Store") m in
      let m := Js.replace_g "{storeAddress}" (Js.or_ostr (cd_storeAddress data) "") m in
      let m := Js.replace_g "{storePhone}" (Js.or_ostr (cd_storePhone data) "") m in
      m
  | None => m
  end.

Definition newline : string := String (ascii_of_nat 10) EmptyString.

Definition quote : string := String (ascii_of_nat 34) EmptyString.

(** An opening tag with a [style] attribute. *)
Definition styled (tag style : string) : string :=
  "<" +:+ tag +:+ " style=" +:+ quote +:+ style +:+ quote +:+ ">".

(** The HTML version of a message: heading, body, closing block.  The
    indentation of the template literal is not kept. *)
Definition htmlMessage (heading body storeName : string) : string :=
  styled "div" "font-family: Arial, sans-serif; max-width: 600px; margin: 0 auto;"
  +:+ styled "h2" "color: #333;" +:+ heading +:+ "</h2>"
  +:+ styled "div" "line-height: 1.6; color: #555;"
  +:+ Js.replace_g newline "<br>" body +:+ "</div>"
  +:+ styled "div" "margin-top: 20px; padding: 15px; background-color: #f8f9fa; border-radius: 5px;"
  +:+ styled "p" "margin: 0; font-size: 14px; color: #666;" +:+ "Best regards,<br>"
  +:+ storeName +:+ "</p></div></div>".

(** [`campaign_${campaign._id}_${customer._id}_${Date.now()}`]. *)
Definition make_messageId (campaign customer : ObjectId) (now : Z) : string :=
  "campaign_" +:+ String_ campaign +:+ "_" +:+ String_ customer +:+ "_" +:+ pretty now.

(** What the loop over the customers accumulates. *)
Record Progress := {
  logs : list DeliveryLog;
  queued : Z;
  failed : Z
}.

Section with_locale.
Variable toLocaleDateString : Z -> string.

(** The body of the [for] loop for one customer: the [try] block and
    its [catch]. *)
Definition deliver_one (now : Z) (userId : ObjectId) (campaign : CampaignModel.t)
           (message : string) (subject : option string)
           (personalizationData : option CustomData)
           (acc : Progress) (customer : CustomerModel.t) : M Progress :=
  try_catch
    (let personalizedMessages :=
       personalizeMessages toLocaleDateString message [customer] "Valued Customer"
         (match personalizationData with Some d => d | None => no_customData end) in
     match personalizedMessages with
     | [] => throw "Cannot read properties of undefined"
     | personalizedMessage :: _ =>
         let personalizedSubject :=
           match subject with
           | Some (String c s) =>
               personalizeSubject (String c s) customer personalizationData
           | _ => "Campaign Email"
           end in
         let messageId :=
           make_messageId (CampaignModel._id campaign) (CustomerModel._id customer) now in
         let html :=
           htmlMessage personalizedSubject
             (MessagePersonalizationService.personalizedMessage personalizedMessage)
             (match personalizationData with
              | Some d => Js.or_ostr (cd_storeName d) "Your Store"
              | None => "Your Store"
              end) in
         MessageQueueService.addToQueue now
           {| MessageQueueService.messageId := messageId;
              MessageQueueService.recipientEmail := CustomerModel.email customer;
              MessageQueueService.recipientName := Some (CustomerModel.name customer);
              MessageQueueService.subject := personalizedSubject;
              MessageQueueService.textContent :=
                MessagePersonalizationService.personalizedMessage personalizedMessage;
              MessageQueueService.htmlContent := Some html;
              MessageQueueService.userId := userId;
              MessageQueueService.personalizationData :=
                Some {| SentMessageModel.customerName := true;
                        SentMessageModel.customerEmail := true;
                        SentMessageModel.customFields := ["phone"; "spend"; "visits"] |} |}
         ≫= fun _ =>
         mret {| logs := logs acc ++
                   [ {| customerId := String_ (CustomerModel._id customer);
                        customerEmail := CustomerModel.email customer;
                        status := QUEUED;
                        messageId := messageId;
                        error := None |} ];
                 queued := queued acc + 1;
                 failed := failed acc |}
     end)
    (fun error =>
       mret {| logs := logs acc ++
                 [ {| customerId := String_ (CustomerModel._id customer);
                      customerEmail := CustomerModel.email customer;
                      status := FAILED;
                      messageId :=
                        make_messageId (CampaignModel._id campaign)
                                       (CustomerModel._id customer) now;
                      error := Some error |} ];
               queued := queued acc;
               failed := failed acc + 1 |}).

(** [for (const customer of customers) { ... }]. *)
Fixpoint deliver_all (now : Z) (userId : ObjectId) (campaign : CampaignModel.t)
         (message : string) (subject : option string)
         (personalizationData : option CustomData)
         (acc : Progress) (customers : list CustomerModel.t) : M Progress :=
  match customers with
  | [] => mret acc
  | customer :: rest =>
      deliver_one now userId campaign message subject personalizationData acc customer
      ≫= fun acc' =>
      deliver_all now userId campaign message subject personalizationData acc' rest
  end.

Definition createAndDeliverCampaign (now : Z) (userId segmentId : ObjectId)
           (message : string) (subject : option string)
           (personalizationData : option CustomData) : M CampaignDeliveryResult :=
  fun db =>
    match List.find (fun s => SegmentModel._id s =? segmentId) (segments db) with
    | None => (Rejected "Segment not found or access denied", db)
    | Some segment =>
        if negb (SegmentModel.userId segment =? userId)
        then (Rejected "Segment not found or access denied", db)
        else
          let customers := getCustomersForSegment now segment db in
          if Nat.eqb (length customers) 0
          then (Resolved {| campaignId := ""; totalCustomers := 0; messagesQueued := 0;
                            messagesSent := 0; messagesFailed := 0; deliveryLogs := [] |},
                db)
          else
            (Campaign_create (fun id =>
               {| CampaignModel._id := id;
                  CampaignModel.userId := userId;
                  CampaignModel.segment_id := segmentId;
                  CampaignModel.message := message;
                  CampaignModel.subject := Js.or_ostr subject "Campaign Email";
                  CampaignModel.status := CampaignModel.ACTIVE;
                  CampaignModel.created_at := now |})
             ≫= fun campaign =>
             deliver_all now userId campaign message subject personalizationData
               {| logs := []; queued := 0; failed := 0 |} customers
             ≫= fun done =>
             mret {| campaignId := String_ (CampaignModel._id campaign);
                     totalCustomers := Z.of_nat (length customers);
                     messagesQueued := queued done;
                     messagesSent := 0;
                     messagesFailed := 0;
                     deliveryLogs := logs done |}) db
    end.
End with_locale.

End CampaignDeliveryService.

(** ** controllers/campaigns.ts *)

Module Campaigns.
Import Async.
Import MessagePersonalizationService.

(** The body of a campaign-creation request. *)
Record CampaignBody := {
  segment_id : option ObjectId;
  message : string;
  subject : option string;
  customData : option CustomData;
  discount_percentage : option Z
}.

Inductive Response :=
| BadRequest (error : string) (invalidPlaceholders : list string)
| NotFound (error : string)
| Created (result : CampaignDeliveryService.CampaignDeliveryResult)
| VendorAccepted (campaignId : ObjectId) (totalCustomers messagesQueued : Z)
| ServerError (details : string).

(** [customData || {discount, storeName, couponCode}]. *)
Definition finalCustomData (body : CampaignBody) : CustomData :=
  match customData body with
  | Some d => d
  | None =>
      {| cd_discount :=
           Some (match discount_percentage body with
                 | Some p => Js.or_str (pretty p) "10"
                 | None => "10"
                 end);
         cd_storeName := Some "Your Store";
         cd_couponCode :=
           Some ("WELCOME" +:+
                 match discount_percentage body with
                 | Some p => if p =? 0 then "10" else pretty p
                 | None => "10"
                 end);
         cd_storeAddress := None;
         cd_storePhone := None |}
  end.

Section with_locale.
Variable toLocaleDateString : Z -> string.

(** [createCampaign] for the authenticated owner [userId]. *)
Definition createCampaign (now : Z) (userId : ObjectId) (body : CampaignBody) (db : DB)
  : DB * Response :=
  match segment_id body, message body with
  | Some segmentId, String _ _ =>
      let templateValidation := validateTemplate (message body) in
      if negb (isValid templateValidation)
      then (db, BadRequest "Invalid message template" (invalidPlaceholders templateValidation))
      else
        match List.find (fun s => (SegmentModel._id s =? segmentId)
                                  && (SegmentModel.userId s =? userId))
                        (segments db) with
        | None => (db, NotFound "Segment not found")
        | Some _ =>
            match CampaignDeliveryService.createAndDeliverCampaign toLocaleDateString
                    now userId segmentId (message body)
                    (Some (Js.or_ostr (subject body) "Campaign Message"))
                    (Some (finalCustomData body)) db with
            | (Resolved result, db') => (db', Created result)
            | (Rejected error, db') => (db', ServerError error)
            end
        end
  | _, _ => (db, BadRequest "segment_id and message are required" [])
  end.

(** One turn of the loop of [createCampaignWithVendorAPI]: a PENDING
    communication log and a PENDING sent message; the call to the vendor
    is not awaited. *)
Definition vendor_one (now : Z) (userId : ObjectId) (campaign : CampaignModel.t)
           (subject : option string) (data : CustomData)
           (customer : CustomerModel.t) (personalizedMessage : PersonalizedMessage)
  : M CommunicationLogModel.t :=
  let messageId :=
    CampaignDeliveryService.make_messageId (CampaignModel._id campaign)
                                           (CustomerModel._id customer) now in
  let html :=
    CampaignDeliveryService.htmlMessage (Js.or_ostr subject "Campaign Email")
      (MessagePersonalizationService.personalizedMessage personalizedMessage)
      (Js.or_ostr (cd_storeName data) "Your Store") in
  MessageQueueService.CommunicationLog_create (fun id =>
    {| CommunicationLogModel._id := id;
       CommunicationLogModel.userId := userId;
       CommunicationLogModel.campaign_id := Some (CampaignModel._id campaign);
       CommunicationLogModel.customer_id := Some (CustomerModel._id customer);
       CommunicationLogModel.status := PENDING;
       CommunicationLogModel.sent_at := None;
       CommunicationLogModel.updated_at := Some now;
       CommunicationLogModel.message :=
         MessagePersonalizationService.personalizedMessage personalizedMessage;
       CommunicationLogModel.vendor_message_id := Some messageId;
       CommunicationLogModel.error_message := None |})
  ≫= fun communicationLog =>
  MessageQueueService.SentMessage_create (fun id =>
    {| SentMessageModel._id := id;
       SentMessageModel.userId := userId;
       SentMessageModel.recipientEmail := CustomerModel.email customer;
       SentMessageModel.recipientName := Some (CustomerModel.name customer);
       SentMessageModel.subject := Js.or_ostr subject "Campaign Email";
       SentMessageModel.textContent :=
         MessagePersonalizationService.personalizedMessage personalizedMessage;
       SentMessageModel.htmlContent := Some html;
       SentMessageModel.status := PENDING;
       SentMessageModel.sentAt := now;
       SentMessageModel.messageId := Some messageId;
       SentMessageModel.errorMessage := None;
       SentMessageModel.campaignId := Some (CampaignModel._id campaign);
       SentMessageModel.discountInfo :=
         Some {| SentMessageModel.discount := cd_discount data;
                 SentMessageModel.storeName := cd_storeName data;
                 SentMessageModel.couponCode := cd_couponCode data |};
       SentMessageModel.personalizationData :=
         Some {| SentMessageModel.customerName := true;
                 SentMessageModel.customerEmail := true;
                 SentMessageModel.customFields := ["phone"; "spend"; "visits"] |};
       SentMessageModel.createdAt := now;
       SentMessageModel.updatedAt := now |})
  ≫= fun _ => mret communicationLog.

Fixpoint vendor_all (now : Z) (userId : ObjectId) (campaign : CampaignModel.t)
         (subject : option string) (data : CustomData)
         (work : list (CustomerModel.t * PersonalizedMessage))
         (communicationLogs : list CommunicationLogModel.t)
  : M (list CommunicationLogModel.t) :=
  match work with
  | [] => mret communicationLogs
  | (customer, personalizedMessage) :: rest =>
      vendor_one now userId campaign subject data customer personalizedMessage
      ≫= fun communicationLog =>
      vendor_all now userId campaign subject data rest
                 (communicationLogs ++ [communicationLog])
  end.

(** [createCampaignWithVendorAPI] for the authenticated owner [userId]. *)
Definition createCampaignWithVendorAPI (now : Z) (userId : ObjectId) (body : CampaignBody)
           (db : DB) : DB * Response :=
  match segment_id body, message body with
  | Some segmentId, String _ _ =>
      let templateValidation := validateTemplate (message body) in
      if negb (isValid templateValidation)
      then (db, BadRequest "Invalid message template" (invalidPlaceholders templateValidation))
      else
        match List.find (fun s => (SegmentModel._id s =? segmentId)
                                  && (SegmentModel.userId s =? userId))
                        (segments db) with
        | None => (db, NotFound "Segment not found")
        | Some segment =>
            let allCustomers :=
              List.filter (fun c => CustomerModel.userId c =? userId) (customers db) in
            let matchingCustomers :=
              List.filter (fun customer =>
                             SegmentRules.evaluateRule now customer
                               (SegmentModel.rules_json segment))
                          allCustomers in
            if Nat.eqb (length matchingCustomers) 0
            then (db, BadRequest "No customers found matching segment rules" [])
            else
              let run :=
                CampaignDeliveryService.Campaign_create (fun id =>
                  {| CampaignModel._id := id;
                     CampaignModel.userId := userId;
                     CampaignModel.segment_id := segmentId;
                     CampaignModel.message := message body;
                     CampaignModel.subject := Js.or_ostr (subject body) "Campaign Email";
                     CampaignModel.status := CampaignModel.ACTIVE;
                     CampaignModel.created_at := now |})
                ≫= fun campaign =>
                let personalizedMessages :=
                  personalizeMessages toLocaleDateString (message body) matchingCustomers
                                      "Valued Customer" (finalCustomData body) in
                vendor_all now userId campaign (subject body) (finalCustomData body)
                           (combine matchingCustomers personalizedMessages) []
                ≫= fun communicationLogs =>
                mret (VendorAccepted (CampaignModel._id campaign)
                                     (Z.of_nat (length matchingCustomers))
                                     (Z.of_nat (length communicationLogs))) in
              match run db with
              | (Resolved response, db') => (db', response)
              | (Rejected error, db') => (db', ServerError error)
              end
        end
  | _, _ => (db, BadRequest "segment_id and message are required" [])
  end.
(** The flags stored with every campaign message. *)
Definition campaign_flags : SentMessageModel.PersonalizationFlags :=
  {| SentMessageModel.customerName := true;
     SentMessageModel.customerEmail := true;
     SentMessageModel.customFields := ["phone"; "spend"; "visits"] |}.

(** One turn of the loop of [deliverCampaign]: the [try] block stores a
    SENT message and a SENT communication log; its [catch] tries to store
    a FAILED message, swallowing a second failure, and then stores a
    FAILED communication log, whose failure is not caught here. *)
Definition legacy_one (now : Z) (campaignId : ObjectId) (segment : SegmentModel.t)
           (subject : string) (data : CustomData)
           (customer : CustomerModel.t) (personalizedMessage : PersonalizedMessage)
  : M unit :=
  let text := MessagePersonalizationService.personalizedMessage personalizedMessage in
  let html :=
    CampaignDeliveryService.htmlMessage subject text (Js.or_ostr (cd_storeName data) EmptyString) in
  let messageId :=
    CampaignDeliveryService.make_messageId campaignId (CustomerModel._id customer) now in
  try_catch
    (MessageQueueService.SentMessage_create (fun id =>
       {| SentMessageModel._id := id;
          SentMessageModel.userId := SegmentModel.userId segment;
          SentMessageModel.recipientEmail := CustomerModel.email customer;
          SentMessageModel.recipientName := Some (CustomerModel.name customer);
          SentMessageModel.subject := subject;
          SentMessageModel.textContent := text;
          SentMessageModel.htmlContent := Some html;
          SentMessageModel.status := SENT;
          SentMessageModel.sentAt := now;
          SentMessageModel.messageId := Some messageId;
          SentMessageModel.errorMessage := None;
          SentMessageModel.campaignId := Some campaignId;
          SentMessageModel.discountInfo :=
            Some {| SentMessageModel.discount := cd_discount data;
                    SentMessageModel.storeName := cd_storeName data;
                    SentMessageModel.couponCode := cd_couponCode data |};
          SentMessageModel.personalizationData := Some campaign_flags;
          SentMessageModel.createdAt := now;
          SentMessageModel.updatedAt := now |})
     ≫= fun sentMessage =>
     MessageQueueService.CommunicationLog_create (fun id =>
       {| CommunicationLogModel._id := id;
          CommunicationLogModel.userId := SegmentModel.userId segment;
          CommunicationLogModel.campaign_id := Some campaignId;
          CommunicationLogModel.customer_id := Some (CustomerModel._id customer);
          CommunicationLogModel.status := SENT;
          CommunicationLogModel.sent_at := Some now;
          CommunicationLogModel.updated_at := Some now;
          CommunicationLogModel.message := text;
          CommunicationLogModel.vendor_message_id := SentMessageModel.messageId sentMessage;
          CommunicationLogModel.error_message := None |})
     ≫= fun _ => mret tt)
    (fun messageError =>
       try_catch
         (MessageQueueService.SentMessage_create (fun id =>
            {| SentMessageModel._id := id;
               SentMessageModel.userId := SegmentModel.userId segment;
               SentMessageModel.recipientEmail := CustomerModel.email customer;
               SentMessageModel.recipientName := Some (CustomerModel.name customer);
               SentMessageModel.subject := subject;
               SentMessageModel.textContent := text;
               SentMessageModel.htmlContent := Some html;
               SentMessageModel.status := FAILED;
               SentMessageModel.sentAt := now;
               SentMessageModel.messageId := Some (messageId +:+ "_failed");
               SentMessageModel.errorMessage := Some messageError;
               SentMessageModel.campaignId := None;
               SentMessageModel.discountInfo := None;
               SentMessageModel.personalizationData := Some campaign_flags;
               SentMessageModel.createdAt := now;
               SentMessageModel.updatedAt := now |})
          ≫= fun _ => mret tt)
         (fun failedMessageError => mret tt)
       ≫= fun _ =>
       MessageQueueService.CommunicationLog_create (fun id =>
         {| CommunicationLogModel._id := id;
            CommunicationLogModel.userId := SegmentModel.userId segment;
            CommunicationLogModel.campaign_id := Some campaignId;
            CommunicationLogModel.customer_id := Some (CustomerModel._id customer);
            CommunicationLogModel.status := FAILED;
            CommunicationLogModel.sent_at := None;
            CommunicationLogModel.updated_at := Some now;
            CommunicationLogModel.message := text;
            CommunicationLogModel.vendor_message_id := None;
            CommunicationLogModel.error_message := Some messageError |})
       ≫= fun _ => mret tt).

Fixpoint legacy_all (now : Z) (campaignId : ObjectId) (segment : SegmentModel.t)
         (subject : string) (data : CustomData)
         (work : list (CustomerModel.t * PersonalizedMessage)) : M unit :=
  match work with
  | [] => mret tt
  | (customer, personalizedMessage) :: rest =>
      legacy_one now campaignId segment subject data customer personalizedMessage
      ≫= fun _ => legacy_all now campaignId segment subject data rest
  end.

(** [CampaignModel.findByIdAndUpdate(campaignId, { status })]. *)
Definition set_campaign_status (campaignId : ObjectId) (st : CampaignModel.CampaignStatus)
  : M unit :=
  fun db =>
    (Resolved tt,
     Mongo.with_campaigns db
       (Mongo.updateOne (fun c => CampaignModel._id c =? campaignId)
                        (CampaignModel.set_status st) (campaigns db))).

(** [deliverCampaign], the delivery of a campaign that was created
    before; it returns nothing and no caller remains in the sources. *)
Definition deliverCampaign (now : Z) (campaignId segmentId : ObjectId)
           (message subject : string) (customData : option CustomData) (db : DB) : DB :=
  snd
    (try_catch
       (fun db =>
          match List.find (fun s => SegmentModel._id s =? segmentId) (segments db) with
          | None => (Resolved tt, db)
          | Some segment =>
              match List.find (fun u => UserModel._id u =? SegmentModel.userId segment)
                              (users db) with
              | Some (UserModel.Build_t _ (String _ _)) =>
                  let matchingCustomers :=
                    CampaignDeliveryService.getCustomersForSegment now segment db in
                  if Nat.eqb (length matchingCustomers) 0
                  then set_campaign_status campaignId CampaignModel.COMPLETED db
                  else
                    let personalizationData :=
                      {| cd_discount :=
                           Some (Js.or_ostr (customData ≫= cd_discount) "10");
                         cd_storeName :=
                           Some (Js.or_ostr (customData ≫= cd_storeName) "Your Store");
                         cd_couponCode :=
                           Some (Js.or_ostr (customData ≫= cd_couponCode) "WELCOME10");
                         cd_storeAddress := None;
                         cd_storePhone := None |} in
                    let personalizedMessages :=
                      personalizeMessages toLocaleDateString message matchingCustomers
                                          "Valued Customer" personalizationData in
                    (legacy_all now campaignId segment subject personalizationData
                                (combine matchingCustomers personalizedMessages)
                     ≫= fun _ => set_campaign_status campaignId CampaignModel.COMPLETED) db
              | _ => (Resolved tt, db)
              end
          end)
       (fun error =>
          try_catch (set_campaign_status campaignId CampaignModel.CANCELLED)
                    (fun updateError => mret tt))
       db).

End with_locale.

End Campaigns.

(** ** Sample data *)

Module Examples.

Definition customer (id owner : ObjectId) (name : string) (phone : option string)
           (spend : Z) : CustomerModel.t :=
  {| CustomerModel._id := id; CustomerModel.userId := owner;
     CustomerModel.name := name; CustomerModel.email := name +:+ "@example.com";
     CustomerModel.phone := phone; CustomerModel.spend := Some spend;
     CustomerModel.visits := Some 1; CustomerModel.last_active := None;
     CustomerModel.created_at := 0 |}.

Definition ann : CustomerModel.t := customer 11 1 "Ann" None 500.
Definition bob : CustomerModel.t := customer 12 1 "Bob" (Some "555-0100") 1500.
Definition eve : CustomerModel.t := customer 21 2 "Eve" None 7000.

(** [{field: 'spend', op: '>', value: 1000}]. *)
Definition big_spender : SegmentRules.node :=
  SegmentRules.Rule SegmentRules.spend SegmentRules.gt 1000.

(** [{and: [], or: [big_spender]}]. *)
Definition empty_and_with_or : SegmentRules.node :=
  SegmentRules.Node None None None None (Some []) (Some [big_spender]).

(** The request body [{or: [big_spender]}]. *)
Definition or_only : SegmentRules.node :=
  SegmentRules.Node None None None None None (Some [big_spender]).

Definition segment (id owner : ObjectId) (rules : SegmentRules.node) : SegmentModel.t :=
  {| SegmentModel._id := id; SegmentModel.userId := owner;
     SegmentModel.name := "segment"; SegmentModel.rules_json := rules;
     SegmentModel.created_by := owner; SegmentModel.created_at := 0;
     SegmentModel.customer_ids := []; SegmentModel.customer_count := 0;
     SegmentModel.last_populated_at := None |}.

(** Three customers of two owners, one segment of owner 1. *)
Definition db0 : DB :=
  {| users := [{| UserModel._id := 1; UserModel.email := "owner@gmail.com" |}];
     customers := [ann; bob; eve];
     segments := [segment 31 1 big_spender];
     campaigns := [];
     communication_log := [];
     sent_messages := [];
     next_id := 100 |}.

(** [db0] with the rule of segment 31 changed. *)
Definition db_with_rule (rules : SegmentRules.node) : DB :=
  Mongo.with_segments db0 [segment 31 1 rules].

(** No customer spent more than a million: segment 31 matches nobody. *)
Definition db_no_match : DB :=
  db_with_rule (SegmentRules.Rule SegmentRules.spend SegmentRules.gt 1000000).

(** Campaign 41 of owner 1 for segment 31, as created before a delivery. *)
Definition campaign41 (st : CampaignModel.CampaignStatus) : CampaignModel.t :=
  {| CampaignModel._id := 41; CampaignModel.userId := 1;
     CampaignModel.segment_id := 31;
     CampaignModel.message := "Big sale at {storeName}";
     CampaignModel.subject := "Sale";
     CampaignModel.status := st;
     CampaignModel.created_at := 0 |}.

(** Ann and Bob both spent more than 100: segment 31 matches both. *)
Definition db_two_match : DB :=
  db_with_rule (SegmentRules.Rule SegmentRules.spend SegmentRules.gt 100).

(** A campaign request for segment 31. *)
Definition campaign_body (subject : string) : Campaigns.CampaignBody :=
  {| Campaigns.segment_id := Some 31;
     Campaigns.message := "Big sale at {storeName}";
     Campaigns.subject := Some subject;
     Campaigns.customData := None;
     Campaigns.discount_percentage := None |}.

(** A campaign whose subject is the customer's phone number, sent to the
    segment of Ann, who has no phone, and Bob, who has one. *)
Definition phone_subject_run (toLocaleDateString : Z -> string) : DB * Campaigns.Response :=
  Campaigns.createCampaign toLocaleDateString 1700000000000 1
    (campaign_body "{customerPhone}") db_two_match.

(** The delivery logs of a response, as pairs of customer id and status. *)
Definition logged (r : Campaigns.Response) : list (string * Status) :=
  match r with
  | Campaigns.Created result =>
      map (fun l => (CampaignDeliveryService.customerId l, CampaignDeliveryService.status l))
          (CampaignDeliveryService.deliveryLogs result)
  | _ => []
  end.

(** A customer whose name starts with a greeting word. *)
Definition hi_tech : CustomerModel.t := customer 13 1 "Hi Tech Ltd" None 900.

(** A communication log of campaign 41 of owner 1. *)
Definition log (id : ObjectId) (st : Status) : CommunicationLogModel.t :=
  {| CommunicationLogModel._id := id; CommunicationLogModel.userId := 1;
     CommunicationLogModel.campaign_id := Some 41;
     CommunicationLogModel.customer_id := Some id;
     CommunicationLogModel.status := st;
     CommunicationLogModel.sent_at := None;
     CommunicationLogModel.updated_at := Some 0;
     CommunicationLogModel.message := "Hi Ann, hello";
     CommunicationLogModel.vendor_message_id := Some ("m" +:+ pretty id);
     CommunicationLogModel.error_message := None |}.

(** Campaign 41 with 32 logs: one SENT and 31 FAILED. *)
Definition stats_db : DB :=
  {| users := []; customers := []; segments := []; campaigns := [];
     communication_log :=
       log 200 SENT :: map (fun i => log (201 + Z.of_nat i) FAILED) (seq 0 31);
     sent_messages := [];
     next_id := 300 |}.

(** Campaign 41 with 160 logs: 23 SENT and 137 FAILED. *)
Definition stats_db_23_of_160 : DB :=
  {| users := []; customers := []; segments := []; campaigns := [];
     communication_log :=
       map (fun i => log (200 + Z.of_nat i) SENT) (seq 0 23)
       ++ map (fun i => log (300 + Z.of_nat i) FAILED) (seq 0 137);
     sent_messages := [];
     next_id := 500 |}.

(** A sent-message record. *)
Definition sent (id owner : ObjectId) (messageId : string) (st : Status) (createdAt : Z)
  : SentMessageModel.t :=
  {| SentMessageModel._id := id; SentMessageModel.userId := owner;
     SentMessageModel.recipientEmail := "ann@example.com";
     SentMessageModel.recipientName := Some "Ann";
     SentMessageModel.subject := "Campaign Email";
     SentMessageModel.textContent := "Hi Ann, hello";
     SentMessageModel.htmlContent := None;
     SentMessageModel.status := st;
     SentMessageModel.sentAt := createdAt;
     SentMessageModel.messageId := Some messageId;
     SentMessageModel.errorMessage := None;
     SentMessageModel.campaignId := None;
     SentMessageModel.discountInfo := None;
     SentMessageModel.personalizationData := None;
     SentMessageModel.createdAt := createdAt;
     SentMessageModel.updatedAt := createdAt |}.

(** A communication log with a given message id, for owner 1. *)
Definition log_for (id : ObjectId) (messageId : string) (st : Status)
  : CommunicationLogModel.t :=
  {| CommunicationLogModel._id := id; CommunicationLogModel.userId := 1;
     CommunicationLogModel.campaign_id := None;
     CommunicationLogModel.customer_id := None;
     CommunicationLogModel.status := st;
     CommunicationLogModel.sent_at := None;
     CommunicationLogModel.updated_at := Some 0;
     CommunicationLogModel.message := "Hi Ann, hello";
     CommunicationLogModel.vendor_message_id := Some messageId;
     CommunicationLogModel.error_message := None |}.

(** A queue with a SENT message and two QUEUED ones, the older of which
    was enqueued last, and their communication logs. *)
Definition queue_db : DB :=
  {| users := []; customers := []; segments := []; campaigns := [];
     communication_log :=
       [log_for 61 "m51" SENT; log_for 62 "m52" QUEUED; log_for 63 "m53" QUEUED];
     sent_messages :=
       [sent 51 1 "m51" SENT 5; sent 52 1 "m52" QUEUED 20; sent 53 2 "m53" QUEUED 10];
     next_id := 300 |}.

(** A FAILED receipt for message [m51], which the sample queue holds as
    SENT. *)
Definition failed_receipt_m51 : DeliveryReceipt.DeliveryReceiptRequest :=
  {| DeliveryReceipt.messageId := "m51";
     DeliveryReceipt.status := "FAILED";
     DeliveryReceipt.deliveredAt := Some 2000;
     DeliveryReceipt.errorMessage := Some "Recipient mailbox full";
     DeliveryReceipt.customerId := None;
     DeliveryReceipt.campaignId := None |}.

(** A FAILED receipt for message [m53], which the sample queue holds as
    QUEUED. *)
Definition failed_receipt_m53 : DeliveryReceipt.DeliveryReceiptRequest :=
  {| DeliveryReceipt.messageId := "m53";
     DeliveryReceipt.status := "FAILED";
     DeliveryReceipt.deliveredAt := Some 2000;
     DeliveryReceipt.errorMessage := Some "Recipient mailbox full";
     DeliveryReceipt.customerId := None;
     DeliveryReceipt.campaignId := None |}.

(** A database that holds the given sent messages only. *)
Definition sent_db (l : list SentMessageModel.t) : DB :=
  {| users := []; customers := []; segments := []; campaigns := []; communication_log := [];
     sent_messages := l; next_id := 300 |}.

End Examples.

(* ================================================================== *)
(** * Further parts of the sources

    The functions below are the neighbours of the ones above: the other
    handlers of the segment and campaign controllers, the rest of the
    segment population service, the statistics helpers, the receipt
    queues of the two vendor services, the spend calculation, the mail
    address validation and the message suggestions.

    Further conventions.
    - A request parameter that is parsed as a number is [option Z]:
      [None] is an absent parameter or [NaN], both falsy.
    - A character is a code unit below 256; the white space of [\s] and
      of [trim] is then tab, line feed, vertical tab, form feed, carriage
      return, space and no-break space.
    - The [orders] collection is only read by the functions modelled
      here; it is passed to them as a list.
    - The segments are those of [SegmentModel]: they have rules.  Where
      the source evaluates the rules of a segment that is stored without
      them it throws; the functions below have no such segment to
      answer for, and the properties of a population, a preview and a
      refresh are stated for the runs that return. *)
(* ================================================================== *)

(** ** Collections, continued *)

Module Collection.

(** [findOneAndDelete(filter)]: the first document that matches is
    removed. *)
Fixpoint deleteOne {A : Type} (p : A -> bool) (l : list A) : list A :=
  match l with
  | [] => []
  | x :: l' => if p x then l' else x :: deleteOne p l'
  end.

(** [deleteMany(filter)]. *)
Definition deleteMany {A : Type} (p : A -> bool) (l : list A) : list A :=
  List.filter (fun x => negb (p x)) l.

Definition with_customers (db : DB) (l : list CustomerModel.t) : DB :=
  {| users := users db; customers := l; segments := segments db;
     campaigns := campaigns db; communication_log := communication_log db;
     sent_messages := sent_messages db; next_id := next_id db |}.

End Collection.

(** ** JavaScript arrays *)

Module JsArray.

(** The relative index of [Array.prototype.slice]: a negative index
    counts from the end, and the result is clamped to the array. *)
Definition relative (len k : Z) : Z :=
  if k <? 0 then Z.max (len + k) 0 else Z.min k len.

(** [l.slice(start, end)]. *)
Definition slice {A : Type} (start end_ : Z) (l : list A) : list A :=
  let len := Z.of_nat (length l) in
  let k := relative len start in
  let final := relative len end_ in
  firstn (Z.to_nat (Z.max (final - k) 0)) (skipn (Z.to_nat k) l).

(** [l.slice(start)]. *)
Definition slice_from {A : Type} (start : Z) (l : list A) : list A :=
  slice start (Z.of_nat (length l)) l.

End JsArray.

(** ** services/segmentPopulation.ts, continued *)

Module SegmentCustomers.
Import Async.

(** [populateSegmentCustomers] as a promise. *)
Definition populate (now : Z) (segmentId : ObjectId) : M Z :=
  fun db =>
    match SegmentPopulation.populateSegmentCustomers now segmentId db with
    | Some (db', count) => (Resolved count, db')
    | None => (Rejected "Segment not found", db)
    end.

(** [SegmentModel.findById(segmentId)]. *)
Definition findById (segmentId : ObjectId) (db : DB) : option SegmentModel.t :=
  List.find (fun s => SegmentModel._id s =? segmentId) (segments db).

(** The page of customer ids: [offset] and [limit] are applied when
    they are truthy. *)
Definition page (limit offset : option Z) (customer_ids : list string) : list string :=
  let customerIds := customer_ids in
  let customerIds :=
    match offset with
    | Some o => if o =? 0 then customerIds else JsArray.slice_from o customerIds
    | None => customerIds
    end in
  match limit with
  | Some n => if n =? 0 then customerIds else JsArray.slice 0 n customerIds
  | None => customerIds
  end.

(** The customer ids that [getSegmentCustomers] pages through: a
    segment without customers, or one that was never populated, is
    populated first and read again. *)
Definition current_ids (now : Z) (segmentId : ObjectId) (segment : SegmentModel.t)
  : M (list string) :=
  if Nat.eqb (length (SegmentModel.customer_ids segment)) 0
     || negb (bool_decide (is_Some (SegmentModel.last_populated_at segment)))
  then
    populate now segmentId ≫= fun _ =>
    (fun db1 =>
       match findById segmentId db1 with
       | None => (Rejected "Segment not found after population", db1)
       | Some updatedSegment => (Resolved (SegmentModel.customer_ids updatedSegment), db1)
       end) : M (list string)
  else ret (SegmentModel.customer_ids segment).

(** [CustomerModel.find({ _id: { $in: customerIds }, userId })]. *)
Definition find_customers (customerIds : list string) (userId : ObjectId) (db : DB)
  : list CustomerModel.t :=
  List.filter (fun c => Js.includes customerIds (String_ (CustomerModel._id c))
                        && (CustomerModel.userId c =? userId))
              (customers db).

(** [getSegmentCustomers(segmentId, limit, offset)] for a well-formed
    segment id. *)
Definition getSegmentCustomers (now : Z) (segmentId : ObjectId) (limit offset : option Z)
  : M (list CustomerModel.t) :=
  fun db =>
    match findById segmentId db with
    | None => (Rejected "Segment not found", db)
    | Some segment =>
        (current_ids now segmentId segment ≫= fun customer_ids =>
         let customerIds := page limit offset customer_ids in
         (fun db2 =>
            (Resolved (find_customers customerIds (SegmentModel.userId segment) db2), db2))
         : M (list CustomerModel.t)) db
    end.

(** [for (const segment of segments) await populateSegmentCustomers(...)]. *)
Fixpoint refresh_each (now : Z) (segments : list SegmentModel.t) : M unit :=
  match segments with
  | [] => ret tt
  | segment :: rest =>
      populate now (SegmentModel._id segment) ≫= fun _ => refresh_each now rest
  end.

(** The filter of [refreshAllSegments]: the owner, when one is given. *)
Definition selected (userId : option ObjectId) (s : SegmentModel.t) : bool :=
  match userId with
  | Some u => SegmentModel.userId s =? u
  | None => true
  end.

Definition refreshAllSegments (now : Z) (userId : option ObjectId) : M unit :=
  fun db => refresh_each now (List.filter (selected userId) (segments db)) db.

End SegmentCustomers.

(** ** controllers/segments.ts, continued *)

Module SegmentsController.
Import Async.

Inductive Response :=
| Found (segment : SegmentModel.t)
| Deleted (id : string)
| Count (count : Z)
| Customers (customers : list CustomerModel.t) (total : Z) (limit : option Z)
            (offset : Z) (returned : Z)
| NotFound
| ServerError (details : string).

(** The filter [{ _id: id, userId: req.userId }]. *)
Definition owned (id userId : ObjectId) (s : SegmentModel.t) : bool :=
  (SegmentModel._id s =? id) && (SegmentModel.userId s =? userId).

Definition getSegment (userId id : ObjectId) (db : DB) : Response :=
  match List.find (owned id userId) (segments db) with
  | Some segment => Found segment
  | None => NotFound
  end.

Definition deleteSegment (userId id : ObjectId) (db : DB) : DB * Response :=
  match List.find (owned id userId) (segments db) with
  | None => (db, NotFound)
  | Some segment =>
      (Mongo.with_segments db (Collection.deleteOne (owned id userId) (segments db)),
       Deleted (String_ (SegmentModel._id segment)))
  end.

(** [previewSegment]: the rules are evaluated on at most 5000 customers
    of the owner.  The segment that is found has rules. *)
Definition previewSegment (now : Z) (userId id : ObjectId) (db : DB) : Response :=
  match List.find (owned id userId) (segments db) with
  | None => NotFound
  | Some seg =>
      let customers :=
        firstn 5000 (List.filter (fun c => CustomerModel.userId c =? userId) (customers db)) in
      Count (Z.of_nat (length (List.filter
                                 (fun c => SegmentRules.evaluateRule now c
                                             (SegmentModel.rules_json seg))
                                 customers)))
  end.

(** [getSegmentCustomers] of the controller, for a well-formed id: the
    segment is looked up by id alone. *)
Definition getSegmentCustomers (now : Z) (id : ObjectId) (limit offset : option Z) (db : DB)
  : DB * Response :=
  match SegmentCustomers.getSegmentCustomers now id limit offset db with
  | (Rejected error, db') => (db', ServerError error)
  | (Resolved customers, db') =>
      let totalCount :=
        match SegmentCustomers.findById id db' with
        | Some segment => SegmentModel.customer_count segment
        | None => 0
        end in
      (db', Customers customers totalCount limit (Js.or_zero offset)
                      (Z.of_nat (length customers)))
  end.

(** A letter or a digit of ASCII. *)
Definition is_alnum (c : ascii) : bool :=
  let n := nat_of_ascii c in
  (Nat.leb 48 n && Nat.leb n 57) || (Nat.leb 65 n && Nat.leb n 90)
  || (Nat.leb 97 n && Nat.leb n 122).

(** [s.replace(/[^a-z0-9]/gi, '_')]. *)
Fixpoint replace_non_alnum (s : string) : string :=
  match s with
  | EmptyString => EmptyString
  | String c s' => String (if is_alnum c then c else "_"%char) (replace_non_alnum s')
  end.

(** The file name that [downloadSegmentCustomers] puts in the
    [Content-Disposition] header. *)
Definition download_filename (name : string) : string :=
  Js.toLowerCase (replace_non_alnum name) +:+ "_customers.xlsx".

End SegmentsController.


(** ** services/messageQueueService.ts, continued *)

Module QueueProcessor.
Import MessageQueueService.

(** What one wake-up of the interval timer draws: the time and the two
    values of [Math.random()]. *)
Record Draw := {
  now : Z;
  random1 : Q;
  random2 : Q
}.

(** The callback that [startQueueProcessor] hands to [setInterval]:
    [if (!this.isProcessing) await this.processQueue()]. *)
Definition tick (d : Draw) (this : t) (db : DB) : t * DB :=
  if negb (isProcessing this)
  then processQueue (now d) (random1 d) (random2 d) this db
  else (this, db).

(** The wake-ups of the timer, one after the other. *)
Fixpoint ticks (draws : list Draw) (this : t) (db : DB) : t * DB :=
  match draws with
  | [] => (this, db)
  | d :: rest =>
      let '(this', db') := tick d this db in
      ticks rest this' db'
  end.

End QueueProcessor.

(** ** controllers/campaignStats.ts, continued *)

Module CampaignStatsHelpers.

(** The filter [{ campaign_id: campaignId, userId: userId }] on the
    communication logs. *)
Definition of_campaign (campaignId userId : ObjectId) (l : CommunicationLogModel.t) : bool :=
  match CommunicationLogModel.campaign_id l with
  | Some c => (c =? campaignId) && (CommunicationLogModel.userId l =? userId)
  | None => false
  end.

(** [getOverallCampaignStats]. *)
Definition getOverallCampaignStats (campaignId userId : ObjectId) (db : DB)
  : CampaignStats.Stats :=
  let count st :=
    Mongo.countDocuments
      (fun l => of_campaign campaignId userId l
                && Status_eqb (CommunicationLogModel.status l) st)
      (communication_log db) in
  let total := Mongo.countDocuments (of_campaign campaignId userId) (communication_log db) in
  let sent := count SENT in
  let failed := count FAILED in
  let pending := count PENDING in
  let queued := count QUEUED in
  let deliveryRate := CampaignStats.rate (sent + failed) total in
  let successRate := CampaignStats.rate sent total in
  let failureRate := CampaignStats.rate failed total in
  {| CampaignStats.total := total; CampaignStats.sent := sent;
     CampaignStats.failed := failed; CampaignStats.pending := pending;
     CampaignStats.queued := queued;
     CampaignStats.deliveryRate := CampaignStats.round2 deliveryRate;
     CampaignStats.successRate := CampaignStats.round2 successRate;
     CampaignStats.failureRate := CampaignStats.round2 failureRate |}.

(** The result of [getSegmentSpecificStats]; the answer for a segment
    that is not found has no [messagesQueued] and no [totalMessages]. *)
Record SegmentStats := {
  segmentId : string;
  segmentName : string;
  totalCustomers : Z;
  messagesSent : Z;
  messagesFailed : Z;
  messagesPending : Z;
  messagesQueued : option Z;
  totalMessages : option Z;
  successRate : Q;
  failureRate : Q
}.

(** The stages [$lookup] from [customers] on [customer_id] and
    [$unwind]: one copy of the log for every customer with that id. *)
Definition lookup_unwind (db : DB) (l : CommunicationLogModel.t)
  : list CommunicationLogModel.t :=
  map (fun _ => l)
      (List.filter (fun c => match CommunicationLogModel.customer_id l with
                             | Some k => CustomerModel._id c =? k
                             | None => false
                             end)
                   (customers db)).

(** The customer that a log refers to is stored. *)
Definition customer_known (db : DB) (l : CommunicationLogModel.t) : bool :=
  match CommunicationLogModel.customer_id l with
  | Some k => existsb (fun c => CustomerModel._id c =? k) (customers db)
  | None => false
  end.

Definition getSegmentSpecificStats (campaignId userId segmentId : ObjectId) (db : DB)
  : SegmentStats :=
  match List.find (fun s => SegmentModel._id s =? segmentId) (segments db) with
  | None =>
      {| segmentId := String_ segmentId; segmentName := "Unknown Segment";
         totalCustomers := 0; messagesSent := 0; messagesFailed := 0;
         messagesPending := 0; messagesQueued := None; totalMessages := None;
         successRate := 0; failureRate := 0 |}
  | Some segment =>
      let matched := List.filter (of_campaign campaignId userId) (communication_log db) in
      let joined := flat_map (lookup_unwind db) matched in
      let segmentStats :=
        MessageQueueService.group_by_status (map CommunicationLogModel.status joined) in
      let stats := MessageQueueService.format_stats segmentStats in
      let sent := MessageQueueService.n_SENT stats in
      let failed := MessageQueueService.n_FAILED stats in
      let pending := MessageQueueService.n_PENDING stats in
      let queued := MessageQueueService.n_QUEUED stats in
      let total := sent + failed + pending + queued in
      {| segmentId := String_ segmentId;
         segmentName := SegmentModel.name segment;
         totalCustomers := SegmentModel.customer_count segment;
         messagesSent := sent; messagesFailed := failed; messagesPending := pending;
         messagesQueued := Some queued; totalMessages := Some total;
         successRate := CampaignStats.round2 (CampaignStats.rate sent total);
         failureRate := CampaignStats.round2 (CampaignStats.rate failed total) |}
  end.

(** The result of [getMessageBreakdown]. *)
Record Breakdown := {
  b_total : Z;
  b_sent : Z;
  b_failed : Z;
  b_pending : Z;
  b_queued : Z;
  b_successRate : Q;
  b_failureRate : Q
}.

(** [getMessageBreakdown]: the sent messages that carry the campaign id. *)
Definition getMessageBreakdown (campaignId userId : ObjectId) (db : DB) : Breakdown :=
  let matched :=
    List.filter (fun m => match SentMessageModel.campaignId m with
                          | Some c => (c =? campaignId) && (SentMessageModel.userId m =? userId)
                          | None => false
                          end)
                (sent_messages db) in
  let stats :=
    MessageQueueService.format_stats
      (MessageQueueService.group_by_status (map SentMessageModel.status matched)) in
  let sent := MessageQueueService.n_SENT stats in
  let failed := MessageQueueService.n_FAILED stats in
  let pending := MessageQueueService.n_PENDING stats in
  let queued := MessageQueueService.n_QUEUED stats in
  let total := sent + failed + pending + queued in
  {| b_total := total; b_sent := sent; b_failed := failed; b_pending := pending;
     b_queued := queued;
     b_successRate := CampaignStats.round2 (CampaignStats.rate sent total);
     b_failureRate := CampaignStats.round2 (CampaignStats.rate failed total) |}.

End CampaignStatsHelpers.

(** ** controllers/campaigns.ts, continued *)

Module CampaignsController.

(** The body of an update request after [campaignUpdateSchema]: every
    key is optional; [status] is one of the five campaign statuses, and
    [None] is also the empty string, which the schema lets through and
    the controller skips; [segment_id] is a well-formed id. *)
Record UpdateBody := {
  segment_id : option ObjectId;
  message : option string;
  subject : option string;
  status : option CampaignModel.CampaignStatus
}.

Inductive Response :=
| Updated (campaign : option CampaignModel.t)
| Deleted
| NotFound (error : string).

(** The filter [{ _id: campaignId, userId: req.userId }]. *)
Definition owned (campaignId userId : ObjectId) (c : CampaignModel.t) : bool :=
  (CampaignModel._id c =? campaignId) && (CampaignModel.userId c =? userId).

(** The update document: [segment_id], [message] and [status] when they
    are truthy; [subject] is not copied into it. *)
Definition updateData (body : UpdateBody) (c : CampaignModel.t) : CampaignModel.t :=
  {| CampaignModel._id := CampaignModel._id c;
     CampaignModel.userId := CampaignModel.userId c;
     CampaignModel.segment_id :=
       match segment_id body with
       | Some s => s
       | None => CampaignModel.segment_id c
       end;
     CampaignModel.message :=
       match message body with
       | Some (String a m) => String a m
       | _ => CampaignModel.message c
       end;
     CampaignModel.subject := CampaignModel.subject c;
     CampaignModel.status :=
       match status body with
       | Some st => st
       | None => CampaignModel.status c
       end;
     CampaignModel.created_at := CampaignModel.created_at c |}.

(** [updateCampaign]: the campaign and the segment are looked up by id
    alone, the update is filtered by id and owner, and the answer is the
    success message with whatever document the update returned. *)
Definition updateCampaign (userId campaignId : ObjectId) (body : UpdateBody) (db : DB)
  : DB * Response :=
  match List.find (fun c => CampaignModel._id c =? campaignId) (campaigns db) with
  | None => (db, NotFound "Campaign not found")
  | Some existingCampaign =>
      let segment_missing :=
        match segment_id body with
        | Some s =>
            negb (bool_decide
                    (is_Some (List.find (fun x => SegmentModel._id x =? s) (segments db))))
        | None => false
        end in
      if segment_missing then (db, NotFound "Segment not found")
      else
        let updatedCampaign :=
          option_map (updateData body) (List.find (owned campaignId userId) (campaigns db)) in
        (Mongo.with_campaigns db
           (Mongo.updateOne (owned campaignId userId) (updateData body) (campaigns db)),
         Updated updatedCampaign)
  end.

(** [deleteCampaign]: the logs of the campaign and owner are deleted,
    then the campaign. *)
Definition deleteCampaign (userId campaignId : ObjectId) (db : DB) : DB * Response :=
  match List.find (owned campaignId userId) (campaigns db) with
  | None => (db, NotFound "Campaign not found")
  | Some campaign =>
      let db1 :=
        Mongo.with_communication_log db
          (Collection.deleteMany (CampaignStatsHelpers.of_campaign campaignId userId)
                                 (communication_log db)) in
      (Mongo.with_campaigns db1 (Collection.deleteOne (owned campaignId userId) (campaigns db1)),
       Deleted)
  end.

End CampaignsController.

(** ** controllers/campaignStats.ts: the endpoints built on the helpers *)

Module CampaignStatsBreakdown.

(** The [segment] object of the answer. *)
Record SegmentInfo := {
  s_id : ObjectId;
  s_name : string;
  s_customerCount : Z
}.

(** The [campaign] object of the answer. *)
Record CampaignInfo := {
  c_id : ObjectId;
  c_message : string;
  c_subject : string;
  c_status : CampaignModel.CampaignStatus;
  c_createdAt : Z;
  c_segment : SegmentInfo
}.

Inductive Response :=
| Stats (campaign : CampaignInfo) (overallStats : CampaignStats.Stats)
        (segmentStats : CampaignStatsHelpers.SegmentStats)
        (messageBreakdown : CampaignStatsHelpers.Breakdown)
| NotFound
| ServerError (error : string).



(** One entry of the answer of [getCampaignsStatsSummary]. *)
Record SummaryEntry := {
  e_campaignId : ObjectId;
  e_total : Z;
  e_sent : Z;
  e_failed : Z;
  e_pending : Z;
  e_successRate : Q
}.

(** [getCampaignsStatsSummary] for an authenticated owner and an array
    of campaign ids. *)
Definition getCampaignsStatsSummary (userId : ObjectId) (campaignIds : list ObjectId)
           (db : DB) : list SummaryEntry :=
  map (fun campaignId =>
         let count p :=
           Mongo.countDocuments
             (fun l => CampaignStatsHelpers.of_campaign campaignId userId l && p l)
             (communication_log db) in
         let total :=
           Mongo.countDocuments (CampaignStatsHelpers.of_campaign campaignId userId)
                                (communication_log db) in
         let sent := count (fun l => Status_eqb (CommunicationLogModel.status l) SENT) in
         let failed := count (fun l => Status_eqb (CommunicationLogModel.status l) FAILED) in
         let pending := count (fun l => Status_eqb (CommunicationLogModel.status l) PENDING) in
         let successRate := CampaignStats.rate sent total in
         {| e_campaignId := campaignId; e_total := total; e_sent := sent;
            e_failed := failed; e_pending := pending;
            e_successRate := CampaignStats.round2 successRate |})
      campaignIds.

End CampaignStatsBreakdown.

(** ** Regular expressions without groups *)

Module Regex.

(** The expressions that the validation uses: character classes,
    sequences and repetition; [Void] and [Eps] arise when an expression
    has read a character. *)
Inductive t :=
| Void
| Eps
| Chars (class : ascii -> bool)
| Seq (a b : t)
| Alt (a b : t)
| Star (a : t).

(** [a+]. *)
Definition Plus (a : t) : t := Seq a (Star a).

(** A literal character. *)
Definition Chr (c : ascii) : t := Chars (Ascii.eqb c).

(** The expression matches the empty text. *)
Fixpoint nullable (r : t) : bool :=
  match r with
  | Void => false
  | Eps => true
  | Chars _ => false
  | Seq a b => nullable a && nullable b
  | Alt a b => nullable a || nullable b
  | Star _ => true
  end.

(** What is left of the expression after the character [c]. *)
Fixpoint derive (c : ascii) (r : t) : t :=
  match r with
  | Void => Void
  | Eps => Void
  | Chars class => if class c then Eps else Void
  | Seq a b =>
      if nullable a then Alt (Seq (derive c a) b) (derive c b)
      else Seq (derive c a) b
  | Alt a b => Alt (derive c a) (derive c b)
  | Star a => Seq (derive c a) (Star a)
  end.

(** [/^r$/.test(s)]: the whole text matches the expression. *)
Fixpoint test (r : t) (s : string) : bool :=
  match s with
  | EmptyString => nullable r
  | String c s' => test (derive c r) s'
  end.

(** The texts of an expression. *)
Inductive matches : t -> string -> Prop :=
| matches_Eps : matches Eps EmptyString
| matches_Chars class c : class c = true -> matches (Chars class) (String c EmptyString)
| matches_Seq a b s1 s2 : matches a s1 -> matches b s2 -> matches (Seq a b) (s1 +:+ s2)
| matches_Alt_l a b s : matches a s -> matches (Alt a b) s
| matches_Alt_r a b s : matches b s -> matches (Alt a b) s
| matches_Star_nil a : matches (Star a) EmptyString
| matches_Star_more a s1 s2 :
    matches a s1 -> matches (Star a) s2 -> matches (Star a) (s1 +:+ s2).

(** [\s] on code units below 256: tab, line feed, vertical tab, form
    feed, carriage return, space and no-break space. *)
Definition is_space (c : ascii) : bool :=
  let n := nat_of_ascii c in
  (Nat.leb 9 n && Nat.leb n 13) || Nat.eqb n 32 || Nat.eqb n 160.

End Regex.

(** ** Strings of JavaScript, continued *)

Module JsString.

(** [s.split(sep)] for a separator of one character. *)
Fixpoint split (sep : ascii) (s : string) : list string :=
  match s with
  | EmptyString => [EmptyString]
  | String c s' =>
      if Ascii.eqb c sep then EmptyString :: split sep s'
      else match split sep s' with
           | x :: rest => String c x :: rest
           | [] => [String c EmptyString]
           end
  end.

(** [s.endsWith(p)]. *)
Definition endsWith (s p : string) : bool :=
  Nat.leb (String.length p) (String.length s)
  && String.eqb (Js.drop (String.length s - String.length p) s) p.

(** [s.includes(p)] on strings. *)
Fixpoint includes (s p : string) : bool :=
  String.prefix p s
  || match s with
     | EmptyString => false
     | String _ s' => includes s' p
     end.

End JsString.

(** ** services/gmailValidationService.ts *)

Module GmailValidationService.

Record Details := {
  email : string;
  domain : option string;
  isGmail : bool;
  verificationStatus : option string
}.

Record GmailValidationResult := {
  isValid : bool;
  exists_ : bool;
  error : option string;
  details : Details
}.

(** [[^\s@]]. *)
Definition not_space_at (c : ascii) : bool :=
  negb (Regex.is_space c || Ascii.eqb c "@").

(** [/^[^\s@]+@[^\s@]+\.[^\s@]+$/]. *)
Definition emailRegex : Regex.t :=
  Regex.Seq (Regex.Plus (Regex.Chars not_space_at))
    (Regex.Seq (Regex.Chr "@")
       (Regex.Seq (Regex.Plus (Regex.Chars not_space_at))
          (Regex.Seq (Regex.Chr ".") (Regex.Plus (Regex.Chars not_space_at))))).

(** [[a-zA-Z0-9.]]. *)
Definition valid_char (c : ascii) : bool :=
  let n := nat_of_ascii c in
  (Nat.leb 97 n && Nat.leb n 122) || (Nat.leb 65 n && Nat.leb n 90)
  || (Nat.leb 48 n && Nat.leb n 57) || Ascii.eqb c ".".

(** [/^[a-zA-Z0-9.]+$/]. *)
Definition validCharsRegex : Regex.t := Regex.Plus (Regex.Chars valid_char).

Definition isValidGmailUsername (username : string) : bool :=
  if (String.eqb username EmptyString
      || Nat.ltb (String.length username) 1
      || Nat.ltb 30 (String.length username))%bool
  then false
  else if negb (Regex.test validCharsRegex username) then false
  else if Js.startsWith username "." || JsString.endsWith username "." then false
  else if JsString.includes username ".." then false
  else true.

(** [validateGmailAddress]; none of its steps throws for a string, so
    the [catch] branch is not reached.  The domain is compared after
    [toLowerCase]: only the letters [A-Z] have a lower case among the
    characters of [gmail.com]. *)
Definition validateGmailAddress (email : string) : GmailValidationResult :=
  if negb (Regex.test emailRegex email) then
    {| isValid := false; exists_ := false; error := Some "Invalid email format";
       details :=
         {| email := email;
            domain := Some (Js.or_ostr (JsString.split "@" email !! 1%nat) EmptyString);
            isGmail := false; verificationStatus := None |} |}
  else
    let domain := Js.toLowerCase <$> (JsString.split "@" email !! 1%nat) in
    let isGmail := bool_decide (domain = Some "gmail.com") in
    if negb isGmail then
      {| isValid := false; exists_ := false;
         error := Some "Only Gmail addresses are allowed for signup";
         details :=
           {| email := email; domain := domain; isGmail := false;
              verificationStatus := None |} |}
    else
      let username := default EmptyString (JsString.split "@" email !! 0%nat) in
      if negb (isValidGmailUsername username) then
        {| isValid := false; exists_ := false;
           error := Some "Invalid Gmail username format";
           details :=
             {| email := email; domain := domain; isGmail := true;
                verificationStatus := None |} |}
      else
        {| isValid := true; exists_ := true; error := None;
           details :=
             {| email := email; domain := domain; isGmail := true;
                verificationStatus := Some "format_validated" |} |}.

(** [validateWithGoogleAPI] hands the address to [validateGmailAddress]. *)
Definition validateWithGoogleAPI (email : string) : GmailValidationResult :=
  validateGmailAddress email.

(** [isGmailDomain]. *)
Definition isGmailDomain (email : string) : bool :=
  bool_decide (Js.toLowerCase <$> (JsString.split "@" email !! 1%nat) = Some "gmail.com").

(** The rules of a user name, as the comment in the source states them:
    1 to 30 characters, letters, digits and dots only, no dot at the
    start or the end, and no two dots in a row. *)
Definition username_rules (username : string) : Prop :=
  (1 <= String.length username <= 30)%nat
  /\ (forall c, In c (list_ascii_of_string username) -> valid_char c = true)
  /\ (forall rest, username <> "." +:+ rest)
  /\ (forall start, username <> start +:+ ".")
  /\ ~ MessagePersonalizationService.occurs_in ".." username.

End GmailValidationService.

(** ** Whole numbers *)

Module WholeNumber.

(** [a + b] on JavaScript numbers that are whole: the binary64 number
    nearest to the sum, which is a whole number again ([add_whole]
    below), and is the sum when that is at most [2 ^ 53] in size
    ([add_exact]). *)
Definition add (a b : Z) : Z := Qfloor (Number.add (inject_Z a) (inject_Z b)).

(** The sum is the one that the binary64 addition of the Standard
    Library gives. *)
Definition agrees (p : Z * Z) : bool :=
  Qeq_bool (Binary64.to_Q (Binary64.add (Binary64.of_Z (fst p)) (Binary64.of_Z (snd p))))
           (inject_Z (add (fst p) (snd p))).

(** Pairs of whole binary64 numbers, below and above [2 ^ 53]. *)
Definition pairs : list (Z * Z) :=
  [(0, 0); (30, 40); (70, 0); (1, 2); (-5, 3); (3, -5);
   (2 ^ 53 - 1, 1); (2 ^ 53 - 1, 2); (2 ^ 53, 1); (2 ^ 53, 2); (2 ^ 53 + 2, 1);
   (- 2 ^ 53, -1); (2 ^ 54 + 4, 2); (2 ^ 54 + 4, 6);
   (2 ^ 60, 2 ^ 7); (2 ^ 60, 2 ^ 7 + 1); (2 ^ 60, 3 * 2 ^ 7)].

End WholeNumber.

(** ** models/Order.ts *)

Module OrderModel.
(** An order.  The model is for orders whose [amount] is a whole number,
    as the [spend] of a customer is in [CustomerModel]: a whole number
    that is a binary64 number, far below [2 ^ 1024] as all totals are.
    (The schema of a created order also admits an amount with a
    fraction; such an order is no value of this type, and nothing is
    said of it.)  The [items] of the order are not read by the
    services. *)
Record t := {
  _id : ObjectId;
  userId : ObjectId;
  customer_id : ObjectId;
  amount : Z;
  date : Z
}.
End OrderModel.

(** ** services/customerSpendCalculation.ts *)

Module CustomerSpend.
Import Async.

(** The key [userId] of a filter, which is set only [if (userId)]. *)
Definition of_user {A : Type} (owner : A -> ObjectId) (userId : option ObjectId) (x : A)
  : bool :=
  match userId with
  | Some u => owner x =? u
  | None => true
  end.

Definition set_spend (totalSpend : Z) (c : CustomerModel.t) : CustomerModel.t :=
  {| CustomerModel._id := CustomerModel._id c;
     CustomerModel.userId := CustomerModel.userId c;
     CustomerModel.name := CustomerModel.name c;
     CustomerModel.email := CustomerModel.email c;
     CustomerModel.phone := CustomerModel.phone c;
     CustomerModel.spend := Some totalSpend;
     CustomerModel.visits := CustomerModel.visits c;
     CustomerModel.last_active := CustomerModel.last_active c;
     CustomerModel.created_at := CustomerModel.created_at c |}.

Record SpendResult := {
  customerId : string;
  name : string;
  calculatedSpend : Z
}.

Record Summary := {
  updated : Z;
  totalCustomers : Z;
  results : list SpendResult
}.

Section with_orders.
(** The collection of the orders, which these functions only read. *)
Variable orders : list OrderModel.t.

(** [OrderModel.find(filter)] for the filter of
    [calculateCustomerSpend]. *)
Definition orders_of (customerId : ObjectId) (userId : option ObjectId)
  : list OrderModel.t :=
  List.filter (fun o => (OrderModel.customer_id o =? customerId)
                        && of_user OrderModel.userId userId o)
              orders.

(** [calculateCustomerSpend]: [orders.reduce((sum, order) => sum +
    order.amount, 0)] over the orders of the customer, every [+] being
    the addition of binary64 numbers. *)
Definition calculateCustomerSpend (customerId : ObjectId) (userId : option ObjectId) : Z :=
  fold_left (fun sum order => WholeNumber.add sum (OrderModel.amount order))
            (orders_of customerId userId)
            0.

(** The sum of the amounts of the orders of the customer, without
    rounding: what the total is compared with. *)
Definition sum_of_amounts (customerId : ObjectId) (userId : option ObjectId) : Z :=
  fold_left (fun sum order => sum + OrderModel.amount order)
            (orders_of customerId userId)
            0.

(** [updateCustomerSpend]. *)
Definition updateCustomerSpend (customerId : ObjectId) (userId : option ObjectId)
  : M (CustomerModel.t * Z) :=
  fun db =>
    let totalSpend := calculateCustomerSpend customerId userId in
    let filter c :=
      (CustomerModel._id c =? customerId) && of_user CustomerModel.userId userId c in
    match List.find filter (customers db) with
    | None => (Rejected "Customer not found", db)
    | Some c =>
        (Resolved (set_spend totalSpend c, totalSpend),
         Collection.with_customers db
           (Mongo.updateOne filter (set_spend totalSpend) (customers db)))
    end.

(** The loop of [updateAllCustomersSpend] over the customers that were
    found. *)
Fixpoint update_each (userId : option ObjectId) (found : list CustomerModel.t)
  : M (list (CustomerModel.t * Z)) :=
  match found with
  | [] => mret []
  | customer :: rest =>
      updateCustomerSpend (CustomerModel._id customer) userId ≫= fun result =>
      update_each userId rest ≫= fun results =>
      mret (result :: results)
  end.

Definition updateAllCustomersSpend (userId : option ObjectId)
  : M (list (CustomerModel.t * Z)) :=
  fun db =>
    update_each userId (List.filter (of_user CustomerModel.userId userId) (customers db)) db.

(** [refreshAllCustomersSpend]. *)
Definition refreshAllCustomersSpend (userId : option ObjectId) : M Summary :=
  updateAllCustomersSpend userId ≫= fun results =>
  mret {| updated := Z.of_nat (length results);
          totalCustomers := Z.of_nat (length results);
          results :=
            map (fun r => {| customerId := String_ (CustomerModel._id (fst r));
                             name := CustomerModel.name (fst r);
                             calculatedSpend := snd r |})
                results |}.

End with_orders.

End CustomerSpend.

(** ** services/vendorService.ts *)

Module VendorService.

(** A delivery receipt in the queue.  [campaignId] and [customerId] are
    the ids that the strings of the request denote, [None] for a string
    from which [new mongoose.Types.ObjectId] cannot build an id. *)
Record DeliveryReceipt := {
  campaignId : option ObjectId;
  customerId : option ObjectId;
  status : Status;
  vendorMessageId : string;
  errorMessage : option string
}.

Record VendorMessage := {
  m_campaignId : option ObjectId;
  m_customerId : option ObjectId;
  m_message : string;
  m_callbackUrl : string
}.

Record VendorResponse := {
  accepted : bool;
  r_vendorMessageId : string;
  r_status : Status
}.

(** The service object. *)
Record t := { receiptQueue : list DeliveryReceipt }.

Definition BATCH_SIZE : nat := 10.

(** [queueDeliveryReceipt]. *)
Definition queueDeliveryReceipt (receipt : DeliveryReceipt) (this : t) : t :=
  {| receiptQueue := receiptQueue this ++ [receipt] |}.

(** [sendMessage]; [random1] and [random2] are the two values of
    [Math.random()] that decide the outcome and the message id. *)
Definition sendMessage (now : Z) (random1 random2 : Q) (messageData : VendorMessage)
           (this : t) : t * VendorResponse :=
  let success := if Qlt_le_dec random1 (9 # 10) then true else false in
  let vendorMessageId :=
    "vendor_" +:+ pretty now +:+ "_" +:+ pretty (Qfloor (random2 * 1000000)) in
  let status := if success then SENT else FAILED in
  let errorMessage :=
    if success then None else Some "Vendor delivery failed - simulated error" in
  (queueDeliveryReceipt
     {| campaignId := m_campaignId messageData;
        customerId := m_customerId messageData;
        status := status;
        vendorMessageId := vendorMessageId;
        errorMessage := errorMessage |}
     this,
   {| accepted := true; r_vendorMessageId := vendorMessageId; r_status := status |}).

(** The filter [{ campaign_id, customer_id }] of a bulk operation. *)
Definition for_receipt (campaign customer : ObjectId) (l : CommunicationLogModel.t) : bool :=
  match CommunicationLogModel.campaign_id l, CommunicationLogModel.customer_id l with
  | Some a, Some b => (a =? campaign) && (b =? customer)
  | _, _ => false
  end.

(** The [$set] of a bulk operation; [now] is the time at which the
    batch is built, for each [new Date()] in it. *)
Definition set_receipt (now : Z) (receipt : DeliveryReceipt) (l : CommunicationLogModel.t)
  : CommunicationLogModel.t :=
  {| CommunicationLogModel._id := CommunicationLogModel._id l;
     CommunicationLogModel.userId := CommunicationLogModel.userId l;
     CommunicationLogModel.campaign_id := CommunicationLogModel.campaign_id l;
     CommunicationLogModel.customer_id := CommunicationLogModel.customer_id l;
     CommunicationLogModel.status := status receipt;
     CommunicationLogModel.sent_at :=
       if Status_eqb (status receipt) SENT then Some now
       else CommunicationLogModel.sent_at l;
     CommunicationLogModel.updated_at := Some now;
     CommunicationLogModel.message := CommunicationLogModel.message l;
     CommunicationLogModel.vendor_message_id := Some (vendorMessageId receipt);
     CommunicationLogModel.error_message :=
       match errorMessage receipt with
       | Some (String a e) => Some (String a e)
       | _ => CommunicationLogModel.error_message l
       end |}.

(** One [updateOne] operation of the bulk write; building it throws
    when an id cannot be built. *)
Definition bulkOp (now : Z) (receipt : DeliveryReceipt)
  : option (list CommunicationLogModel.t -> list CommunicationLogModel.t) :=
  match campaignId receipt, customerId receipt with
  | Some campaign, Some customer =>
      Some (Mongo.updateOne (for_receipt campaign customer) (set_receipt now receipt))
  | _, _ => None
  end.

(** [CommunicationLogModel.bulkWrite(bulkOps)]: the operations in
    their order. *)
Definition bulkWrite
           (bulkOps : list (list CommunicationLogModel.t -> list CommunicationLogModel.t))
           (logs : list CommunicationLogModel.t) : list CommunicationLogModel.t :=
  fold_left (fun logs op => op logs) bulkOps logs.

(** [processBatchReceipts]: the first receipts are taken from the queue
    and, when the batch cannot be written, put back at its front. *)
Definition processBatchReceipts (now : Z) (this : t) (db : DB) : t * DB :=
  match receiptQueue this with
  | [] => (this, db)
  | _ :: _ =>
      let batch := firstn BATCH_SIZE (receiptQueue this) in
      let rest := skipn BATCH_SIZE (receiptQueue this) in
      match mapM (bulkOp now) batch with
      | Some bulkOps =>
          ({| receiptQueue := rest |},
           Mongo.with_communication_log db (bulkWrite bulkOps (communication_log db)))
      | None => ({| receiptQueue := batch ++ rest |}, db)
      end
  end.

(** The callback of the interval timer of [startBatchProcessor]. *)
Definition tick (now : Z) (this : t) (db : DB) : t * DB :=
  if Nat.ltb 0 (length (receiptQueue this)) then processBatchReceipts now this db
  else (this, db).

(** The wake-ups of the timer at the given times. *)
Fixpoint ticks (times : list Z) (this : t) (db : DB) : t * DB :=
  match times with
  | [] => (this, db)
  | now :: rest =>
      let '(this', db') := tick now this db in
      ticks rest this' db'
  end.

(** [flushQueue]: the loop runs while receipts are queued; [times] are
    the times of its rounds, and [None] is a loop that has not ended
    when they are used up. *)
Fixpoint flushQueue (times : list Z) (this : t) (db : DB) : option (t * DB) :=
  match receiptQueue this with
  | [] => Some (this, db)
  | _ :: _ =>
      match times with
      | [] => None
      | now :: rest =>
          let '(this', db') := processBatchReceipts now this db in
          flushQueue rest this' db'
      end
  end.

(** [getQueueStatus]. *)
Definition getQueueStatus (this : t) : Z * Z * Z :=
  (Z.of_nat (length (receiptQueue this)), Z.of_nat BATCH_SIZE, 5000).

(** The receipts of the queue for a campaign and a customer. *)
Definition receipts_for (campaign customer : ObjectId) (queue : list DeliveryReceipt)
  : list DeliveryReceipt :=
  List.filter (fun r => bool_decide (campaignId r = Some campaign)
                        && bool_decide (customerId r = Some customer))
              queue.

(** Both ids of the receipt can be built. *)
Definition well_formed (r : DeliveryReceipt) : bool :=
  match campaignId r, customerId r with
  | Some _, Some _ => true
  | _, _ => false
  end.

End VendorService.

(** ** services/ai.ts *)

Module Ai.

(** [s.trimStart()] and [s.trimEnd()]: the white space of JavaScript
    among the code units below 256 is that of [\s]. *)
Fixpoint trimStart (s : string) : string :=
  match s with
  | EmptyString => EmptyString
  | String c s' => if Regex.is_space c then trimStart s' else s
  end.

Fixpoint trimEnd (s : string) : string :=
  match s with
  | EmptyString => EmptyString
  | String c s' =>
      match trimEnd s' with
      | EmptyString => if Regex.is_space c then EmptyString else String c EmptyString
      | t => String c t
      end
  end.

(** [s.trim()]. *)
Definition trim (s : string) : string := trimEnd (trimStart s).

(** [getFallbackMessages]: the suggestions when the generation by the
    model fails. *)
Definition getFallbackMessages (goal : string) : list string :=
  let g := Js.toLowerCase (trim goal) in
  if JsString.includes g "inactive" || JsString.includes g "bring back" then
    [ "We miss you, {customerName}! Come back and enjoy 20% off your next order with code WELCOME20.";
      "Haven't shopped in a while? We've got something special for you - free delivery on orders over $50!";
      "{customerName}, we've saved your spot! Get 15% off + free shipping when you return to {storeName}." ]
  else if JsString.includes g "promote" || JsString.includes g "sale"
          || JsString.includes g "offer" then
    [ "{customerName}, don't miss out! Get up to 30% off on our best-selling items - limited time only!";
      "Exclusive offer for you: Buy 2 get 1 free on selected items. Use code B2G1FREE at checkout.";
      "Flash sale alert! Save big on your favorites - up to 50% off ends tonight. Shop now!" ]
  else if JsString.includes g "new" || JsString.includes g "launch"
          || JsString.includes g "product" then
    [ "{customerName}, we're excited to share our latest collection! Get early access + 10% off.";
      "Something new is here! Be the first to discover our latest arrivals with free shipping.";
      "Introducing our newest products! {customerName}, enjoy 15% off your first order of new arrivals." ]
  else
    [ "{customerName}, we have something special for you! Enjoy 20% off your next order with code SPECIAL20.";
      "Don't miss out on this exclusive offer! Get free shipping + 15% off when you shop today.";
      "{customerName}, thank you for being a valued customer! Here's 25% off as our way of saying thanks." ].

(** [suggestMessages]. *)
Definition suggestMessages (goal : string) : list string := getFallbackMessages goal.

End Ai.

(** ** Further sample data *)

Module Samples.

(** Campaign 41 with two logs, for customer 11 (Ann) and for customer
    99; Ann is the only stored customer. *)
Definition deleted_customer_db : DB :=
  {| users := []; customers := [Examples.ann];
     segments := [Examples.segment 31 1 Examples.big_spender];
     campaigns := [Examples.campaign41 CampaignModel.ACTIVE];
     communication_log := [Examples.log 11 SENT; Examples.log 99 FAILED];
     sent_messages := [];
     next_id := 300 |}.

(** The locale of the samples prints every date the same way. *)
Definition a_date (t : Z) : string := "1/1/2024".

Definition order (id owner customer amount : Z) : OrderModel.t :=
  {| OrderModel._id := id; OrderModel.userId := owner;
     OrderModel.customer_id := customer; OrderModel.amount := amount;
     OrderModel.date := 0 |}.

(** A receipt of the vendor for customer 11. *)
Definition receipt (campaign : option ObjectId) (st : Status)
  : VendorService.DeliveryReceipt :=
  {| VendorService.campaignId := campaign;
     VendorService.customerId := Some 11;
     VendorService.status := st;
     VendorService.vendorMessageId := "vendor_5_17";
     VendorService.errorMessage := None |}.

(** Two orders of Ann and one of Eve. *)
Definition orders : list OrderModel.t :=
  [order 501 1 11 30; order 502 2 21 100; order 503 1 11 40].

(** Two orders of Ann whose amounts sum to [2 ^ 53 + 1], which is no
    binary64 number. *)
Definition large_orders : list OrderModel.t :=
  [order 511 1 11 9007199254740992; order 512 1 11 1].

End Samples.


(* ================================================================== *)
(** * Properties *)
(* ================================================================== *)

(** Scenario A of the specification: a strict [>] rule over three customers. *)
Example scenario_A :
  let c s := {| CustomerModel._id := 0; CustomerModel.userId := 0;
                CustomerModel.name := "x"; CustomerModel.email := "x@y.z";
                CustomerModel.phone := None; CustomerModel.spend := Some s;
                CustomerModel.visits := None; CustomerModel.last_active := None;
                CustomerModel.created_at := 0 |} in
  map (fun s => SegmentRules.evaluateRule 0 (c s)
                  (SegmentRules.Rule SegmentRules.spend SegmentRules.gt 1000))
      [500; 1500; 1000] = [false; true; false].
Proof. reflexivity. Qed.

(** ** The rule evaluator *)

Section evaluateRule_facts.
Import SegmentRules.
Variables (now : Z) (customer : CustomerModel.t).

Lemma evaluateRule_and_present operator op value and or :
  evaluateRule now customer (Node None operator op value (Some and) or)
  = forallb (evaluateRule now customer) and.
Proof. reflexivity. Qed.

Lemma evaluateRule_or_only operator op value or :
  evaluateRule now customer (Node None operator op value None (Some or))
  = existsb (evaluateRule now customer) or.
Proof. reflexivity. Qed.

(** The shape [{and: [], or: branches}] is true whatever the branches. *)
Lemma evaluateRule_empty_and operator op value or :
  evaluateRule now customer (Node None operator op value (Some []) or) = true.
Proof. reflexivity. Qed.

End evaluateRule_facts.

(** Scenario B of the specification. *)
Example scenario_B :
  MessagePersonalizationService.personalizedMessage
    (MessagePersonalizationService.personalizeMessage (fun _ => "1/1/2024")
       "Enjoy {discount}% off, {customerName}!"
       {| CustomerModel._id := 1; CustomerModel.userId := 1;
          CustomerModel.name := "Ann"; CustomerModel.email := "ann@x.y";
          CustomerModel.phone := None; CustomerModel.spend := None;
          CustomerModel.visits := None; CustomerModel.last_active := None;
          CustomerModel.created_at := 0 |}
       "Valued Customer"
       {| MessagePersonalizationService.cd_discount := Some "15";
          MessagePersonalizationService.cd_storeName := None;
          MessagePersonalizationService.cd_couponCode := None;
          MessagePersonalizationService.cd_storeAddress := None;
          MessagePersonalizationService.cd_storePhone := None |})
  = "Hi Ann, Enjoy 15% off, Ann!".
Proof. vm_compute. reflexivity. Qed.

Example match_placeholders_sample :
  MessagePersonalizationService.match_placeholders 0 "a{x}{}{name}{b{c}d}{e"
  = ["{x}"; "{name}"; "{b{c}"].
Proof. vm_compute. reflexivity. Qed.

Example replace_dollar_sample :
  Js.replace_g "{name}" "<$&|$$|$`|$'|$1>" "a{name}b" = "a<{name}|$|a|b|$1>b".
Proof. vm_compute. reflexivity. Qed.

(** ** Collections *)

Section Mongo_facts.
Context {A : Type}.
Variables (p : A -> bool) (f : A -> A).

Lemma updateOne_length (l : list A) : length (Mongo.updateOne p f l) = length l.
Proof. induction l as [|x l IH]; simpl; [done|]. destruct (p x); simpl; congruence. Qed.

Lemma updateOne_no_match (l : list A) :
  List.find p l = None -> Mongo.updateOne p f l = l.
Proof.
  induction l as [|x l IH]; simpl; [done|].
  destruct (p x); [discriminate|]. intros H. by rewrite IH.
Qed.

(** The first match is replaced by its update, at its place. *)
Lemma updateOne_first_match (l : list A) (x : A) :
  List.find p l = Some x ->
  exists l1 l2, l = l1 ++ x :: l2 /\ forallb (fun y => negb (p y)) l1 = true
                /\ p x = true /\ Mongo.updateOne p f l = l1 ++ f x :: l2.
Proof.
  induction l as [|y l IH]; simpl; [discriminate|].
  destruct (p y) eqn:Hy.
  - intros [= ->]. by exists [], l.
  - intros H. destruct (IH H) as (l1 & l2 & -> & Hl1 & Hx & Hup).
    exists (y :: l1), l2. simpl. rewrite Hy, Hl1, Hup. done.
Qed.

Lemma find_app_skip (l1 l2 : list A) :
  forallb (fun y => negb (p y)) l1 = true -> List.find p (l1 ++ l2) = List.find p l2.
Proof.
  induction l1 as [|y l1 IH]; simpl; [done|].
  intros [Hy Hl]%andb_prop. apply negb_true_iff in Hy. rewrite Hy. auto.
Qed.

Lemma updateOne_app_skip (l1 l2 : list A) :
  forallb (fun y => negb (p y)) l1 = true ->
  Mongo.updateOne p f (l1 ++ l2) = l1 ++ Mongo.updateOne p f l2.
Proof.
  induction l1 as [|y l1 IH]; simpl; [done|].
  intros [Hy Hl]%andb_prop. apply negb_true_iff in Hy. rewrite Hy. by rewrite IH.
Qed.

Lemma filter_all (l : list A) :
  (forall x, In x l -> p x = true) -> List.filter p l = l.
Proof.
  induction l as [|x l IH]; simpl; [done|]. intros H.
  rewrite (H x) by auto. rewrite IH; auto.
Qed.

End Mongo_facts.

(** ** C3: empty [and], and [or] groups *)

(** C3, as stated, fails: for the group [{and: [], or: [spend > 1000]}]
    and a customer who spent 500 the [or] list is populated and none of
    its branches is true, yet the group evaluates to true, because a
    present [and] list is evaluated and the [or] list is not read. *)
Lemma populated_or_ignored_counterexample :
  SegmentRules.n_or Examples.empty_and_with_or = Some [Examples.big_spender]
  /\ ~ (SegmentRules.evaluateRule 0 Examples.ann Examples.empty_and_with_or = true
        <-> exists branch, In branch [Examples.big_spender]
                           /\ SegmentRules.evaluateRule 0 Examples.ann branch = true).
Proof.
  split; [reflexivity|]. intros [H _].
  destruct (H eq_refl) as (branch & [<-|[]] & Hb). vm_compute in Hb. discriminate.
Qed.

(** C3, amended: for every customer and every group node (a node without
    the key [field]), an empty [and] list evaluates to true, whatever the
    [or] list; and when the [and] list is absent and the [or] list is
    present, the group is true if and only if at least one branch of the
    [or] list is true for that customer. *)
Theorem evaluateRule_empty_and_and_or_only :
  forall now customer operator op value any_or branches,
    SegmentRules.evaluateRule now customer
      (SegmentRules.Node None operator op value (Some []) any_or) = true
    /\ (SegmentRules.evaluateRule now customer
          (SegmentRules.Node None operator op value None (Some branches)) = true
        <-> exists branch, In branch branches
                           /\ SegmentRules.evaluateRule now customer branch = true).
Proof.
  intros. split; [reflexivity|].
  rewrite evaluateRule_or_only. apply existsb_exists.
Qed.

(** ** C10: segments made of [or] rules only *)

Section or_only_segments.
Import SegmentRules Segments SegmentPopulation.

Lemma fixRuleStructure_or_only field operator op value branches :
  fixRuleStructure (Node field operator op value None (Some branches))
  = Node None None None None (Some []) (Some (map leaf_of branches)).
Proof. reflexivity. Qed.

Lemma evaluateRule_fixed_or_only now customer field operator op value branches :
  evaluateRule now customer
    (fixRuleStructure (Node field operator op value None (Some branches))) = true.
Proof. reflexivity. Qed.

(** Population of a segment whose rules are true of every customer. *)
Lemma populate_all now id db segment :
  List.find (fun s => SegmentModel._id s =? id) (segments db) = Some segment ->
  (forall c, evaluateRule now c (SegmentModel.rules_json segment) = true) ->
  populateSegmentCustomers now id db
  = Some (Mongo.with_segments db
            (Mongo.updateOne (fun s => SegmentModel._id s =? id)
               (set_population
                  (map (fun c => String_ (CustomerModel._id c))
                       (customers_of (SegmentModel.userId segment) db)) now)
               (segments db)),
          Z.of_nat (length (customers_of (SegmentModel.userId segment) db))).
Proof.
  intros Hfind Hall. unfold populateSegmentCustomers. rewrite Hfind.
  rewrite filter_all by (intros; apply Hall).
  by rewrite length_map.
Qed.

Lemma fresh_not_found (id : ObjectId) (l : list SegmentModel.t) :
  (forall s, In s l -> SegmentModel._id s <> id) ->
  forallb (fun y => negb (SegmentModel._id y =? id)) l = true.
Proof.
  intros H. apply forallb_forall. intros s Hs.
  apply negb_true_iff, Z.eqb_neq. auto.
Qed.

Lemma createSegment_or_only now userId name field operator op value branches db :
  (forall s, In s (segments db) -> SegmentModel._id s <> next_id db) ->
  let everyone := customers_of userId db in
  let ids := map (fun c => String_ (CustomerModel._id c)) everyone in
  createSegment now userId
    {| Segments.name := name;
       rules_json := Node field operator op value None (Some branches) |} db
  = (Mongo.with_segments (Mongo.fresh db)
       (segments db ++
          [ {| SegmentModel._id := next_id db;
               SegmentModel.userId := userId;
               SegmentModel.name := name;
               SegmentModel.rules_json :=
                 Node None None None None (Some [])
                      (Some (map Mongoose.saved (map leaf_of branches)));
               SegmentModel.created_by := userId;
               SegmentModel.created_at := now;
               SegmentModel.customer_ids := ids;
               SegmentModel.customer_count := Z.of_nat (length everyone);
               SegmentModel.last_populated_at := Some now |} ]),
     Created (String_ (next_id db)) name (Z.of_nat (length everyone))
       ("Segment created with " +:+ pretty (Z.of_nat (length everyone)) +:+ " customers")).
Proof.
  intros Hfresh everyone ids. unfold createSegment.
  cbn [rules_json Segments.name SegmentModel._id SegmentModel.name].
  rewrite fixRuleStructure_or_only.
  erewrite populate_all; cycle 1.
  - cbn [segments Mongo.fresh Mongo.with_segments].
    rewrite find_app_skip by (by apply fresh_not_found).
    simpl. rewrite Z.eqb_refl. reflexivity.
  - intros c. reflexivity.
  - cbn [segments Mongo.fresh Mongo.with_segments SegmentModel.userId].
    rewrite updateOne_app_skip by (by apply fresh_not_found).
    simpl. rewrite Z.eqb_refl. unfold set_population. simpl.
    subst ids everyone. unfold customers_of. simpl. rewrite !length_map. reflexivity.
Qed.

Lemma updateSegment_or_only now userId id field operator op value branches db found :
  List.find (fun s => SegmentModel._id s =? id) (segments db) = Some found ->
  SegmentModel.userId found = userId ->
  exists db' updated note,
    updateSegment now userId id (Node field operator op value None (Some branches)) db
    = (db', Updated (Some updated) note)
    /\ List.find (fun s => SegmentModel._id s =? id) (segments db') = Some updated
    /\ SegmentModel.rules_json updated
       = Node None None None None (Some []) (Some (map leaf_of branches))
    /\ SegmentModel.customer_ids updated
       = map (fun c => String_ (CustomerModel._id c)) (customers_of userId db)
    /\ SegmentModel.customer_count updated = Z.of_nat (length (customers_of userId db)).
Proof.
  intros Hfind Howner.
  destruct (updateOne_first_match _ (fun s => s) _ _ Hfind)
    as (l1 & l2 & Hl & Hl1 & Hid & _).
  set (owned := fun s => (SegmentModel._id s =? id) && (SegmentModel.userId s =? userId)).
  assert (Hl1' : forallb (fun y => negb (owned y)) l1 = true).
  { apply forallb_forall. intros s Hs.
    pose proof (proj1 (forallb_forall _ _) Hl1 s Hs) as Hn. simpl in Hn.
    unfold owned. apply negb_true_iff in Hn. by rewrite Hn. }
  assert (Hown : owned found = true).
  { unfold owned. rewrite Hid, Howner, Z.eqb_refl. done. }
  unfold updateSegment. fold owned. rewrite fixRuleStructure_or_only.
  rewrite Hl, (find_app_skip owned) by done. simpl List.find. rewrite Hown.
  rewrite (updateOne_app_skip owned) by done. simpl Mongo.updateOne. rewrite Hown.
  set (fixed := Node None None None None (Some []) (Some (map leaf_of branches))).
  erewrite populate_all; cycle 1.
  - cbn [segments Mongo.with_segments]. rewrite find_app_skip by done.
    simpl. rewrite Hid. reflexivity.
  - intros c. reflexivity.
  - cbn [segments Mongo.with_segments].
    rewrite updateOne_app_skip by done. simpl Mongo.updateOne.
    cbn [set_rules SegmentModel._id SegmentModel.userId]. rewrite Hid.
    rewrite find_app_skip by done. simpl List.find.
    cbn [set_population SegmentModel._id]. rewrite Hid.
    eexists _, _, _. split; [reflexivity|].
    cbn [segments Mongo.with_segments]. rewrite find_app_skip by done.
    simpl List.find. rewrite Hid.
    unfold customers_of. cbn [customers Mongo.with_segments].
    rewrite Howner. repeat split. simpl. by rewrite length_map.
Qed.

End or_only_segments.

(** C10: a rule group of the shape [{and: [], or: branches}] is true of
    every customer, whatever the branches; [fixRuleStructure] turns every
    request body that has [or] rules and no [and] key into that shape;
    hence a segment created with such a body (when the fresh id is not in
    use), or an owned segment updated with one, is populated with every
    customer of its owner. *)
Theorem or_only_segment_matches_every_customer :
  forall now userId name field operator op value branches db,
    (forall s, In s (segments db) -> SegmentModel._id s <> next_id db) ->
    (forall customer any_branches,
        SegmentRules.evaluateRule now customer
          (SegmentRules.Node None None None None (Some []) (Some any_branches)) = true)
    /\ Segments.fixRuleStructure
         (SegmentRules.Node field operator op value None (Some branches))
       = SegmentRules.Node None None None None (Some [])
           (Some (map Segments.leaf_of branches))
    /\ (exists created note,
          Segments.createSegment now userId
            {| Segments.name := name;
               Segments.rules_json :=
                 SegmentRules.Node field operator op value None (Some branches) |} db
          = (Mongo.with_segments (Mongo.fresh db) (segments db ++ [created]),
             Segments.Created (String_ (next_id db)) name
               (Z.of_nat (length (SegmentPopulation.customers_of userId db))) note)
          /\ SegmentModel.userId created = userId
          /\ SegmentModel.customer_ids created
             = map (fun c => String_ (CustomerModel._id c))
                   (SegmentPopulation.customers_of userId db)
          /\ SegmentModel.customer_count created
             = Z.of_nat (length (SegmentPopulation.customers_of userId db)))
    /\ (forall id found,
          List.find (fun s => SegmentModel._id s =? id) (segments db) = Some found ->
          SegmentModel.userId found = userId ->
          exists db' updated note,
            Segments.updateSegment now userId id
              (SegmentRules.Node field operator op value None (Some branches)) db
            = (db', Segments.Updated (Some updated) note)
            /\ List.find (fun s => SegmentModel._id s =? id) (segments db') = Some updated
            /\ SegmentModel.customer_ids updated
               = map (fun c => String_ (CustomerModel._id c))
                     (SegmentPopulation.customers_of userId db)
            /\ SegmentModel.customer_count updated
               = Z.of_nat (length (SegmentPopulation.customers_of userId db))).
Proof.
  intros now userId name field operator op value branches db Hfresh.
  split; [reflexivity|]. split; [reflexivity|]. split.
  - eexists _, _. rewrite createSegment_or_only by done. split; [reflexivity|]. done.
  - intros id found Hfind Howner.
    destruct (updateSegment_or_only now userId id field operator op value branches
                db found Hfind Howner) as (db' & updated & note & H1 & H2 & _ & H3 & H4).
    exists db', updated, note. done.
Qed.

(** The theorem on the sample database: the fresh id 100 is not in use;
    creating an [or]-only segment for owner 1 selects both customers of
    owner 1 although only one of them spent more than 1000, and updating
    segment 31 with the same rules does the same. *)
Lemma or_only_segment_matches_every_customer_witness :
  (forall s, In s (segments Examples.db0) -> SegmentModel._id s <> next_id Examples.db0)
  /\ (exists created note,
        Segments.createSegment 0 1
          {| Segments.name := "all"; Segments.rules_json := Examples.or_only |} Examples.db0
        = (Mongo.with_segments (Mongo.fresh Examples.db0)
             (segments Examples.db0 ++ [created]),
           Segments.Created "100" "all" 2 note)
        /\ SegmentModel.customer_ids created = ["11"; "12"])
  /\ (exists db' updated note,
        Segments.updateSegment 0 1 31 Examples.or_only Examples.db0
        = (db', Segments.Updated (Some updated) note)
        /\ SegmentModel.customer_ids updated = ["11"; "12"]).
Proof.
  assert (Hfresh : forall s, In s (segments Examples.db0) ->
                             SegmentModel._id s <> next_id Examples.db0).
  { intros s [<-|[]]. vm_compute. discriminate. }
  split; [exact Hfresh|].
  destruct (or_only_segment_matches_every_customer 0 1 "all" None None None None
              [Examples.big_spender] Examples.db0 Hfresh) as (_ & _ & Hcreate & Hupdate).
  split.
  - destruct Hcreate as (created & note & Heq & _ & Hids & _).
    exists created, note. split; [exact Heq | exact Hids].
  - destruct (Hupdate 31 (Examples.segment 31 1 Examples.big_spender) eq_refl eq_refl)
      as (db' & updated & note & Heq & _ & Hids & _).
    exists db', updated, note. split; [exact Heq | exact Hids].
Defined.

(** ** C5: campaign statistics *)

Section stats_facts.

Lemma count_by_status {A : Type} (p : A -> bool) (status : A -> Status) (l : list A) :
  Mongo.countDocuments (fun x => p x && Status_eqb (status x) SENT) l
  + Mongo.countDocuments (fun x => p x && Status_eqb (status x) FAILED) l
  + Mongo.countDocuments (fun x => p x && Status_eqb (status x) PENDING) l
  + Mongo.countDocuments (fun x => p x && Status_eqb (status x) QUEUED) l
  = Mongo.countDocuments p l.
Proof.
  unfold Mongo.countDocuments.
  induction l as [|x l IH]; [reflexivity|].
  cbn [List.filter]. destruct (p x), (status x); cbn [andb Status_eqb length]; lia.
Qed.

Lemma countDocuments_nonneg {A : Type} (p : A -> bool) (l : list A) :
  0 <= Mongo.countDocuments p l.
Proof. unfold Mongo.countDocuments. lia. Qed.

(** *** Rounding to the nearest binary64 number *)

Lemma pow2_pos e : (0 < Number.pow2 e)%Q.
Proof. apply Qpower_0_lt. reflexivity. Qed.

Lemma pow2_add a b : (Number.pow2 (a + b) == Number.pow2 a * Number.pow2 b)%Q.
Proof. apply Qpower_plus. discriminate. Qed.

Lemma pow2_inject e : 0 <= e -> (Number.pow2 e == inject_Z (2 ^ e))%Q.
Proof.
  intros He. unfold Number.pow2. rewrite Zpower_Qpower by exact He. reflexivity.
Qed.

(** The nearest integer is within a half. *)
Lemma round_even_close x :
  (x - (1 # 2) <= inject_Z (Number.round_even x) <= x + (1 # 2))%Q.
Proof.
  unfold Number.round_even.
  pose proof (Qfloor_le x) as Hle.
  pose proof (Qlt_floor x) as Hlt.
  rewrite inject_Z_plus in Hlt. change (inject_Z 1) with 1%Q in Hlt.
  destruct (Qcompare_spec (x - inject_Z (Qfloor x)) (1 # 2)) as [E|E|E].
  - destruct (Z.even (Qfloor x)).
    + split; lra.
    + rewrite inject_Z_plus. change (inject_Z 1) with 1%Q. split; lra.
  - split; lra.
  - rewrite inject_Z_plus. change (inject_Z 1) with 1%Q. split; lra.
Qed.

(** The power of two of the exponent of a positive number is not above
    the number. *)
Lemma exponent_le x : (0 < x)%Q -> (Number.pow2 (Number.exponent x) <= x)%Q.
Proof.
  intros Hx. unfold Number.exponent.
  set (c := Z.log2 (Qnum x) - Z.log2 (Z.pos (Qden x))).
  destruct (Qle_bool (Number.pow2 c) x) eqn:E; [by apply Qle_bool_iff|].
  assert (Hn : 0 < Qnum x) by (unfold Qlt in Hx; simpl in Hx; lia).
  destruct (Z.log2_spec (Qnum x) Hn) as [Hn1 _].
  destruct (Z.log2_spec (Z.pos (Qden x)) ltac:(lia)) as [_ Hd2].
  pose proof (Z.log2_nonneg (Qnum x)) as H0n.
  pose proof (Z.log2_nonneg (Z.pos (Qden x))) as H0d.
  replace (c - 1) with (Z.log2 (Qnum x) + - Z.succ (Z.log2 (Z.pos (Qden x))))
    by (unfold c; lia).
  rewrite pow2_add. unfold Number.pow2 at 2. rewrite Qpower_opp.
  fold (Number.pow2 (Z.succ (Z.log2 (Z.pos (Qden x))))).
  rewrite !pow2_inject by lia.
  set (a := 2 ^ Z.log2 (Qnum x)) in *.
  set (b := 2 ^ Z.succ (Z.log2 (Z.pos (Qden x)))) in *.
  assert (Ha : 0 < a) by (unfold a; apply Z.pow_pos_nonneg; lia).
  destruct b as [|b|b]; try lia.
  destruct x as [n d]. simpl in *.
  unfold Qle, Qmult, Qinv, inject_Z. simpl.
  nia.
Qed.

(** The error of rounding a positive number: at most [2 ^ -53] of the
    number, or [2 ^ -1075] below the normal range. *)
Lemma nearest_pos_error x :
  (0 < x)%Q ->
  (x - (x * Number.pow2 (-53) + Number.pow2 (-1075)) <= Number.nearest_pos x
   <= x + (x * Number.pow2 (-53) + Number.pow2 (-1075)))%Q.
Proof.
  intros Hx. unfold Number.nearest_pos. rewrite Qred_correct.
  set (e := Z.max (Number.exponent x) (-1022) - 52).
  pose proof (pow2_pos e) as He.
  pose proof (round_even_close (x / Number.pow2 e)) as [Hlo Hhi].
  set (m := inject_Z (Number.round_even (x / Number.pow2 e))) in *.
  assert (Hhalf : (Number.pow2 e * (1 # 2)
                   <= x * Number.pow2 (-53) + Number.pow2 (-1075))%Q).
  { pose proof (exponent_le x Hx) as Hexp.
    pose proof (pow2_pos (-1075)) as H1. pose proof (pow2_pos (-53)) as H2.
    destruct (Z.max_spec (Number.exponent x) (-1022)) as [[Hlt Hmax]|[Hge Hmax]].
    - assert (E : (Number.pow2 e * (1 # 2) == Number.pow2 (-1075))%Q).
      { unfold e. rewrite Hmax. reflexivity. }
      rewrite E.
      assert (0 <= x * Number.pow2 (-53))%Q by (apply Qmult_le_0_compat; lra). lra.
    - assert (E : (Number.pow2 e * (1 # 2)
                   == Number.pow2 (Number.exponent x) * Number.pow2 (-53))%Q).
      { unfold e. rewrite Hmax.
        replace (Number.exponent x - 52) with (Number.exponent x + -52) by lia.
        rewrite pow2_add.
        change (Number.pow2 (-53)) with (Number.pow2 (-52) * (1 # 2))%Q. ring. }
      rewrite E.
      assert (Number.pow2 (Number.exponent x) * Number.pow2 (-53)
              <= x * Number.pow2 (-53))%Q
        by (apply Qmult_le_compat_r; lra).
      lra. }
  assert (Hm1 : ((x / Number.pow2 e - (1 # 2)) * Number.pow2 e <= m * Number.pow2 e)%Q)
    by (apply Qmult_le_compat_r; lra).
  assert (Hm2 : (m * Number.pow2 e <= (x / Number.pow2 e + (1 # 2)) * Number.pow2 e)%Q)
    by (apply Qmult_le_compat_r; lra).
  assert (E1 : ((x / Number.pow2 e - (1 # 2)) * Number.pow2 e
                == x - Number.pow2 e * (1 # 2))%Q)
    by (field; lra).
  assert (E2 : ((x / Number.pow2 e + (1 # 2)) * Number.pow2 e
                == x + Number.pow2 e * (1 # 2))%Q)
    by (field; lra).
  rewrite E1 in Hm1. rewrite E2 in Hm2.
  split; lra.
Qed.

(** The error of rounding a number that is not negative. *)
Lemma nearest_error x :
  (0 <= x)%Q ->
  (x - (x * Number.pow2 (-53) + Number.pow2 (-1075)) <= Number.nearest x
   <= x + (x * Number.pow2 (-53) + Number.pow2 (-1075)))%Q.
Proof.
  intros Hx. unfold Number.nearest.
  pose proof (pow2_pos (-1075)) as H1. pose proof (pow2_pos (-53)) as H2.
  destruct (Qcompare_spec x 0) as [E|E|E].
  - rewrite E. split; lra.
  - lra.
  - by apply nearest_pos_error.
Qed.

Lemma nearest_nonneg x : (0 <= x)%Q -> (0 <= Number.nearest x)%Q.
Proof.
  intros Hx. unfold Number.nearest.
  destruct (Qcompare_spec x 0) as [E|E|E]; [lra|lra|].
  unfold Number.nearest_pos. rewrite Qred_correct.
  set (e := Z.max (Number.exponent x) (-1022) - 52).
  pose proof (pow2_pos e) as He.
  apply Qmult_le_0_compat; [|lra].
  assert (H0 : (0 <= x / Number.pow2 e)%Q).
  { apply Qle_shift_div_l; [exact He|]. lra. }
  assert (Hf : 0 <= Qfloor (x / Number.pow2 e)).
  { change 0 with (Qfloor 0). by apply Qfloor_resp_le. }
  unfold Number.round_even.
  change 0%Q with (inject_Z 0). rewrite <- Zle_Qle.
  destruct (Qcompare _ _); [destruct (Z.even _)| |]; lia.
Qed.

Lemma nearest_of_zero x : (x == 0)%Q -> Number.nearest x = 0%Q.
Proof. intros H. unfold Number.nearest. apply Qeq_alt in H. by rewrite H. Qed.

Lemma pow2_53_small : (Number.pow2 (-53) <= 1 # 9000000000000000)%Q.
Proof. apply Qle_bool_iff. vm_compute. reflexivity. Qed.

Lemma pow2_1075_small : (Number.pow2 (-1075) <= Number.pow2 (-53))%Q.
Proof. apply Qle_bool_iff. vm_compute. reflexivity. Qed.

(** Rounding a number between 0 and [B] moves it by at most
    [(B + 1) * 2 ^ -53]. *)
Lemma nearest_within (B x : Q) :
  (0 <= x <= B)%Q ->
  (x - (B + 1) * Number.pow2 (-53) <= Number.nearest x
   <= x + (B + 1) * Number.pow2 (-53))%Q.
Proof.
  intros [H0 HB].
  pose proof (nearest_error x H0) as [Hlo Hhi].
  pose proof (pow2_pos (-53)) as Hu. pose proof pow2_1075_small as Heta.
  assert (Hxu : (x * Number.pow2 (-53) <= B * Number.pow2 (-53))%Q)
    by (apply Qmult_le_compat_r; lra).
  split; lra.
Qed.

Lemma Math_round_close x :
  (x - (1 # 2) < inject_Z (Number.Math_round x) <= x + (1 # 2))%Q.
Proof.
  unfold Number.Math_round.
  pose proof (Qfloor_le (x + (1 # 2))) as Hle.
  pose proof (Qlt_floor (x + (1 # 2))) as Hlt.
  rewrite inject_Z_plus in Hlt. change (inject_Z 1) with 1%Q in Hlt.
  split; lra.
Qed.

(** The rounding of [Number] gives the numbers that the binary64
    arithmetic of the Standard Library gives, for the quotients, products
    and rounded rates of all counts [0 <= num <= total <= 60]. *)
Lemma Number_agrees_with_Binary64 :
  forallb (fun p => Binary64.agrees (fst p) (snd p)) (Binary64.pairs 60) = true.
Proof. vm_compute. reflexivity. Qed.

(** *** The rates *)

Lemma quotient_bounds a t :
  0 <= a <= t -> 0 < t -> (0 <= inject_Z a / inject_Z t <= 1)%Q.
Proof.
  intros Ha Ht.
  assert (Hq : (0 < inject_Z t)%Q) by (change 0%Q with (inject_Z 0); by rewrite <- Zlt_Qlt).
  split.
  - apply Qle_shift_div_l; [exact Hq|]. rewrite Qmult_0_l.
    change 0%Q with (inject_Z 0). rewrite <- Zle_Qle. lia.
  - apply Qle_shift_div_r; [exact Hq|]. rewrite Qmult_1_l. rewrite <- Zle_Qle. lia.
Qed.

(** The product that [Math.round] reads is within [10 ^ -11] of the
    exact number of hundredths [num / total * 10000]. *)
Lemma rate_times_100_close a t :
  0 <= a <= t -> 0 < t ->
  (inject_Z a / inject_Z t * 10000 - (1 # 100000000000)
   <= Number.mul (CampaignStats.rate a t) 100
   <= inject_Z a / inject_Z t * 10000 + (1 # 100000000000))%Q.
Proof.
  intros Ha Ht. unfold CampaignStats.rate.
  destruct (Z.ltb_spec 0 t) as [_|]; [|lia].
  pose proof (quotient_bounds a t Ha Ht) as [Hx0 Hx1].
  set (x := (inject_Z a / inject_Z t)%Q) in *.
  pose proof (pow2_pos (-53)) as Hu. pose proof pow2_53_small as Hsmall.
  unfold Number.mul, Number.div. fold x.
  pose proof (nearest_within 1 x (conj Hx0 Hx1)) as [Ha1 Ha2].
  pose proof (nearest_nonneg x Hx0) as Ha0.
  set (d := Number.nearest x) in *.
  assert (Hd : (0 <= d * 100 <= 101)%Q) by (split; lra).
  pose proof (nearest_within 101 (d * 100) Hd) as [Hp1 Hp2].
  pose proof (nearest_nonneg (d * 100) (proj1 Hd)) as Hp0.
  set (p := Number.nearest (d * 100)) in *.
  assert (Hp : (0 <= p * 100 <= 10101)%Q) by (split; lra).
  pose proof (nearest_within 10101 (p * 100) Hp) as [Hq1 Hq2].
  set (q := Number.nearest (p * 100)) in *.
  split; lra.
Qed.

(** The number of hundredths of a rounded rate is within a half, and
    [10 ^ -11], of the exact number of hundredths. *)
Lemma hundredths_close a t :
  0 <= a <= t -> 0 < t ->
  (inject_Z a / inject_Z t * 10000 - (1 # 2) - (1 # 100000000000)
   <= inject_Z (CampaignStats.hundredths a t)
   <= inject_Z a / inject_Z t * 10000 + (1 # 2) + (1 # 100000000000))%Q.
Proof.
  intros Ha Ht. unfold CampaignStats.hundredths.
  pose proof (rate_times_100_close a t Ha Ht) as [H1 H2].
  pose proof (Math_round_close (Number.mul (CampaignStats.rate a t) 100)) as [H3 H4].
  split; lra.
Qed.

Lemma hundredths_range a t :
  0 <= a <= t -> 0 < t -> 0 <= CampaignStats.hundredths a t <= 10000.
Proof.
  intros Ha Ht.
  pose proof (hundredths_close a t Ha Ht) as [H1 H2].
  pose proof (quotient_bounds a t Ha Ht) as [Hx0 Hx1].
  set (k := CampaignStats.hundredths a t) in *.
  split.
  - assert (H : (inject_Z (-1) < inject_Z k)%Q) by (change (inject_Z (-1)) with (-1)%Q; lra).
    rewrite <- Zlt_Qlt in H. lia.
  - assert (H : (inject_Z k < inject_Z 10001)%Q)
      by (change (inject_Z 10001) with 10001%Q; lra).
    rewrite <- Zlt_Qlt in H. lia.
Qed.

Lemma quotient_sum a b t :
  0 < t ->
  (inject_Z (a + b) / inject_Z t == inject_Z a / inject_Z t + inject_Z b / inject_Z t)%Q.
Proof.
  intros Ht. rewrite inject_Z_plus. field.
  intros H0. unfold Qeq in H0. simpl in H0. lia.
Qed.

Lemma hundredths_sum a b t :
  0 <= a -> 0 <= b -> a + b <= t -> 0 < t ->
  CampaignStats.hundredths a t + CampaignStats.hundredths b t <= 10001.
Proof.
  intros Ha Hb Hab Ht.
  pose proof (hundredths_close a t ltac:(lia) Ht) as [_ H1].
  pose proof (hundredths_close b t ltac:(lia) Ht) as [_ H2].
  pose proof (quotient_bounds (a + b) t ltac:(lia) Ht) as [_ Hx].
  rewrite (quotient_sum a b t Ht) in Hx.
  assert (H : (inject_Z (CampaignStats.hundredths a t + CampaignStats.hundredths b t)
               < inject_Z 10002)%Q).
  { rewrite inject_Z_plus. change (inject_Z 10002) with 10002%Q. lra. }
  rewrite <- Zlt_Qlt in H. lia.
Qed.

(** A rounded rate is the binary64 number nearest to its number of
    hundredths over 100, and within [10 ^ -13] of it. *)
Lemma round2_close a t :
  0 <= a <= t -> 0 < t ->
  (inject_Z (CampaignStats.hundredths a t) / 100 - (1 # 10000000000000)
   <= CampaignStats.round2 (CampaignStats.rate a t)
   <= inject_Z (CampaignStats.hundredths a t) / 100 + (1 # 10000000000000))%Q.
Proof.
  intros Ha Ht.
  change (CampaignStats.round2 (CampaignStats.rate a t))
    with (Number.nearest (inject_Z (CampaignStats.hundredths a t) / 100)).
  pose proof (hundredths_range a t Ha Ht) as [Hk0 Hk1].
  set (k := CampaignStats.hundredths a t) in *.
  rewrite Zle_Qle in Hk0, Hk1.
  change (inject_Z 0) with 0%Q in Hk0. change (inject_Z 10000) with 10000%Q in Hk1.
  assert (Hy : (0 <= inject_Z k / 100 <= 100)%Q).
  { split; [apply Qle_shift_div_l|apply Qle_shift_div_r]; lra. }
  pose proof (nearest_within 100 _ Hy) as [H1 H2].
  pose proof (pow2_pos (-53)) as Hu. pose proof pow2_53_small as Hsmall.
  split; lra.
Qed.

Lemma rate_zero_total num : CampaignStats.rate num 0 = 0%Q.
Proof. reflexivity. Qed.

(** With a numerator 0 the rounded rate is 0, whatever the total. *)
Lemma round2_rate_zero total : Qeq (CampaignStats.round2 (CampaignStats.rate 0 total)) 0.
Proof.
  assert (H : CampaignStats.rate 0 total = 0%Q).
  { unfold CampaignStats.rate. destruct (0 <? total); [|reflexivity].
    unfold Number.mul, Number.div.
    rewrite (nearest_of_zero (inject_Z 0 / inject_Z total))
      by (unfold Qdiv; apply Qmult_0_l).
    by apply nearest_of_zero. }
  rewrite H. vm_compute. reflexivity.
Qed.

(** *** The rates without rounding *)

Lemma exact_rate_pos a t :
  0 < t -> (CampaignStats.exact_rate a t * inject_Z t == inject_Z a * 100)%Q.
Proof.
  intros Ht. unfold CampaignStats.exact_rate. destruct (Z.ltb_spec 0 t); [|exfalso; lia].
  field. intros H0. unfold Qeq in H0. simpl in H0. lia.
Qed.

Lemma exact_rate_sum_le a b t :
  a + b <= t -> (CampaignStats.exact_rate a t + CampaignStats.exact_rate b t <= 100)%Q.
Proof.
  intros Hab. destruct (Z.ltb_spec 0 t) as [Ht|Ht].
  - pose proof (exact_rate_pos a t Ht) as Ea. pose proof (exact_rate_pos b t Ht) as Eb.
    assert (Hq : (0 < inject_Z t)%Q) by (unfold Qlt; simpl; lia).
    assert (Hs : ((CampaignStats.exact_rate a t + CampaignStats.exact_rate b t) * inject_Z t
                  <= 100 * inject_Z t)%Q).
    { rewrite Qmult_plus_distr_l, Ea, Eb.
      rewrite Zle_Qle, inject_Z_plus in Hab. lra. }
    apply Qmult_le_r in Hs; auto.
  - unfold CampaignStats.exact_rate. destruct (Z.ltb_spec 0 t); [exfalso; lia|]. lra.
Qed.

Lemma exact_rate_sum_eq a b t :
  0 < t ->
  ((CampaignStats.exact_rate a t + CampaignStats.exact_rate b t == 100)%Q <-> a + b = t).
Proof.
  intros Ht.
  pose proof (exact_rate_pos a t Ht) as Ea. pose proof (exact_rate_pos b t Ht) as Eb.
  assert (Hq : (0 < inject_Z t)%Q) by (unfold Qlt; simpl; lia).
  split.
  - intros H.
    assert (Hs : ((CampaignStats.exact_rate a t + CampaignStats.exact_rate b t) * inject_Z t
                  == 100 * inject_Z t)%Q) by (rewrite H; reflexivity).
    rewrite Qmult_plus_distr_l, Ea, Eb in Hs.
    assert (E : (inject_Z (a + b) == inject_Z t)%Q) by (rewrite inject_Z_plus; lra).
    unfold Qeq in E. simpl in E. lia.
  - intros <-. apply (Qmult_inj_r _ _ (inject_Z (a + b))); [lra|].
    rewrite Qmult_plus_distr_l, Ea, Eb, inject_Z_plus. lra.
Qed.

(** The exact number of hundredths of a rate. *)
Lemma exact_rate_hundredths a t :
  0 < t -> (CampaignStats.exact_rate a t * 100 == inject_Z a / inject_Z t * 10000)%Q.
Proof.
  intros Ht. unfold CampaignStats.exact_rate. destruct (Z.ltb_spec 0 t); [|exfalso; lia].
  field. intros H0. unfold Qeq in H0. simpl in H0. lia.
Qed.

End stats_facts.

(** C5, as stated, fails, in three ways.  With one SENT and 31 FAILED
    logs (nothing pending or queued) the rates are the binary64 numbers
    3.13 and 96.88, each rounded up from 3.125 and 96.875, and their sum
    exceeds 100.  With no log at all nothing is pending or queued and
    both rates are 0, so their sum is not 100.  With 23 SENT logs of 160
    the rate [23 / 160 * 100] is 14.375, which rounds to 14.38, but the
    binary64 product that [Math.round] reads is below 1437.5 and the
    success rate is the binary64 number 14.37. *)
Lemma rounded_rates_counterexample :
  CampaignStats.pending (CampaignStats.getCampaignStats 41 1 Examples.stats_db) = 0
  /\ CampaignStats.queued (CampaignStats.getCampaignStats 41 1 Examples.stats_db) = 0
  /\ Qeq (CampaignStats.successRate (CampaignStats.getCampaignStats 41 1 Examples.stats_db))
         (Number.nearest (313 # 100))
  /\ Qeq (CampaignStats.failureRate (CampaignStats.getCampaignStats 41 1 Examples.stats_db))
         (Number.nearest (9688 # 100))
  /\ ~ Qle (CampaignStats.successRate (CampaignStats.getCampaignStats 41 1 Examples.stats_db)
            + CampaignStats.failureRate (CampaignStats.getCampaignStats 41 1 Examples.stats_db))
           100
  /\ CampaignStats.pending (CampaignStats.getCampaignStats 41 1 Examples.db0) = 0
  /\ CampaignStats.queued (CampaignStats.getCampaignStats 41 1 Examples.db0) = 0
  /\ ~ Qeq (CampaignStats.successRate (CampaignStats.getCampaignStats 41 1 Examples.db0)
            + CampaignStats.failureRate (CampaignStats.getCampaignStats 41 1 Examples.db0))
           100
  /\ CampaignStats.sent (CampaignStats.getCampaignStats 41 1 Examples.stats_db_23_of_160) = 23
  /\ CampaignStats.total (CampaignStats.getCampaignStats 41 1 Examples.stats_db_23_of_160)
     = 160
  /\ Qeq (CampaignStats.exact_rate 23 160) (14375 # 1000)
  /\ Qeq (CampaignStats.exact_round2 (CampaignStats.exact_rate 23 160)) (1438 # 100)
  /\ Qlt (Number.mul (CampaignStats.rate 23 160) 100) (14375 # 10)
  /\ Qeq (CampaignStats.successRate
            (CampaignStats.getCampaignStats 41 1 Examples.stats_db_23_of_160))
         (Number.nearest (1437 # 100))
  /\ ~ Qeq (CampaignStats.successRate
              (CampaignStats.getCampaignStats 41 1 Examples.stats_db_23_of_160))
           (Number.nearest (1438 # 100)).
Proof.
  repeat match goal with |- _ /\ _ => split end.
  all: try (vm_compute; reflexivity).
  all: try (vm_compute; intros H; discriminate).
  all: vm_compute; intros H; apply H; reflexivity.
Qed.

(** C5, amended: in every statistics result of [getCampaignStats] the four
    status counts add up to [total].  When [total] is 0, [successRate]
    and [failureRate] are 0.  When [total] is positive, each of the two
    is the binary64 number nearest to a number of hundredths [h / 100],
    and within [10 ^ -13] of it; the integer [h] is between 0 and 10000
    and within a half, and [10 ^ -11], of the exact number of hundredths
    [sent / total * 10000] (or [failed / total * 10000]), and the two
    integers add up to at most 10001.  So each rate is within half a
    hundredth, and [10 ^ -12], of the exact rate, and the two returned
    rates add up to at most 100.01, and [10 ^ -12].  The exact rates
    [sent / total * 100] and [failed / total * 100] add up to at most
    100, and to exactly 100 if and only if [total] is positive and
    nothing is pending or queued. *)
Theorem getCampaignStats_counts_and_rates :
  forall campaignId userId db,
    CampaignStats.sent (CampaignStats.getCampaignStats campaignId userId db)
    + CampaignStats.failed (CampaignStats.getCampaignStats campaignId userId db)
    + CampaignStats.pending (CampaignStats.getCampaignStats campaignId userId db)
    + CampaignStats.queued (CampaignStats.getCampaignStats campaignId userId db)
    = CampaignStats.total (CampaignStats.getCampaignStats campaignId userId db)
    /\ (CampaignStats.total (CampaignStats.getCampaignStats campaignId userId db) = 0 ->
        Qeq (CampaignStats.successRate (CampaignStats.getCampaignStats campaignId userId db))
            0
        /\ Qeq (CampaignStats.failureRate
                  (CampaignStats.getCampaignStats campaignId userId db)) 0)
    /\ (0 < CampaignStats.total (CampaignStats.getCampaignStats campaignId userId db) ->
        exists hs hf : Z,
          CampaignStats.successRate (CampaignStats.getCampaignStats campaignId userId db)
          = Number.nearest (inject_Z hs / 100)
          /\ CampaignStats.failureRate (CampaignStats.getCampaignStats campaignId userId db)
             = Number.nearest (inject_Z hf / 100)
          /\ Qle (CampaignStats.exact_rate
                    (CampaignStats.sent (CampaignStats.getCampaignStats campaignId userId db))
                    (CampaignStats.total
                       (CampaignStats.getCampaignStats campaignId userId db)) * 100
                  - (1 # 2) - (1 # 100000000000))
                 (inject_Z hs)
          /\ Qle (inject_Z hs)
                 (CampaignStats.exact_rate
                    (CampaignStats.sent (CampaignStats.getCampaignStats campaignId userId db))
                    (CampaignStats.total
                       (CampaignStats.getCampaignStats campaignId userId db)) * 100
                  + (1 # 2) + (1 # 100000000000))
          /\ Qle (CampaignStats.exact_rate
                    (CampaignStats.failed
                       (CampaignStats.getCampaignStats campaignId userId db))
                    (CampaignStats.total
                       (CampaignStats.getCampaignStats campaignId userId db)) * 100
                  - (1 # 2) - (1 # 100000000000))
                 (inject_Z hf)
          /\ Qle (inject_Z hf)
                 (CampaignStats.exact_rate
                    (CampaignStats.failed
                       (CampaignStats.getCampaignStats campaignId userId db))
                    (CampaignStats.total
                       (CampaignStats.getCampaignStats campaignId userId db)) * 100
                  + (1 # 2) + (1 # 100000000000))
          /\ 0 <= hs <= 10000
          /\ 0 <= hf <= 10000
          /\ hs + hf <= 10001
          /\ Qle (inject_Z hs / 100 - (1 # 10000000000000))
                 (CampaignStats.successRate
                    (CampaignStats.getCampaignStats campaignId userId db))
          /\ Qle (CampaignStats.successRate
                    (CampaignStats.getCampaignStats campaignId userId db))
                 (inject_Z hs / 100 + (1 # 10000000000000))
          /\ Qle (inject_Z hf / 100 - (1 # 10000000000000))
                 (CampaignStats.failureRate
                    (CampaignStats.getCampaignStats campaignId userId db))
          /\ Qle (CampaignStats.failureRate
                    (CampaignStats.getCampaignStats campaignId userId db))
                 (inject_Z hf / 100 + (1 # 10000000000000)))
    /\ Qle (CampaignStats.exact_rate
              (CampaignStats.sent (CampaignStats.getCampaignStats campaignId userId db))
              (CampaignStats.total (CampaignStats.getCampaignStats campaignId userId db))
            + CampaignStats.exact_rate
                (CampaignStats.failed (CampaignStats.getCampaignStats campaignId userId db))
                (CampaignStats.total (CampaignStats.getCampaignStats campaignId userId db)))
           100
    /\ (Qeq (CampaignStats.exact_rate
               (CampaignStats.sent (CampaignStats.getCampaignStats campaignId userId db))
               (CampaignStats.total (CampaignStats.getCampaignStats campaignId userId db))
             + CampaignStats.exact_rate
                 (CampaignStats.failed (CampaignStats.getCampaignStats campaignId userId db))
                 (CampaignStats.total (CampaignStats.getCampaignStats campaignId userId db)))
            100
        <-> 0 < CampaignStats.total (CampaignStats.getCampaignStats campaignId userId db)
            /\ CampaignStats.pending (CampaignStats.getCampaignStats campaignId userId db) = 0
            /\ CampaignStats.queued (CampaignStats.getCampaignStats campaignId userId db) = 0)
    /\ Qle (CampaignStats.exact_rate
              (CampaignStats.sent (CampaignStats.getCampaignStats campaignId userId db))
              (CampaignStats.total (CampaignStats.getCampaignStats campaignId userId db))
            - (1 # 200) - (1 # 1000000000000))
           (CampaignStats.successRate (CampaignStats.getCampaignStats campaignId userId db))
    /\ Qle (CampaignStats.successRate (CampaignStats.getCampaignStats campaignId userId db))
           (CampaignStats.exact_rate
              (CampaignStats.sent (CampaignStats.getCampaignStats campaignId userId db))
              (CampaignStats.total (CampaignStats.getCampaignStats campaignId userId db))
            + (1 # 200) + (1 # 1000000000000))
    /\ Qle (CampaignStats.exact_rate
              (CampaignStats.failed (CampaignStats.getCampaignStats campaignId userId db))
              (CampaignStats.total (CampaignStats.getCampaignStats campaignId userId db))
            - (1 # 200) - (1 # 1000000000000))
           (CampaignStats.failureRate (CampaignStats.getCampaignStats campaignId userId db))
    /\ Qle (CampaignStats.failureRate (CampaignStats.getCampaignStats campaignId userId db))
           (CampaignStats.exact_rate
              (CampaignStats.failed (CampaignStats.getCampaignStats campaignId userId db))
              (CampaignStats.total (CampaignStats.getCampaignStats campaignId userId db))
            + (1 # 200) + (1 # 1000000000000))
    /\ Qle (CampaignStats.successRate (CampaignStats.getCampaignStats campaignId userId db)
            + CampaignStats.failureRate (CampaignStats.getCampaignStats campaignId userId db))
           ((10001 # 100) + (1 # 1000000000000)).
Proof.
  intros campaignId userId db.
  set (s := CampaignStats.getCampaignStats campaignId userId db).
  set (of_campaign := fun l : CommunicationLogModel.t =>
         match CommunicationLogModel.campaign_id l with
         | Some c => (c =? campaignId) && (CommunicationLogModel.userId l =? userId)
         | None => false
         end).
  assert (Hsum : CampaignStats.sent s + CampaignStats.failed s + CampaignStats.pending s
                 + CampaignStats.queued s = CampaignStats.total s).
  { apply (count_by_status of_campaign CommunicationLogModel.status). }
  assert (Hs : 0 <= CampaignStats.sent s) by apply countDocuments_nonneg.
  assert (Hf : 0 <= CampaignStats.failed s) by apply countDocuments_nonneg.
  assert (Hp : 0 <= CampaignStats.pending s) by apply countDocuments_nonneg.
  assert (Hq : 0 <= CampaignStats.queued s) by apply countDocuments_nonneg.
  assert (Hexact : Qle (CampaignStats.exact_rate (CampaignStats.sent s)
                          (CampaignStats.total s)
                        + CampaignStats.exact_rate (CampaignStats.failed s)
                            (CampaignStats.total s))
                       100)
    by (apply exact_rate_sum_le; lia).
  assert (Hrs : CampaignStats.successRate s
                = CampaignStats.round2
                    (CampaignStats.rate (CampaignStats.sent s) (CampaignStats.total s)))
    by reflexivity.
  assert (Hrf : CampaignStats.failureRate s
                = CampaignStats.round2
                    (CampaignStats.rate (CampaignStats.failed s) (CampaignStats.total s)))
    by reflexivity.
  assert (Hzero : CampaignStats.total s = 0 ->
                  Qeq (CampaignStats.successRate s) 0
                  /\ Qeq (CampaignStats.failureRate s) 0).
  { intros H0. rewrite Hrs, Hrf, H0. split; vm_compute; reflexivity. }
  assert (Hpos : 0 < CampaignStats.total s ->
                 let hs := CampaignStats.hundredths (CampaignStats.sent s)
                             (CampaignStats.total s) in
                 let hf := CampaignStats.hundredths (CampaignStats.failed s)
                             (CampaignStats.total s) in
                 (Qle (CampaignStats.exact_rate (CampaignStats.sent s)
                         (CampaignStats.total s) * 100 - (1 # 2) - (1 # 100000000000))
                      (inject_Z hs)
                  /\ Qle (inject_Z hs)
                         (CampaignStats.exact_rate (CampaignStats.sent s)
                            (CampaignStats.total s) * 100 + (1 # 2) + (1 # 100000000000)))
                 /\ (Qle (CampaignStats.exact_rate (CampaignStats.failed s)
                            (CampaignStats.total s) * 100 - (1 # 2) - (1 # 100000000000))
                         (inject_Z hf)
                     /\ Qle (inject_Z hf)
                            (CampaignStats.exact_rate (CampaignStats.failed s)
                               (CampaignStats.total s) * 100
                             + (1 # 2) + (1 # 100000000000)))
                 /\ 0 <= hs <= 10000 /\ 0 <= hf <= 10000 /\ hs + hf <= 10001
                 /\ (Qle (inject_Z hs / 100 - (1 # 10000000000000))
                         (CampaignStats.successRate s)
                     /\ Qle (CampaignStats.successRate s)
                            (inject_Z hs / 100 + (1 # 10000000000000)))
                 /\ (Qle (inject_Z hf / 100 - (1 # 10000000000000))
                         (CampaignStats.failureRate s)
                     /\ Qle (CampaignStats.failureRate s)
                            (inject_Z hf / 100 + (1 # 10000000000000)))).
  { intros Ht hs hf.
    rewrite !(exact_rate_hundredths _ _ Ht).
    split; [apply hundredths_close; lia|].
    split; [apply hundredths_close; lia|].
    split; [apply hundredths_range; lia|].
    split; [apply hundredths_range; lia|].
    split; [apply hundredths_sum; lia|].
    rewrite Hrs, Hrf. split; apply round2_close; lia. }
  assert (Hnear : forall a,
             (a = CampaignStats.sent s \/ a = CampaignStats.failed s) ->
             Qle (CampaignStats.exact_rate a (CampaignStats.total s)
                  - (1 # 200) - (1 # 1000000000000))
                 (CampaignStats.round2 (CampaignStats.rate a (CampaignStats.total s)))
             /\ Qle (CampaignStats.round2 (CampaignStats.rate a (CampaignStats.total s)))
                    (CampaignStats.exact_rate a (CampaignStats.total s)
                     + (1 # 200) + (1 # 1000000000000))).
  { intros a Ha.
    destruct (Z.ltb_spec 0 (CampaignStats.total s)) as [Ht|Ht].
    - assert (Hat : 0 <= a <= CampaignStats.total s) by (destruct Ha as [->| ->]; lia).
      pose proof (hundredths_close a _ Hat Ht) as [H1 H2].
      pose proof (round2_close a _ Hat Ht) as [H3 H4].
      pose proof (exact_rate_hundredths a _ Ht) as E.
      set (k := inject_Z (CampaignStats.hundredths a (CampaignStats.total s))) in *.
      assert (Ek : (k / 100 == k * (1 # 100))%Q) by (unfold Qdiv; reflexivity).
      rewrite Ek in H3, H4. split; lra.
    - assert (E0 : CampaignStats.total s = 0).
      { pose proof (countDocuments_nonneg of_campaign (communication_log db)) as H0.
        change (Mongo.countDocuments of_campaign (communication_log db))
          with (CampaignStats.total s) in H0. lia. }
      rewrite E0. split; vm_compute; discriminate. }
  split; [exact Hsum|]. split; [exact Hzero|]. split.
  { intros Ht. destruct (Hpos Ht) as ([A1 A2] & [B1 B2] & C1 & C2 & C3 & [D1 D2] & [E1 E2]).
    eexists _, _. split; [exact Hrs|]. split; [exact Hrf|].
    split; [exact A1|]. split; [exact A2|]. split; [exact B1|]. split; [exact B2|].
    split; [exact C1|]. split; [exact C2|]. split; [exact C3|].
    split; [exact D1|]. split; [exact D2|]. split; [exact E1|exact E2]. }
  split; [exact Hexact|]. split.
  { split.
    - intros Heq. destruct (Z.ltb_spec 0 (CampaignStats.total s)) as [Ht|Ht].
      + apply exact_rate_sum_eq in Heq; [lia|exact Ht].
      + exfalso. unfold CampaignStats.exact_rate in Heq.
        destruct (Z.ltb_spec 0 (CampaignStats.total s)); [lia|].
        revert Heq. vm_compute. discriminate.
    - intros (Ht & Hp0 & Hq0). apply exact_rate_sum_eq; [exact Ht|lia]. }
  rewrite Hrs, Hrf.
  destruct (Hnear (CampaignStats.sent s) (or_introl eq_refl)) as [N1 N2].
  destruct (Hnear (CampaignStats.failed s) (or_intror eq_refl)) as [N3 N4].
  split; [exact N1|]. split; [exact N2|]. split; [exact N3|]. split; [exact N4|].
  destruct (Z.ltb_spec 0 (CampaignStats.total s)) as [Ht|Ht].
  - destruct (Hpos Ht) as (_ & _ & _ & _ & C3 & [_ D2] & [_ E2]).
    rewrite Hrs in D2. rewrite Hrf in E2.
    set (hs := CampaignStats.hundredths (CampaignStats.sent s) (CampaignStats.total s)) in *.
    set (hf := CampaignStats.hundredths (CampaignStats.failed s) (CampaignStats.total s))
      in *.
    rewrite Zle_Qle, inject_Z_plus in C3. change (inject_Z 10001) with 10001%Q in C3.
    assert (Es : (inject_Z hs / 100 == inject_Z hs * (1 # 100))%Q)
      by (unfold Qdiv; reflexivity).
    assert (Ef : (inject_Z hf / 100 == inject_Z hf * (1 # 100))%Q)
      by (unfold Qdiv; reflexivity).
    rewrite Es in D2. rewrite Ef in E2. lra.
  - assert (E0 : CampaignStats.total s = 0).
    { pose proof (countDocuments_nonneg of_campaign (communication_log db)) as H0.
      change (Mongo.countDocuments of_campaign (communication_log db))
        with (CampaignStats.total s) in H0. lia. }
    rewrite E0. vm_compute. discriminate.
Qed.

(** ** Status aggregation *)

Section aggregation_facts.
Import MessageQueueService.

Lemma Status_eqb_eq a b : Status_eqb a b = true <-> a = b.
Proof. destruct a, b; simpl; split; congruence. Qed.

Lemma Status_eqb_refl a : Status_eqb a a = true.
Proof. by destruct a. Qed.

Lemma Stats_get_set k k' v r :
  Stats_get k (Stats_set k' v r) = if Status_eqb k' k then v else Stats_get k r.
Proof. by destruct k, k'. Qed.

Lemma format_other k (groups : list (Status * Z)) r :
  ~ In k (map fst groups) ->
  Stats_get k (fold_left (fun result stat => Stats_set (fst stat) (snd stat) result) groups r)
  = Stats_get k r.
Proof.
  revert r. induction groups as [|[k' n] groups IH]; intros r Hk; simpl; [done|].
  rewrite IH by (simpl in Hk; tauto).
  rewrite Stats_get_set. destruct (Status_eqb k' k) eqn:E; [|done].
  apply Status_eqb_eq in E. simpl in Hk. tauto.
Qed.

Lemma format_lookup k (groups : list (Status * Z)) r :
  List.NoDup (map fst groups) ->
  Stats_get k (fold_left (fun result stat => Stats_set (fst stat) (snd stat) result) groups r)
  = match List.find (fun g => Status_eqb (fst g) k) groups with
    | Some g => snd g
    | None => Stats_get k r
    end.
Proof.
  revert r. induction groups as [|[k' n] groups IH]; intros r Hnd; simpl; [done|].
  inversion Hnd as [|? ? Hnotin Hnd']; subst.
  destruct (Status_eqb k' k) eqn:E.
  - apply Status_eqb_eq in E. subst k'.
    rewrite format_other by done. rewrite Stats_get_set, Status_eqb_refl. done.
  - rewrite IH by done. destruct (List.find _ groups); [done|].
    rewrite Stats_get_set, E. done.
Qed.

Lemma group_add_keys x groups :
  map fst (group_add x groups)
  = if existsb (fun g => Status_eqb (fst g) x) groups
    then map fst groups else map fst groups ++ [x].
Proof.
  induction groups as [|[k' n] groups IH]; simpl; [done|].
  destruct (Status_eqb k' x) eqn:E; simpl; [done|].
  rewrite IH. by destruct (existsb _ groups).
Qed.

Lemma group_add_NoDup x groups :
  List.NoDup (map fst groups) -> List.NoDup (map fst (group_add x groups)).
Proof.
  intros Hnd. rewrite group_add_keys.
  destruct (existsb _ groups) eqn:E; [done|].
  apply NoDup_ListNoDup, NoDup_app. split; [by apply NoDup_ListNoDup|].
  split; [|apply NoDup_singleton].
  intros k Hk Hx. apply list_elem_of_In in Hx as [Hx|[]].
  apply list_elem_of_In, in_map_iff in Hk as ([k' n] & Hfst & Hin).
  assert (existsb (fun g => Status_eqb (fst g) x) groups = true); [|congruence].
  apply existsb_exists. exists (k', n). split; [done|].
  simpl in *. apply Status_eqb_eq. congruence.
Qed.

Lemma group_add_count k x groups :
  group_count k (group_add x groups)
  = group_count k groups + (if Status_eqb x k then 1 else 0).
Proof.
  unfold group_count. induction groups as [|[k' n] groups IH]; simpl.
  - destruct (Status_eqb x k); done.
  - destruct (Status_eqb k' x) eqn:Ex; simpl.
    + apply Status_eqb_eq in Ex. subst k'. destruct (Status_eqb x k); simpl; lia.
    + destruct (Status_eqb k' k) eqn:Ek; simpl; [|done].
      apply Status_eqb_eq in Ek. subst k'. rewrite <- not_true_iff_false in Ex.
      destruct (Status_eqb x k) eqn:Exk; [|lia].
      apply Status_eqb_eq in Exk. subst x. by rewrite Status_eqb_refl in Ex.
Qed.

Lemma fold_group_add k (statuses : list Status) groups :
  List.NoDup (map fst groups) ->
  List.NoDup (map fst (fold_left (fun g s => group_add s g) statuses groups))
  /\ group_count k (fold_left (fun g s => group_add s g) statuses groups)
     = group_count k groups
       + Mongo.countDocuments (fun s => Status_eqb s k) statuses.
Proof.
  revert groups. induction statuses as [|s statuses IH]; intros groups Hnd; simpl.
  - split; [done|]. unfold Mongo.countDocuments. simpl. lia.
  - destruct (IH (group_add s groups) (group_add_NoDup _ _ Hnd)) as [Hnd' Hc].
    split; [done|]. rewrite Hc, group_add_count.
    unfold Mongo.countDocuments. simpl. destruct (Status_eqb s k); simpl; lia.
Qed.

(** Grouping by status and reading a key back counts the documents with
    that status. *)
Lemma format_group_count k (statuses : list Status) :
  Stats_get k (format_stats (group_by_status statuses))
  = Mongo.countDocuments (fun s => Status_eqb s k) statuses.
Proof.
  unfold format_stats, group_by_status.
  destruct (fold_group_add k statuses [] (List.NoDup_nil _)) as [Hnd Hc].
  rewrite format_lookup by done.
  unfold group_count in Hc. simpl in Hc.
  destruct (List.find _ _); [done|]. by destruct k.
Qed.

Lemma countDocuments_map {A B : Type} (f : A -> B) (p : B -> bool) (l : list A) :
  Mongo.countDocuments p (map f l) = Mongo.countDocuments (fun x => p (f x)) l.
Proof.
  unfold Mongo.countDocuments. induction l as [|x l IH]; simpl; [done|].
  destruct (p (f x)); simpl; lia.
Qed.

End aggregation_facts.

(** ** C8: owner scoping of the statistics *)

Section owner_scoping.

Lemma filter_and_const {A : Type} (p : A -> bool) (c : bool) (l : list A) :
  List.filter (fun x => p x && c) l = if c then List.filter p l else [].
Proof.
  induction l as [|x l IH]; simpl; [by destruct c|].
  rewrite IH. destruct c, (p x); done.
Qed.

Lemma countDocuments_within {A : Type} (q owner : A -> bool) (l : list A) :
  (forall x, q x = true -> owner x = true) ->
  Mongo.countDocuments q l = Mongo.countDocuments q (List.filter owner l).
Proof.
  intros Himp. unfold Mongo.countDocuments.
  induction l as [|x l IH]; simpl; [done|].
  destruct (q x) eqn:Eq.
  - rewrite (Himp x Eq). simpl. rewrite Eq. simpl. lia.
  - destruct (owner x); simpl; [rewrite Eq|]; lia.
Qed.

Lemma getDeliveryStats_counts userId db k :
  MessageQueueService.Stats_get k
    (DeliveryReceipt.stats (DeliveryReceipt.getDeliveryStats userId None db))
  = Mongo.countDocuments
      (fun m => (SentMessageModel.userId m =? userId)
                && Status_eqb (SentMessageModel.status m) k)
      (sent_messages db).
Proof.
  unfold DeliveryReceipt.getDeliveryStats. cbn [DeliveryReceipt.stats].
  rewrite format_group_count, countDocuments_map, filter_and_const.
  unfold Mongo.countDocuments. induction (sent_messages db) as [|m l IH]; simpl; [done|].
  destruct (SentMessageModel.userId m =? userId); simpl; [|done].
  destruct (Status_eqb _ k); simpl; lia.
Qed.

Lemma getQueueStats_counts db k :
  MessageQueueService.Stats_get k (MessageQueueService.getQueueStats db)
  = Mongo.countDocuments (fun m => Status_eqb (SentMessageModel.status m) k)
                         (sent_messages db).
Proof.
  unfold MessageQueueService.getQueueStats.
  by rewrite format_group_count, countDocuments_map.
Qed.

Lemma getCampaignStats_owner campaignId userId db1 db2 :
  List.filter (fun l => CommunicationLogModel.userId l =? userId) (communication_log db1)
  = List.filter (fun l => CommunicationLogModel.userId l =? userId) (communication_log db2) ->
  CampaignStats.getCampaignStats campaignId userId db1
  = CampaignStats.getCampaignStats campaignId userId db2.
Proof.
  intros Heq. unfold CampaignStats.getCampaignStats.
  set (owner := fun l => CommunicationLogModel.userId l =? userId) in *.
  assert (Hc : forall q : CommunicationLogModel.t -> bool,
             (forall x, q x = true -> owner x = true) ->
             Mongo.countDocuments q (communication_log db1)
             = Mongo.countDocuments q (communication_log db2)).
  { intros q Hq. rewrite (countDocuments_within q owner _ Hq).
    rewrite (countDocuments_within q owner (communication_log db2) Hq).
    by rewrite Heq. }
  assert (Hof : forall x : CommunicationLogModel.t,
             match CommunicationLogModel.campaign_id x with
             | Some c => (c =? campaignId) && (CommunicationLogModel.userId x =? userId)
             | None => false
             end = true -> owner x = true).
  { intros x. destruct (CommunicationLogModel.campaign_id x); [|discriminate].
    intros [_ H]%andb_prop. exact H. }
  rewrite (Hc _ Hof).
  rewrite !(Hc (fun l => _ && Status_eqb _ _));
    try (intros x [H _]%andb_prop; by apply Hof).
  reflexivity.
Qed.

End owner_scoping.

(** C8, as stated, fails: [getQueueStats] takes no owner and its
    aggregation has no [$match] stage, so a QUEUED message of owner 2 that
    is added next to the single QUEUED message of owner 1 changes the
    QUEUED count from 1 to 2, while the records of owner 1 are the same. *)
Lemma queue_stats_count_other_owners_counterexample :
  List.filter (fun m => SentMessageModel.userId m =? 1)
              [Examples.sent 51 1 "m51" QUEUED 10]
  = List.filter (fun m => SentMessageModel.userId m =? 1)
                [Examples.sent 51 1 "m51" QUEUED 10; Examples.sent 52 2 "m52" QUEUED 20]
  /\ MessageQueueService.n_QUEUED
       (MessageQueueService.getQueueStats
          (Examples.sent_db [Examples.sent 51 1 "m51" QUEUED 10])) = 1
  /\ MessageQueueService.n_QUEUED
       (MessageQueueService.getQueueStats
          (Examples.sent_db [Examples.sent 51 1 "m51" QUEUED 10;
                             Examples.sent 52 2 "m52" QUEUED 20])) = 2
  /\ MessageQueueService.getQueueStats
       (Examples.sent_db [Examples.sent 51 1 "m51" QUEUED 10])
     <> MessageQueueService.getQueueStats
          (Examples.sent_db [Examples.sent 51 1 "m51" QUEUED 10;
                             Examples.sent 52 2 "m52" QUEUED 20]).
Proof. repeat split. vm_compute. discriminate. Qed.

(** C8, amended: the statistics that an owner reads through
    [getDeliveryStats] and [getCampaignStats] are filtered by the owner
    identifier: they are the same in any two databases that hold the same
    sent messages and communication logs of that owner, and
    [getDeliveryStats] counts that owner's sent messages per status.  The
    queue statistics of [getQueueStats] are not scoped: they count the
    sent messages of all owners per status. *)
Theorem owner_statistics_ignore_other_owners :
  forall userId campaignId db1 db2,
    List.filter (fun m => SentMessageModel.userId m =? userId) (sent_messages db1)
    = List.filter (fun m => SentMessageModel.userId m =? userId) (sent_messages db2) ->
    List.filter (fun l => CommunicationLogModel.userId l =? userId) (communication_log db1)
    = List.filter (fun l => CommunicationLogModel.userId l =? userId) (communication_log db2) ->
    (forall filter,
        DeliveryReceipt.getDeliveryStats userId filter db1
        = DeliveryReceipt.getDeliveryStats userId filter db2)
    /\ CampaignStats.getCampaignStats campaignId userId db1
       = CampaignStats.getCampaignStats campaignId userId db2
    /\ (forall k,
          MessageQueueService.Stats_get k
            (DeliveryReceipt.stats (DeliveryReceipt.getDeliveryStats userId None db1))
          = Mongo.countDocuments
              (fun m => (SentMessageModel.userId m =? userId)
                        && Status_eqb (SentMessageModel.status m) k)
              (sent_messages db1))
    /\ (forall k,
          MessageQueueService.Stats_get k (MessageQueueService.getQueueStats db1)
          = Mongo.countDocuments (fun m => Status_eqb (SentMessageModel.status m) k)
                                 (sent_messages db1)).
Proof.
  intros userId campaignId db1 db2 Hsent Hlogs. split; [|split; [|split]].
  - intros filter. unfold DeliveryReceipt.getDeliveryStats.
    by rewrite !filter_and_const, Hsent.
  - by apply getCampaignStats_owner.
  - intros k. apply getDeliveryStats_counts.
  - intros k. apply getQueueStats_counts.
Qed.

(** The theorem on two databases that differ in a message of owner 2:
    what owner 1 reads through [getDeliveryStats] is the same. *)
Lemma owner_statistics_ignore_other_owners_witness :
  DeliveryReceipt.getDeliveryStats 1 None
    (Examples.sent_db [Examples.sent 51 1 "m51" QUEUED 10])
  = DeliveryReceipt.getDeliveryStats 1 None
      (Examples.sent_db [Examples.sent 51 1 "m51" QUEUED 10;
                         Examples.sent 52 2 "m52" QUEUED 20]).
Proof.
  apply (owner_statistics_ignore_other_owners 1 41
           (Examples.sent_db [Examples.sent 51 1 "m51" QUEUED 10])
           (Examples.sent_db [Examples.sent 51 1 "m51" QUEUED 10;
                              Examples.sent 52 2 "m52" QUEUED 20])
           eq_refl eq_refl).
Defined.

(** ** C7: one wake-up of the queue processor *)

(** The ids of a concrete collection are distinct. *)
Ltac distinct_ids := repeat constructor; simpl; intuition discriminate.

Section queue_facts.
Import MessageQueueService.

Lemma oldest_least {A : Type} (key : A -> Z) (l : list A) (x : A) :
  Mongo.oldest key l = Some x ->
  In x l /\ forall y, In y l -> key x <= key y.
Proof.
  revert x. induction l as [|a l IH]; intros x; simpl; [discriminate|].
  destruct (Mongo.oldest key l) as [y|] eqn:E.
  - destruct (IH y eq_refl) as [Hin Hmin].
    destruct (Z.leb_spec (key a) (key y)); intros [= <-].
    + split; [by left|]. intros z [<-|Hz]; [lia|]. specialize (Hmin z Hz). lia.
    + split; [by right|]. intros z [<-|Hz]; [lia|]. by apply Hmin.
  - intros [= <-]. destruct l; [|simpl in E; destruct (Mongo.oldest key l); try destruct (_ <=? _); discriminate].
    split; [by left|]. intros z [<-|[]]. lia.
Qed.

Lemma oldest_none {A : Type} (key : A -> Z) (l : list A) :
  Mongo.oldest key l = None -> l = [].
Proof.
  destruct l as [|a l]; [done|]. simpl.
  destruct (Mongo.oldest key l); [destruct (_ <=? _)|]; discriminate.
Qed.

(** With distinct ids, an update by id rewrites exactly the position of
    the document that carries the id. *)
Lemma updateOne_by_id {A : Type} (id : A -> Z) (f : A -> A) (l : list A) (m : A) :
  List.NoDup (map id l) -> In m l ->
  exists i : nat,
    l !! i = Some m /\ Mongo.updateOne (fun x => id x =? id m) f l = <[i := f m]> l.
Proof.
  induction l as [|x l IH]; intros Hnd Hin; [destruct Hin|].
  inversion Hnd as [|? ? Hnotin Hnd']; subst. simpl.
  destruct (Z.eqb_spec (id x) (id m)) as [E|E].
  - assert (x = m) as ->.
    { destruct Hin as [->|Hin]; [done|]. exfalso. apply Hnotin.
      rewrite E. by apply in_map. }
    by exists 0%nat.
  - destruct Hin as [->|Hin]; [done|].
    destruct (IH Hnd' Hin) as (i & Hi & Hup).
    exists (S i). simpl. by rewrite Hup.
Qed.

(** An update of the first match rewrites one position, or nothing. *)
Lemma updateOne_position {A : Type} (p : A -> bool) (f : A -> A) (l : list A) :
  match List.find p l with
  | Some x => exists i : nat, l !! i = Some x /\ Mongo.updateOne p f l = <[i := f x]> l
  | None => Mongo.updateOne p f l = l
  end.
Proof.
  induction l as [|x l IH]; simpl; [done|].
  destruct (p x); [by exists 0%nat|].
  destruct (List.find p l) as [y|].
  - destruct IH as (i & Hi & Hup). exists (S i). simpl. by rewrite Hup.
  - by rewrite IH.
Qed.

Lemma failure_reason_drawn (random2 : Q) :
  Qle 0 random2 -> Qlt random2 1 ->
  exists e,
    nth_error failureReasons
      (Z.to_nat (Qfloor (random2 * inject_Z (Z.of_nat (length failureReasons))))) = Some e
    /\ In e failureReasons.
Proof.
  intros H0 H1.
  change (inject_Z (Z.of_nat (length failureReasons))) with 10%Q.
  set (x := (random2 * 10)%Q).
  assert (Hlo : 0 <= Qfloor x).
  { change 0 with (Qfloor 0). apply Qfloor_resp_le. unfold x. lra. }
  assert (Hhi : Qfloor x < 10).
  { rewrite Zlt_Qlt. apply Qle_lt_trans with x; [apply Qfloor_le|]. unfold x. 
    change (inject_Z 10) with 10%Q. lra. }
  destruct (nth_error failureReasons (Z.to_nat (Qfloor x))) as [e|] eqn:E.
  - exists e. split; [done|]. by apply nth_error_In in E.
  - exfalso. apply nth_error_None in E. change (length failureReasons) with 10%nat in E. lia.
Qed.

End queue_facts.

Lemma same_id_eq (a b : option string) :
  MessageQueueService.same_id a b = true <-> a = b.
Proof.
  destruct a as [x|], b as [y|]; simpl; try (split; congruence).
  rewrite String.eqb_eq. split; congruence.
Qed.

(** C7: one wake-up of the queue processor, for a sent-message store with
    distinct ids and a random draw in [[0, 1)].  A wake-up that finds the
    service busy, or no QUEUED record, leaves the database as it is.
    Otherwise the record taken is QUEUED and no QUEUED record was created
    before it; exactly its position in the sent-message store is
    rewritten, with status SENT or FAILED, the time of the update, and on
    FAILED an error; the first communication log with the same message id,
    if there is one, is rewritten at its position with the same status,
    time and error, and no other log changes. *)
Theorem processQueue_drains_oldest_queued :
  forall now random1 random2 this db,
    List.NoDup (map SentMessageModel._id (sent_messages db)) ->
    Qle 0 random2 -> Qlt random2 1 ->
    match MessageQueueService.isProcessing this, MessageQueueService.getNextMessage db with
    | true, _ => MessageQueueService.processQueue now random1 random2 this db = (this, db)
    | false, None =>
        MessageQueueService.processQueue now random1 random2 this db
        = ({| MessageQueueService.isProcessing := false |}, db)
        /\ forall m, In m (sent_messages db) -> SentMessageModel.status m <> QUEUED
    | false, Some queuedMessage =>
        In queuedMessage (sent_messages db)
        /\ SentMessageModel.status queuedMessage = QUEUED
        /\ (forall m, In m (sent_messages db) -> SentMessageModel.status m = QUEUED ->
                      SentMessageModel.createdAt queuedMessage <= SentMessageModel.createdAt m)
        /\ exists (finalStatus : Status) (errorMessage : option string) (i : nat)
                  (db' : DB),
            MessageQueueService.processQueue now random1 random2 this db
            = ({| MessageQueueService.isProcessing := false |}, db')
            /\ (finalStatus = SENT /\ errorMessage = None
                \/ finalStatus = FAILED
                   /\ exists e, errorMessage = Some e
                                /\ In e MessageQueueService.failureReasons)
            /\ sent_messages db !! i = Some queuedMessage
            /\ sent_messages db'
               = <[i := MessageQueueService.set_sent finalStatus now errorMessage queuedMessage]>
                   (sent_messages db)
            /\ SentMessageModel.status
                 (MessageQueueService.set_sent finalStatus now errorMessage queuedMessage)
               = finalStatus
            /\ SentMessageModel.updatedAt
                 (MessageQueueService.set_sent finalStatus now errorMessage queuedMessage)
               = now
            /\ (finalStatus = FAILED ->
                SentMessageModel.errorMessage
                  (MessageQueueService.set_sent finalStatus now errorMessage queuedMessage)
                = errorMessage)
            /\ match List.find
                       (fun l => MessageQueueService.same_id
                                   (CommunicationLogModel.vendor_message_id l)
                                   (SentMessageModel.messageId queuedMessage))
                       (communication_log db) with
               | None => communication_log db' = communication_log db
               | Some log =>
                   exists (j : nat) (log' : CommunicationLogModel.t),
                     communication_log db !! j = Some log
                     /\ CommunicationLogModel.vendor_message_id log
                        = SentMessageModel.messageId queuedMessage
                     /\ communication_log db' = <[j := log']> (communication_log db)
                     /\ CommunicationLogModel.vendor_message_id log'
                        = SentMessageModel.messageId queuedMessage
                     /\ CommunicationLogModel.status log' = finalStatus
                     /\ CommunicationLogModel.updated_at log' = Some now
                     /\ (finalStatus = FAILED ->
                         CommunicationLogModel.error_message log' = errorMessage)
                     /\ (finalStatus = SENT ->
                         CommunicationLogModel.sent_at log' = Some now)
               end
            /\ customers db' = customers db
            /\ segments db' = segments db
            /\ campaigns db' = campaigns db
    end.
Proof.
  intros now random1 random2 this db Hnd H0 H1.
  unfold MessageQueueService.processQueue.
  destruct (MessageQueueService.isProcessing this); [reflexivity|].
  destruct (MessageQueueService.getNextMessage db) as [queuedMessage|] eqn:Hnext.
  - unfold MessageQueueService.getNextMessage in Hnext.
    apply oldest_least in Hnext as [Hin Hmin].
    apply filter_In in Hin as [Hin Hst]. apply Status_eqb_eq in Hst.
    split; [exact Hin|]. split; [exact Hst|]. split.
    { intros m Hm Hq. apply Hmin. apply filter_In. split; [exact Hm|].
      by apply Status_eqb_eq. }
    set (isSuccess := if Qlt_le_dec random1 (9 # 10) then true else false).
    set (finalStatus := if isSuccess then SENT else FAILED).
    set (errorMessage :=
           if isSuccess then None
           else nth_error MessageQueueService.failureReasons
                  (Z.to_nat (Qfloor (random2 * inject_Z
                     (Z.of_nat (length MessageQueueService.failureReasons)))))).
    destruct (updateOne_by_id SentMessageModel._id
                (MessageQueueService.set_sent finalStatus now errorMessage)
                (sent_messages db) queuedMessage Hnd Hin) as (i & Hi & Hup).
    destruct (failure_reason_drawn random2 H0 H1) as (e & He & Hine).
    assert (Hcases : finalStatus = SENT /\ errorMessage = None
                     \/ finalStatus = FAILED /\ errorMessage = Some e).
    { unfold finalStatus, errorMessage, isSuccess.
      destruct (Qlt_le_dec random1 (9 # 10)); [by left|by right]. }
    exists finalStatus, errorMessage, i. eexists. split; [reflexivity|].
    cbn [sent_messages communication_log customers segments campaigns
         Mongo.with_sent_messages Mongo.with_communication_log].
    split.
    { destruct Hcases as [[? ?]|[? ?]]; [by left|right]. split; [done|]. by exists e. }
    split; [exact Hi|]. split; [exact Hup|]. split; [reflexivity|].
    split; [reflexivity|]. split.
    { intros Hf. destruct Hcases as [[? ?]|[_ ->]]; [congruence|]. reflexivity. }
    split; [|done].
    pose proof (updateOne_position
                  (fun l => MessageQueueService.same_id
                              (CommunicationLogModel.vendor_message_id l)
                              (SentMessageModel.messageId queuedMessage))
                  (MessageQueueService.set_log finalStatus now isSuccess errorMessage)
                  (communication_log db)) as Hpos.
    destruct (List.find _ (communication_log db)) as [log|] eqn:Hfind; [|exact Hpos].
    destruct Hpos as (j & Hj & Hupl).
    apply find_some in Hfind as [_ Hsame]. apply same_id_eq in Hsame.
    exists j. eexists. split; [exact Hj|]. split; [exact Hsame|]. split; [exact Hupl|].
    split; [exact Hsame|]. split; [reflexivity|]. split; [reflexivity|]. split.
    + intros Hf. destruct Hcases as [[? ?]|[_ ->]]; [congruence|]. reflexivity.
    + intros Hs. unfold finalStatus in Hs. cbn. destruct isSuccess; [reflexivity|discriminate].
  - split; [reflexivity|]. intros m Hm Hq.
    unfold MessageQueueService.getNextMessage in Hnext. apply oldest_none in Hnext.
    assert (Hin : In m (List.filter
                          (fun m => Status_eqb (SentMessageModel.status m) QUEUED)
                          (sent_messages db))).
    { apply filter_In. split; [exact Hm|]. by apply Status_eqb_eq. }
    rewrite Hnext in Hin. destruct Hin.
Qed.

(** The theorem on the sample queue: ids 51, 52, 53 are distinct, the draw
    3/10 is in range, and the wake-up takes message [m53], the QUEUED
    record created first although it was stored last. *)
Lemma processQueue_drains_oldest_queued_witness :
  List.NoDup (map SentMessageModel._id (sent_messages Examples.queue_db))
  /\ Qle 0 (3 # 10) /\ Qlt (3 # 10) 1
  /\ exists (i : nat) (db' : DB),
       MessageQueueService.processQueue 1000 (1 # 2) (3 # 10)
         {| MessageQueueService.isProcessing := false |} Examples.queue_db
       = ({| MessageQueueService.isProcessing := false |}, db')
       /\ sent_messages Examples.queue_db !! i = Some (Examples.sent 53 2 "m53" QUEUED 10).
Proof.
  assert (Hnd : List.NoDup (map SentMessageModel._id (sent_messages Examples.queue_db))).
  { distinct_ids. }
  assert (H0 : Qle 0 (3 # 10)) by (unfold Qle; simpl; lia).
  assert (H1 : Qlt (3 # 10) 1) by (unfold Qlt; simpl; lia).
  split; [exact Hnd|]. split; [exact H0|]. split; [exact H1|].
  pose proof (processQueue_drains_oldest_queued 1000 (1 # 2) (3 # 10)
                {| MessageQueueService.isProcessing := false |} Examples.queue_db
                Hnd H0 H1) as H.
  assert (Hnext : MessageQueueService.getNextMessage Examples.queue_db
                  = Some (Examples.sent 53 2 "m53" QUEUED 10)) by reflexivity.
  rewrite Hnext in H. cbn [MessageQueueService.isProcessing] in H.
  destruct H as (_ & _ & _ & st & err & i & db' & Heq & _ & Hi & _).
  exists i, db'. split; [exact Heq | exact Hi].
Defined.

(** ** C2: terminal records and repeated receipts *)

Section receipt_facts.
Import DeliveryReceipt.

Lemma updateOne_twice {A : Type} (p : A -> bool) (f g : A -> A) (l : list A) :
  (forall x, p (g x) = p x) ->
  Mongo.updateOne p f (Mongo.updateOne p g l) = Mongo.updateOne p (fun x => f (g x)) l.
Proof.
  intros Hp. induction l as [|x l IH]; simpl; [done|].
  destruct (p x) eqn:E; simpl.
  - by rewrite Hp, E.
  - by rewrite E, IH.
Qed.

Lemma updateOne_ext {A : Type} (p : A -> bool) (f g : A -> A) (l : list A) :
  (forall x, f x = g x) -> Mongo.updateOne p f l = Mongo.updateOne p g l.
Proof.
  intros Hfg. induction l as [|x l IH]; simpl; [done|].
  destruct (p x); by rewrite ?Hfg, ?IH.
Qed.

(** After an update by id that keeps what a query reads, the query finds
    the updated document. *)
Lemma find_after_update_by_id {A : Type} (id : A -> Z) (q : A -> bool) (g : A -> A)
      (l : list A) (x : A) :
  List.NoDup (map id l) ->
  (forall y, q (g y) = q y) ->
  List.find q l = Some x ->
  List.find q (Mongo.updateOne (fun y => id y =? id x) g l) = Some (g x).
Proof.
  intros Hnd Hq. induction l as [|y l IH]; simpl; [discriminate|].
  inversion Hnd as [|? ? Hnotin Hnd']; subst.
  destruct (q y) eqn:E.
  - intros [= ->]. rewrite Z.eqb_refl. simpl. by rewrite Hq, E.
  - intros Hfind. destruct (Z.eqb_spec (id y) (id x)) as [Eid|Eid].
    + exfalso. apply Hnotin. rewrite Eid. apply in_map.
      by apply find_some in Hfind as [Hin _].
    + simpl. rewrite E. by apply IH.
Qed.

Lemma update_log_twice st now1 now2 at_ err l :
  update_log st now2 at_ err (update_log st now1 at_ err l) = update_log st now2 at_ err l.
Proof.
  unfold update_log. simpl.
  destruct (String.eqb st "SENT"); [done|].
  by destruct (String.eqb st "FAILED" && truthy err).
Qed.

Lemma update_sent_twice st at_ err m :
  update_sent st at_ err (update_sent st at_ err m) = update_sent st at_ err m.
Proof.
  unfold update_sent. simpl. by destruct (String.eqb st "FAILED" && truthy err).
Qed.

(** Handling the same receipt a second time gives the database that a
    single handling at the later time gives. *)
Lemma handleDeliveryReceipt_repeat now1 now2 req db :
  List.NoDup (map CommunicationLogModel._id (communication_log db)) ->
  fst (handleDeliveryReceipt now2 req (fst (handleDeliveryReceipt now1 req db)))
  = fst (handleDeliveryReceipt now2 req db).
Proof.
  intros Hnd. unfold handleDeliveryReceipt.
  destruct (messageId req) as [|c mid] eqn:Hmid; [done|].
  destruct (status req) as [|c' st] eqn:Hst; [done|].
  destruct (deliveredAt req) as [at_|]; [|done].
  destruct (negb (Js.includes ["SENT"; "FAILED"] (String c' st))); [done|].
  unfold find_log. rewrite Hmid.
  destruct (List.find _ (communication_log db)) as [log|] eqn:Hfind; [|simpl; by rewrite Hfind].
  cbn [fst communication_log sent_messages Mongo.with_sent_messages
       Mongo.with_communication_log].
  rewrite (find_after_update_by_id CommunicationLogModel._id _ _ _ log Hnd); [|done|done].
  cbn [fst communication_log sent_messages Mongo.with_sent_messages
       Mongo.with_communication_log update_log CommunicationLogModel._id].
  rewrite updateOne_twice by done.
  rewrite (updateOne_twice (fun m => MessageQueueService.same_id _ _)) by done.
  rewrite (updateOne_ext _
             (fun x => update_log (String c' st) now2 at_ (errorMessage req)
                         (update_log (String c' st) now1 at_ (errorMessage req) x))
             (update_log (String c' st) now2 at_ (errorMessage req)))
    by (intros l; apply update_log_twice).
  rewrite (updateOne_ext _
             (fun x => update_sent (String c' st) at_ (errorMessage req)
                         (update_sent (String c' st) at_ (errorMessage req) x))
             (update_sent (String c' st) at_ (errorMessage req)))
    by (intros m; apply update_sent_twice).
  reflexivity.
Qed.

(** A wake-up of the queue processor leaves every sent-message record
    that is not QUEUED as it is. *)
Lemma processQueue_keeps_others now random1 random2 this db (j : nat) m :
  List.NoDup (map SentMessageModel._id (sent_messages db)) ->
  sent_messages db !! j = Some m ->
  SentMessageModel.status m <> QUEUED ->
  sent_messages (snd (MessageQueueService.processQueue now random1 random2 this db)) !! j
  = Some m.
Proof.
  intros Hnd Hj Hst. unfold MessageQueueService.processQueue.
  destruct (MessageQueueService.isProcessing this); [done|].
  destruct (MessageQueueService.getNextMessage db) as [queuedMessage|] eqn:Hnext; [|done].
  unfold MessageQueueService.getNextMessage in Hnext.
  apply oldest_least in Hnext as [Hin _].
  apply filter_In in Hin as [Hin Hq]. apply Status_eqb_eq in Hq.
  cbn [snd sent_messages Mongo.with_sent_messages Mongo.with_communication_log].
  destruct (updateOne_by_id SentMessageModel._id
              (MessageQueueService.set_sent
                 (if (if Qlt_le_dec random1 (9 # 10) then true else false)
                  then SENT else FAILED) now
                 (if (if Qlt_le_dec random1 (9 # 10) then true else false) then None
                  else nth_error MessageQueueService.failureReasons
                         (Z.to_nat (Qfloor (random2 * inject_Z
                            (Z.of_nat (length MessageQueueService.failureReasons)))))))
              (sent_messages db) queuedMessage Hnd Hin) as (i & Hi & Hup).
  rewrite Hup. rewrite list_lookup_insert_ne; [done|].
  intros ->. rewrite Hi in Hj. congruence.
Qed.

(** An update of the first match leaves a document that does not match
    where it is. *)
Lemma updateOne_lookup_other {A : Type} (p : A -> bool) (f : A -> A) (l : list A)
      (j : nat) (x : A) :
  l !! j = Some x -> p x = false -> Mongo.updateOne p f l !! j = Some x.
Proof.
  revert j. induction l as [|y l IH]; intros j Hj Hp; [done|]. simpl.
  destruct (p y) eqn:E.
  - destruct j as [|j]; [|exact Hj]. simpl in Hj. injection Hj as ->. congruence.
  - destruct j as [|j]; [exact Hj|]. simpl. by apply IH.
Qed.

(** With distinct ids, an update by id rewrites the document that
    carries the id, where it is. *)
Lemma updateOne_lookup_id {A : Type} (id : A -> Z) (f : A -> A) (l : list A)
      (j : nat) (x : A) (key : Z) :
  List.NoDup (map id l) -> l !! j = Some x -> id x = key ->
  Mongo.updateOne (fun y => id y =? key) f l !! j = Some (f x).
Proof.
  intros Hnd Hj <-.
  destruct (updateOne_by_id id f l x Hnd) as (i & Hi & Hup).
  { by apply list_elem_of_lookup_2, list_elem_of_In in Hj. }
  rewrite Hup.
  assert (i = j) as ->.
  { apply (NoDup_lookup (id <$> l) i j (id x)).
    - apply NoDup_ListNoDup. exact Hnd.
    - by rewrite list_lookup_fmap, Hi.
    - by rewrite list_lookup_fmap, Hj. }
  apply list_lookup_insert_eq. by apply lookup_lt_Some in Hj.
Qed.

(** A wake-up that nothing interleaves is its two parts, one after the
    other on the same database. *)
Lemma processQueue_in_two_parts now random1 random2 this db :
  snd (MessageQueueService.processQueue now random1 random2 this db)
  = match MessageQueueService.processQueue_take this db with
    | Some queuedMessage =>
        MessageQueueService.processQueue_write now random1 random2 queuedMessage db
    | None => db
    end.
Proof.
  unfold MessageQueueService.processQueue, MessageQueueService.processQueue_take.
  destruct (MessageQueueService.isProcessing this); [reflexivity|].
  by destruct (MessageQueueService.getNextMessage db).
Qed.

(** The writes of a wake-up leave every sent-message record with another
    id than the message taken as it is. *)
Lemma processQueue_write_keeps_others now random1 random2 queuedMessage later
      (j : nat) m :
  sent_messages later !! j = Some m ->
  SentMessageModel._id m <> SentMessageModel._id queuedMessage ->
  sent_messages
    (MessageQueueService.processQueue_write now random1 random2 queuedMessage later) !! j
  = Some m.
Proof.
  intros Hj Hid. unfold MessageQueueService.processQueue_write.
  cbn [sent_messages Mongo.with_sent_messages Mongo.with_communication_log].
  apply updateOne_lookup_other; [exact Hj|]. by apply Z.eqb_neq.
Qed.

(** The writes of a wake-up set the status of the record that carries
    the id of the message taken, whatever its status is by then. *)
Lemma processQueue_write_overwrites now random1 random2 queuedMessage later
      (j : nat) m :
  List.NoDup (map SentMessageModel._id (sent_messages later)) ->
  sent_messages later !! j = Some m ->
  SentMessageModel._id m = SentMessageModel._id queuedMessage ->
  SentMessageModel.status <$>
    sent_messages
      (MessageQueueService.processQueue_write now random1 random2 queuedMessage later) !! j
  = Some (if Qlt_le_dec random1 (9 # 10) then SENT else FAILED).
Proof.
  intros Hnd Hj Hid. unfold MessageQueueService.processQueue_write.
  cbn [sent_messages Mongo.with_sent_messages Mongo.with_communication_log].
  rewrite (updateOne_lookup_id SentMessageModel._id _ _ j m _ Hnd Hj Hid).
  cbn [fmap option_fmap option_map MessageQueueService.set_sent SentMessageModel.status].
  by destruct (Qlt_le_dec random1 (9 # 10)).
Qed.

(** The status that a validated receipt carries. *)
Lemma as_status_terminal st :
  Js.includes ["SENT"; "FAILED"] st = true ->
  (st = "SENT" /\ as_status st = SENT) \/ (st = "FAILED" /\ as_status st = FAILED).
Proof.
  unfold Js.includes. simpl. rewrite !orb_true_iff.
  intros [H|[H|H]]; [| |discriminate]; apply String.eqb_eq in H; subst; [by left|by right].
Qed.

(** An accepted receipt rewrites the communication log that it finds and
    the first sent-message record with its message id. *)
Lemma handleDeliveryReceipt_rewrites now req db log at_ :
  List.NoDup (map CommunicationLogModel._id (communication_log db)) ->
  messageId req <> EmptyString ->
  Js.includes ["SENT"; "FAILED"] (status req) = true ->
  deliveredAt req = Some at_ ->
  find_log req db = Some log ->
  (exists j : nat,
      communication_log db !! j = Some log
      /\ communication_log (fst (handleDeliveryReceipt now req db))
         = <[j := update_log (status req) now at_ (errorMessage req) log]>
             (communication_log db))
  /\ match List.find (fun m => MessageQueueService.same_id (SentMessageModel.messageId m)
                                                            (Some (messageId req)))
                     (sent_messages db) with
     | Some m =>
         exists i : nat,
           sent_messages db !! i = Some m
           /\ sent_messages (fst (handleDeliveryReceipt now req db))
              = <[i := update_sent (status req) at_ (errorMessage req) m]>
                  (sent_messages db)
     | None => sent_messages (fst (handleDeliveryReceipt now req db)) = sent_messages db
     end.
Proof.
  intros Hnd Hmid Hst Hat Hfind. unfold handleDeliveryReceipt.
  rewrite Hat, Hfind, Hst.
  destruct (messageId req) as [|c mid] eqn:Emid; [done|].
  destruct (status req) as [|c' st] eqn:Est; [discriminate|].
  cbn [negb fst communication_log sent_messages Mongo.with_sent_messages
       Mongo.with_communication_log].
  split.
  - apply updateOne_by_id; [exact Hnd|].
    unfold find_log in Hfind. rewrite Emid in Hfind.
    by apply find_some in Hfind as [Hin _].
  - apply (updateOne_position
             (fun m => MessageQueueService.same_id (SentMessageModel.messageId m)
                                                   (Some (String c mid)))).
Qed.

End receipt_facts.

(** C2, as stated, fails.  Message [m51] of the sample queue is SENT in
    both stores; a FAILED receipt for it is accepted and rewrites both
    records to FAILED.  The queue processor overwrites a terminal record
    too: a wake-up takes the QUEUED message [m53]; during its delay a
    FAILED receipt for [m53] arrives and makes both records FAILED; the
    writes of the wake-up then set both to SENT. *)
Lemma terminal_record_overwritten_counterexample :
  communication_log Examples.queue_db !! 0%nat = Some (Examples.log_for 61 "m51" SENT)
  /\ sent_messages Examples.queue_db !! 0%nat = Some (Examples.sent 51 1 "m51" SENT 5)
  /\ terminal SENT = true
  /\ snd (DeliveryReceipt.handleDeliveryReceipt 3000 Examples.failed_receipt_m51
            Examples.queue_db)
     = DeliveryReceipt.Success "m51" "FAILED" 3000
  /\ CommunicationLogModel.status <$>
       communication_log
         (fst (DeliveryReceipt.handleDeliveryReceipt 3000 Examples.failed_receipt_m51
                 Examples.queue_db)) !! 0%nat
     = Some FAILED
  /\ SentMessageModel.status <$>
       sent_messages
         (fst (DeliveryReceipt.handleDeliveryReceipt 3000 Examples.failed_receipt_m51
                 Examples.queue_db)) !! 0%nat
     = Some FAILED
  /\ fst (DeliveryReceipt.handleDeliveryReceipt 3000 Examples.failed_receipt_m51
            Examples.queue_db)
     <> Examples.queue_db
  /\ MessageQueueService.processQueue_take {| MessageQueueService.isProcessing := false |}
       Examples.queue_db
     = Some (Examples.sent 53 2 "m53" QUEUED 10)
  /\ SentMessageModel.status <$>
       sent_messages
         (fst (DeliveryReceipt.handleDeliveryReceipt 3000 Examples.failed_receipt_m53
                 Examples.queue_db)) !! 2%nat
     = Some FAILED
  /\ CommunicationLogModel.status <$>
       communication_log
         (fst (DeliveryReceipt.handleDeliveryReceipt 3000 Examples.failed_receipt_m53
                 Examples.queue_db)) !! 2%nat
     = Some FAILED
  /\ terminal FAILED = true
  /\ SentMessageModel.status <$>
       sent_messages
         (MessageQueueService.processQueue_write 4000 (1 # 2) (3 # 10)
            (Examples.sent 53 2 "m53" QUEUED 10)
            (fst (DeliveryReceipt.handleDeliveryReceipt 3000 Examples.failed_receipt_m53
                    Examples.queue_db))) !! 2%nat
     = Some SENT
  /\ CommunicationLogModel.status <$>
       communication_log
         (MessageQueueService.processQueue_write 4000 (1 # 2) (3 # 10)
            (Examples.sent 53 2 "m53" QUEUED 10)
            (fst (DeliveryReceipt.handleDeliveryReceipt 3000 Examples.failed_receipt_m53
                    Examples.queue_db))) !! 2%nat
     = Some SENT.
Proof.
  repeat match goal with |- _ /\ _ => split end;
    try (vm_compute; reflexivity).
  vm_compute. discriminate.
Qed.

(** C2, amended: for stores with distinct ids, a wake-up of the queue
    processor that no other handler interleaves leaves every
    sent-message record that is not QUEUED as it is; a delivery receipt
    with a message id, a status SENT or FAILED and a delivery time, whose
    message id has a communication log, is answered with success whatever
    the status of that log; and handling the same receipt again gives the
    database that handling it once, at the later time, gives.  A receipt
    is not held back by a terminal status: it rewrites the communication
    log that it finds and the first sent-message record with its message
    id, both to the status that it carries, which is SENT or FAILED, and
    nothing else in the two stores.  Nor are the writes of a wake-up,
    which come after its delay: on the database as it is by then they
    leave every sent-message record with another id than the message
    taken as it is, and set the status of the record with that id to SENT
    or FAILED whatever its status has become; a wake-up that nothing
    interleaves is the take and the writes on the same database. *)
Theorem receipts_and_drain_on_terminal_records :
  forall now1 now2 req db,
    List.NoDup (map CommunicationLogModel._id (communication_log db)) ->
    List.NoDup (map SentMessageModel._id (sent_messages db)) ->
    (forall now random1 random2 this (j : nat) m,
        sent_messages db !! j = Some m ->
        SentMessageModel.status m <> QUEUED ->
        sent_messages (snd (MessageQueueService.processQueue now random1 random2 this db)) !! j
        = Some m)
    /\ (forall log at_,
          DeliveryReceipt.messageId req <> EmptyString ->
          Js.includes ["SENT"; "FAILED"] (DeliveryReceipt.status req) = true ->
          DeliveryReceipt.deliveredAt req = Some at_ ->
          DeliveryReceipt.find_log req db = Some log ->
          snd (DeliveryReceipt.handleDeliveryReceipt now1 req db)
          = DeliveryReceipt.Success (DeliveryReceipt.messageId req)
              (DeliveryReceipt.status req) now1)
    /\ fst (DeliveryReceipt.handleDeliveryReceipt now2 req
              (fst (DeliveryReceipt.handleDeliveryReceipt now1 req db)))
       = fst (DeliveryReceipt.handleDeliveryReceipt now2 req db)
    /\ (forall log at_,
          DeliveryReceipt.messageId req <> EmptyString ->
          Js.includes ["SENT"; "FAILED"] (DeliveryReceipt.status req) = true ->
          DeliveryReceipt.deliveredAt req = Some at_ ->
          DeliveryReceipt.find_log req db = Some log ->
          (exists (j : nat) (log' : CommunicationLogModel.t),
              communication_log db !! j = Some log
              /\ communication_log (fst (DeliveryReceipt.handleDeliveryReceipt now1 req db))
                 = <[j := log']> (communication_log db)
              /\ CommunicationLogModel.status log'
                 = DeliveryReceipt.as_status (DeliveryReceipt.status req)
              /\ CommunicationLogModel.updated_at log' = Some now1)
          /\ match List.find
                     (fun m => MessageQueueService.same_id (SentMessageModel.messageId m)
                                 (Some (DeliveryReceipt.messageId req)))
                     (sent_messages db) with
             | Some m =>
                 exists (i : nat) (m' : SentMessageModel.t),
                   sent_messages db !! i = Some m
                   /\ sent_messages (fst (DeliveryReceipt.handleDeliveryReceipt now1 req db))
                      = <[i := m']> (sent_messages db)
                   /\ SentMessageModel.status m'
                      = DeliveryReceipt.as_status (DeliveryReceipt.status req)
                   /\ SentMessageModel.sentAt m' = at_
             | None =>
                 sent_messages (fst (DeliveryReceipt.handleDeliveryReceipt now1 req db))
                 = sent_messages db
             end
          /\ terminal (DeliveryReceipt.as_status (DeliveryReceipt.status req)) = true
          /\ (DeliveryReceipt.status req = "SENT"
              /\ DeliveryReceipt.as_status (DeliveryReceipt.status req) = SENT
              \/ DeliveryReceipt.status req = "FAILED"
                 /\ DeliveryReceipt.as_status (DeliveryReceipt.status req) = FAILED))
    /\ (forall now random1 random2 this,
          snd (MessageQueueService.processQueue now random1 random2 this db)
          = match MessageQueueService.processQueue_take this db with
            | Some queuedMessage =>
                MessageQueueService.processQueue_write now random1 random2 queuedMessage db
            | None => db
            end)
    /\ (forall now random1 random2 queuedMessage later (j : nat) m,
          sent_messages later !! j = Some m ->
          SentMessageModel._id m <> SentMessageModel._id queuedMessage ->
          sent_messages
            (MessageQueueService.processQueue_write now random1 random2 queuedMessage later)
            !! j
          = Some m)
    /\ (forall now random1 random2 queuedMessage later (j : nat) m,
          List.NoDup (map SentMessageModel._id (sent_messages later)) ->
          sent_messages later !! j = Some m ->
          SentMessageModel._id m = SentMessageModel._id queuedMessage ->
          exists finalStatus,
            SentMessageModel.status <$>
              sent_messages
                (MessageQueueService.processQueue_write now random1 random2 queuedMessage
                   later) !! j
            = Some finalStatus
            /\ terminal finalStatus = true).
Proof.
  intros now1 now2 req db Hlogs Hsent.
  split; [|split; [|split; [|split; [|split; [|split]]]]].
  - intros now random1 random2 this j m Hj Hst.
    by apply processQueue_keeps_others.
  - intros log at_ Hmid Hst Hat Hfind. unfold DeliveryReceipt.handleDeliveryReceipt.
    rewrite Hat, Hfind, Hst.
    destruct (DeliveryReceipt.messageId req); [done|].
    destruct (DeliveryReceipt.status req); [discriminate|]. reflexivity.
  - by apply handleDeliveryReceipt_repeat.
  - intros log at_ Hmid Hst Hat Hfind.
    destruct (handleDeliveryReceipt_rewrites now1 req db log at_ Hlogs Hmid Hst Hat Hfind)
      as [(j & Hj & Hlog) Hmsg].
    split; [|split; [|split]].
    + exists j. eexists. split; [exact Hj|]. split; [exact Hlog|]. by split.
    + destruct (List.find _ (sent_messages db)) as [m|]; [|exact Hmsg].
      destruct Hmsg as (i & Hi & Hm).
      exists i. eexists. split; [exact Hi|]. split; [exact Hm|]. by split.
    + by destruct (as_status_terminal _ Hst) as [[_ ->]|[_ ->]].
    + by apply as_status_terminal.
  - intros now random1 random2 this. apply processQueue_in_two_parts.
  - intros now random1 random2 queuedMessage later j m Hj Hid.
    by apply processQueue_write_keeps_others.
  - intros now random1 random2 queuedMessage later j m Hnd Hj Hid.
    eexists. split; [exact (processQueue_write_overwrites now random1 random2
                              queuedMessage later j m Hnd Hj Hid)|].
    by destruct (Qlt_le_dec random1 (9 # 10)).
Qed.

(** The theorem on the sample queue: its ids are distinct; the SENT
    message [m51] survives a wake-up, and the FAILED receipt for it is
    answered with success. *)
Lemma receipts_and_drain_on_terminal_records_witness :
  List.NoDup (map CommunicationLogModel._id (communication_log Examples.queue_db))
  /\ List.NoDup (map SentMessageModel._id (sent_messages Examples.queue_db))
  /\ sent_messages
       (snd (MessageQueueService.processQueue 1000 (1 # 2) (3 # 10)
               {| MessageQueueService.isProcessing := false |} Examples.queue_db)) !! 0%nat
     = Some (Examples.sent 51 1 "m51" SENT 5)
  /\ snd (DeliveryReceipt.handleDeliveryReceipt 3000 Examples.failed_receipt_m51
            Examples.queue_db)
     = DeliveryReceipt.Success "m51" "FAILED" 3000
  /\ (exists (j : nat) (log' : CommunicationLogModel.t),
         communication_log Examples.queue_db !! j = Some (Examples.log_for 61 "m51" SENT)
         /\ communication_log
              (fst (DeliveryReceipt.handleDeliveryReceipt 3000 Examples.failed_receipt_m51
                      Examples.queue_db))
            = <[j := log']> (communication_log Examples.queue_db)
         /\ CommunicationLogModel.status log' = FAILED).
Proof.
  assert (Hlogs : List.NoDup (map CommunicationLogModel._id
                                (communication_log Examples.queue_db))).
  { distinct_ids. }
  assert (Hsent : List.NoDup (map SentMessageModel._id (sent_messages Examples.queue_db))).
  { distinct_ids. }
  destruct (receipts_and_drain_on_terminal_records 3000 4000 Examples.failed_receipt_m51
              Examples.queue_db Hlogs Hsent) as (Hkeep & Hok & _ & Hrewrite & _).
  split; [exact Hlogs|]. split; [exact Hsent|]. split; [|split].
  - apply (Hkeep 1000 (1 # 2) (3 # 10) {| MessageQueueService.isProcessing := false |}
             0%nat (Examples.sent 51 1 "m51" SENT 5) eq_refl).
    discriminate.
  - apply (Hok (Examples.log_for 61 "m51" SENT) 2000); [discriminate|reflexivity..].
  - destruct (Hrewrite (Examples.log_for 61 "m51" SENT) 2000 ltac:(discriminate)
                eq_refl eq_refl eq_refl) as [(j & log' & Hj & Hlog & Hst & _) _].
    exists j, log'. split; [exact Hj|]. split; [exact Hlog|exact Hst].
Defined.

(** ** C1: a segment without matching customers *)

Section zero_customers.
Import CampaignDeliveryService.

Lemma find_owned (id userId : ObjectId) (l : list SegmentModel.t) (segment : SegmentModel.t) :
  List.find (fun s => SegmentModel._id s =? id) l = Some segment ->
  SegmentModel.userId segment = userId ->
  List.find (fun s => (SegmentModel._id s =? id) && (SegmentModel.userId s =? userId)) l
  = Some segment.
Proof.
  intros Hfind Howner. induction l as [|x l IH]; simpl in *; [discriminate|].
  destruct (SegmentModel._id x =? id); simpl.
  - injection Hfind as ->. by rewrite Howner, Z.eqb_refl.
  - by apply IH.
Qed.

Lemma createAndDeliverCampaign_zero toLocaleDateString now userId segmentId message subject
      data db segment :
  List.find (fun s => SegmentModel._id s =? segmentId) (segments db) = Some segment ->
  SegmentModel.userId segment = userId ->
  getCustomersForSegment now segment db = [] ->
  createAndDeliverCampaign toLocaleDateString now userId segmentId message subject data db
  = (Async.Resolved
       {| campaignId := EmptyString; totalCustomers := 0; messagesQueued := 0;
          messagesSent := 0; messagesFailed := 0; deliveryLogs := [] |},
     db).
Proof.
  intros Hfind Howner Hnone. unfold createAndDeliverCampaign.
  by rewrite Hfind, Howner, Z.eqb_refl, Hnone.
Qed.

End zero_customers.

(** C1, as stated, fails: segment 31 matches no customer; [createCampaign]
    answers with an empty campaign id and the collection of campaigns is
    still empty afterwards, so no Campaign record was created and none is
    COMPLETED; [createCampaignWithVendorAPI] rejects the same request. *)
Lemma no_campaign_for_empty_segment_counterexample :
  CampaignDeliveryService.getCustomersForSegment 0
    (Examples.segment 31 1 (SegmentRules.Rule SegmentRules.spend SegmentRules.gt 1000000))
    Examples.db_no_match = []
  /\ Campaigns.createCampaign (fun _ => "1/1/2024") 0 1 (Examples.campaign_body "Sale")
       Examples.db_no_match
     = (Examples.db_no_match,
        Campaigns.Created
          {| CampaignDeliveryService.campaignId := EmptyString;
             CampaignDeliveryService.totalCustomers := 0;
             CampaignDeliveryService.messagesQueued := 0;
             CampaignDeliveryService.messagesSent := 0;
             CampaignDeliveryService.messagesFailed := 0;
             CampaignDeliveryService.deliveryLogs := [] |})
  /\ campaigns
       (fst (Campaigns.createCampaign (fun _ => "1/1/2024") 0 1 (Examples.campaign_body "Sale")
               Examples.db_no_match)) = []
  /\ Campaigns.createCampaignWithVendorAPI (fun _ => "1/1/2024") 0 1
       (Examples.campaign_body "Sale") Examples.db_no_match
     = (Examples.db_no_match,
        Campaigns.BadRequest "No customers found matching segment rules" []).
Proof. repeat split. Qed.

(** C1, amended: for every segment that resolves to zero matching
    customers and every campaign-creation request for it by its owner
    with a valid template, [createCampaign] does not fail: it answers with
    [totalCustomers = 0], [queued = 0], no delivery log and an empty
    campaign id, and leaves the database as it is, so that no Campaign
    record and no per-customer delivery record is written;
    [createCampaignWithVendorAPI] rejects the request and leaves the
    database as it is.  [deliverCampaign], the delivery of a campaign
    created before, marks that campaign COMPLETED and writes nothing
    else. *)
Theorem campaign_for_empty_segment :
  forall toLocaleDateString now userId segmentId db segment,
    List.find (fun s => SegmentModel._id s =? segmentId) (segments db) = Some segment ->
    SegmentModel.userId segment = userId ->
    CampaignDeliveryService.getCustomersForSegment now segment db = [] ->
    (forall body,
        Campaigns.segment_id body = Some segmentId ->
        Campaigns.message body <> EmptyString ->
        MessagePersonalizationService.isValid
          (MessagePersonalizationService.validateTemplate (Campaigns.message body)) = true ->
        Campaigns.createCampaign toLocaleDateString now userId body db
        = (db,
           Campaigns.Created
             {| CampaignDeliveryService.campaignId := EmptyString;
                CampaignDeliveryService.totalCustomers := 0;
                CampaignDeliveryService.messagesQueued := 0;
                CampaignDeliveryService.messagesSent := 0;
                CampaignDeliveryService.messagesFailed := 0;
                CampaignDeliveryService.deliveryLogs := [] |})
        /\ Campaigns.createCampaignWithVendorAPI toLocaleDateString now userId body db
           = (db, Campaigns.BadRequest "No customers found matching segment rules" []))
    /\ (forall campaignId message subject customData user,
          List.find (fun u => UserModel._id u =? userId) (users db) = Some user ->
          UserModel.email user <> EmptyString ->
          Campaigns.deliverCampaign toLocaleDateString now campaignId segmentId message
            subject customData db
          = Mongo.with_campaigns db
              (Mongo.updateOne (fun c => CampaignModel._id c =? campaignId)
                 (CampaignModel.set_status CampaignModel.COMPLETED) (campaigns db))).
Proof.
  intros toLocaleDateString now userId segmentId db segment Hfind Howner Hnone. split.
  - intros body Hseg Hmsg Hvalid.
    unfold Campaigns.createCampaign, Campaigns.createCampaignWithVendorAPI.
    rewrite Hseg, Hvalid. destruct (Campaigns.message body) eqn:Em; [done|].
    rewrite (find_owned _ _ _ _ Hfind Howner). simpl negb. cbv iota.
    split.
    + by rewrite (createAndDeliverCampaign_zero _ _ _ _ _ _ _ _ _ Hfind Howner Hnone).
    + unfold CampaignDeliveryService.getCustomersForSegment in Hnone.
      rewrite Howner in Hnone. by rewrite Hnone.
  - intros campaignId message subject customData [uid email] Huser Hemail.
    unfold Campaigns.deliverCampaign, Async.try_catch.
    rewrite Hfind, Howner, Huser, Hnone.
    destruct email as [|c email]; [done|]. reflexivity.
Qed.

(** The theorem on the sample request for segment 31, which matches no
    customer: the request is rejected by [createCampaignWithVendorAPI],
    and the delivery of campaign 41 marks it COMPLETED. *)
Lemma campaign_for_empty_segment_witness :
  Campaigns.createCampaignWithVendorAPI (fun _ => "1/1/2024") 0 1
    (Examples.campaign_body "Sale") Examples.db_no_match
  = (Examples.db_no_match,
     Campaigns.BadRequest "No customers found matching segment rules" [])
  /\ campaigns
       (Campaigns.deliverCampaign (fun _ => "1/1/2024") 0 41 31 "Big sale" "Sale" None
          (Mongo.with_campaigns Examples.db_no_match
             [Examples.campaign41 CampaignModel.ACTIVE]))
     = [Examples.campaign41 CampaignModel.COMPLETED].
Proof.
  split.
  - apply (campaign_for_empty_segment (fun _ => "1/1/2024") 0 1 31 Examples.db_no_match
             (Examples.segment 31 1
                (SegmentRules.Rule SegmentRules.spend SegmentRules.gt 1000000))
             eq_refl eq_refl eq_refl).
    + reflexivity.
    + discriminate.
    + reflexivity.
  - destruct (campaign_for_empty_segment (fun _ => "1/1/2024") 0 1 31
                (Mongo.with_campaigns Examples.db_no_match
                   [Examples.campaign41 CampaignModel.ACTIVE])
                (Examples.segment 31 1
                   (SegmentRules.Rule SegmentRules.spend SegmentRules.gt 1000000))
                eq_refl eq_refl eq_refl) as [_ Hdeliver].
    rewrite (Hdeliver 41 "Big sale" "Sale" None
               {| UserModel._id := 1; UserModel.email := "owner@gmail.com" |} eq_refl);
      [reflexivity|discriminate].
Defined.

(** ** C4: a customer whose submission fails *)

Section per_customer_failures.
Import CampaignDeliveryService.
Variable toLocaleDateString : Z -> string.

(** The loop body never rejects: it resolves with one more delivery log,
    for the customer at hand. *)
Lemma deliver_one_resolves now userId campaign message subject data acc customer db :
  exists entry acc' db',
    deliver_one toLocaleDateString now userId campaign message subject data acc customer db
    = (Async.Resolved acc', db')
    /\ logs acc' = logs acc ++ [entry]
    /\ customerId entry = String_ (CustomerModel._id customer)
    /\ (status entry = QUEUED \/ status entry = FAILED).
Proof.
  unfold deliver_one, Async.try_catch.
  cbn [MessagePersonalizationService.personalizeMessages map].
  match goal with |- context [mbind ?k ?m db] => destruct (mbind k m db) as [[a|e] db'] eqn:E end.
  - unfold mbind, Async_bind, Async.bind in E.
    match type of E with context [MessageQueueService.addToQueue ?n ?q db] =>
      destruct (MessageQueueService.addToQueue n q db) as [[u|e] db''] end; [|discriminate].
    injection E as <- <-. eexists _, _, _. split; [reflexivity|].
    split; [reflexivity|]. split; [reflexivity|by left].
  - eexists _, _, _. split; [reflexivity|].
    split; [reflexivity|]. split; [reflexivity|by right].
Qed.

(** The loop never rejects and logs every customer once, in order:
    the failure of one customer does not stop the others. *)
Lemma deliver_all_resolves now userId campaign message subject data customers :
  forall acc db,
  exists done db',
    deliver_all toLocaleDateString now userId campaign message subject data acc customers db
    = (Async.Resolved done, db')
    /\ map customerId (logs done)
       = map customerId (logs acc)
         ++ map (fun c => String_ (CustomerModel._id c)) customers.
Proof.
  induction customers as [|customer rest IH]; intros acc db.
  - exists acc, db. split; [reflexivity|]. simpl. by rewrite app_nil_r.
  - destruct (deliver_one_resolves now userId campaign message subject data acc customer db)
      as (entry & acc' & db1 & Hone & Hacc & Hid & _).
    destruct (IH acc' db1) as (done & db' & Hall & Hlogs).
    exists done, db'. split.
    + cbn [deliver_all]. unfold mbind, Async_bind, Async.bind at 1. by rewrite Hone.
    + rewrite Hlogs, Hacc, map_app. simpl. by rewrite Hid, <- app_assoc.
Qed.

(** A personalized message is never empty: it starts with a greeting of
    its own or with the prefix. *)
Lemma personalizedMessage_nonempty message customer fallbackName customData :
  MessagePersonalizationService.personalizedMessage
    (MessagePersonalizationService.personalizeMessage toLocaleDateString message customer
       fallbackName customData) <> EmptyString.
Proof.
  unfold MessagePersonalizationService.personalizeMessage.
  cbn [MessagePersonalizationService.personalizedMessage].
  destruct (MessagePersonalizationService.has_greeting _) eqn:Hg; simpl negb; cbv iota.
  - intros E. rewrite E in Hg. discriminate.
  - discriminate.
Qed.

(** The loop body of [deliverCampaign] stores one communication log for
    the customer whether or not the sent message could be stored: SENT
    after the [try] block, FAILED with an error after the [catch] block. *)
Lemma legacy_one_persists_log now campaignId segment subject data customer pm db :
  MessagePersonalizationService.personalizedMessage pm <> EmptyString ->
  exists record db',
    Campaigns.legacy_one now campaignId segment subject data customer pm db
    = (Async.Resolved tt, db')
    /\ communication_log db' = communication_log db ++ [record]
    /\ CommunicationLogModel.customer_id record = Some (CustomerModel._id customer)
    /\ CommunicationLogModel.campaign_id record = Some campaignId
    /\ (CommunicationLogModel.status record = SENT
        \/ CommunicationLogModel.status record = FAILED
           /\ is_Some (CommunicationLogModel.error_message record)).
Proof.
  intros Htext.
  assert (Hlog : negb (String.eqb (MessagePersonalizationService.personalizedMessage pm)
                                  EmptyString) = true).
  { apply negb_true_iff, String.eqb_neq, Htext. }
  unfold Campaigns.legacy_one, Async.try_catch, mbind, Async_bind, Async.bind,
    MessageQueueService.SentMessage_create, MessageQueueService.CommunicationLog_create,
    CommunicationLogModel.valid.
  cbn [CommunicationLogModel.message].
  match goal with |- context [SentMessageModel.valid ?d] =>
    destruct (SentMessageModel.valid d) eqn:Hvalid end.
  - cbn [communication_log sent_messages next_id Mongo.fresh Mongo.with_sent_messages
         Mongo.with_communication_log CommunicationLogModel.message].
    rewrite Hlog. eexists _, _. split; [reflexivity|].
    cbn [communication_log Mongo.fresh Mongo.with_communication_log
         Mongo.with_sent_messages].
    split; [reflexivity|]. split; [reflexivity|]. split; [reflexivity|]. by left.
  - match goal with |- context [SentMessageModel.valid ?d] =>
      destruct (SentMessageModel.valid d) end;
      cbn [mret Async_ret Async.ret communication_log sent_messages next_id Mongo.fresh
           Mongo.with_sent_messages Mongo.with_communication_log
           CommunicationLogModel.message];
      rewrite Hlog; eexists _, _; (split; [reflexivity|]);
      cbn [communication_log Mongo.fresh Mongo.with_communication_log
           Mongo.with_sent_messages];
      (split; [reflexivity|]); (split; [reflexivity|]); (split; [reflexivity|]);
      right; split; [reflexivity|by eexists| reflexivity | by eexists].
Qed.

End per_customer_failures.

(** C4 on the campaign with the subject [{customerPhone}]: Ann has no
    phone, her subject is empty and the sent-message record is refused by
    the schema.  The failure is caught and Bob is processed: the response
    logs Ann as FAILED and Bob as QUEUED.  But the failure count of the
    response is 0, and the two stores hold the QUEUED records of Bob only:
    no FAILED communication log and no FAILED sent message is persisted
    for Ann. *)
Theorem failed_customer_is_logged_but_not_persisted :
  forall toLocaleDateString,
    Examples.logged (snd (Examples.phone_subject_run toLocaleDateString))
    = [("11", FAILED); ("12", QUEUED)]
    /\ (exists result,
          snd (Examples.phone_subject_run toLocaleDateString) = Campaigns.Created result
          /\ CampaignDeliveryService.totalCustomers result = 2
          /\ CampaignDeliveryService.messagesQueued result = 1
          /\ CampaignDeliveryService.messagesFailed result = 0)
    /\ map (fun l => (CommunicationLogModel.vendor_message_id l,
                      CommunicationLogModel.status l))
           (communication_log (fst (Examples.phone_subject_run toLocaleDateString)))
       = [(Some "campaign_100_12_1700000000000", QUEUED)]
    /\ map (fun m => (SentMessageModel.messageId m, SentMessageModel.status m))
           (sent_messages (fst (Examples.phone_subject_run toLocaleDateString)))
       = [(Some "campaign_100_12_1700000000000", QUEUED)].
Proof.
  intros toLocaleDateString.
  split; [vm_compute; reflexivity|]. split; [|split; vm_compute; reflexivity].
  eexists. split; [vm_compute; reflexivity|]. repeat split.
Qed.

(** ** C6: the greeting prefix *)

Section greeting.
Import MessagePersonalizationService.

Lemma lower_ascii_not_brace (c a : ascii) :
  a <> "{"%char -> Js.lower_ascii c = a -> c <> "{"%char.
Proof. intros Ha Hl ->. apply Ha. rewrite <- Hl. reflexivity. Qed.

Lemma prefix_empty (s : string) : String.prefix EmptyString s = true.
Proof. by destruct s. Qed.

(** A replacement of a placeholder keeps a start of the message that has
    no opening brace, compared without case. *)
Lemma replace_from_keeps_start (g pat' rep : string) :
  Js.has_char "{" g = false ->
  forall s whole pos,
    String.prefix g (Js.toLowerCase s) = true ->
    String.prefix g
      (Js.toLowerCase (Js.replace_from (String "{" pat') rep whole pos 0 s)) = true.
Proof.
  induction g as [|a g IH]; intros Hfree s whole pos Hs; [apply prefix_empty|].
  destruct s as [|c s]; [discriminate|].
  cbn [Js.toLowerCase String.prefix] in Hs.
  destruct (ascii_dec a (Js.lower_ascii c)) as [Ea|]; [|discriminate].
  cbn [Js.has_char] in Hfree. apply orb_false_iff in Hfree as [Ha Hfree].
  apply Ascii.eqb_neq in Ha.
  assert (Hc : c <> "{"%char) by (by apply (lower_ascii_not_brace c a)).
  cbn [Js.replace_from String.prefix].
  destruct (ascii_dec "{" c) as [Eb|_]; [congruence|].
  cbn [Js.toLowerCase String.prefix].
  destruct (ascii_dec a (Js.lower_ascii c)); [|done].
  by apply IH.
Qed.

Lemma substitute_keeps_start (g : string) d message :
  Js.has_char "{" g = false ->
  Js.startsWith (Js.toLowerCase message) g = true ->
  Js.startsWith (Js.toLowerCase (substitute d message)) g = true.
Proof.
  intros Hfree Hs. unfold substitute, Js.startsWith, Js.replace_g in *.
  repeat (apply replace_from_keeps_start; [exact Hfree|]).
  exact Hs.
Qed.

Lemma substitute_keeps_greeting d message :
  has_greeting message = true -> has_greeting (substitute d message) = true.
Proof.
  unfold has_greeting. intros H.
  apply orb_true_iff in H as [H|H]; [apply orb_true_iff in H as [H|H]|].
  - by rewrite (substitute_keeps_start "hi " d message).
  - rewrite (substitute_keeps_start "hello " d message); [by rewrite orb_true_r|done..].
  - rewrite (substitute_keeps_start "dear " d message); [by rewrite !orb_true_r|done..].
Qed.

End greeting.

(** C6, as stated, fails: the template [{customerName}, your order has
    shipped] does not start with a greeting, but for the customer Hi Tech
    Ltd the message after substitution does, and no prefix is added. *)
Lemma greeting_from_placeholder_counterexample :
  MessagePersonalizationService.has_greeting "{customerName}, your order has shipped" = false
  /\ MessagePersonalizationService.personalizedMessage
       (MessagePersonalizationService.personalizeMessage (fun _ => "1/1/2024")
          "{customerName}, your order has shipped" Examples.hi_tech "Valued Customer"
          MessagePersonalizationService.no_customData)
     = "Hi Tech Ltd, your order has shipped"
  /\ MessagePersonalizationService.personalizedMessage
       (MessagePersonalizationService.personalizeMessage (fun _ => "1/1/2024")
          "{customerName}, your order has shipped" Examples.hi_tech "Valued Customer"
          MessagePersonalizationService.no_customData)
     <> "Hi Hi Tech Ltd, " +:+
        MessagePersonalizationService.substitute
          (MessagePersonalizationService.build_data (fun _ => "1/1/2024") Examples.hi_tech
             "Valued Customer" MessagePersonalizationService.no_customData)
          "{customerName}, your order has shipped".
Proof. split; [reflexivity|]. split; [reflexivity|]. vm_compute. discriminate. Qed.

(** C6, amended: for every template and customer, if the message after
    the placeholder substitutions does not start with one of the
    greetings (compared without case), the personalized output is that
    message prefixed with [Hi <customerName>, ], and if it does, the
    output is that message without a prefix; in particular a template
    that itself starts with one of the greetings gets no prefix. *)
Theorem greeting_prefix_after_substitution :
  forall toLocaleDateString message customer fallbackName customData,
    MessagePersonalizationService.personalizedMessage
      (MessagePersonalizationService.personalizeMessage toLocaleDateString message customer
         fallbackName customData)
    = (if MessagePersonalizationService.has_greeting
            (MessagePersonalizationService.substitute
               (MessagePersonalizationService.build_data toLocaleDateString customer
                  fallbackName customData) message)
       then MessagePersonalizationService.substitute
              (MessagePersonalizationService.build_data toLocaleDateString customer
                 fallbackName customData) message
       else "Hi " +:+
            MessagePersonalizationService.customerName
              (MessagePersonalizationService.build_data toLocaleDateString customer
                 fallbackName customData)
            +:+ ", " +:+
            MessagePersonalizationService.substitute
              (MessagePersonalizationService.build_data toLocaleDateString customer
                 fallbackName customData) message)
    /\ (if MessagePersonalizationService.has_greeting message
        then MessagePersonalizationService.personalizedMessage
               (MessagePersonalizationService.personalizeMessage toLocaleDateString message
                  customer fallbackName customData)
             = MessagePersonalizationService.substitute
                 (MessagePersonalizationService.build_data toLocaleDateString customer
                    fallbackName customData) message
        else True).
Proof.
  intros toLocaleDateString message customer fallbackName customData.
  unfold MessagePersonalizationService.personalizeMessage.
  cbn [MessagePersonalizationService.personalizedMessage].
  set (d := MessagePersonalizationService.build_data _ _ _ _).
  split.
  - by destruct (MessagePersonalizationService.has_greeting
                   (MessagePersonalizationService.substitute d message)).
  - destruct (MessagePersonalizationService.has_greeting message) eqn:Hg; [|done].
    by rewrite (substitute_keeps_greeting d message Hg).
Qed.

(** ** C9: template validation *)

Section validation.
Import MessagePersonalizationService.

Lemma append_cons (x : ascii) (a b : string) : String x a +:+ b = String x (a +:+ b).
Proof. reflexivity. Qed.

Lemma append_assoc (a b c : string) : (a +:+ b) +:+ c = a +:+ (b +:+ c).
Proof. induction a as [|x a IH]; [done|]. rewrite !append_cons. by rewrite IH. Qed.

Lemma append_length (a b : string) :
  String.length (a +:+ b) = (String.length a + String.length b)%nat.
Proof. induction a as [|x a IH]; [done|]. rewrite append_cons. simpl. by rewrite IH. Qed.

Lemma has_char_app c (a b : string) :
  Js.has_char c (a +:+ b) = Js.has_char c a || Js.has_char c b.
Proof.
  induction a as [|x a IH]; [done|]. rewrite append_cons. simpl.
  by rewrite IH, orb_assoc.
Qed.

Lemma drop_app (a b : string) : Js.drop (String.length a) (a +:+ b) = b.
Proof. induction a as [|x a IH]; [by destruct b|]. rewrite append_cons. exact IH. Qed.

Lemma until_close_spec (s body rest : string) :
  until_close s = Some (body, rest) ->
  s = body +:+ String "}" rest /\ Js.has_char "}" body = false.
Proof.
  revert body. induction s as [|c s IH]; intros body; simpl; [discriminate|].
  destruct (Ascii.eqb c "}") eqn:E.
  - intros [= <- <-]. apply Ascii.eqb_eq in E. by subst c.
  - destruct (until_close s) as [[body' rest']|]; [|discriminate].
    intros [= <- <-]. destruct (IH body' eq_refl) as [-> Hb].
    rewrite append_cons. simpl. by rewrite E, Hb.
Qed.

Lemma until_close_complete (body rest : string) :
  Js.has_char "}" body = false ->
  until_close (body +:+ String "}" rest) = Some (body, rest).
Proof.
  induction body as [|c body IH]; [done|]. rewrite append_cons. simpl.
  intros [Hc Hb]%orb_false_iff. by rewrite Hc, IH.
Qed.

Lemma match_placeholders_skip (n : nat) :
  forall s, match_placeholders n s = match_placeholders 0 (Js.drop n s).
Proof.
  induction n as [|n IH]; intros s; [by destruct s|].
  destruct s as [|c s]; [done|]. simpl. apply IH.
Qed.

(** The scan, one match at a time. *)
Lemma match_placeholders_unfold (c : ascii) (s : string) :
  match_placeholders 0 (String c s)
  = if Ascii.eqb c "{" then
      match until_close s with
      | Some (String b body, rest) =>
          ("{" +:+ String b body +:+ "}") :: match_placeholders 0 rest
      | _ => match_placeholders 0 s
      end
    else match_placeholders 0 s.
Proof.
  cbn [match_placeholders]. destruct (Ascii.eqb c "{"); [|done].
  destruct (until_close s) as [[[|b body] rest]|] eqn:E; [done| |done].
  apply until_close_spec in E as [-> _].
  rewrite match_placeholders_skip. f_equal.
  change (S (S (String.length body)))
    with (S (String.length (String b body))).
  replace (S (String.length (String b body)))
    with (String.length (String b body +:+ "}")) by (rewrite append_length; simpl; lia).
  change (String b body +:+ String "}" rest) with (String b body +:+ ("}" +:+ rest)).
  by rewrite <- append_assoc, drop_app.
Qed.

Lemma app_eq_cases (x y pre z : string) :
  x +:+ y = pre +:+ z ->
  (exists w, pre = x +:+ w /\ y = w +:+ z)
  \/ (exists a w, x = pre +:+ String a w /\ z = String a w +:+ y).
Proof.
  revert pre. induction x as [|a x IH]; intros pre H.
  - left. by exists pre.
  - destruct pre as [|b pre].
    + right. exists a, x. split; [done|]. symmetry. exact H.
    + rewrite !append_cons in H. injection H as -> H.
      destruct (IH pre H) as [(w & -> & ->)|(a' & w & -> & ->)].
      * left. by exists w.
      * right. by exists a', w.
Qed.

Lemma occurs_in_cons (c : ascii) (t s : string) : occurs_in t s -> occurs_in t (String c s).
Proof. intros (pre & post & ->). by exists (String c pre), post. Qed.

Lemma occurs_in_app (x t s : string) : occurs_in t s -> occurs_in t (x +:+ s).
Proof.
  intros (pre & post & ->). exists (x +:+ pre), post. by rewrite append_assoc.
Qed.

(** Every match of the scan is a token that occurs in the template. *)
Lemma match_placeholders_sound (s : string) :
  forall t, In t (match_placeholders 0 s) -> is_token t /\ occurs_in t s.
Proof.
  remember (String.length s) as n eqn:Hn. revert s Hn.
  induction n as [n IH] using lt_wf_ind. intros s Hn t.
  destruct s as [|c s]; [intros []|].
  rewrite match_placeholders_unfold.
  assert (Hrec : In t (match_placeholders 0 s) -> is_token t /\ occurs_in t (String c s)).
  { intros Ht. destruct (IH (String.length s) ltac:(simpl in Hn; lia) s eq_refl t Ht)
      as [Htok Hocc].
    split; [done|]. by apply occurs_in_cons. }
  destruct (Ascii.eqb c "{") eqn:Ec; [|exact Hrec].
  destruct (until_close s) as [[[|b body] rest]|] eqn:E; [exact Hrec| |exact Hrec].
  apply Ascii.eqb_eq in Ec. subst c.
  apply until_close_spec in E as [-> Hbody].
  intros [<-|Ht].
  - split.
    + exists (String b body). split; [discriminate|]. split; [exact Hbody|reflexivity].
    + assert (H : (String b body +:+ "}") +:+ rest = String b body +:+ String "}" rest)
        by (rewrite append_assoc; reflexivity).
      exists EmptyString, rest. rewrite <- H. reflexivity.
  - destruct (IH (String.length rest)
                ltac:(subst n; simpl; rewrite append_length; simpl; lia) rest eq_refl t Ht)
      as [Htok Hocc].
    split; [done|]. apply occurs_in_cons.
    change (String b body +:+ String "}" rest) with (String b body +:+ ("}" +:+ rest)).
    rewrite <- append_assoc. by apply occurs_in_app.
Qed.

(** A known placeholder has no opening brace after its first character. *)
Lemma known_placeholder_shape (t : string) :
  In t getAvailablePlaceholders ->
  exists u, t = String "{" u /\ Js.has_char "{" u = false.
Proof.
  unfold getAvailablePlaceholders. simpl.
  intros H. repeat (destruct H as [<-|H]; [eexists; split; reflexivity|]). destruct H.
Qed.

(** If every match of the scan is known, every token that occurs in the
    template is known. *)
Lemma match_placeholders_cover (s : string) :
  (forall t, In t (match_placeholders 0 s) -> In t getAvailablePlaceholders) ->
  forall t, is_token t -> occurs_in t s -> In t getAvailablePlaceholders.
Proof.
  remember (String.length s) as n eqn:Hn. revert s Hn.
  induction n as [n IH] using lt_wf_ind.
  intros s Hn Hknown t Htok (pre & post & Hs).
  destruct Htok as (body & Hne & Hbody & ->).
  destruct s as [|c s].
  { destruct pre; discriminate. }
  rewrite match_placeholders_unfold in Hknown.
  destruct pre as [|c' pre].
  - change (String c s = String "{" ((body +:+ "}") +:+ post)) in Hs.
    injection Hs as -> ->.
    rewrite append_assoc in Hknown. change ("}" +:+ post) with (String "}" post) in Hknown.
    rewrite (until_close_complete body post Hbody) in Hknown.
    destruct body as [|b body]; [done|]. apply Hknown. by left.
  - rewrite append_cons in Hs. injection Hs as -> Hs.
    assert (Hrec : (forall t, In t (match_placeholders 0 s) -> In t getAvailablePlaceholders) ->
                   In ("{" +:+ body +:+ "}") getAvailablePlaceholders).
    { intros Hk. apply (IH (String.length s) ltac:(simpl in Hn; lia) s eq_refl Hk).
      - by exists body.
      - by exists pre, post. }
    destruct (Ascii.eqb c' "{") eqn:Ec; [|by apply Hrec].
    destruct (until_close s) as [[[|b bb] rest]|] eqn:E; [by apply Hrec| |by apply Hrec].
    apply until_close_spec in E as [E Hbb].
    destruct (known_placeholder_shape _ (Hknown _ (or_introl eq_refl))) as (u & Hu & Hnob).
    change (String "{" (String b bb +:+ "}") = String "{" u) in Hu. injection Hu as <-.
    rewrite has_char_app in Hnob. apply orb_false_iff in Hnob as [Hnob _].
    assert (E' : (String b bb +:+ "}") +:+ rest = pre +:+ ("{" +:+ body +:+ "}") +:+ post).
    { rewrite append_assoc. rewrite <- Hs, E. reflexivity. }
    apply app_eq_cases in E' as [(w & -> & Hrest)|(a & w & Hx & Hz)].
    + apply (IH (String.length rest)
               ltac:(subst n s; simpl; rewrite append_length; simpl; lia) rest eq_refl).
      * intros t Ht. apply Hknown. by right.
      * by exists body.
      * by exists w, post.
    + rewrite !append_cons in Hz. injection Hz as <- _.
      assert (Hhas : Js.has_char "{" (String b bb +:+ "}") = true).
      { rewrite Hx, has_char_app. simpl. by rewrite orb_true_r. }
      rewrite has_char_app, Hnob in Hhas. discriminate.
Qed.

Lemma includes_In (l : list string) (x : string) : Js.includes l x = true <-> In x l.
Proof.
  unfold Js.includes. rewrite existsb_exists. split.
  - intros (y & Hy & E). apply String.eqb_eq in E. by subst.
  - intros H. exists x. split; [done|]. apply String.eqb_refl.
Qed.

(** The text before the first closing brace is determined. *)
Lemma until_close_inj (x y r1 r2 : string) :
  Js.has_char "}" x = false -> Js.has_char "}" y = false ->
  x +:+ String "}" r1 = y +:+ String "}" r2 -> x = y /\ r1 = r2.
Proof.
  intros Hx Hy E.
  pose proof (until_close_complete x r1 Hx) as H1.
  rewrite E, (until_close_complete y r2 Hy) in H1.
  injection H1 as -> ->. done.
Qed.

(** A non-empty end of a text that is closed by a brace is closed by
    that brace. *)
Lemma closed_suffix (x pre : string) (a : ascii) (w : string) :
  x +:+ "}" = pre +:+ String a w ->
  exists u, String a w = u +:+ "}" /\ x = pre +:+ u.
Proof.
  revert x. induction pre as [|b pre IH]; intros x E.
  - exists x. by split.
  - destruct x as [|c x].
    + rewrite append_cons in E. injection E as _ E. destruct pre; discriminate.
    + rewrite !append_cons in E. injection E as -> E.
      destruct (IH x E) as (u & Hu & ->). exists u. by split.
Qed.

(** Every token that occurs in the template is the end of a match of the
    scan: the match itself, or a match that started at an earlier
    opening brace. *)
Lemma match_placeholders_tail (s : string) :
  forall t, is_token t -> occurs_in t s ->
            exists pre, In (pre +:+ t) (match_placeholders 0 s).
Proof.
  remember (String.length s) as n eqn:Hn. revert s Hn.
  induction n as [n IH] using lt_wf_ind.
  intros s Hn t Htok (pre & post & Hs).
  destruct Htok as (body & Hne & Hbody & ->).
  destruct s as [|c s].
  { destruct pre; discriminate. }
  rewrite match_placeholders_unfold.
  destruct pre as [|c' pre].
  - change (String c s = String "{" ((body +:+ "}") +:+ post)) in Hs.
    injection Hs as -> ->.
    rewrite append_assoc. change ("}" +:+ post) with (String "}" post).
    rewrite (until_close_complete body post Hbody).
    destruct body as [|b body]; [done|]. exists EmptyString. by left.
  - rewrite append_cons in Hs. injection Hs as -> Hs.
    assert (Hrec : exists pre0, In (pre0 +:+ "{" +:+ body +:+ "}") (match_placeholders 0 s)).
    { apply (IH (String.length s) ltac:(simpl in Hn; lia) s eq_refl).
      - by exists body.
      - by exists pre, post. }
    destruct (Ascii.eqb c' "{") eqn:Ec; [|exact Hrec].
    destruct (until_close s) as [[[|b bb] rest]|] eqn:E; [exact Hrec| |exact Hrec].
    apply Ascii.eqb_eq in Ec. subst c'.
    apply until_close_spec in E as [E Hbb].
    assert (E' : (String b bb +:+ "}") +:+ rest = pre +:+ ("{" +:+ body +:+ "}") +:+ post).
    { rewrite append_assoc. rewrite <- Hs, E. reflexivity. }
    apply app_eq_cases in E' as [(w & -> & Hrest)|(a & w & Hx & Hz)].
    + assert (Hlt : (String.length rest < n)%nat).
      { rewrite Hn, E. simpl. rewrite append_length. simpl. lia. }
      destruct (IH (String.length rest) Hlt rest eq_refl
                  ("{" +:+ body +:+ "}")) as (pre0 & Hin).
      * by exists body.
      * by exists w, post.
      * exists pre0. by right.
    + exists (String "{" pre). left.
      rewrite !append_cons in Hz. injection Hz as <- Hz.
      destruct (closed_suffix _ _ _ _ Hx) as (u & Hu & Hbbu).
      destruct u as [|a u]; [discriminate|].
      rewrite append_cons in Hu. injection Hu as <- ->.
      assert (Hu : Js.has_char "}" u = false).
      { rewrite Hbbu, has_char_app in Hbb. apply orb_false_iff in Hbb as [_ Hbb].
        simpl in Hbb. exact Hbb. }
      rewrite !append_assoc in Hz.
      change ("}" +:+ post) with (String "}" post) in Hz.
      change ("}" +:+ rest) with (String "}" rest) in Hz.
      destruct (until_close_inj body u post rest Hbody Hu Hz) as [-> _].
      rewrite Hx. rewrite !append_cons. reflexivity.
Qed.

(** A match that is longer than the token at its end is not a known
    placeholder. *)
Lemma longer_match_unknown (pre t : string) :
  pre <> EmptyString -> is_token t -> ~ In (pre +:+ t) getAvailablePlaceholders.
Proof.
  intros Hpre (body & _ & _ & ->) Hk.
  destruct (known_placeholder_shape _ Hk) as (u & Hu & Hnob).
  destruct pre as [|c pre]; [done|].
  rewrite append_cons in Hu. injection Hu as _ <-.
  rewrite has_char_app in Hnob. apply orb_false_iff in Hnob as [_ Hnob].
  discriminate.
Qed.

End validation.

(** C9, as stated, fails: in the template [{a{b}] the text [{b}] is a
    [{...}] token that is not a known placeholder, but the scan matches
    from the first opening brace, and the only invalid placeholder is
    [{a{b}]. *)
Lemma nested_brace_token_counterexample :
  MessagePersonalizationService.is_token "{b}"
  /\ MessagePersonalizationService.occurs_in "{b}" "{a{b}"
  /\ ~ In "{b}" MessagePersonalizationService.getAvailablePlaceholders
  /\ MessagePersonalizationService.validateTemplate "{a{b}"
     = {| MessagePersonalizationService.isValid := false;
          MessagePersonalizationService.invalidPlaceholders := ["{a{b}"] |}
  /\ ~ In "{b}" (MessagePersonalizationService.invalidPlaceholders
                   (MessagePersonalizationService.validateTemplate "{a{b}")).
Proof.
  split; [|split; [|split; [|split]]].
  - exists "b". by repeat split.
  - by exists "{a", EmptyString.
  - simpl. intuition discriminate.
  - reflexivity.
  - simpl. intuition discriminate.
Qed.

(** C9, amended: for every template, [validateTemplate] answers
    [isValid = true] exactly when its list of invalid placeholders is
    empty, and exactly when every [{...}] token that occurs in the
    template is a known placeholder.  The invalid placeholders are the
    matches of the scan that are not known, in the order of the scan, so
    a known placeholder is never flagged and an unknown match always is.
    Every match of the scan is a [{...}] token that occurs in the
    template.  Conversely, every [{...}] token that occurs in the
    template is the end of a match: the match itself, or a longer match
    that starts at an earlier opening brace; and every unknown token that
    occurs in the template is the end of an invalid placeholder.  When no
    match has a second opening brace, the invalid placeholders are
    exactly the unknown [{...}] tokens that occur in the template. *)
Theorem validateTemplate_flags_unknown_tokens :
  forall message,
    (MessagePersonalizationService.isValid
       (MessagePersonalizationService.validateTemplate message) = true
     <-> MessagePersonalizationService.invalidPlaceholders
           (MessagePersonalizationService.validateTemplate message) = [])
    /\ (MessagePersonalizationService.isValid
          (MessagePersonalizationService.validateTemplate message) = true
        <-> forall t, MessagePersonalizationService.is_token t ->
                      MessagePersonalizationService.occurs_in t message ->
                      In t MessagePersonalizationService.getAvailablePlaceholders)
    /\ (forall t,
          In t (MessagePersonalizationService.invalidPlaceholders
                  (MessagePersonalizationService.validateTemplate message))
          <-> In t (MessagePersonalizationService.match_placeholders 0 message)
              /\ ~ In t MessagePersonalizationService.getAvailablePlaceholders)
    /\ MessagePersonalizationService.invalidPlaceholders
         (MessagePersonalizationService.validateTemplate message)
       = List.filter
           (fun t => negb (Js.includes MessagePersonalizationService.getAvailablePlaceholders t))
           (MessagePersonalizationService.match_placeholders 0 message)
    /\ (forall t,
          In t (MessagePersonalizationService.match_placeholders 0 message) ->
          MessagePersonalizationService.is_token t
          /\ MessagePersonalizationService.occurs_in t message)
    /\ (forall t,
          MessagePersonalizationService.is_token t ->
          MessagePersonalizationService.occurs_in t message ->
          exists pre,
            In (pre +:+ t) (MessagePersonalizationService.match_placeholders 0 message))
    /\ (forall t,
          MessagePersonalizationService.is_token t ->
          MessagePersonalizationService.occurs_in t message ->
          ~ In t MessagePersonalizationService.getAvailablePlaceholders ->
          exists pre,
            In (pre +:+ t)
               (MessagePersonalizationService.invalidPlaceholders
                  (MessagePersonalizationService.validateTemplate message)))
    /\ ((forall m u,
            In m (MessagePersonalizationService.match_placeholders 0 message) ->
            m = String "{" u -> Js.has_char "{" u = false) ->
        forall t,
          In t (MessagePersonalizationService.invalidPlaceholders
                  (MessagePersonalizationService.validateTemplate message))
          <-> MessagePersonalizationService.is_token t
              /\ MessagePersonalizationService.occurs_in t message
              /\ ~ In t MessagePersonalizationService.getAvailablePlaceholders).
Proof.
  intros message.
  assert (Htail : forall t,
             MessagePersonalizationService.is_token t ->
             MessagePersonalizationService.occurs_in t message ->
             exists pre,
               In (pre +:+ t) (MessagePersonalizationService.match_placeholders 0 message))
    by apply match_placeholders_tail.
  unfold MessagePersonalizationService.validateTemplate.
  cbn [MessagePersonalizationService.isValid
       MessagePersonalizationService.invalidPlaceholders].
  set (found := MessagePersonalizationService.match_placeholders 0 message).
  set (unknown := fun t =>
         negb (Js.includes MessagePersonalizationService.getAvailablePlaceholders t)).
  assert (Hin : forall t, In t (List.filter unknown found)
                          <-> In t found
                              /\ ~ In t MessagePersonalizationService.getAvailablePlaceholders).
  { intros t. rewrite filter_In. unfold unknown.
    rewrite negb_true_iff, <- not_true_iff_false, includes_In. done. }
  assert (Hempty : Nat.eqb (length (List.filter unknown found)) 0 = true
                   <-> List.filter unknown found = []).
  { rewrite Nat.eqb_eq. destruct (List.filter unknown found); simpl; split; congruence. }
  split; [exact Hempty|].
  split; [|split; [exact Hin|split; [reflexivity|split;
    [apply match_placeholders_sound|split; [exact Htail|split]]]]].
  - rewrite Hempty. split.
    + intros Hnil. apply match_placeholders_cover. intros t Ht.
      destruct (in_dec string_dec t MessagePersonalizationService.getAvailablePlaceholders)
        as [Hk|Hk]; [done|].
      assert (Hbad : In t (List.filter unknown found)) by (by apply Hin).
      rewrite Hnil in Hbad. destruct Hbad.
    + intros Hall. destruct (List.filter unknown found) as [|t rest] eqn:E; [done|].
      assert (Hbad : In t (t :: rest)) by (by left).
      apply Hin in Hbad as [Hfound Hk]. exfalso. apply Hk.
      destruct (match_placeholders_sound message t Hfound) as [Htok Hocc].
      by apply Hall.
  - intros t Htok Hocc Hk. destruct (Htail t Htok Hocc) as (pre & Hfound).
    exists pre. apply Hin. split; [exact Hfound|].
    destruct pre as [|c pre]; [exact Hk|].
    apply longer_match_unknown; [discriminate|exact Htok].
  - intros Hnest t. rewrite Hin. split.
    + intros [Hfound Hk].
      destruct (match_placeholders_sound message t Hfound) as [Htok Hocc]. done.
    + intros (Htok & Hocc & Hk). split; [|exact Hk].
      destruct (Htail t Htok Hocc) as (pre & Hfound).
      destruct pre as [|c pre]; [exact Hfound|]. exfalso.
      destruct (match_placeholders_sound message _ Hfound) as [(body' & _ & _ & Hm) _].
      rewrite append_cons in Hm.
      change ("{" +:+ body' +:+ "}") with (String "{" (body' +:+ "}")) in Hm.
      injection Hm as -> Hm.
      pose proof (Hnest _ _ Hfound (append_cons "{" pre t)) as Hno.
      destruct Htok as (body & _ & _ & ->).
      rewrite has_char_app in Hno. apply orb_false_iff in Hno as [_ Hno]. discriminate.
Qed.

(** Samples: a template with known placeholders only, and one with an
    unknown and a known placeholder. *)
Example validateTemplate_samples :
  MessagePersonalizationService.validateTemplate "Hi {name}, {discount}% off at {storeName}"
  = {| MessagePersonalizationService.isValid := true;
       MessagePersonalizationService.invalidPlaceholders := [] |}
  /\ MessagePersonalizationService.validateTemplate "Dear {firstName}, use {couponCode}"
     = {| MessagePersonalizationService.isValid := false;
          MessagePersonalizationService.invalidPlaceholders := ["{firstName}"] |}.
Proof. split; reflexivity. Qed.

(* ================================================================== *)
(** * Properties of the further parts *)
(* ================================================================== *)

(** ** Documents with distinct ids *)

Section distinct_ids_facts.
Context {A : Type}.
Variable id : A -> Z.

(** With distinct ids, two documents with the same id are the same. *)
Lemma same_id_same_document (l : list A) (x y : A) :
  List.NoDup (map id l) -> In x l -> In y l -> id x = id y -> x = y.
Proof.
  induction l as [|a l IH]; intros Hnd Hx Hy Hxy; [destruct Hx|].
  inversion Hnd as [|? ? Hnotin Hnd']; subst.
  destruct Hx as [->|Hx], Hy as [->|Hy]; try done.
  - exfalso. apply Hnotin. rewrite Hxy. by apply in_map.
  - exfalso. apply Hnotin. rewrite <- Hxy. by apply in_map.
  - by apply IH.
Qed.

End distinct_ids_facts.

(** ** Updates, lookups and deletions by id *)

Section Collection_facts.
Context {A : Type}.
Variable id : A -> Z.

Lemma map_other_ids (k : Z) (f : A -> A) (l : list A) :
  ~ In k (map id l) -> map (fun x => if id x =? k then f x else x) l = l.
Proof.
  induction l as [|x l IH]; simpl; intros Hk; [done|].
  destruct (Z.eqb_spec (id x) k) as [E|E]; [tauto|].
  rewrite IH by tauto. done.
Qed.

(** With distinct ids, an update by id is a map that rewrites the
    document with that id. *)
Lemma updateOne_map_by_id (k : Z) (f : A -> A) (l : list A) :
  List.NoDup (map id l) ->
  Mongo.updateOne (fun x => id x =? k) f l
  = map (fun x => if id x =? k then f x else x) l.
Proof.
  induction l as [|x l IH]; simpl; intros Hnd; [done|].
  inversion Hnd as [|? ? Hnotin Hnd']; subst.
  destruct (Z.eqb_spec (id x) k) as [E|E].
  - subst k. by rewrite map_other_ids.
  - by rewrite IH.
Qed.

(** With distinct ids, the first document that a filter with the id in
    it finds is the document that the id alone finds. *)
Lemma find_by_id_and (k : Z) (q : A -> bool) (l : list A) (x : A) :
  List.NoDup (map id l) ->
  List.find (fun y => (id y =? k) && q y) l = Some x ->
  List.find (fun y => id y =? k) l = Some x.
Proof.
  induction l as [|y l IH]; simpl; intros Hnd; [discriminate|].
  inversion Hnd as [|? ? Hnotin Hnd']; subst.
  destruct (Z.eqb_spec (id y) k) as [E|E]; simpl.
  - destruct (q y); [done|]. intros Hfind. exfalso. apply Hnotin.
    apply find_some in Hfind as [Hin Hx]. apply andb_prop in Hx as [Hx _].
    apply Z.eqb_eq in Hx. rewrite E, <- Hx. by apply in_map.
  - by apply IH.
Qed.

(** With distinct ids, deleting the first match of a filter with the id
    in it removes the documents with that id and keeps the others. *)
Lemma deleteOne_by_id (k : Z) (q : A -> bool) (l : list A) (x : A) :
  List.NoDup (map id l) ->
  List.find (fun y => (id y =? k) && q y) l = Some x ->
  Collection.deleteOne (fun y => (id y =? k) && q y) l
  = List.filter (fun y => negb (id y =? k)) l.
Proof.
  induction l as [|y l IH]; simpl; intros Hnd; [discriminate|].
  inversion Hnd as [|? ? Hnotin Hnd']; subst.
  destruct (Z.eqb_spec (id y) k) as [E|E]; simpl.
  - destruct (q y).
    + intros _. symmetry. apply filter_all. intros z Hz.
      apply negb_true_iff, Z.eqb_neq. intros Ez. apply Hnotin.
      rewrite E, <- Ez. by apply in_map.
    + intros Hfind. exfalso. apply Hnotin.
      apply find_some in Hfind as [Hin Hx]. apply andb_prop in Hx as [Hx _].
      apply Z.eqb_eq in Hx. rewrite E, <- Hx. by apply in_map.
  - intros Hfind. by rewrite IH.
Qed.

End Collection_facts.

(** ** The rules that the segment controller makes, and what is stored *)

Section fixRuleStructure_facts.
Import SegmentRules Segments.

Lemma leaf_of_leaf_of (rule : node) : leaf_of (leaf_of rule) = leaf_of rule.
Proof. destruct rule as [[f|] [o|] op v a r]; reflexivity. Qed.

(** A comparison without operator is false. *)
Lemma evaluateRule_leaf_without_operator now customer (rule : node) :
  operator_or_op rule = None -> evaluateRule now customer (leaf_of rule) = false.
Proof.
  destruct rule as [[[[]|]|] [o|] [op|] v a r]; cbn; done.
Qed.

(** The comparison that is made of a rule with a field name and without
    the key [operator] is true of the customers that the rule is true
    of, in memory and as it is saved. *)
Lemma evaluateRule_leaf_with_op now customer (rule : node) f :
  n_field rule = Some (Some f) -> n_operator rule = None ->
  evaluateRule now customer (leaf_of rule) = evaluateRule now customer rule
  /\ evaluateRule now customer (Mongoose.saved (leaf_of rule))
     = evaluateRule now customer rule.
Proof.
  destruct rule as [[[f'|]|] [o|] op v a r]; simpl; try done.
  all: intros [= ->] _; by destruct f.
Qed.

(** A comparison of a field without operator is false as it is saved. *)
Lemma evaluateRule_saved_leaf_without_operator now customer (rule : node) f :
  n_field rule = Some (Some f) -> operator_or_op rule = None ->
  evaluateRule now customer (Mongoose.saved (leaf_of rule)) = false.
Proof.
  destruct rule as [[[f'|]|] [o|] [op|] v a r]; simpl; try done.
  all: intros [= ->] _; by destruct f.
Qed.

Lemma saved_saved (rule : node) : Mongoose.saved (Mongoose.saved rule) = Mongoose.saved rule.
Proof.
  revert rule. fix IH 1. intros [f o op v a r]. cbn [Mongoose.saved]. f_equal.
  - by destruct f as [[f|]|].
  - destruct a as [a|]; [|done]. cbn [option_map]. f_equal.
    induction a as [|x a IHa]; [done|]. cbn [map]. f_equal; [apply IH|apply IHa].
  - destruct r as [r|]; [|done]. cbn [option_map]. f_equal.
    induction r as [|x r IHr]; [done|]. cbn [map]. f_equal; [apply IH|apply IHr].
Qed.

Lemma saved_leaf_of_saved_leaf_of (rule : node) :
  Mongoose.saved (leaf_of (Mongoose.saved (leaf_of rule))) = Mongoose.saved (leaf_of rule).
Proof. destruct rule as [[[f|]|] [o|] op v a r]; reflexivity. Qed.

Lemma leaf_has_value_leaf_of (rule : node) : leaf_has_value (leaf_of rule) = leaf_has_value rule.
Proof. destruct rule as [f [o|] [op|] v a r]; reflexivity. Qed.

Lemma leaves_have_values_leaf_of (l : list node) :
  forallb leaf_has_value (map leaf_of l) = forallb leaf_has_value l.
Proof.
  induction l as [|x l IH]; [done|]. cbn [map forallb].
  by rewrite leaf_has_value_leaf_of, IH.
Qed.

End fixRuleStructure_facts.

(** X1: [fixRuleStructure] is idempotent, and so is what a creation
    stores.  Applied to the rules that it returns, [fixRuleStructure]
    returns them unchanged.  The rules that [createSegment] stores for a
    body (the fixed rules, saved) are the rules that it stores for a body
    that carries those stored rules.  When every comparison that is made
    of the rules has a value or no operator, the same is true of the rules
    that [fixRuleStructure] returns: they are again rules for which the
    model of an update holds. *)
Theorem fixRuleStructure_idempotent :
  forall rules,
    Segments.fixRuleStructure (Segments.fixRuleStructure rules)
    = Segments.fixRuleStructure rules
    /\ Mongoose.saved (Segments.fixRuleStructure
                         (Mongoose.saved (Segments.fixRuleStructure rules)))
       = Mongoose.saved (Segments.fixRuleStructure rules)
    /\ (Segments.leaves_have_values rules = true ->
        Segments.leaves_have_values (Segments.fixRuleStructure rules) = true).
Proof.
  intros [f o op v a r]. unfold Segments.fixRuleStructure, Segments.leaves_have_values.
  destruct a as [a|]; cbn.
  - split; [|split].
    + rewrite map_map.
      rewrite (map_ext _ Segments.leaf_of) by (intros x; apply leaf_of_leaf_of).
      reflexivity.
    + f_equal; f_equal.
      * rewrite !map_map. apply map_ext. intros x. apply saved_leaf_of_saved_leaf_of.
      * rewrite map_map. apply map_ext. intros x. apply saved_saved.
    + intros H. by rewrite leaves_have_values_leaf_of.
  - destruct r as [r|]; cbn.
    + split; [done|]. split; [|done].
      rewrite (map_map Mongoose.saved Mongoose.saved).
      rewrite (map_ext _ Mongoose.saved) by (intros x; apply saved_saved).
      reflexivity.
    + destruct f as [[f|]|]; cbn; done.
Qed.

(** X2: an [and] group of comparisons keeps its meaning.  For an [and]
    group whose members all name a field and write their comparison
    under [op] (no [operator] key), the rules that [fixRuleStructure]
    returns, and the rules that a creation stores of them, are true of
    exactly the customers that all members of the request are true of. *)
Theorem fixRuleStructure_keeps_and_group :
  forall now customer field operator op value members any_or,
    Forall (fun r => (exists f, SegmentRules.n_field r = Some (Some f))
                     /\ SegmentRules.n_operator r = None)
           members ->
    SegmentRules.evaluateRule now customer
      (Segments.fixRuleStructure
         (SegmentRules.Node field operator op value (Some members) any_or))
    = forallb (SegmentRules.evaluateRule now customer) members
    /\ SegmentRules.evaluateRule now customer
         (Mongoose.saved
            (Segments.fixRuleStructure
               (SegmentRules.Node field operator op value (Some members) any_or)))
       = forallb (SegmentRules.evaluateRule now customer) members.
Proof.
  intros now customer field operator op value members any_or Hall.
  unfold Segments.fixRuleStructure. cbn.
  induction Hall as [|r members [[f Hf] Ho] _ [IH1 IH2]]; [done|].
  destruct (evaluateRule_leaf_with_op now customer r f Hf Ho) as [E1 E2].
  cbn [map forallb]. rewrite IH1, IH2, E1, E2. done.
Qed.

(** The theorem on the group [{and: [spend > 1000]}]: Bob, who spent
    1500, is selected by the stored rules. *)
Lemma fixRuleStructure_keeps_and_group_witness :
  SegmentRules.evaluateRule 0 Examples.bob
    (Mongoose.saved
       (Segments.fixRuleStructure
          (SegmentRules.Node None None None None (Some [Examples.big_spender]) None)))
  = true.
Proof.
  destruct (fixRuleStructure_keeps_and_group 0 Examples.bob None None None None
              [Examples.big_spender] None) as [_ H].
  - repeat constructor. by exists SegmentRules.spend.
  - rewrite H. reflexivity.
Defined.

(** X3: a member of an [and] list without operator.  When a member of
    the [and] list has neither an [operator] nor an [op] key, the rules
    that [fixRuleStructure] returns are true of no customer, whatever the
    other members are: the member has become a comparison without
    operator.  When that member names a field, the rules that a creation
    stores are true of no customer either.  (A member that names no
    field, a nested group for instance, is saved without the key [field]
    and is then no comparison: see
    [nested_group_in_and_list_is_stored_as_true].) *)
Theorem fixRuleStructure_and_member_without_operator :
  forall now customer field operator op value members any_or,
    (Exists (fun r => Segments.operator_or_op r = None) members ->
     SegmentRules.evaluateRule now customer
       (Segments.fixRuleStructure
          (SegmentRules.Node field operator op value (Some members) any_or))
     = false)
    /\ (Exists (fun r => (exists f, SegmentRules.n_field r = Some (Some f))
                         /\ Segments.operator_or_op r = None) members ->
        SegmentRules.evaluateRule now customer
          (Mongoose.saved
             (Segments.fixRuleStructure
                (SegmentRules.Node field operator op value (Some members) any_or)))
        = false).
Proof.
  intros now customer field operator op value members any_or. split; intros Hex.
  - unfold Segments.fixRuleStructure. cbn.
    induction Hex as [r members Hr|r members _ IH]; cbn [map forallb].
    + by rewrite evaluateRule_leaf_without_operator.
    + rewrite IH. apply andb_false_r.
  - unfold Segments.fixRuleStructure. cbn.
    induction Hex as [r members [[f Hf] Hr]|r members _ IH]; cbn [map forallb].
    + by rewrite (evaluateRule_saved_leaf_without_operator now customer r f).
    + rewrite IH. apply andb_false_r.
Qed.

(** The theorem on the group [{and: [spend > 100, {field: 'spend'}]}]:
    the second member names a field and has no operator; Bob, who spent
    1500, is selected neither by the rules that [fixRuleStructure]
    returns nor by the rules that a creation stores. *)
Lemma fixRuleStructure_and_member_without_operator_witness :
  SegmentRules.evaluateRule 0 Examples.bob
    (Segments.fixRuleStructure
       (SegmentRules.Node None None None None
          (Some [SegmentRules.Rule SegmentRules.spend SegmentRules.gt 100;
                 SegmentRules.Node (Some (Some SegmentRules.spend)) None None None None None])
          None))
  = false
  /\ SegmentRules.evaluateRule 0 Examples.bob
       (Mongoose.saved
          (Segments.fixRuleStructure
             (SegmentRules.Node None None None None
                (Some [SegmentRules.Rule SegmentRules.spend SegmentRules.gt 100;
                       SegmentRules.Node (Some (Some SegmentRules.spend)) None None None
                                         None None])
                None)))
     = false.
Proof.
  destruct (fixRuleStructure_and_member_without_operator 0 Examples.bob None None None None
              [SegmentRules.Rule SegmentRules.spend SegmentRules.gt 100;
               SegmentRules.Node (Some (Some SegmentRules.spend)) None None None None None]
              None) as [H1 H2].
  split; [apply H1|apply H2]; apply Exists_cons_tl, Exists_cons_hd.
  - reflexivity.
  - split; [by exists SegmentRules.spend|reflexivity].
Defined.

(** The group [{and: [spend > 100, {or: [spend > 1000]}]}]: Ann, who
    spent 500, does not satisfy the second member.  The nested group has
    no key [field], [op] or [value]: [fixRuleStructure] makes a comparison
    of three [undefined] of it, which is false of everybody; a creation
    saves that comparison as the object [{}], which is true of everybody,
    so the stored rules select Ann. *)
Example nested_group_in_and_list_is_stored_as_true :
  let body :=
    SegmentRules.Node None None None None
      (Some [SegmentRules.Rule SegmentRules.spend SegmentRules.gt 100; Examples.or_only])
      None in
  SegmentRules.evaluateRule 0 Examples.ann body = false
  /\ SegmentRules.evaluateRule 0 Examples.ann (Segments.fixRuleStructure body) = false
  /\ Mongoose.saved (Segments.fixRuleStructure body)
     = SegmentRules.Node None None None None
         (Some [SegmentRules.Rule SegmentRules.spend SegmentRules.gt 100;
                SegmentRules.Node None None None None None None])
         (Some [])
  /\ SegmentRules.evaluateRule 0 Examples.ann
       (Mongoose.saved (Segments.fixRuleStructure body)) = true.
Proof. repeat split. Qed.

(** ** Reading, paging, refreshing and deleting segments *)

Section segment_facts.
Import Async.

Lemma find_updateOne_same {A : Type} (p : A -> bool) (f : A -> A) (l : list A) :
  (forall x, p (f x) = p x) ->
  List.find p (Mongo.updateOne p f l) = option_map f (List.find p l).
Proof.
  intros Hp. induction l as [|x l IH]; simpl; [done|].
  destruct (p x) eqn:E; simpl.
  - by rewrite Hp, E.
  - by rewrite E.
Qed.

Lemma find_none_all {A : Type} (p : A -> bool) (l : list A) :
  (forall x, In x l -> p x = false) -> List.find p l = None.
Proof.
  induction l as [|x l IH]; simpl; intros H; [done|].
  rewrite (H x) by (by left). apply IH. intros y Hy. apply H. by right.
Qed.

(** What [populateSegmentCustomers] does to a store in which the segment
    is found. *)
Lemma populate_found now segmentId db segment :
  SegmentCustomers.findById segmentId db = Some segment ->
  SegmentPopulation.populateSegmentCustomers now segmentId db
  = Some (Mongo.with_segments db
            (Mongo.updateOne (fun s => SegmentModel._id s =? segmentId)
               (SegmentPopulation.set_population
                  (map (fun c => String_ (CustomerModel._id c))
                       (CampaignDeliveryService.getCustomersForSegment now segment db))
                  now)
               (segments db)),
          Z.of_nat (length (CampaignDeliveryService.getCustomersForSegment now segment db))).
Proof.
  unfold SegmentCustomers.findById, SegmentPopulation.populateSegmentCustomers.
  intros ->. by rewrite length_map.
Qed.

(** Reading the customer ids of a segment that is found never rejects,
    and touches the segments only. *)
Lemma current_ids_resolves now segmentId db segment :
  SegmentCustomers.findById segmentId db = Some segment ->
  exists ids db',
    SegmentCustomers.current_ids now segmentId segment db = (Resolved ids, db')
    /\ customers db' = customers db.
Proof.
  intros Hfind. unfold SegmentCustomers.current_ids.
  destruct (_ || _); [|by eexists _, _].
  unfold mbind, Async_bind, Async.bind, SegmentCustomers.populate.
  rewrite (populate_found _ _ _ _ Hfind).
  unfold SegmentCustomers.findById in *. cbn [segments Mongo.with_segments].
  rewrite find_updateOne_same by done. rewrite Hfind. cbn [option_map].
  by eexists _, _.
Qed.

(** With distinct customer ids, a lookup by a list of ids returns at most
    one customer per id. *)
Lemma find_customers_bound (customerIds : list string) (userId : ObjectId) (db : DB) :
  List.NoDup (map CustomerModel._id (customers db)) ->
  (length (SegmentCustomers.find_customers customerIds userId db) <= length customerIds)%nat.
Proof.
  intros Hnd. unfold SegmentCustomers.find_customers.
  set (found := List.filter _ (customers db)).
  rewrite <- (length_map (fun c => String_ (CustomerModel._id c)) found).
  apply List.NoDup_incl_length.
  - rewrite <- (map_map CustomerModel._id String_).
    apply Finite.Injective_map_NoDup; [intros x y; apply pretty_Z_inj|].
    assert (Hsub : forall l, List.NoDup (map CustomerModel._id l) ->
                     List.NoDup (map CustomerModel._id
                                   (List.filter
                                      (fun c => Js.includes customerIds
                                                  (String_ (CustomerModel._id c))
                                                && (CustomerModel.userId c =? userId)) l))).
    { induction l as [|x l IH]; simpl; intros H; [constructor|].
      inversion H as [|? ? Hnotin H']; subst.
      destruct (_ && _); simpl; [|by apply IH].
      constructor; [|by apply IH].
      intros Hin. apply Hnotin. apply in_map_iff in Hin as (y & Hy & Hin).
      apply filter_In in Hin as [Hin _]. rewrite <- Hy. by apply in_map. }
    by apply Hsub.
  - intros s Hs. apply in_map_iff in Hs as (c & <- & Hc).
    apply filter_In in Hc as [_ Hc]. apply andb_prop in Hc as [Hc _].
    unfold Js.includes in Hc. apply existsb_exists in Hc as (t & Ht & Heq).
    apply String.eqb_eq in Heq. by rewrite Heq.
Qed.

Lemma slice_0_length {A : Type} (n : Z) (l : list A) :
  0 < n -> Z.of_nat (length (JsArray.slice 0 n l)) <= n.
Proof.
  intros Hn. unfold JsArray.slice, JsArray.relative.
  rewrite length_firstn. change (0 <? 0) with false. cbv iota.
  destruct (Z.ltb_spec n 0); lia.
Qed.

Lemma page_length (n : Z) (offset : option Z) (ids : list string) :
  0 < n -> Z.of_nat (length (SegmentCustomers.page (Some n) offset ids)) <= n.
Proof.
  intros Hn. unfold SegmentCustomers.page.
  destruct (Z.eqb_spec n 0); [lia|]. by apply slice_0_length.
Qed.

End segment_facts.

(** On a segment with rules the population returns a count, and the
    preview answers it. *)
Lemma preview_and_population now userId id db segment :
  List.NoDup (map SegmentModel._id (segments db)) ->
  List.find (SegmentsController.owned id userId) (segments db) = Some segment ->
  (length (SegmentPopulation.customers_of userId db) <= 5000)%nat ->
  exists db' count stored,
    SegmentPopulation.populateSegmentCustomers now id db = Some (db', count)
    /\ SegmentsController.previewSegment now userId id db = SegmentsController.Count count
    /\ SegmentCustomers.findById id db' = Some stored
    /\ SegmentModel.customer_count stored = count.
Proof.
  intros Hnd Hfind Hsize.
  pose proof (find_by_id_and SegmentModel._id id _ _ _ Hnd Hfind) as Hid.
  apply find_some in Hfind as Hown. destruct Hown as [_ Hown].
  apply andb_prop in Hown as [_ Hown]. apply Z.eqb_eq in Hown.
  eexists _, _, _. split; [by apply populate_found|].
  split; [|split].
  - unfold SegmentsController.previewSegment. rewrite Hfind.
    unfold SegmentPopulation.customers_of in Hsize.
    rewrite firstn_all2 by exact Hsize.
    unfold CampaignDeliveryService.getCustomersForSegment. by rewrite Hown.
  - unfold SegmentCustomers.findById. cbn [segments Mongo.with_segments].
    rewrite find_updateOne_same by done.
    unfold SegmentCustomers.findById in Hid. by rewrite Hid.
  - cbn. by rewrite length_map.
Qed.

(** X4: a preview counts what a population stores.  With distinct segment
    ids, for a segment of the requesting owner who has at most 5000
    customers: whenever [populateSegmentCustomers] returns a count for
    the segment, [previewSegment] answers that count, and it is the
    [customer_count] that the population has stored.  (Nothing is said
    of a population that throws, as the source does on a segment stored
    without rules whose owner has a customer.) *)
Theorem previewSegment_counts_like_population :
  forall now userId id db segment db' count,
    List.NoDup (map SegmentModel._id (segments db)) ->
    List.find (SegmentsController.owned id userId) (segments db) = Some segment ->
    (length (SegmentPopulation.customers_of userId db) <= 5000)%nat ->
    SegmentPopulation.populateSegmentCustomers now id db = Some (db', count) ->
    SegmentsController.previewSegment now userId id db = SegmentsController.Count count
    /\ exists stored,
         SegmentCustomers.findById id db' = Some stored
         /\ SegmentModel.customer_count stored = count.
Proof.
  intros now userId id db segment db' count Hnd Hfind Hsize Hpop.
  destruct (preview_and_population now userId id db segment Hnd Hfind Hsize)
    as (db1 & count1 & stored & Hpop1 & Hpreview & Hstored & Hcount).
  rewrite Hpop in Hpop1. injection Hpop1 as <- <-.
  split; [exact Hpreview|]. by exists stored.
Qed.

(** The theorem on the sample database: segment 31 of owner 1 selects
    the customers who spent more than 1000; the population returns one,
    and the preview counts one. *)
Lemma previewSegment_counts_like_population_witness :
  SegmentsController.previewSegment 0 1 31 Examples.db0 = SegmentsController.Count 1
  /\ exists stored,
       SegmentCustomers.findById 31
         (Mongo.with_segments Examples.db0
            [SegmentPopulation.set_population ["12"] 0
               (Examples.segment 31 1 Examples.big_spender)])
       = Some stored
       /\ SegmentModel.customer_count stored = 1.
Proof.
  apply (previewSegment_counts_like_population 0 1 31 Examples.db0
           (Examples.segment 31 1 Examples.big_spender)).
  - repeat constructor; simpl; intuition discriminate.
  - reflexivity.
  - simpl. lia.
  - reflexivity.
Defined.

(** X5: deleting a segment.  With distinct segment ids, [deleteSegment]
    answers [Deleted] or [NotFound].  On [Deleted] exactly the segment
    with that id is gone, the other segments are kept in their order,
    the customers are untouched, and the owner no longer finds the
    segment.  On [NotFound] the database is unchanged and no segment
    with that id belongs to the requester: the segment of another owner
    is never deleted. *)
Theorem deleteSegment_removes_only_the_owned_segment :
  forall userId id db,
    List.NoDup (map SegmentModel._id (segments db)) ->
    match SegmentsController.deleteSegment userId id db with
    | (db', SegmentsController.Deleted sid) =>
        sid = String_ id
        /\ segments db'
           = List.filter (fun s => negb (SegmentModel._id s =? id)) (segments db)
        /\ customers db' = customers db
        /\ SegmentsController.getSegment userId id db' = SegmentsController.NotFound
    | (db', SegmentsController.NotFound) =>
        db' = db
        /\ forall s, In s (segments db) -> SegmentModel._id s = id ->
                     SegmentModel.userId s <> userId
    | _ => False
    end.
Proof.
  intros userId id db Hnd. unfold SegmentsController.deleteSegment.
  destruct (List.find _ (segments db)) as [segment|] eqn:Hfind.
  - apply find_some in Hfind as Hown. destruct Hown as [_ Hown].
    apply andb_prop in Hown as [Hid _]. apply Z.eqb_eq in Hid.
    split; [by rewrite Hid|].
    unfold SegmentsController.getSegment, SegmentsController.owned in Hfind |- *.
    rewrite (deleteOne_by_id SegmentModel._id id _ _ _ Hnd Hfind).
    split; [reflexivity|]. split; [reflexivity|].
    cbn [segments Mongo.with_segments].
    rewrite find_none_all; [done|].
    intros s Hs. apply filter_In in Hs as [_ Hs].
    apply negb_true_iff in Hs. by rewrite Hs.
  - split; [reflexivity|]. intros s Hs Hid Hu.
    pose proof (find_none _ _ Hfind s Hs) as Hno.
    unfold SegmentsController.owned in Hno.
    rewrite Hid, Hu, !Z.eqb_refl in Hno. discriminate.
Qed.

(** The theorem on the sample database: owner 2 cannot delete segment 31
    of owner 1. *)
Lemma deleteSegment_removes_only_the_owned_segment_witness :
  SegmentsController.deleteSegment 2 31 Examples.db0
  = (Examples.db0, SegmentsController.NotFound).
Proof.
  pose proof (deleteSegment_removes_only_the_owned_segment 2 31 Examples.db0) as H.
  assert (Hnd : List.NoDup (map SegmentModel._id (segments Examples.db0))).
  { repeat constructor; simpl; intuition discriminate. }
  specialize (H Hnd).
  destruct (SegmentsController.deleteSegment 2 31 Examples.db0) as [db' []] eqn:E;
    try discriminate E.
  destruct H as [-> _]. reflexivity.
Defined.

(** X6: a page of the customers of a segment.  With distinct customer
    ids: when no segment has the id, [getSegmentCustomers] rejects with
    ['Segment not found'] and changes nothing.  Whenever it resolves, a
    segment has the id, the customers are left as they are, every
    customer it returns is a stored customer of the owner of the segment,
    whoever asks, and with a positive [limit] it returns at most [limit]
    customers.  (Nothing is said of another rejection, as the one of the
    source when the segment is stored without rules and is populated for
    the page.) *)
Theorem getSegmentCustomers_returns_a_page_of_the_owner :
  forall now segmentId limit offset db,
    List.NoDup (map CustomerModel._id (customers db)) ->
    (SegmentCustomers.findById segmentId db = None ->
     SegmentCustomers.getSegmentCustomers now segmentId limit offset db
     = (Async.Rejected "Segment not found", db))
    /\ match SegmentCustomers.getSegmentCustomers now segmentId limit offset db with
       | (Async.Resolved found, db') =>
           exists segment,
             SegmentCustomers.findById segmentId db = Some segment
             /\ customers db' = customers db
             /\ (forall c, In c found ->
                   In c (customers db)
                   /\ CustomerModel.userId c = SegmentModel.userId segment)
             /\ (forall n, limit = Some n -> 0 < n -> Z.of_nat (length found) <= n)
       | (Async.Rejected _, _) => True
       end.
Proof.
  intros now segmentId limit offset db Hnd.
  unfold SegmentCustomers.getSegmentCustomers.
  destruct (SegmentCustomers.findById segmentId db) as [segment|] eqn:Hfind; [|done].
  split; [done|].
  destruct (current_ids_resolves now segmentId db segment Hfind) as (ids & db1 & Hids & Hcust).
  unfold mbind, Async_bind, Async.bind. rewrite Hids.
  exists segment. split; [done|]. split; [done|]. split.
  - intros c Hc. unfold SegmentCustomers.find_customers in Hc.
    apply filter_In in Hc as [Hin Hc]. apply andb_prop in Hc as [_ Hc].
    rewrite Hcust in Hin. split; [done|]. by apply Z.eqb_eq.
  - intros n -> Hn.
    etrans; [|apply (page_length n offset ids Hn)].
    apply inj_le. apply find_customers_bound. by rewrite Hcust.
Qed.

(** The theorem on the sample database: the first page of size one of
    segment 31 holds Bob, the only customer of owner 1 who spent more
    than 1000. *)
Lemma getSegmentCustomers_returns_a_page_of_the_owner_witness :
  fst (SegmentCustomers.getSegmentCustomers 0 31 (Some 1) None Examples.db0)
  = Async.Resolved [Examples.bob]
  /\ match SegmentCustomers.getSegmentCustomers 0 31 (Some 1) None Examples.db0 with
     | (Async.Resolved found, db') =>
         exists segment,
           SegmentCustomers.findById 31 Examples.db0 = Some segment
           /\ customers db' = customers Examples.db0
           /\ (forall c, In c found ->
                 In c (customers Examples.db0)
                 /\ CustomerModel.userId c = SegmentModel.userId segment)
           /\ (forall n, Some 1 = Some n -> 0 < n -> Z.of_nat (length found) <= n)
     | (Async.Rejected _, _) => True
     end.
Proof.
  split; [reflexivity|].
  destruct (getSegmentCustomers_returns_a_page_of_the_owner 0 31 (Some 1) None Examples.db0)
    as [_ H]; [|exact H].
  repeat constructor; simpl; intuition discriminate.
Defined.


(** ** Refreshing all segments *)

Section refresh_facts.
Import Async.
Variable now : Z.

(** The segment as [populateSegmentCustomers] rewrites it when the
    customers are those of [db]. *)
Let populated (db : DB) (s : SegmentModel.t) : SegmentModel.t :=
  SegmentPopulation.set_population
    (map (fun c => String_ (CustomerModel._id c))
         (CampaignDeliveryService.getCustomersForSegment now s db))
    now s.

Let touched (ids : list ObjectId) (db : DB) (s : SegmentModel.t) : SegmentModel.t :=
  if existsb (Z.eqb (SegmentModel._id s)) ids then populated db s else s.

Lemma populated_customers db1 db2 s :
  customers db1 = customers db2 -> populated db1 s = populated db2 s.
Proof.
  intros H. unfold populated, CampaignDeliveryService.getCustomersForSegment.
  by rewrite H.
Qed.

Lemma populated_twice db s : populated db (populated db s) = populated db s.
Proof. reflexivity. Qed.

Lemma map_touched_ids ids db (l : list SegmentModel.t) :
  map SegmentModel._id (map (touched ids db) l) = map SegmentModel._id l.
Proof.
  rewrite map_map. apply map_ext. intros s. unfold touched.
  by destruct (existsb (Z.eqb (SegmentModel._id s)) ids).
Qed.

(** With distinct ids, one population rewrites the segment with the id
    and no other. *)
Lemma populate_one segmentId db :
  List.NoDup (map SegmentModel._id (segments db)) ->
  In segmentId (map SegmentModel._id (segments db)) ->
  exists count,
    SegmentCustomers.populate now segmentId db
    = (Resolved count,
       Mongo.with_segments db (map (touched [segmentId] db) (segments db))).
Proof.
  intros Hnd Hin.
  destruct (List.find (fun s => SegmentModel._id s =? segmentId) (segments db))
    as [segment|] eqn:Hfind.
  - unfold SegmentCustomers.populate.
    rewrite (populate_found now segmentId db segment Hfind).
    eexists. f_equal. f_equal.
    rewrite (updateOne_map_by_id SegmentModel._id) by done.
    apply map_ext_in. intros s Hs. unfold touched. cbn [existsb].
    rewrite orb_false_r.
    destruct (Z.eqb_spec (SegmentModel._id s) segmentId) as [E|E]; [|done].
    assert (s = segment) as ->; [|done].
    apply find_some in Hfind as [Hin' Hid]. apply Z.eqb_eq in Hid.
    assert (Hinj : forall l : list SegmentModel.t,
               List.NoDup (map SegmentModel._id l) ->
               forall x y, In x l -> In y l ->
                           SegmentModel._id x = SegmentModel._id y -> x = y).
    { induction l as [|a l IH]; intros Hl x y Hx Hy Hxy; [destruct Hx|].
      inversion Hl as [|? ? Hnotin Hl']; subst.
      destruct Hx as [->|Hx], Hy as [->|Hy]; try done.
      - exfalso. apply Hnotin. rewrite Hxy. by apply in_map.
      - exfalso. apply Hnotin. rewrite <- Hxy. by apply in_map.
      - by apply IH. }
    apply (Hinj _ Hnd); [done|done|congruence].
  - exfalso. apply in_map_iff in Hin as (s & Hid & Hs).
    pose proof (find_none _ _ Hfind s Hs) as Hno. simpl in Hno.
    rewrite Hid, Z.eqb_refl in Hno. discriminate.
Qed.

(** The loop of [refreshAllSegments] over segments that are stored. *)
Lemma refresh_each_spec (todo : list SegmentModel.t) :
  forall db,
    List.NoDup (map SegmentModel._id (segments db)) ->
    (forall s, In s todo -> In (SegmentModel._id s) (map SegmentModel._id (segments db))) ->
    SegmentCustomers.refresh_each now todo db
    = (Resolved tt,
       Mongo.with_segments db
         (map (touched (map SegmentModel._id todo) db) (segments db))).
Proof.
  induction todo as [|s todo IH]; intros db Hnd Hin.
  - cbn [SegmentCustomers.refresh_each map]. unfold Async.ret. f_equal.
    assert (map (touched [] db) (segments db) = segments db) as ->.
    { rewrite <- (List.map_id (segments db)) at 2. by apply map_ext. }
    by destruct db.
  - cbn [SegmentCustomers.refresh_each]. unfold mbind, Async_bind, Async.bind at 1.
    destruct (populate_one (SegmentModel._id s) db Hnd (Hin s (or_introl eq_refl)))
      as (count & ->).
    rewrite IH.
    + f_equal. cbn [segments Mongo.with_segments]. unfold Mongo.with_segments.
      cbn [users customers segments campaigns communication_log sent_messages next_id].
      f_equal. rewrite map_map. apply map_ext. intros x.
      unfold touched at 1 3. cbn [map existsb].
      unfold touched at 2. cbn [existsb]. rewrite orb_false_r.
      destruct (Z.eqb_spec (SegmentModel._id x) (SegmentModel._id s)) as [E|E].
      * cbn [orb]. change (SegmentModel._id (populated db x)) with (SegmentModel._id x).
        destruct (existsb _ _); reflexivity.
      * cbn [orb]. destruct (existsb _ _); reflexivity.
    + cbn [segments Mongo.with_segments]. by rewrite map_touched_ids.
    + intros y Hy. cbn [segments Mongo.with_segments]. rewrite map_touched_ids.
      apply Hin. by right.
Qed.

(** With distinct ids, the ids of the documents that a filter selects
    are the ids of the documents that satisfy it. *)
Lemma selected_ids (p : SegmentModel.t -> bool) (l : list SegmentModel.t) (s : SegmentModel.t) :
  List.NoDup (map SegmentModel._id l) -> In s l ->
  existsb (Z.eqb (SegmentModel._id s)) (map SegmentModel._id (List.filter p l)) = p s.
Proof.
  intros Hnd Hs. destruct (p s) eqn:Hsel.
  - apply existsb_exists. exists (SegmentModel._id s). split; [|apply Z.eqb_refl].
    apply in_map, filter_In. done.
  - apply not_true_iff_false. intros H.
    apply existsb_exists in H as (k & Hk & Heq). apply Z.eqb_eq in Heq. subst k.
    apply in_map_iff in Hk as (y & Hy & Hin). apply filter_In in Hin as [Hin Hysel].
    assert (y = s) as ->; [|congruence].
    clear - Hnd Hs Hin Hy. induction l as [|a l IH]; [destruct Hs|].
    inversion Hnd as [|? ? Hnotin Hnd']; subst.
    destruct Hs as [->|Hs], Hin as [->|Hin]; try done.
    + exfalso. apply Hnotin. rewrite <- Hy. by apply in_map.
    + exfalso. apply Hnotin. rewrite Hy. by apply in_map.
    + by apply IH.
Qed.

End refresh_facts.

(** The refresh of segments that all have rules. *)
Lemma refreshAllSegments_spec now userId db :
  List.NoDup (map SegmentModel._id (segments db)) ->
  SegmentCustomers.refreshAllSegments now userId db
  = (Async.Resolved tt,
     Mongo.with_segments db
       (map (fun s =>
               if SegmentCustomers.selected userId s
               then SegmentPopulation.set_population
                      (map (fun c => String_ (CustomerModel._id c))
                           (CampaignDeliveryService.getCustomersForSegment now s db))
                      now s
               else s)
            (segments db))).
Proof.
  intros Hnd. unfold SegmentCustomers.refreshAllSegments.
  rewrite refresh_each_spec.
  - f_equal. f_equal. apply map_ext_in. intros s Hs.
    by rewrite (selected_ids (SegmentCustomers.selected userId) (segments db) s Hnd Hs).
  - exact Hnd.
  - intros s Hs. apply filter_In in Hs as [Hs _]. by apply in_map.
Qed.

(** X7: what a refresh establishes.  With distinct segment ids, whenever
    [refreshAllSegments] resolves, it has left everything but the
    segments as it was, kept the segments in their order, and rewritten
    exactly the segments of the given owner (all segments when no owner
    is given): each of them then lists the ids of the customers of its
    own owner that satisfy its rules now, counts them, and carries the
    time of the refresh.  (Nothing is said of a refresh that rejects, as
    the one of the source does when a population throws on a segment
    stored without rules.) *)
Theorem refreshAllSegments_repopulates_the_selected_segments :
  forall now userId db db',
    List.NoDup (map SegmentModel._id (segments db)) ->
    SegmentCustomers.refreshAllSegments now userId db = (Async.Resolved tt, db') ->
    db' = Mongo.with_segments db
            (map (fun s =>
                    if SegmentCustomers.selected userId s
                    then SegmentPopulation.set_population
                           (map (fun c => String_ (CustomerModel._id c))
                                (CampaignDeliveryService.getCustomersForSegment now s db))
                           now s
                    else s)
                 (segments db)).
Proof.
  intros now userId db db' Hnd Hrefresh.
  rewrite (refreshAllSegments_spec now userId db Hnd) in Hrefresh.
  by injection Hrefresh as <-.
Qed.

(** The theorem on the sample database: after a refresh for owner 1,
    segment 31 lists Bob, the one customer of owner 1 who spent more
    than 1000. *)
Lemma refreshAllSegments_repopulates_the_selected_segments_witness :
  map (fun s => (SegmentModel.customer_ids s, SegmentModel.customer_count s,
                 SegmentModel.last_populated_at s))
      (segments (snd (SegmentCustomers.refreshAllSegments 7 (Some 1) Examples.db0)))
  = [(["12"], 1, Some 7)].
Proof.
  rewrite (refreshAllSegments_repopulates_the_selected_segments 7 (Some 1) Examples.db0
             (snd (SegmentCustomers.refreshAllSegments 7 (Some 1) Examples.db0))).
  - reflexivity.
  - repeat constructor; simpl; intuition discriminate.
  - reflexivity.
Defined.

(** ** The name of the downloaded file *)

Section filename_facts.
Import SegmentsController.

Lemma lower_ascii_alnum (c : ascii) :
  is_alnum c = true ->
  let n := nat_of_ascii (Js.lower_ascii c) in
  (Nat.leb 97 n && Nat.leb n 122) || (Nat.leb 48 n && Nat.leb n 57) = true.
Proof.
  destruct c as [[] [] [] [] [] [] [] []]; vm_compute; intros H; congruence.
Qed.

End filename_facts.

(** X8: the file name of a segment download.  For every segment name,
    the name in the [Content-Disposition] header is a stem of the length
    of the segment name followed by [_customers.xlsx], and the stem
    holds lower-case ASCII letters, digits and underscores only: no
    quote, path separator or line break of the segment name reaches the
    header. *)
Theorem download_filename_is_safe :
  forall name,
    exists stem,
      SegmentsController.download_filename name = stem +:+ "_customers.xlsx"
      /\ String.length stem = String.length name
      /\ forallb (fun c =>
                    let n := nat_of_ascii c in
                    (Nat.leb 97 n && Nat.leb n 122) || (Nat.leb 48 n && Nat.leb n 57)
                    || Ascii.eqb c "_")
                 (list_ascii_of_string stem) = true.
Proof.
  intros name. exists (Js.toLowerCase (SegmentsController.replace_non_alnum name)).
  split; [reflexivity|]. induction name as [|c name [IHlen IHsafe]]; [done|].
  cbn [SegmentsController.replace_non_alnum Js.toLowerCase String.length
       list_ascii_of_string forallb].
  split; [by rewrite IHlen|]. apply andb_true_intro. split; [|exact IHsafe].
  destruct (SegmentsController.is_alnum c) eqn:E.
  - pose proof (lower_ascii_alnum c E) as H. cbv zeta in H. cbv zeta. by rewrite H.
  - reflexivity.
Qed.

(** ** Creating and updating segments *)

Section create_facts.

Lemma other_ids_not_owned (id userId : ObjectId) (l : list SegmentModel.t) :
  (forall s, In s l -> SegmentModel._id s <> id) ->
  forallb (fun y => negb (SegmentsController.owned id userId y)) l = true.
Proof.
  intros H. apply forallb_forall. intros s Hs. unfold SegmentsController.owned.
  apply negb_true_iff, andb_false_iff. left. apply Z.eqb_neq. auto.
Qed.

End create_facts.

(** X18: a created segment can be read back.  For a body whose rules
    are not saved as the empty object, when the fresh id is not in use,
    [createSegment] appends one segment and changes nothing else; the
    segment has the fresh id, the requester as owner, the name of the
    request, the rules that [fixRuleStructure] gives as they are saved
    (without the keys whose value is [undefined]), and as customers the
    requester's customers that satisfy those stored rules, whose number
    is the [customer_count] of the answer.  [getSegment] then returns
    this segment to the requester, and answers 404 to every other
    user. *)
Theorem createSegment_then_getSegment :
  forall now userId body db,
    (forall s, In s (segments db) -> SegmentModel._id s <> next_id db) ->
    Mongoose.empty_object
      (Mongoose.saved (Segments.fixRuleStructure (Segments.rules_json body))) = false ->
    let id := next_id db in
    let rules := Mongoose.saved (Segments.fixRuleStructure (Segments.rules_json body)) in
    let selected :=
      List.filter (fun c => SegmentRules.evaluateRule now c rules)
                  (SegmentPopulation.customers_of userId db) in
    exists db' seg,
      Segments.createSegment now userId body db
      = (db', Segments.Created (String_ id) (Segments.name body)
                (Z.of_nat (length selected))
                ("Segment created with " +:+ pretty (Z.of_nat (length selected))
                                         +:+ " customers"))
      /\ segments db' = segments db ++ [seg]
      /\ customers db' = customers db
      /\ campaigns db' = campaigns db
      /\ SegmentModel._id seg = id
      /\ SegmentModel.userId seg = userId
      /\ SegmentModel.name seg = Segments.name body
      /\ SegmentModel.rules_json seg = rules
      /\ SegmentModel.customer_ids seg
         = map (fun c => String_ (CustomerModel._id c)) selected
      /\ SegmentModel.customer_count seg = Z.of_nat (length selected)
      /\ SegmentsController.getSegment userId id db' = SegmentsController.Found seg
      /\ (forall other, other <> userId ->
                        SegmentsController.getSegment other id db'
                        = SegmentsController.NotFound).
Proof.
  intros now userId body db Hfresh _ id rules selected.
  pose proof (fresh_not_found _ _ Hfresh) as Hskip.
  unfold Segments.createSegment, SegmentPopulation.populateSegmentCustomers.
  cbn [segments Mongo.fresh Mongo.with_segments SegmentModel._id].
  rewrite find_app_skip by done.
  cbn [List.find SegmentModel._id]. rewrite Z.eqb_refl.
  rewrite updateOne_app_skip by done.
  cbn [Mongo.updateOne SegmentModel._id SegmentModel.userId SegmentModel.rules_json
       SegmentModel.name]. rewrite Z.eqb_refl.
  fold id rules.
  change (List.filter _ (SegmentPopulation.customers_of userId _)) with selected.
  rewrite !length_map.
  eexists _, _. split; [reflexivity|].
  cbn [segments customers campaigns Mongo.with_segments Mongo.fresh].
  split; [reflexivity|].
  cbn [SegmentPopulation.set_population SegmentModel._id SegmentModel.userId
       SegmentModel.name SegmentModel.rules_json SegmentModel.customer_ids
       SegmentModel.customer_count].
  rewrite length_map.
  do 8 (split; [reflexivity|]).
  unfold SegmentsController.getSegment. cbn [segments Mongo.with_segments].
  split.
  - rewrite find_app_skip by (by apply other_ids_not_owned).
    cbn [List.find]. unfold SegmentsController.owned at 1.
    cbn [SegmentPopulation.set_population SegmentModel._id SegmentModel.userId]. by rewrite !Z.eqb_refl.
  - intros other Hother.
    rewrite find_app_skip by (by apply other_ids_not_owned).
    cbn [List.find]. unfold SegmentsController.owned at 1.
    cbn [SegmentPopulation.set_population SegmentModel._id SegmentModel.userId].
    rewrite Z.eqb_refl. cbn [andb].
    destruct (Z.eqb_spec userId other) as [E|_]; [by destruct Hother|done].
Qed.

(** The theorem on the sample store: owner 1 creates the segment of the
    big spenders. *)
Lemma createSegment_then_getSegment_witness :
  exists db' seg,
    fst (Segments.createSegment 0 1
           {| Segments.name := "Big spenders";
              Segments.rules_json := Examples.big_spender |}
           Samples.deleted_customer_db) = db'
    /\ SegmentsController.getSegment 1 300 db' = SegmentsController.Found seg
    /\ SegmentModel.name seg = "Big spenders".
Proof.
  destruct (createSegment_then_getSegment 0 1
              {| Segments.name := "Big spenders";
                 Segments.rules_json := Examples.big_spender |}
              Samples.deleted_customer_db)
    as (db' & seg & Hcreate & _ & _ & _ & _ & _ & Hname & _ & _ & _ & Hget & _).
  - intros s [<-|[]]. discriminate.
  - reflexivity.
  - exists db', seg. rewrite Hcreate. repeat split; assumption.
Defined.

(** ** The queue over several wake-ups *)

Section drain_facts.
Import MessageQueueService QueueProcessor.

(** The number of sent-message records with a status. *)
Let count (k : Status) (db : DB) : Z :=
  Mongo.countDocuments (fun m => Status_eqb (SentMessageModel.status m) k) (sent_messages db).

Lemma countDocuments_insert {A : Type} (p : A -> bool) (l : list A) (i : nat) (x y : A) :
  l !! i = Some x ->
  Mongo.countDocuments p (<[i := y]> l)
  = Mongo.countDocuments p l - (if p x then 1 else 0) + (if p y then 1 else 0).
Proof.
  unfold Mongo.countDocuments. revert i.
  induction l as [|a l IH]; intros [|i] Hi; try discriminate; simpl in *.
  - injection Hi as ->. destruct (p x), (p y); simpl; lia.
  - specialize (IH i Hi). destruct (p a); simpl; lia.
Qed.

Lemma insert_same_ids (l : list SentMessageModel.t) (i : nat) (x y : SentMessageModel.t) :
  l !! i = Some x -> SentMessageModel._id y = SentMessageModel._id x ->
  map SentMessageModel._id (<[i := y]> l) = map SentMessageModel._id l.
Proof.
  revert i. induction l as [|a l IH]; intros [|i] Hi Hid; try discriminate; simpl in *.
  - injection Hi as ->. by rewrite Hid.
  - by rewrite (IH i).
Qed.

(** No record waits exactly when the QUEUED count is zero. *)
Lemma getNextMessage_none db : getNextMessage db = None <-> count QUEUED db = 0.
Proof.
  unfold getNextMessage, count, Mongo.countDocuments. split.
  - intros H. apply oldest_none in H. by rewrite H.
  - intros H. destruct (List.filter _ (sent_messages db)); [done|]. simpl in H. lia.
Qed.

(** One wake-up of an idle processor on a store with distinct ids: it
    rewrites the status of one QUEUED record to SENT or FAILED, or finds
    none and changes nothing. *)
Lemma tick_step (d : Draw) (this : t) (db : DB) :
  List.NoDup (map SentMessageModel._id (sent_messages db)) ->
  isProcessing this = false ->
  exists db',
    tick d this db = ({| isProcessing := false |}, db')
    /\ map SentMessageModel._id (sent_messages db')
       = map SentMessageModel._id (sent_messages db)
    /\ (count QUEUED db = 0 /\ db' = db
        \/ 0 < count QUEUED db
           /\ count QUEUED db' = count QUEUED db - 1
           /\ count PENDING db' = count PENDING db
           /\ count SENT db' + count FAILED db' = count SENT db + count FAILED db + 1).
Proof.
  intros Hnd Hidle. unfold tick, processQueue. rewrite Hidle. cbn [negb].
  destruct (getNextMessage db) as [queuedMessage|] eqn:Hnext.
  - unfold getNextMessage in Hnext. apply oldest_least in Hnext as [Hin _].
    apply filter_In in Hin as [Hin Hst]. apply Status_eqb_eq in Hst.
    set (isSuccess := if Qlt_le_dec (random1 d) (9 # 10) then true else false).
    set (finalStatus := if isSuccess then SENT else FAILED).
    set (errorMessage :=
           if isSuccess then None
           else nth_error failureReasons
                  (Z.to_nat (Qfloor (random2 d * inject_Z (Z.of_nat (length failureReasons)))))).
    destruct (updateOne_by_id SentMessageModel._id
                (set_sent finalStatus (now d) errorMessage)
                (sent_messages db) queuedMessage Hnd Hin) as (i & Hi & Hup).
    eexists. split; [reflexivity|].
    cbn [sent_messages Mongo.with_sent_messages Mongo.with_communication_log].
    rewrite Hup. split; [by apply (insert_same_ids _ _ queuedMessage)|]. right.
    unfold count. cbn [sent_messages Mongo.with_sent_messages Mongo.with_communication_log].
    rewrite !(countDocuments_insert _ _ _ queuedMessage) by done.
    cbn [SentMessageModel.status set_sent]. rewrite Hst.
    assert (Hpos : 0 < Mongo.countDocuments
                         (fun m => Status_eqb (SentMessageModel.status m) QUEUED)
                         (sent_messages db)).
    { unfold Mongo.countDocuments.
      assert (Hq : In queuedMessage
                     (List.filter (fun m => Status_eqb (SentMessageModel.status m) QUEUED)
                                  (sent_messages db))).
      { apply filter_In. split; [done|]. by rewrite Hst. }
      destruct (List.filter _ (sent_messages db)); [destruct Hq|]. simpl. lia. }
    split; [exact Hpos|].
    unfold finalStatus. destruct isSuccess; cbn; lia.
  - eexists. split; [reflexivity|]. split; [reflexivity|]. left.
    split; [by apply getNextMessage_none|reflexivity].
Qed.

End drain_facts.

(** X9: the queue over several wake-ups.  On a sent-message store with
    distinct ids and an idle processor, [n] wake-ups of the timer move
    [min(n, QUEUED)] records from QUEUED to SENT or FAILED and nothing
    else: the QUEUED count that [getQueueStats] reports drops by one per
    wake-up until it is zero, the PENDING count is unchanged, SENT plus
    FAILED grows by the number of records moved, and the records keep
    their ids and order.  In particular as many wake-ups as there are
    QUEUED records empty the queue, whatever the random draws. *)
Theorem ticks_drain_the_queue :
  forall draws this db,
    List.NoDup (map SentMessageModel._id (sent_messages db)) ->
    MessageQueueService.isProcessing this = false ->
    let before := MessageQueueService.getQueueStats db in
    let after := MessageQueueService.getQueueStats (snd (QueueProcessor.ticks draws this db)) in
    MessageQueueService.n_QUEUED after
    = Z.max (MessageQueueService.n_QUEUED before - Z.of_nat (length draws)) 0
    /\ MessageQueueService.n_PENDING after = MessageQueueService.n_PENDING before
    /\ MessageQueueService.n_SENT after + MessageQueueService.n_FAILED after
       = MessageQueueService.n_SENT before + MessageQueueService.n_FAILED before
         + Z.min (MessageQueueService.n_QUEUED before) (Z.of_nat (length draws))
    /\ map SentMessageModel._id (sent_messages (snd (QueueProcessor.ticks draws this db)))
       = map SentMessageModel._id (sent_messages db).
Proof.
  intros draws this db Hnd Hidle. cbv zeta.
  pose proof (fun db => getQueueStats_counts db QUEUED) as HQ.
  pose proof (fun db => getQueueStats_counts db PENDING) as HP.
  pose proof (fun db => getQueueStats_counts db SENT) as HS.
  pose proof (fun db => getQueueStats_counts db FAILED) as HF.
  cbn [MessageQueueService.Stats_get] in HQ, HP, HS, HF.
  rewrite !HQ, !HP, !HS, !HF. clear HQ HP HS HF.
  assert (Hq0 : 0 <= Mongo.countDocuments
                       (fun m => Status_eqb (SentMessageModel.status m) QUEUED)
                       (sent_messages db)) by apply countDocuments_nonneg.
  revert this db Hnd Hidle Hq0. induction draws as [|d draws IH]; intros this db Hnd Hidle Hq0.
  - cbn [QueueProcessor.ticks snd length]. split; [lia|]. split; [done|]. split; [lia|done].
  - cbn [QueueProcessor.ticks length].
    destruct (tick_step d this db Hnd Hidle) as (db1 & -> & Hids & Hstep).
    assert (Hnd1 : List.NoDup (map SentMessageModel._id (sent_messages db1)))
      by (by rewrite Hids).
    specialize (IH {| MessageQueueService.isProcessing := false |} db1 Hnd1 eq_refl
                   (countDocuments_nonneg _ _)).
    destruct IH as (IHq & IHp & IHs & IHids).
    rewrite IHq, IHp, IHs, IHids, Hids.
    destruct Hstep as [[Hzero ->]|(Hpos & Hq & Hp & Hs)].
    + rewrite Hzero. repeat split; lia.
    + rewrite Hq, Hp. repeat split; lia.
Qed.

(** The theorem on the sample queue, which holds two QUEUED records: two
    wake-ups leave none, one SENT and one FAILED here. *)
Lemma ticks_drain_the_queue_witness :
  MessageQueueService.getQueueStats
    (snd (QueueProcessor.ticks
            [ {| QueueProcessor.now := 1000; QueueProcessor.random1 := 1 # 2;
                 QueueProcessor.random2 := 3 # 10 |};
              {| QueueProcessor.now := 3000; QueueProcessor.random1 := 19 # 20;
                 QueueProcessor.random2 := 3 # 10 |} ]
            {| MessageQueueService.isProcessing := false |} Examples.queue_db))
  = {| MessageQueueService.n_QUEUED := 0; MessageQueueService.n_SENT := 2;
       MessageQueueService.n_FAILED := 1; MessageQueueService.n_PENDING := 0 |}
  /\ MessageQueueService.n_QUEUED
       (MessageQueueService.getQueueStats
          (snd (QueueProcessor.ticks
                  [ {| QueueProcessor.now := 1000; QueueProcessor.random1 := 1 # 2;
                       QueueProcessor.random2 := 3 # 10 |};
                    {| QueueProcessor.now := 3000; QueueProcessor.random1 := 19 # 20;
                       QueueProcessor.random2 := 3 # 10 |} ]
                  {| MessageQueueService.isProcessing := false |} Examples.queue_db)))
     = Z.max (MessageQueueService.n_QUEUED (MessageQueueService.getQueueStats Examples.queue_db)
              - 2) 0.
Proof.
  split; [vm_compute; reflexivity|].
  apply (ticks_drain_the_queue
           [ {| QueueProcessor.now := 1000; QueueProcessor.random1 := 1 # 2;
                QueueProcessor.random2 := 3 # 10 |};
             {| QueueProcessor.now := 3000; QueueProcessor.random1 := 19 # 20;
                QueueProcessor.random2 := 3 # 10 |} ]
           {| MessageQueueService.isProcessing := false |} Examples.queue_db).
  - distinct_ids.
  - reflexivity.
Defined.

(** ** Enqueueing *)

(** X10: enqueueing is all or nothing.  [addToQueue] resolves exactly
    when the recipient address, the subject and the text of the message
    are not empty.  It then appends one QUEUED sent-message record and
    one QUEUED communication log, both with the message id, the owner and
    the text of the message, and the QUEUED count of [getQueueStats]
    grows by one.  Otherwise it rejects and the database is unchanged: a
    sent-message record is never stored without its communication log. *)
Theorem addToQueue_is_all_or_nothing :
  forall now message db,
    match MessageQueueService.addToQueue now message db with
    | (Async.Resolved _, db') =>
        MessageQueueService.recipientEmail message <> ""
        /\ MessageQueueService.subject message <> ""
        /\ MessageQueueService.textContent message <> ""
        /\ (exists record log,
              sent_messages db' = sent_messages db ++ [record]
              /\ communication_log db' = communication_log db ++ [log]
              /\ SentMessageModel.status record = QUEUED
              /\ CommunicationLogModel.status log = QUEUED
              /\ SentMessageModel.messageId record
                 = Some (MessageQueueService.messageId message)
              /\ CommunicationLogModel.vendor_message_id log
                 = Some (MessageQueueService.messageId message)
              /\ SentMessageModel.userId record = MessageQueueService.userId message
              /\ CommunicationLogModel.userId log = MessageQueueService.userId message
              /\ CommunicationLogModel.message log = SentMessageModel.textContent record
              /\ SentMessageModel._id record = next_id db
              /\ CommunicationLogModel._id log = next_id db + 1)
        /\ MessageQueueService.n_QUEUED (MessageQueueService.getQueueStats db')
           = MessageQueueService.n_QUEUED (MessageQueueService.getQueueStats db) + 1
    | (Async.Rejected _, db') =>
        db' = db
        /\ (MessageQueueService.recipientEmail message = ""
            \/ MessageQueueService.subject message = ""
            \/ MessageQueueService.textContent message = "")
    end.
Proof.
  intros now message db.
  unfold MessageQueueService.addToQueue, Async.try_catch, mbind, Async_bind, Async.bind,
    MessageQueueService.SentMessage_create, MessageQueueService.CommunicationLog_create,
    SentMessageModel.valid, CommunicationLogModel.valid.
  cbn [SentMessageModel.recipientEmail SentMessageModel.subject SentMessageModel.textContent
       CommunicationLogModel.message].
  destruct (String.eqb_spec (MessageQueueService.recipientEmail message) "") as [He|He];
    [split; [reflexivity|by left]|].
  destruct (String.eqb_spec (MessageQueueService.subject message) "") as [Hs|Hs];
    [split; [reflexivity|by right; left]|].
  destruct (String.eqb_spec (MessageQueueService.textContent message) "") as [Ht|Ht];
    [split; [reflexivity|by right; right]|].
  cbn [negb andb]. cbn [CommunicationLogModel.message next_id sent_messages communication_log
       Mongo.fresh Mongo.with_sent_messages Mongo.with_communication_log].
  destruct (String.eqb_spec (MessageQueueService.textContent message) "") as [Ht'|_];
    [contradiction|].
  cbn [negb]. split; [done|]. split; [done|]. split; [done|]. split.
  - eexists _, _.
    cbn [next_id sent_messages communication_log
         Mongo.fresh Mongo.with_sent_messages Mongo.with_communication_log].
    repeat split.
  - pose proof (fun db => getQueueStats_counts db QUEUED) as HQ.
    cbn [MessageQueueService.Stats_get] in HQ. rewrite !HQ.
    cbn [next_id sent_messages communication_log
         Mongo.fresh Mongo.with_sent_messages Mongo.with_communication_log].
    unfold Mongo.countDocuments. rewrite List.filter_app, length_app. cbn. lia.
Qed.

(** ** The statistics helpers *)

(** The success rate that [getDeliveryStats] prints for 23 sent messages
    of 160: the binary64 product [(23 / 160) * 100] is below 14.375, and
    [toFixed(2)] prints 14.37.  For 1 sent message of 3 it prints
    33.33. *)
Example printed_success_rates :
  DeliveryReceipt.toFixed2 (DeliveryReceipt.round_hundredths 23 160) = "14.37"
  /\ DeliveryReceipt.toFixed2 (DeliveryReceipt.round_hundredths 1 3) = "33.33".
Proof. split; vm_compute; reflexivity. Qed.

Section counting_facts.
Context {A : Type}.

Lemma countDocuments_app (p : A -> bool) (l1 l2 : list A) :
  Mongo.countDocuments p (l1 ++ l2) = Mongo.countDocuments p l1 + Mongo.countDocuments p l2.
Proof. unfold Mongo.countDocuments. rewrite List.filter_app, length_app. lia. Qed.

Lemma countDocuments_none (p : A -> bool) (l : list A) :
  Forall (fun x => p x = false) l -> Mongo.countDocuments p l = 0.
Proof.
  unfold Mongo.countDocuments. induction 1 as [|x l Hx _ IH]; simpl; [done|].
  by rewrite Hx.
Qed.

Lemma countDocuments_filter (p q : A -> bool) (l : list A) :
  Mongo.countDocuments p (List.filter q l) = Mongo.countDocuments (fun x => q x && p x) l.
Proof.
  unfold Mongo.countDocuments. induction l as [|x l IH]; simpl; [done|].
  destruct (q x); simpl; [destruct (p x); simpl; lia|done].
Qed.

Lemma countDocuments_le (p q : A -> bool) (l : list A) :
  (forall x, p x = true -> q x = true) ->
  Mongo.countDocuments p l <= Mongo.countDocuments q l.
Proof.
  intros Hpq. unfold Mongo.countDocuments. induction l as [|x l IH]; simpl; [done|].
  destruct (p x) eqn:E; [rewrite (Hpq x E); simpl; lia|].
  destruct (q x); simpl; lia.
Qed.

Lemma countDocuments_ext_in (p q : A -> bool) (l : list A) :
  (forall x, In x l -> p x = q x) ->
  Mongo.countDocuments p l = Mongo.countDocuments q l.
Proof.
  intros Hpq. unfold Mongo.countDocuments. f_equal. f_equal.
  induction l as [|x l IH]; simpl; [done|].
  rewrite (Hpq x) by (by left). rewrite IH; [done|]. intros y Hy. apply Hpq. by right.
Qed.

(** A count is not changed by a filter that keeps what is counted. *)
Lemma countDocuments_filter_keep (p q : A -> bool) (l : list A) :
  (forall x, p x = true -> q x = true) ->
  Mongo.countDocuments p (List.filter q l) = Mongo.countDocuments p l.
Proof.
  intros Hpq. rewrite countDocuments_filter. apply countDocuments_ext_in.
  intros x _. destruct (p x) eqn:E; [by rewrite (Hpq x E)|apply andb_false_r].
Qed.

Lemma filter_app_none (p : A -> bool) (l1 l2 : list A) :
  Forall (fun x => p x = false) l2 -> List.filter p (l1 ++ l2) = List.filter p l1.
Proof.
  intros H. rewrite List.filter_app.
  assert (List.filter p l2 = []) as ->; [|by rewrite app_nil_r].
  induction H as [|x l Hx _ IH]; simpl; [done|]. by rewrite Hx.
Qed.

(** With distinct ids, a filter by id keeps one document or none. *)
Lemma filter_by_id (id : A -> Z) (k : Z) (l : list A) :
  List.NoDup (map id l) ->
  length (List.filter (fun x => id x =? k) l)
  = if existsb (fun x => id x =? k) l then 1%nat else 0%nat.
Proof.
  induction l as [|x l IH]; simpl; intros Hnd; [done|].
  inversion Hnd as [|? ? Hnotin Hnd']; subst.
  destruct (Z.eqb_spec (id x) k) as [E|E]; simpl; [|by apply IH].
  rewrite (IH Hnd').
  destruct (existsb _ l) eqn:Hex; [|done].
  exfalso. apply Hnotin. apply existsb_exists in Hex as (y & Hy & Hk).
  apply Z.eqb_eq in Hk. rewrite E, <- Hk. by apply in_map.
Qed.

End counting_facts.

Section segment_stats_facts.
Import CampaignStatsHelpers.

(** With distinct customer ids, the join with the customers keeps the
    logs whose customer is stored, once each. *)
Lemma lookup_unwind_known (db : DB) (logs : list CommunicationLogModel.t) :
  List.NoDup (map CustomerModel._id (customers db)) ->
  flat_map (lookup_unwind db) logs = List.filter (CampaignStatsHelpers.customer_known db) logs.
Proof.
  intros Hnd. induction logs as [|l logs IH]; simpl; [done|].
  rewrite IH. unfold lookup_unwind at 1, customer_known at 2.
  destruct (CommunicationLogModel.customer_id l) as [k|].
  - pose proof (filter_by_id CustomerModel._id k (customers db) Hnd) as Hlen.
    destruct (existsb _ (customers db)).
    + destruct (List.filter _ (customers db)) as [|c [|c' rest]]; try discriminate Hlen.
      reflexivity.
    + destruct (List.filter _ (customers db)) as [|c rest]; try discriminate Hlen.
      reflexivity.
  - assert (List.filter (fun _ : CustomerModel.t => false) (customers db) = []) as ->.
    { clear. induction (customers db) as [|c cs IHcs]; simpl; [reflexivity|exact IHcs]. }
    reflexivity.
Qed.

End segment_stats_facts.

(** X11: the segment breakdown counts the logs whose customer still
    exists.  With distinct customer ids, when the segment of the
    campaign is found, each count of [getSegmentSpecificStats] is the
    number of communication logs of the campaign and owner with that
    status whose [customer_id] is the id of a stored customer, and
    [totalMessages] is their sum.  So the breakdown never exceeds the
    counts of [getOverallCampaignStats], and it equals them when every
    log of the campaign refers to a stored customer; the log of a
    customer who was deleted is counted in the overall statistics only. *)
Theorem getSegmentSpecificStats_counts_logs_of_stored_customers :
  forall campaignId userId segmentId db segment,
    List.NoDup (map CustomerModel._id (customers db)) ->
    List.find (fun s => SegmentModel._id s =? segmentId) (segments db) = Some segment ->
    let s := CampaignStatsHelpers.getSegmentSpecificStats campaignId userId segmentId db in
    let overall := CampaignStatsHelpers.getOverallCampaignStats campaignId userId db in
    let counted st :=
      Mongo.countDocuments
        (fun l => CampaignStatsHelpers.of_campaign campaignId userId l
                  && CampaignStatsHelpers.customer_known db l
                  && Status_eqb (CommunicationLogModel.status l) st)
        (communication_log db) in
    CampaignStatsHelpers.messagesSent s = counted SENT
    /\ CampaignStatsHelpers.messagesFailed s = counted FAILED
    /\ CampaignStatsHelpers.messagesPending s = counted PENDING
    /\ CampaignStatsHelpers.messagesQueued s = Some (counted QUEUED)
    /\ CampaignStatsHelpers.totalMessages s
       = Some (Mongo.countDocuments
                 (fun l => CampaignStatsHelpers.of_campaign campaignId userId l
                           && CampaignStatsHelpers.customer_known db l)
                 (communication_log db))
    /\ CampaignStatsHelpers.messagesSent s <= CampaignStats.sent overall
    /\ CampaignStatsHelpers.messagesFailed s <= CampaignStats.failed overall
    /\ (forall total, CampaignStatsHelpers.totalMessages s = Some total ->
                      total <= CampaignStats.total overall)
    /\ ((forall l, In l (communication_log db) ->
                   CampaignStatsHelpers.of_campaign campaignId userId l = true ->
                   CampaignStatsHelpers.customer_known db l = true) ->
        CampaignStatsHelpers.totalMessages s = Some (CampaignStats.total overall)).
Proof.
  intros campaignId userId segmentId db segment Hnd Hfind. cbv zeta.
  unfold CampaignStatsHelpers.getSegmentSpecificStats. rewrite Hfind.
  cbn [CampaignStatsHelpers.messagesSent CampaignStatsHelpers.messagesFailed
       CampaignStatsHelpers.messagesPending CampaignStatsHelpers.messagesQueued
       CampaignStatsHelpers.totalMessages].
  rewrite (lookup_unwind_known db _ Hnd).
  assert (Hcount : forall st,
             MessageQueueService.Stats_get st
               (MessageQueueService.format_stats
                  (MessageQueueService.group_by_status
                     (map CommunicationLogModel.status
                        (List.filter (CampaignStatsHelpers.customer_known db)
                           (List.filter (CampaignStatsHelpers.of_campaign campaignId userId)
                              (communication_log db))))))
             = Mongo.countDocuments
                 (fun l => CampaignStatsHelpers.of_campaign campaignId userId l
                           && CampaignStatsHelpers.customer_known db l
                           && Status_eqb (CommunicationLogModel.status l) st)
                 (communication_log db)).
  { intros st. rewrite format_group_count, countDocuments_map, !countDocuments_filter.
    apply countDocuments_ext_in. intros l _. by rewrite andb_assoc. }
  pose proof (Hcount SENT) as HS. pose proof (Hcount FAILED) as HF.
  pose proof (Hcount PENDING) as HP. pose proof (Hcount QUEUED) as HQ.
  cbn [MessageQueueService.Stats_get] in HS, HF, HP, HQ.
  rewrite HS, HF, HP, HQ. clear Hcount HS HF HP HQ.
  pose proof (count_by_status
                (fun l => CampaignStatsHelpers.of_campaign campaignId userId l
                          && CampaignStatsHelpers.customer_known db l)
                CommunicationLogModel.status (communication_log db)) as Hsum.
  cbv beta in Hsum.
  split; [done|]. split; [done|]. split; [done|]. split; [done|].
  split; [f_equal; lia|].
  unfold CampaignStatsHelpers.getOverallCampaignStats.
  cbn [CampaignStats.sent CampaignStats.failed CampaignStats.total].
  split; [apply countDocuments_le; intros l Hl; by rewrite andb_true_iff, andb_true_iff in * |-; destruct Hl as [[-> _] ->]|].
  split; [apply countDocuments_le; intros l Hl; by rewrite andb_true_iff, andb_true_iff in * |-; destruct Hl as [[-> _] ->]|].
  split.
  - intros total [= <-]. rewrite Hsum.
    apply countDocuments_le. intros l Hl. by apply andb_prop in Hl as [-> _].
  - intros Hall. f_equal. rewrite Hsum. apply countDocuments_ext_in.
    intros l Hl. destruct (CampaignStatsHelpers.of_campaign campaignId userId l) eqn:E; [|done].
    by rewrite (Hall l Hl E).
Qed.

(** The theorem on campaign 41 with a log for Ann and a log for a
    customer who is no longer stored: the breakdown counts one message,
    the overall statistics two. *)
Lemma getSegmentSpecificStats_counts_logs_of_stored_customers_witness :
  CampaignStatsHelpers.totalMessages
    (CampaignStatsHelpers.getSegmentSpecificStats 41 1 31 Samples.deleted_customer_db)
  = Some 1
  /\ CampaignStats.total
       (CampaignStatsHelpers.getOverallCampaignStats 41 1 Samples.deleted_customer_db) = 2
  /\ CampaignStatsHelpers.messagesFailed
       (CampaignStatsHelpers.getSegmentSpecificStats 41 1 31 Samples.deleted_customer_db)
     <= CampaignStats.failed
          (CampaignStatsHelpers.getOverallCampaignStats 41 1 Samples.deleted_customer_db).
Proof.
  split; [reflexivity|]. split; [reflexivity|].
  apply (getSegmentSpecificStats_counts_logs_of_stored_customers 41 1 31
           Samples.deleted_customer_db (Examples.segment 31 1 Examples.big_spender)).
  - repeat constructor; simpl; intuition discriminate.
  - reflexivity.
Defined.

(** ** What campaign creation writes, and what the statistics read *)

Section detached_records.
Import Async CampaignDeliveryService.
Variable toLocaleDateString : Z -> string.

(** The records that [addToQueue] writes carry no campaign. *)
Lemma addToQueue_effect now message db :
  (exists record log,
      MessageQueueService.addToQueue now message db
      = (Resolved tt,
         Mongo.fresh
           (Mongo.with_communication_log
              (Mongo.fresh (Mongo.with_sent_messages db (sent_messages db ++ [record])))
              (communication_log db ++ [log])))
      /\ SentMessageModel.campaignId record = None
      /\ SentMessageModel.status record = QUEUED
      /\ CommunicationLogModel.campaign_id log = None
      /\ CommunicationLogModel.customer_id log = None
      /\ CommunicationLogModel.status log = QUEUED)
  \/ (exists error, MessageQueueService.addToQueue now message db = (Rejected error, db)).
Proof.
  unfold MessageQueueService.addToQueue, try_catch, mbind, Async_bind, bind,
    MessageQueueService.SentMessage_create, MessageQueueService.CommunicationLog_create,
    SentMessageModel.valid, CommunicationLogModel.valid.
  cbn [SentMessageModel.recipientEmail SentMessageModel.subject SentMessageModel.textContent
       CommunicationLogModel.message].
  destruct (String.eqb (MessageQueueService.recipientEmail message) "");
    [right; by eexists|].
  destruct (String.eqb (MessageQueueService.subject message) "");
    [right; by eexists|].
  destruct (String.eqb (MessageQueueService.textContent message) "") eqn:Ht;
    [right; by eexists|].
  cbn [negb andb CommunicationLogModel.message].
  left. eexists _, _. split; [reflexivity|]. done.
Qed.

(** One turn of the delivery loop appends at most one sent message and
    one log, both QUEUED and without a campaign, and counts it. *)
Lemma deliver_one_effect now userId campaign message subject data acc customer db :
  exists acc' db' msgs logs,
    deliver_one toLocaleDateString now userId campaign message subject data acc customer db
    = (Resolved acc', db')
    /\ sent_messages db' = sent_messages db ++ msgs
    /\ communication_log db' = communication_log db ++ logs
    /\ Forall (fun m => SentMessageModel.campaignId m = None
                        /\ SentMessageModel.status m = QUEUED) msgs
    /\ Forall (fun l => CommunicationLogModel.campaign_id l = None
                        /\ CommunicationLogModel.customer_id l = None
                        /\ CommunicationLogModel.status l = QUEUED) logs
    /\ queued acc' = queued acc + Z.of_nat (length logs)
    /\ length msgs = length logs.
Proof.
  unfold deliver_one, try_catch.
  cbn [MessagePersonalizationService.personalizeMessages map].
  unfold mbind, Async_bind, bind.
  match goal with |- context [MessageQueueService.addToQueue ?n ?q db] =>
    destruct (addToQueue_effect n q db)
      as [(record & log & -> & H1 & H2 & H3 & H4 & H5)|(error & ->)] end.
  - eexists _, _, [record], [log]. split; [reflexivity|].
    cbn [sent_messages communication_log Mongo.fresh Mongo.with_sent_messages
         Mongo.with_communication_log queued length].
    repeat split; try done; repeat constructor; done.
  - eexists _, _, [], []. split; [reflexivity|].
    cbn [queued length]. rewrite !app_nil_r. repeat split; try done; lia.
Qed.

Lemma deliver_all_effect now userId campaign message subject data customers :
  forall acc db,
  exists done db' msgs logs,
    deliver_all toLocaleDateString now userId campaign message subject data acc customers db
    = (Resolved done, db')
    /\ sent_messages db' = sent_messages db ++ msgs
    /\ communication_log db' = communication_log db ++ logs
    /\ Forall (fun m => SentMessageModel.campaignId m = None
                        /\ SentMessageModel.status m = QUEUED) msgs
    /\ Forall (fun l => CommunicationLogModel.campaign_id l = None
                        /\ CommunicationLogModel.customer_id l = None
                        /\ CommunicationLogModel.status l = QUEUED) logs
    /\ queued done = queued acc + Z.of_nat (length logs)
    /\ length msgs = length logs.
Proof.
  induction customers as [|customer rest IH]; intros acc db.
  - exists acc, db, [], []. cbn. rewrite !app_nil_r. repeat split; try done; lia.
  - destruct (deliver_one_effect now userId campaign message subject data acc customer db)
      as (acc1 & db1 & msgs1 & logs1 & Hone & Hm1 & Hl1 & HPm1 & HPl1 & Hq1 & Hlen1).
    destruct (IH acc1 db1)
      as (done & db' & msgs2 & logs2 & Hall & Hm2 & Hl2 & HPm2 & HPl2 & Hq2 & Hlen2).
    exists done, db', (msgs1 ++ msgs2), (logs1 ++ logs2). split.
    + cbn [deliver_all]. unfold mbind, Async_bind, bind at 1. by rewrite Hone.
    + rewrite Hm2, Hm1, Hl2, Hl1, <- !app_assoc, !length_app.
      split; [done|]. split; [done|].
      split; [by apply Forall_app|]. split; [by apply Forall_app|]. lia.
Qed.

End detached_records.

(** X12: the messages of [createCampaign] are not counted for any
    campaign.  Whatever the request and its outcome, [createCampaign]
    only appends to the sent messages and the communication logs, as many
    of the one as of the other, all of them QUEUED and none of them with
    a campaign id (the logs have no customer id either); for a created
    campaign their number is [messagesQueued].  Hence the statistics that
    [getCampaignStats] and [getMessageBreakdown] read are the same after
    the request as before, for every campaign and owner: the messages
    just queued do not appear in the statistics of the new campaign. *)
Theorem createCampaign_messages_are_counted_for_no_campaign :
  forall toLocaleDateString now userId body db,
    let db' := fst (Campaigns.createCampaign toLocaleDateString now userId body db) in
    (exists msgs logs,
        sent_messages db' = sent_messages db ++ msgs
        /\ communication_log db' = communication_log db ++ logs
        /\ length msgs = length logs
        /\ Forall (fun m => SentMessageModel.campaignId m = None
                            /\ SentMessageModel.status m = QUEUED) msgs
        /\ Forall (fun l => CommunicationLogModel.campaign_id l = None
                            /\ CommunicationLogModel.customer_id l = None
                            /\ CommunicationLogModel.status l = QUEUED) logs
        /\ match snd (Campaigns.createCampaign toLocaleDateString now userId body db) with
           | Campaigns.Created result =>
               CampaignDeliveryService.messagesQueued result = Z.of_nat (length logs)
           | _ => logs = []
           end)
    /\ (forall campaignId owner,
          CampaignStats.getCampaignStats campaignId owner db'
          = CampaignStats.getCampaignStats campaignId owner db
          /\ CampaignStatsHelpers.getMessageBreakdown campaignId owner db'
             = CampaignStatsHelpers.getMessageBreakdown campaignId owner db).
Proof.
  intros toLocaleDateString now userId body db db'.
  assert (Hrecords :
    exists msgs logs,
      sent_messages db' = sent_messages db ++ msgs
      /\ communication_log db' = communication_log db ++ logs
      /\ length msgs = length logs
      /\ Forall (fun m => SentMessageModel.campaignId m = None
                          /\ SentMessageModel.status m = QUEUED) msgs
      /\ Forall (fun l => CommunicationLogModel.campaign_id l = None
                          /\ CommunicationLogModel.customer_id l = None
                          /\ CommunicationLogModel.status l = QUEUED) logs
      /\ match snd (Campaigns.createCampaign toLocaleDateString now userId body db) with
         | Campaigns.Created result =>
             CampaignDeliveryService.messagesQueued result = Z.of_nat (length logs)
         | _ => logs = []
         end).
  { subst db'. unfold Campaigns.createCampaign.
    assert (Hnothing : forall r : Campaigns.Response,
               match r with Campaigns.Created _ => False | _ => True end ->
               exists msgs logs,
                 sent_messages db = sent_messages db ++ msgs
                 /\ communication_log db = communication_log db ++ logs
                 /\ length msgs = length logs
                 /\ Forall (fun m => SentMessageModel.campaignId m = None
                                     /\ SentMessageModel.status m = QUEUED) msgs
                 /\ Forall (fun l => CommunicationLogModel.campaign_id l = None
                                     /\ CommunicationLogModel.customer_id l = None
                                     /\ CommunicationLogModel.status l = QUEUED) logs
                 /\ match r with
                    | Campaigns.Created result =>
                        CampaignDeliveryService.messagesQueued result = Z.of_nat (length logs)
                    | _ => logs = []
                    end).
    { intros r Hr. exists [], []. rewrite !app_nil_r.
      repeat split; try done. by destruct r. }
    destruct (Campaigns.segment_id body) as [segmentId|]; [|by apply Hnothing].
    destruct (Campaigns.message body) as [|c message] eqn:Hmessage; [by apply Hnothing|].
    destruct (negb _); [by apply Hnothing|].
    destruct (List.find _ (segments db)) as [owned|]; [|by apply Hnothing].
    unfold CampaignDeliveryService.createAndDeliverCampaign.
    destruct (List.find _ (segments db)) as [segment|]; [|by apply Hnothing].
    destruct (negb _); [by apply Hnothing|].
    destruct (Nat.eqb _ 0).
    { exists [], []. rewrite !app_nil_r. repeat split; done. }
    unfold mbind, Async_bind, Async.bind, CampaignDeliveryService.Campaign_create.
    cbn [CampaignModel.message String.eqb negb].
    match goal with |- context [CampaignDeliveryService.deliver_all ?t ?n ?u ?c ?m ?s ?d ?a ?cs ?b] =>
      destruct (deliver_all_effect t n u c m s d cs a b)
        as (done & db1 & msgs & logs & -> & Hm & Hl & HPm & HPl & Hq & Hlen) end.
    exists msgs, logs. cbn [fst snd mret Async_ret Async.ret].
    cbn [sent_messages communication_log Mongo.fresh Mongo.with_campaigns] in Hm, Hl.
    cbn [CampaignDeliveryService.messagesQueued]. cbn in Hq.
    repeat split; try done. }
  split; [exact Hrecords|].
  destruct Hrecords as (msgs & logs & Hm & Hl & _ & HPm & HPl & _).
  intros campaignId owner. split.
  - unfold CampaignStats.getCampaignStats. rewrite Hl, !countDocuments_app.
    rewrite !(countDocuments_none _ logs);
      [by rewrite !Z.add_0_r|..];
      (eapply List.Forall_impl; [|exact HPl]); intros l (Hc & _); cbv beta; by rewrite Hc.
  - unfold CampaignStatsHelpers.getMessageBreakdown. rewrite Hm.
    rewrite filter_app_none; [done|].
    eapply List.Forall_impl; [|exact HPm]. intros m (Hc & _). cbv beta. by rewrite Hc.
Qed.

(** ** A campaign through the vendor flow *)

Section vendor_flow.
Import Async Campaigns.
Variable toLocaleDateString : Z -> string.

Lemma or_ostr_nonempty (a : option string) (b : string) :
  b <> "" -> Js.or_ostr a b <> "".
Proof. destruct a as [[|c s]|]; simpl; done. Qed.

(** One turn of the loop for a customer with an address: a PENDING log
    and a PENDING sent message of the campaign. *)
Lemma vendor_one_effect now userId campaign subject data customer pm db :
  CustomerModel.email customer <> "" ->
  MessagePersonalizationService.personalizedMessage pm <> "" ->
  exists log msg,
    vendor_one now userId campaign subject data customer pm db
    = (Resolved log,
       Mongo.fresh
         (Mongo.with_sent_messages
            (Mongo.fresh (Mongo.with_communication_log db (communication_log db ++ [log])))
            (sent_messages db ++ [msg])))
    /\ CommunicationLogModel.campaign_id log = Some (CampaignModel._id campaign)
    /\ CommunicationLogModel.customer_id log = Some (CustomerModel._id customer)
    /\ CommunicationLogModel.userId log = userId
    /\ CommunicationLogModel.status log = PENDING
    /\ SentMessageModel.campaignId msg = Some (CampaignModel._id campaign)
    /\ SentMessageModel.status msg = PENDING.
Proof.
  intros Hemail Htext.
  unfold vendor_one, mbind, Async_bind, bind,
    MessageQueueService.SentMessage_create, MessageQueueService.CommunicationLog_create,
    SentMessageModel.valid, CommunicationLogModel.valid.
  cbn [SentMessageModel.recipientEmail SentMessageModel.subject SentMessageModel.textContent
       CommunicationLogModel.message].
  destruct (String.eqb_spec (MessagePersonalizationService.personalizedMessage pm) "")
    as [E|_]; [contradiction|].
  destruct (String.eqb_spec (CustomerModel.email customer) "") as [E|_]; [contradiction|].
  destruct (String.eqb_spec (Js.or_ostr subject "Campaign Email") "") as [E|_];
    [by apply or_ostr_nonempty in E|].
  cbn [negb andb sent_messages communication_log next_id Mongo.fresh
       Mongo.with_communication_log Mongo.with_sent_messages].
  eexists _, _. split; [reflexivity|]. done.
Qed.

Lemma vendor_all_effect now userId campaign subject data work :
  Forall (fun w => CustomerModel.email (fst w) <> ""
                   /\ MessagePersonalizationService.personalizedMessage (snd w) <> "") work ->
  forall communicationLogs db,
  exists logs msgs db',
    vendor_all now userId campaign subject data work communicationLogs db
    = (Resolved (communicationLogs ++ logs), db')
    /\ communication_log db' = communication_log db ++ logs
    /\ sent_messages db' = sent_messages db ++ msgs
    /\ campaigns db' = campaigns db
    /\ length logs = length work
    /\ length msgs = length work
    /\ Forall (fun l => CommunicationLogModel.campaign_id l = Some (CampaignModel._id campaign)
                        /\ CommunicationLogModel.userId l = userId
                        /\ CommunicationLogModel.status l = PENDING) logs
    /\ Forall (fun m => SentMessageModel.campaignId m = Some (CampaignModel._id campaign)
                        /\ SentMessageModel.status m = PENDING) msgs.
Proof.
  induction 1 as [|[customer pm] work [Hemail Htext] _ IH]; intros communicationLogs db.
  - exists [], [], db. cbn. rewrite !app_nil_r. repeat split; done.
  - cbn [fst snd] in Hemail, Htext.
    destruct (vendor_one_effect now userId campaign subject data customer pm db Hemail Htext)
      as (log & msg & Hone & H1 & H2 & H3 & H4 & H5 & H6).
    cbn [vendor_all]. unfold mbind, Async_bind, bind at 1. rewrite Hone.
    destruct (IH (communicationLogs ++ [log])
                 (Mongo.fresh
                    (Mongo.with_sent_messages
                       (Mongo.fresh
                          (Mongo.with_communication_log db (communication_log db ++ [log])))
                       (sent_messages db ++ [msg]))))
      as (logs & msgs & db' & Hall & Hl & Hm & Hc & Hll & Hlm & HPl & HPm).
    exists (log :: logs), (msg :: msgs), db'.
    cbn [sent_messages communication_log campaigns Mongo.fresh
         Mongo.with_communication_log Mongo.with_sent_messages] in Hl, Hm, Hc.
    rewrite Hall, Hl, Hm, Hc, <- !app_assoc. cbn [app length].
    repeat split; try done; try lia; constructor; done.
Qed.

End vendor_flow.

(** X13: a campaign through the vendor flow is counted as pending.  For
    a request with a valid, non-empty template for a segment of the
    requester that selects at least one customer, all selected customers
    having an address, [createCampaignWithVendorAPI] answers with the id
    of the new campaign and the number [n] of selected customers, stores
    the campaign as ACTIVE, and writes [n] PENDING logs and [n] PENDING
    sent messages for it.  When no earlier log carries the new campaign
    id, [getCampaignStats] for the new campaign and the requester reads
    total [n], pending [n], no other count, and rates zero. *)
Theorem createCampaignWithVendorAPI_is_counted_as_pending :
  forall toLocaleDateString now userId body db segmentId segment,
    Campaigns.segment_id body = Some segmentId ->
    Campaigns.message body <> "" ->
    MessagePersonalizationService.isValid
      (MessagePersonalizationService.validateTemplate (Campaigns.message body)) = true ->
    List.find (fun s => (SegmentModel._id s =? segmentId) && (SegmentModel.userId s =? userId))
              (segments db) = Some segment ->
    CampaignDeliveryService.getCustomersForSegment now segment db <> [] ->
    (forall c, In c (customers db) -> CustomerModel.email c <> "") ->
    (forall l, In l (communication_log db) ->
               CommunicationLogModel.campaign_id l <> Some (next_id db)) ->
    let n := Z.of_nat (length (CampaignDeliveryService.getCustomersForSegment now segment db)) in
    exists db' campaign logs msgs,
      Campaigns.createCampaignWithVendorAPI toLocaleDateString now userId body db
      = (db', Campaigns.VendorAccepted (next_id db) n n)
      /\ campaigns db' = campaigns db ++ [campaign]
      /\ CampaignModel._id campaign = next_id db
      /\ CampaignModel.status campaign = CampaignModel.ACTIVE
      /\ communication_log db' = communication_log db ++ logs
      /\ sent_messages db' = sent_messages db ++ msgs
      /\ Z.of_nat (length logs) = n /\ Z.of_nat (length msgs) = n
      /\ Forall (fun m => SentMessageModel.campaignId m = Some (next_id db)
                          /\ SentMessageModel.status m = PENDING) msgs
      /\ CampaignStats.total (CampaignStats.getCampaignStats (next_id db) userId db') = n
      /\ CampaignStats.pending (CampaignStats.getCampaignStats (next_id db) userId db') = n
      /\ CampaignStats.sent (CampaignStats.getCampaignStats (next_id db) userId db') = 0
      /\ CampaignStats.failed (CampaignStats.getCampaignStats (next_id db) userId db') = 0
      /\ CampaignStats.queued (CampaignStats.getCampaignStats (next_id db) userId db') = 0
      /\ Qeq (CampaignStats.successRate (CampaignStats.getCampaignStats (next_id db) userId db'))
             0
      /\ Qeq (CampaignStats.deliveryRate (CampaignStats.getCampaignStats (next_id db) userId db'))
             0.
Proof.
  intros toLocaleDateString now userId body db segmentId segment
         Hseg Hmessage Hvalid Hfind Hsome Hemail Hfresh. cbv zeta.
  apply find_some in Hfind as Hown. destruct Hown as [_ Hown].
  apply andb_prop in Hown as [_ Hown]. apply Z.eqb_eq in Hown.
  unfold Campaigns.createCampaignWithVendorAPI. rewrite Hseg.
  destruct (Campaigns.message body) as [|c0 message] eqn:Hm0; [contradiction|].
  rewrite Hvalid. cbn [negb]. rewrite Hfind.
  unfold CampaignDeliveryService.getCustomersForSegment in Hsome |- *.
  rewrite Hown in Hsome |- *.
  set (matching := List.filter _ (List.filter _ (customers db))) in *.
  destruct (Nat.eqb (length matching) 0) eqn:Hlen.
  { apply Nat.eqb_eq in Hlen. destruct matching; [contradiction|discriminate]. }
  unfold mbind, Async_bind, Async.bind at 1. unfold CampaignDeliveryService.Campaign_create.
  cbn [CampaignModel.message String.eqb negb].
  unfold mbind, Async_bind, Async.bind.
  match goal with |- context [Campaigns.vendor_all ?n ?u ?c ?s ?d ?w ?a ?b] =>
    destruct (vendor_all_effect n u c s d w) with (communicationLogs := a) (db := b)
      as (logs & msgs & db' & -> & Hl & Hm & Hc & Hll & Hlm & HPl & HPm) end.
  { apply List.Forall_forall. intros [customer pm] Hw. cbn [fst snd].
    apply in_combine_l in Hw as Hcust. apply in_combine_r in Hw as Hpm. split.
    - apply Hemail. apply filter_In in Hcust as [Hcust _].
      by apply filter_In in Hcust as [Hcust _].
    - unfold MessagePersonalizationService.personalizeMessages in Hpm.
      apply in_map_iff in Hpm as (c' & <- & _). apply personalizedMessage_nonempty. }
  cbn [sent_messages communication_log campaigns next_id Mongo.fresh Mongo.with_campaigns
       CampaignModel._id] in Hl, Hm, Hc, HPl, HPm.
  assert (Hwork : length logs = length matching /\ length msgs = length matching).
  { rewrite Hll, Hlm, length_combine.
    unfold MessagePersonalizationService.personalizeMessages. rewrite length_map. lia. }
  destruct Hwork as [Hnl Hnm].
  eexists db', _, logs, msgs. cbn [mret Async_ret Async.ret app length].
  split; [by rewrite Hnl|]. split; [exact Hc|]. split; [reflexivity|].
  split; [reflexivity|]. split; [exact Hl|]. split; [exact Hm|].
  split; [by rewrite Hnl|]. split; [by rewrite Hnm|].
  split; [exact HPm|].
  unfold CampaignStats.getCampaignStats.
  cbn [CampaignStats.total CampaignStats.pending CampaignStats.sent CampaignStats.failed
       CampaignStats.queued CampaignStats.successRate CampaignStats.deliveryRate].
  rewrite Hl, !countDocuments_app.
  rewrite !(countDocuments_none _ (communication_log db)).
  2-6: apply List.Forall_forall; intros l Hin; pose proof (Hfresh l Hin) as Hne;
       destruct (CommunicationLogModel.campaign_id l) as [k|]; [|done];
       destruct (Z.eqb_spec k (next_id db)) as [->|_]; [congruence|done].
  assert (Hcount : forall st,
             Mongo.countDocuments
               (fun l => match CommunicationLogModel.campaign_id l with
                         | Some c => (c =? next_id db) && (CommunicationLogModel.userId l =? userId)
                         | None => false
                         end && Status_eqb (CommunicationLogModel.status l) st) logs
             = if Status_eqb PENDING st then Z.of_nat (length logs) else 0).
  { intros st. unfold Mongo.countDocuments. clear - HPl.
    induction HPl as [|l logs (H1 & H2 & H3) _ IH]; [by destruct (Status_eqb PENDING st)|].
    cbn [List.filter]. rewrite H1, H2, H3, !Z.eqb_refl. cbn [andb].
    destruct (Status_eqb PENDING st); cbn [length]; lia. }
  assert (Htotal : Mongo.countDocuments
                     (fun l => match CommunicationLogModel.campaign_id l with
                               | Some c => (c =? next_id db)
                                           && (CommunicationLogModel.userId l =? userId)
                               | None => false
                               end) logs = Z.of_nat (length logs)).
  { unfold Mongo.countDocuments. clear - HPl.
    induction HPl as [|l logs (H1 & H2 & H3) _ IH]; [done|].
    cbn [List.filter]. rewrite H1, H2, !Z.eqb_refl. cbn [andb length]. lia. }
  rewrite !Hcount, Htotal. cbn [Status_eqb]. rewrite Hnl.
  set (n := Z.of_nat (length matching)).
  rewrite !Z.add_0_l.
  repeat split; apply round2_rate_zero.
Qed.

(** The theorem on the sample database in which segment 31 selects Ann
    and Bob: campaign 100 is answered with two customers and two
    messages, and its statistics read two pending messages. *)
Lemma createCampaignWithVendorAPI_is_counted_as_pending_witness :
  exists db',
    Campaigns.createCampaignWithVendorAPI Samples.a_date 1700000000000 1
      (Examples.campaign_body "Sale") Examples.db_two_match
    = (db', Campaigns.VendorAccepted 100 2 2)
    /\ CampaignStats.total (CampaignStats.getCampaignStats 100 1 db') = 2
    /\ CampaignStats.pending (CampaignStats.getCampaignStats 100 1 db') = 2.
Proof.
  destruct (createCampaignWithVendorAPI_is_counted_as_pending
              Samples.a_date 1700000000000 1 (Examples.campaign_body "Sale")
              Examples.db_two_match 31
              (Examples.segment 31 1
                 (SegmentRules.Rule SegmentRules.spend SegmentRules.gt 100)))
    as (db' & campaign & logs & msgs & Hrun & _ & _ & _ & _ & _ & _ & _ & _ & Ht & Hp & _).
  - reflexivity.
  - discriminate.
  - vm_compute. reflexivity.
  - reflexivity.
  - vm_compute. discriminate.
  - intros c [<-|[<-|[<-|[]]]]; discriminate.
  - intros l [].
  - exists db'. split; [exact Hrun|]. split; [exact Ht|exact Hp].
Defined.

(** ** Updating and deleting campaigns *)

Section campaign_facts.
Import CampaignsController.

Lemma with_campaigns_same (db : DB) : Mongo.with_campaigns db (campaigns db) = db.
Proof. by destruct db. Qed.

(** An update of the first match keeps every document that the filter
    does not select, at its position. *)
Lemma updateOne_keeps {A : Type} (p : A -> bool) (f : A -> A) (l : list A) (i : nat) (x : A) :
  l !! i = Some x -> p x = false -> Mongo.updateOne p f l !! i = Some x.
Proof.
  revert i. induction l as [|a l IH]; intros [|i] Hi Hp; try discriminate; simpl in *.
  - injection Hi as ->. by rewrite Hp.
  - destruct (p a); [done|]. by apply IH.
Qed.

Lemma updateOne_map_fixed {A B : Type} (p : A -> bool) (f : A -> A) (g : A -> B)
      (l : list A) :
  (forall x, g (f x) = g x) -> map g (Mongo.updateOne p f l) = map g l.
Proof.
  intros Hg. induction l as [|a l IH]; simpl; [done|].
  destruct (p a); simpl; by rewrite ?Hg, ?IH.
Qed.

End campaign_facts.

(** X14: an update touches the requester's campaign only.  Whatever the
    request, [updateCampaign] changes nothing but the campaigns; every
    campaign keeps its id, owner, subject and creation time (the subject
    of the request is never stored), and every campaign that has
    another id or another owner stays exactly as it is.  When, in a
    store with distinct campaign ids, the campaign exists but belongs to
    another owner (and the segment of the request, if any, exists), the
    answer is still the success message, with no document, and the
    database is unchanged. *)
Theorem updateCampaign_touches_only_the_own_campaign :
  forall userId campaignId body db,
    let db' := fst (CampaignsController.updateCampaign userId campaignId body db) in
    segments db' = segments db
    /\ customers db' = customers db
    /\ communication_log db' = communication_log db
    /\ sent_messages db' = sent_messages db
    /\ map (fun c => (CampaignModel._id c, CampaignModel.userId c,
                      CampaignModel.subject c, CampaignModel.created_at c)) (campaigns db')
       = map (fun c => (CampaignModel._id c, CampaignModel.userId c,
                        CampaignModel.subject c, CampaignModel.created_at c)) (campaigns db)
    /\ (forall (i : nat) c,
          campaigns db !! i = Some c ->
          CampaignModel._id c <> campaignId \/ CampaignModel.userId c <> userId ->
          campaigns db' !! i = Some c)
    /\ (forall existing,
          List.NoDup (map CampaignModel._id (campaigns db)) ->
          List.find (fun c => CampaignModel._id c =? campaignId) (campaigns db)
          = Some existing ->
          CampaignModel.userId existing <> userId ->
          match CampaignsController.segment_id body with
          | Some s => exists segment,
              List.find (fun x => SegmentModel._id x =? s) (segments db) = Some segment
          | None => True
          end ->
          CampaignsController.updateCampaign userId campaignId body db
          = (db, CampaignsController.Updated None)).
Proof.
  intros userId campaignId body db db'. subst db'.
  unfold CampaignsController.updateCampaign.
  destruct (List.find (fun c => CampaignModel._id c =? campaignId) (campaigns db))
    as [existingCampaign|] eqn:Hfind.
  2: { cbn [fst]. repeat split; try done. }
  set (segment_missing := match CampaignsController.segment_id body with
                          | Some s => _ | None => false end).
  destruct segment_missing eqn:Hseg.
  { cbn [fst]. repeat split; try done.
    intros existing _ _ _ Hfound. exfalso. unfold segment_missing in Hseg.
    destruct (CampaignsController.segment_id body) as [s|]; [|discriminate].
    destruct Hfound as (segment & Hs). rewrite Hs in Hseg.
    apply negb_true_iff, bool_decide_eq_false in Hseg. apply Hseg. by eexists. }
  cbn [fst segments customers communication_log sent_messages campaigns Mongo.with_campaigns].
  split; [done|]. split; [done|]. split; [done|]. split; [done|]. split; [|split].
  - by apply updateOne_map_fixed.
  - intros i c Hi Hother. apply updateOne_keeps; [done|].
    unfold CampaignsController.owned. apply andb_false_iff.
    destruct Hother as [H|H]; [left|right]; by apply Z.eqb_neq.
  - intros existing Hnd [= <-] Hother _.
    assert (Hnone : List.find (CampaignsController.owned campaignId userId) (campaigns db)
                    = None).
    { apply find_none_all. intros c Hc. unfold CampaignsController.owned.
      destruct (Z.eqb_spec (CampaignModel._id c) campaignId) as [E|E]; [|done].
      assert (c = existingCampaign) as ->.
      { apply find_some in Hfind as [Hin Hid]. apply Z.eqb_eq in Hid.
        apply (same_id_same_document CampaignModel._id (campaigns db)); try done.
        congruence. }
      cbn [andb]. by apply Z.eqb_neq. }
    rewrite Hnone. cbn [option_map]. f_equal.
    rewrite updateOne_no_match; [apply with_campaigns_same|exact Hnone].
Qed.

(** The theorem on the sample database of campaign 41, which owner 1
    holds: owner 2 asks to complete it, is answered with the success
    message and no document, and nothing is changed. *)
Lemma updateCampaign_touches_only_the_own_campaign_witness :
  CampaignsController.updateCampaign 2 41
    {| CampaignsController.segment_id := None;
       CampaignsController.message := None;
       CampaignsController.subject := None;
       CampaignsController.status := Some CampaignModel.COMPLETED |}
    Samples.deleted_customer_db
  = (Samples.deleted_customer_db, CampaignsController.Updated None).
Proof.
  destruct (updateCampaign_touches_only_the_own_campaign 2 41
              {| CampaignsController.segment_id := None;
                 CampaignsController.message := None;
                 CampaignsController.subject := None;
                 CampaignsController.status := Some CampaignModel.COMPLETED |}
              Samples.deleted_customer_db) as (_ & _ & _ & _ & _ & _ & H).
  apply (H (Examples.campaign41 CampaignModel.ACTIVE)).
  - repeat constructor; simpl; intuition discriminate.
  - reflexivity.
  - discriminate.
  - exact I.
Defined.

(** X15: deleting a campaign. With distinct campaign ids,
    [deleteCampaign] answers [Deleted] or [NotFound].  On [Deleted] the
    campaign with the id is removed and the others are kept in order,
    the communication logs of that campaign and owner are removed and
    all other logs are kept, so that [getCampaignStats] for it counts
    nothing afterwards and the statistics of every other campaign are
    what they were; the sent messages are all kept.  On [NotFound] the
    database is unchanged. *)
Theorem deleteCampaign_removes_the_campaign_and_its_logs :
  forall userId campaignId db,
    List.NoDup (map CampaignModel._id (campaigns db)) ->
    match CampaignsController.deleteCampaign userId campaignId db with
    | (db', CampaignsController.Deleted) =>
        campaigns db'
        = List.filter (fun c => negb (CampaignModel._id c =? campaignId)) (campaigns db)
        /\ communication_log db'
           = List.filter
               (fun l => negb (CampaignStatsHelpers.of_campaign campaignId userId l))
               (communication_log db)
        /\ sent_messages db' = sent_messages db
        /\ CampaignStats.total (CampaignStats.getCampaignStats campaignId userId db') = 0
        /\ (forall other owner,
              other <> campaignId ->
              CampaignStats.getCampaignStats other owner db'
              = CampaignStats.getCampaignStats other owner db)
    | (db', CampaignsController.NotFound _) => db' = db
    | _ => False
    end.
Proof.
  intros userId campaignId db Hnd. unfold CampaignsController.deleteCampaign.
  destruct (List.find _ (campaigns db)) as [campaign|] eqn:Hfind; [|done].
  cbn [campaigns communication_log sent_messages Mongo.with_campaigns
       Mongo.with_communication_log].
  unfold CampaignsController.owned in Hfind |- *.
  rewrite (deleteOne_by_id CampaignModel._id campaignId _ _ _ Hnd Hfind).
  split; [done|]. split; [done|]. split; [done|].
  unfold CampaignStats.getCampaignStats, Collection.deleteMany.
  cbn [CampaignStats.total communication_log Mongo.with_campaigns Mongo.with_communication_log].
  split.
  - rewrite countDocuments_filter. apply countDocuments_none.
    apply List.Forall_forall. intros l _. unfold CampaignStatsHelpers.of_campaign.
    destruct (CommunicationLogModel.campaign_id l); [|done].
    apply andb_negb_l.
  - intros other owner Hother.
    assert (Hkept : forall l,
               match CommunicationLogModel.campaign_id l with
               | Some c => (c =? other) && (CommunicationLogModel.userId l =? owner)
               | None => false
               end = true ->
               negb (CampaignStatsHelpers.of_campaign campaignId userId l) = true).
    { intros l. unfold CampaignStatsHelpers.of_campaign.
      destruct (CommunicationLogModel.campaign_id l) as [c|]; [|done].
      destruct (Z.eqb_spec c other) as [->|_]; [|done]. intros _.
      by destruct (Z.eqb_spec other campaignId). }
    rewrite !countDocuments_filter_keep; [reflexivity|..].
    all: intros l Hl; apply Hkept; try done.
    all: by apply andb_prop in Hl as [Hl _].
Qed.

(** The theorem on the sample database of campaign 41: owner 1 deletes
    it, and its two logs go with it. *)
Lemma deleteCampaign_removes_the_campaign_and_its_logs_witness :
  CampaignStats.total (CampaignStats.getCampaignStats 41 1 Samples.deleted_customer_db) = 2
  /\ match CampaignsController.deleteCampaign 1 41 Samples.deleted_customer_db with
     | (db', CampaignsController.Deleted) =>
         campaigns db' = [] /\ communication_log db' = []
         /\ CampaignStats.total (CampaignStats.getCampaignStats 41 1 db') = 0
     | _ => False
     end.
Proof.
  split; [reflexivity|].
  pose proof (deleteCampaign_removes_the_campaign_and_its_logs 1 41
                Samples.deleted_customer_db) as H.
  assert (Hnd : List.NoDup (map CampaignModel._id (campaigns Samples.deleted_customer_db))).
  { repeat constructor; simpl; intuition discriminate. }
  specialize (H Hnd).
  destruct (CampaignsController.deleteCampaign 1 41 Samples.deleted_customer_db)
    as [db' []] eqn:E; try discriminate E.
  destruct H as (Hc & Hl & _ & Ht & _). split; [exact Hc|]. split; [exact Hl|exact Ht].
Defined.

(** ** Updating the rules of a segment *)

(** X19: an update of the rules repopulates the segment.  The request
    is a PUT whose body has the key [rules_json] only, with rules whose
    comparisons all have a value or no operator (so that no [null] is
    stored for a value).  When the first segment with the id belongs to
    the requester, [updateSegment] stores the rules that
    [fixRuleStructure] gives and, as customers of the segment, the
    requester's customers that satisfy the stored rules; the answer
    carries the stored segment.  The segment keeps its id, owner, name
    and creation time, no segment is added or removed, every segment with
    another id stays as it is, and the customers are not changed. *)
Theorem updateSegment_repopulates_the_segment :
  forall now userId id rules db found,
    List.find (fun s => SegmentModel._id s =? id) (segments db) = Some found ->
    SegmentModel.userId found = userId ->
    Segments.leaves_have_values rules = true ->
    let stored := Segments.fixRuleStructure rules in
    let selected :=
      List.filter (fun c => SegmentRules.evaluateRule now c stored)
                  (SegmentPopulation.customers_of userId db) in
    exists db' updated,
      Segments.updateSegment now userId id rules db
      = (db', Segments.Updated (Some updated)
                ("Segment updated with " +:+ pretty (Z.of_nat (length selected))
                                         +:+ " customers"))
      /\ List.find (fun s => SegmentModel._id s =? id) (segments db') = Some updated
      /\ SegmentModel.rules_json updated = stored
      /\ SegmentModel.customer_ids updated
         = map (fun c => String_ (CustomerModel._id c)) selected
      /\ SegmentModel.customer_count updated = Z.of_nat (length selected)
      /\ SegmentModel.last_populated_at updated = Some now
      /\ (SegmentModel._id updated, SegmentModel.userId updated,
          SegmentModel.name updated, SegmentModel.created_at updated)
         = (SegmentModel._id found, SegmentModel.userId found,
            SegmentModel.name found, SegmentModel.created_at found)
      /\ map SegmentModel._id (segments db') = map SegmentModel._id (segments db)
      /\ (forall (i : nat) s,
            segments db !! i = Some s -> SegmentModel._id s <> id ->
            segments db' !! i = Some s)
      /\ customers db' = customers db.
Proof.
  intros now userId id rules db found Hfind Howner _ stored selected.
  set (by_id := fun s => SegmentModel._id s =? id).
  set (owned := fun s => (SegmentModel._id s =? id) && (SegmentModel.userId s =? userId)).
  destruct (updateOne_first_match by_id (fun s => s) _ _ Hfind)
    as (l1 & l2 & Hl & Hl1 & Hid & _).
  unfold by_id in Hid. apply Z.eqb_eq in Hid.
  assert (Hl1' : forallb (fun y => negb (owned y)) l1 = true).
  { apply forallb_forall. intros s Hs.
    pose proof (proj1 (forallb_forall _ _) Hl1 s Hs) as Hn. cbv beta in Hn.
    unfold owned. apply negb_true_iff in Hn. unfold by_id in Hn. by rewrite Hn. }
  assert (Hown : owned found = true).
  { unfold owned. rewrite Hid, Howner, !Z.eqb_refl. done. }
  set (ruled := Segments.set_rules stored found).
  set (ids := map (fun c => String_ (CustomerModel._id c)) selected).
  set (updated := SegmentPopulation.set_population ids now ruled).
  exists (Mongo.with_segments db (l1 ++ updated :: l2)), updated.
  assert (Hgoal : Segments.updateSegment now userId id rules db
                  = (Mongo.with_segments db (l1 ++ updated :: l2),
                     Segments.Updated (Some updated)
                       ("Segment updated with " +:+ pretty (Z.of_nat (length selected))
                                                +:+ " customers"))).
  { unfold Segments.updateSegment. fold owned stored.
    rewrite Hl, (find_app_skip owned) by done. cbn [List.find]. rewrite Hown.
    rewrite (updateOne_app_skip owned) by done. cbn [Mongo.updateOne]. rewrite Hown.
    fold ruled.
    rewrite (populate_found now id _ ruled); cycle 1.
    { unfold SegmentCustomers.findById. cbn [segments Mongo.with_segments].
      fold by_id. rewrite (find_app_skip by_id) by done. cbn [List.find].
      unfold by_id at 1. cbn [ruled Segments.set_rules SegmentModel._id].
      by rewrite Hid, Z.eqb_refl. }
    assert (Hsel : CampaignDeliveryService.getCustomersForSegment now ruled
                     (Mongo.with_segments db (l1 ++ ruled :: l2)) = selected).
    { unfold CampaignDeliveryService.getCustomersForSegment.
      cbn [customers Mongo.with_segments ruled Segments.set_rules SegmentModel.userId
           SegmentModel.rules_json]. by rewrite Howner. }
    rewrite Hsel. fold ids.
    cbn [segments Mongo.with_segments]. fold by_id.
    rewrite (updateOne_app_skip by_id) by done. cbn [Mongo.updateOne].
    assert (Hr : by_id ruled = true).
    { unfold by_id. cbn [ruled Segments.set_rules SegmentModel._id].
      by rewrite Hid, Z.eqb_refl. }
    rewrite Hr. fold updated.
    rewrite (find_app_skip by_id) by done. cbn [List.find].
    assert (Hu : by_id updated = true) by exact Hr.
    rewrite Hu. reflexivity. }
  split; [exact Hgoal|].
  cbn [segments customers Mongo.with_segments].
  split.
  { fold by_id. rewrite (find_app_skip by_id) by done. cbn [List.find].
    assert (Hu : by_id updated = true).
    { unfold by_id. cbn [updated ruled SegmentPopulation.set_population
                         Segments.set_rules SegmentModel._id].
      by rewrite Hid, Z.eqb_refl. }
    by rewrite Hu. }
  split; [reflexivity|]. split; [reflexivity|].
  split; [by unfold updated, ids; cbn; rewrite length_map|].
  split; [reflexivity|]. split; [reflexivity|].
  split; [by rewrite Hl, !map_app|].
  split; [|reflexivity].
  intros i s Hi Hs. rewrite Hl in Hi.
  destruct (decide (i < length l1)%nat) as [Hlt|Hge].
  - rewrite lookup_app_l in Hi |- * by done. done.
  - rewrite lookup_app_r in Hi |- * by lia.
    destruct (i - length l1)%nat as [|k]; [|done].
    injection Hi as <-. by destruct Hs.
Qed.

(** The theorem on the sample store: owner 1 replaces the rules of
    segment 31, and nobody has spent more than 5000. *)
Lemma updateSegment_repopulates_the_segment_witness :
  exists db' updated note,
    Segments.updateSegment 0 1 31
      (SegmentRules.Rule SegmentRules.spend SegmentRules.gt 5000)
      Samples.deleted_customer_db
    = (db', Segments.Updated (Some updated) note)
    /\ SegmentModel.customer_count updated = 0.
Proof.
  destruct (updateSegment_repopulates_the_segment 0 1 31
              (SegmentRules.Rule SegmentRules.spend SegmentRules.gt 5000)
              Samples.deleted_customer_db
              (Examples.segment 31 1 Examples.big_spender))
    as (db' & updated & Hup & _ & _ & _ & Hcount & _).
  - reflexivity.
  - reflexivity.
  - reflexivity.
  - exists db', updated. eexists. split; [exact Hup|exact Hcount].
Defined.

(** ** The statistics with the segment breakdown *)



(** X27: the summary agrees with the statistics of one campaign.
    [getCampaignsStatsSummary] answers with one entry for every
    requested id, in the order of the request and with its repetitions.
    The total, the SENT, FAILED and PENDING counts and the success rate
    of an entry are those of [getCampaignStats] for that id and the
    requester; the QUEUED logs are in the total only, so the total is the
    sum of the three counts and the QUEUED count.  An id without logs of
    the requester, such as the id of a campaign of somebody else, gets
    an entry of zeros, not an error. *)
Theorem getCampaignsStatsSummary_agrees_with_getCampaignStats :
  forall userId campaignIds db,
    let summary := CampaignStatsBreakdown.getCampaignsStatsSummary userId campaignIds db in
    map CampaignStatsBreakdown.e_campaignId summary = campaignIds
    /\ Forall
         (fun e =>
            let s := CampaignStats.getCampaignStats
                       (CampaignStatsBreakdown.e_campaignId e) userId db in
            CampaignStatsBreakdown.e_total e = CampaignStats.total s
            /\ CampaignStatsBreakdown.e_sent e = CampaignStats.sent s
            /\ CampaignStatsBreakdown.e_failed e = CampaignStats.failed s
            /\ CampaignStatsBreakdown.e_pending e = CampaignStats.pending s
            /\ CampaignStatsBreakdown.e_successRate e = CampaignStats.successRate s
            /\ CampaignStatsBreakdown.e_total e
               = CampaignStatsBreakdown.e_sent e + CampaignStatsBreakdown.e_failed e
                 + CampaignStatsBreakdown.e_pending e + CampaignStats.queued s
            /\ ((forall l, In l (communication_log db) ->
                           CampaignStatsHelpers.of_campaign
                             (CampaignStatsBreakdown.e_campaignId e) userId l = false) ->
                CampaignStatsBreakdown.e_total e = 0
                /\ CampaignStatsBreakdown.e_sent e = 0
                /\ CampaignStatsBreakdown.e_failed e = 0
                /\ CampaignStatsBreakdown.e_pending e = 0
                /\ Qeq (CampaignStatsBreakdown.e_successRate e) 0))
         summary.
Proof.
  intros userId campaignIds db summary. subst summary.
  unfold CampaignStatsBreakdown.getCampaignsStatsSummary. split.
  - rewrite map_map. cbn [CampaignStatsBreakdown.e_campaignId]. apply List.map_id.
  - apply List.Forall_forall. intros e He.
    apply in_map_iff in He as (campaignId & <- & _).
    cbn [CampaignStatsBreakdown.e_campaignId CampaignStatsBreakdown.e_total
         CampaignStatsBreakdown.e_sent CampaignStatsBreakdown.e_failed
         CampaignStatsBreakdown.e_pending CampaignStatsBreakdown.e_successRate].
    do 5 (split; [reflexivity|]). split.
    + unfold CampaignStats.getCampaignStats. cbn [CampaignStats.queued].
      symmetry.
      apply (count_by_status (CampaignStatsHelpers.of_campaign campaignId userId)
                             CommunicationLogModel.status).
    + intros Hnone.
      assert (Hzero : forall p : CommunicationLogModel.t -> bool,
                 Mongo.countDocuments
                   (fun l => CampaignStatsHelpers.of_campaign campaignId userId l && p l)
                   (communication_log db) = 0).
      { intros p. apply countDocuments_none, List.Forall_forall.
        intros l Hl. by rewrite (Hnone l Hl). }
      assert (Htotal : Mongo.countDocuments
                         (CampaignStatsHelpers.of_campaign campaignId userId)
                         (communication_log db) = 0).
      { apply countDocuments_none, List.Forall_forall. intros l Hl. exact (Hnone l Hl). }
      rewrite !Hzero, Htotal. by repeat split.
Qed.

(** ** Messages without placeholders *)

Section plain_messages.
Import MessagePersonalizationService.

(** A replacement of a placeholder leaves a text without opening brace
    as it is. *)
Lemma replace_from_plain (pat' rep whole : string) (s : string) :
  Js.has_char "{" s = false ->
  forall pos, Js.replace_from (String "{" pat') rep whole pos 0 s = s.
Proof.
  induction s as [|c s IH]; intros Hfree pos; [done|].
  cbn [Js.has_char] in Hfree. apply orb_false_iff in Hfree as [Hc Hfree].
  apply Ascii.eqb_neq in Hc.
  cbn [Js.replace_from String.prefix].
  destruct (ascii_dec "{" c) as [E|_]; [congruence|].
  by rewrite IH.
Qed.

Lemma substitute_plain d (message : string) :
  Js.has_char "{" message = false -> substitute d message = message.
Proof.
  intros Hfree. unfold substitute, Js.replace_g.
  by rewrite !(fun p r w => replace_from_plain p r w message Hfree).
Qed.

Lemma match_placeholders_plain (message : string) :
  Js.has_char "{" message = false -> match_placeholders 0 message = [].
Proof.
  induction message as [|c s IH]; intros Hfree; [done|].
  cbn [Js.has_char] in Hfree. apply orb_false_iff in Hfree as [Hc Hfree].
  cbn [match_placeholders]. rewrite Hc. by apply IH.
Qed.

End plain_messages.

(** X16: a message without placeholders is sent as it is written.  For
    a message that contains no opening brace, [validateTemplate] reports
    no invalid placeholder, and [personalizeMessage] returns the message
    itself when it starts with [hi ], [hello ] or [dear ] (in any case of
    letters), and otherwise the message after [Hi <name>, ], where the
    name is the name of the customer or, if that is empty, the fallback
    name. *)
Theorem personalizeMessage_plain_message :
  forall toLocaleDateString message customer fallbackName customData,
    Js.has_char "{" message = false ->
    MessagePersonalizationService.validateTemplate message
    = {| MessagePersonalizationService.isValid := true;
         MessagePersonalizationService.invalidPlaceholders := [] |}
    /\ MessagePersonalizationService.personalizedMessage
         (MessagePersonalizationService.personalizeMessage
            toLocaleDateString message customer fallbackName customData)
       = if MessagePersonalizationService.has_greeting message then message
         else "Hi " +:+ Js.or_str (CustomerModel.name customer) fallbackName
                    +:+ ", " +:+ message.
Proof.
  intros toLocaleDateString message customer fallbackName customData Hfree. split.
  - unfold MessagePersonalizationService.validateTemplate.
    by rewrite match_placeholders_plain.
  - unfold MessagePersonalizationService.personalizeMessage.
    cbn [MessagePersonalizationService.personalizedMessage].
    rewrite substitute_plain by done.
    by destruct (MessagePersonalizationService.has_greeting message).
Qed.

(** The theorem on [Sale today] for Ann. *)
Lemma personalizeMessage_plain_message_witness :
  MessagePersonalizationService.personalizedMessage
    (MessagePersonalizationService.personalizeMessage
       Samples.a_date "Sale today" Examples.ann "Valued Customer"
       MessagePersonalizationService.no_customData)
  = "Hi " +:+ CustomerModel.name Examples.ann +:+ ", Sale today".
Proof.
  destruct (personalizeMessage_plain_message Samples.a_date "Sale today" Examples.ann
              "Valued Customer" MessagePersonalizationService.no_customData) as [_ H].
  - reflexivity.
  - exact H.
Defined.

(** ** The string functions and regular expressions *)

Section string_facts.

Lemma append_nil_l (s : string) : EmptyString +:+ s = s.
Proof. reflexivity. Qed.

Lemma append_nil_r (s : string) : s +:+ EmptyString = s.
Proof. induction s as [|c s IH]; [done|]. rewrite append_cons. by rewrite IH. Qed.

Lemma append_eq_nil (a b : string) :
  a +:+ b = EmptyString -> a = EmptyString /\ b = EmptyString.
Proof.
  destruct a as [|c a]; intros H; [by split|].
  rewrite append_cons in H. discriminate.
Qed.

Lemma list_ascii_app (a b : string) :
  list_ascii_of_string (a +:+ b) = list_ascii_of_string a ++ list_ascii_of_string b.
Proof.
  induction a as [|c a IH]; [done|]. rewrite append_cons. simpl. by rewrite IH.
Qed.

Lemma has_char_In (c : ascii) (s : string) :
  Js.has_char c s = true <-> In c (list_ascii_of_string s).
Proof.
  induction s as [|a s IH]; simpl; [split; [discriminate|tauto]|].
  rewrite orb_true_iff, IH, Ascii.eqb_eq. tauto.
Qed.

Lemma prefix_spec (p s : string) :
  String.prefix p s = true <-> exists rest, s = p +:+ rest.
Proof.
  revert s. induction p as [|c p IH]; intros s; simpl.
  - split; [by exists s|by destruct s].
  - destruct s as [|a s]; cbn [String.prefix].
    { split; [discriminate|]. intros [rest H]. rewrite append_cons in H. discriminate. }
    destruct (ascii_dec c a) as [->|Hne].
    + rewrite IH. split; intros [rest H]; exists rest.
      * rewrite append_cons. by rewrite H.
      * rewrite append_cons in H. by injection H.
    + split; [discriminate|]. intros [rest H]. rewrite append_cons in H. congruence.
Qed.

Lemma take_drop (n : nat) (s : string) : Js.take n s +:+ Js.drop n s = s.
Proof.
  revert s. induction n as [|n IH]; intros [|c s]; try reflexivity.
  cbn [Js.take Js.drop]. rewrite append_cons. by rewrite IH.
Qed.

Lemma endsWith_spec (s p : string) :
  JsString.endsWith s p = true <-> exists start, s = start +:+ p.
Proof.
  unfold JsString.endsWith. rewrite andb_true_iff, Nat.leb_le, String.eqb_eq. split.
  - intros [_ H]. exists (Js.take (String.length s - String.length p) s).
    rewrite <- H at 2. symmetry. apply take_drop.
  - intros [start ->]. rewrite append_length. split; [lia|].
    replace (String.length start + String.length p - String.length p)%nat
      with (String.length start) by lia.
    apply drop_app.
Qed.

Lemma includes_spec (s p : string) :
  JsString.includes s p = true <-> MessagePersonalizationService.occurs_in p s.
Proof.
  unfold MessagePersonalizationService.occurs_in.
  induction s as [|c s IH]; cbn [JsString.includes].
  - rewrite orb_false_r, prefix_spec. split.
    + intros [rest H]. by exists EmptyString, rest.
    + intros (pre & post & H). destruct pre as [|a pre]; [by exists post|].
      rewrite append_cons in H. discriminate.
  - rewrite orb_true_iff, prefix_spec, IH. split.
    + intros [[rest H]|(pre & post & H)].
      * by exists EmptyString, rest.
      * exists (String c pre), post. rewrite append_cons. by rewrite H.
    + intros (pre & post & H). destruct pre as [|a pre].
      * left. by exists post.
      * right. rewrite append_cons in H. injection H as _ H. by exists pre, post.
Qed.

Lemma split_no_sep (sep : ascii) (s : string) :
  Js.has_char sep s = false -> JsString.split sep s = [s].
Proof.
  induction s as [|c s IH]; simpl; [done|]. intros H.
  apply orb_false_iff in H as [Hc Hs]. rewrite Hc, (IH Hs). done.
Qed.

Lemma split_app (sep : ascii) (a b : string) :
  Js.has_char sep a = false ->
  JsString.split sep (a +:+ String sep b) = a :: JsString.split sep b.
Proof.
  induction a as [|c a IH]; intros H.
  - rewrite append_nil_l. cbn [JsString.split]. by rewrite Ascii.eqb_refl.
  - cbn [Js.has_char] in H. apply orb_false_iff in H as [Hc Ha].
    rewrite append_cons. cbn [JsString.split]. rewrite Hc, (IH Ha). done.
Qed.

End string_facts.

Section regex_facts.
Import Regex.

Lemma nullable_matches (r : t) : nullable r = true <-> matches r EmptyString.
Proof.
  split.
  - induction r as [| |class|a IHa b IHb|a IHa b IHb|a IHa]; simpl; intros H;
      try discriminate.
    + constructor.
    + apply andb_prop in H as [Ha Hb].
      apply (matches_Seq a b EmptyString EmptyString); auto.
    + apply orb_prop in H as [H|H]; [apply matches_Alt_l|apply matches_Alt_r]; auto.
    + constructor.
  - intros H. remember EmptyString as s eqn:E.
    induction H as [|class c Hc|a b s1 s2 H1 IH1 H2 IH2|a b s H IH|a b s H IH| |
                    a s1 s2 H1 IH1 H2 IH2]; simpl; try done.
    + apply append_eq_nil in E as [-> ->]. by rewrite IH1, IH2.
    + by rewrite IH.
    + rewrite IH by done. apply orb_true_r.
Qed.

Lemma derive_sound (c : ascii) (r : t) :
  forall s, matches (derive c r) s -> matches r (String c s).
Proof.
  induction r as [| |class|a IHa b IHb|a IHa b IHb|a IHa]; simpl; intros s H.
  - inversion H.
  - inversion H.
  - destruct (class c) eqn:Hc; inversion H; subst. by constructor.
  - destruct (nullable a) eqn:Hn.
    + inversion H as [| | | ? ? ? H'| ? ? ? H'| |]; subst.
      * inversion H' as [| |? ? s1 s2 H1 H2| | | |]; subst.
        apply (matches_Seq a b (String c s1) s2); auto.
      * apply (matches_Seq a b EmptyString (String c s)); auto.
        by apply nullable_matches.
    + inversion H as [| |? ? s1 s2 H1 H2| | | |]; subst.
      apply (matches_Seq a b (String c s1) s2); auto.
  - inversion H; subst; [apply matches_Alt_l|apply matches_Alt_r]; auto.
  - inversion H as [| |? ? s1 s2 H1 H2| | | |]; subst.
    apply (matches_Star_more a (String c s1) s2); auto.
Qed.

Lemma derive_complete (c : ascii) (r : t) (s : string) :
  matches r (String c s) -> matches (derive c r) s.
Proof.
  intros H. remember (String c s) as s0 eqn:E. revert s E.
  induction H as [|class c' Hc|a b s1 s2 H1 IH1 H2 IH2|a b s' H IH|a b s' H IH| |
                  a s1 s2 H1 IH1 H2 IH2]; intros s E; simpl.
  - discriminate.
  - injection E as -> <-. rewrite Hc. constructor.
  - destruct s1 as [|c1 s1].
    + rewrite append_nil_l in E.
      apply nullable_matches in H1. rewrite H1. apply matches_Alt_r. by apply IH2.
    + rewrite append_cons in E. injection E as -> <-.
      destruct (nullable a); [apply matches_Alt_l|]; apply matches_Seq; auto.
  - apply matches_Alt_l. by apply IH.
  - apply matches_Alt_r. by apply IH.
  - discriminate.
  - destruct s1 as [|c1 s1].
    + rewrite append_nil_l in E. by apply IH2.
    + rewrite append_cons in E. injection E as -> <-. apply matches_Seq; auto.
Qed.

(** The test by derivatives decides the texts of the expression. *)
Lemma test_matches (r : t) (s : string) : test r s = true <-> matches r s.
Proof.
  revert r. induction s as [|c s IH]; intros r; simpl.
  - apply nullable_matches.
  - rewrite IH. split; [apply derive_sound|apply derive_complete].
Qed.

Lemma matches_Seq_inv (a b : t) (s : string) :
  matches (Seq a b) s <-> exists s1 s2, s = s1 +:+ s2 /\ matches a s1 /\ matches b s2.
Proof.
  split.
  - intros H. inversion H; subst. by eexists _, _.
  - intros (s1 & s2 & -> & H1 & H2). by constructor.
Qed.

Lemma matches_Chr (c : ascii) (s : string) :
  matches (Chr c) s <-> s = String c EmptyString.
Proof.
  split.
  - intros H. inversion H as [|? c' Hc| | | | |]; subst.
    apply Ascii.eqb_eq in Hc. by subst.
  - intros ->. constructor. apply Ascii.eqb_refl.
Qed.

Lemma matches_Star_Chars (class : ascii -> bool) (s : string) :
  matches (Star (Chars class)) s
  <-> (forall c, In c (list_ascii_of_string s) -> class c = true).
Proof.
  split.
  - intros H. remember (Star (Chars class)) as r eqn:E.
    induction H as [| | | | | |a s1 s2 H1 _ H2 IH2]; try discriminate.
    + intros c [].
    + injection E as ->. inversion H1; subst.
      intros c'. rewrite list_ascii_app, in_app_iff. simpl.
      intros [[<-|[]]|Hin]; [done|]. by apply IH2.
  - induction s as [|c s IH]; intros H; [constructor|].
    apply (matches_Star_more (Chars class) (String c EmptyString) s).
    + constructor. apply H. by left.
    + apply IH. intros c' Hc'. apply H. by right.
Qed.

Lemma matches_Plus_Chars (class : ascii -> bool) (s : string) :
  matches (Plus (Chars class)) s
  <-> s <> EmptyString /\ (forall c, In c (list_ascii_of_string s) -> class c = true).
Proof.
  unfold Plus. rewrite matches_Seq_inv. split.
  - intros (s1 & s2 & -> & H1 & H2). inversion H1; subst.
    split; [by rewrite append_cons|].
    intros c'. rewrite list_ascii_app, in_app_iff. simpl.
    intros [[<-|[]]|Hin]; [done|].
    by apply (matches_Star_Chars class s2).
  - intros [Hne H]. destruct s as [|c s]; [done|].
    exists (String c EmptyString), s. split; [done|]. split.
    + constructor. apply H. by left.
    + apply matches_Star_Chars. intros c' Hc'. apply H. by right.
Qed.

End regex_facts.

(** ** The validation of Gmail addresses *)

Section gmail_facts.
Import GmailValidationService.

Lemma lower_ascii_dot (c : ascii) : Js.lower_ascii c = "."%char -> c = "."%char.
Proof.
  destruct c as [[] [] [] [] [] [] [] []]; vm_compute; intros H;
    try reflexivity; discriminate H.
Qed.

Lemma lower_ascii_class (c : ascii) :
  not_space_at (Js.lower_ascii c) = true -> not_space_at c = true.
Proof.
  destruct c as [[] [] [] [] [] [] [] []]; vm_compute; intros H;
    try reflexivity; discriminate H.
Qed.

Lemma valid_char_class (c : ascii) : valid_char c = true -> not_space_at c = true.
Proof.
  destruct c as [[] [] [] [] [] [] [] []]; vm_compute; intros H;
    try reflexivity; discriminate H.
Qed.

Lemma class_no_at (x : string) :
  (forall c, In c (list_ascii_of_string x) -> not_space_at c = true) ->
  Js.has_char "@" x = false.
Proof.
  intros H. destruct (Js.has_char "@" x) eqn:E; [|done].
  apply has_char_In, H in E. discriminate E.
Qed.

(** The texts that [emailRegex] accepts. *)
Lemma emailRegex_spec (s : string) :
  Regex.test emailRegex s = true
  <-> exists l a b,
        s = l +:+ String "@" (a +:+ String "." b)
        /\ (l <> EmptyString
            /\ forall c, In c (list_ascii_of_string l) -> not_space_at c = true)
        /\ (a <> EmptyString
            /\ forall c, In c (list_ascii_of_string a) -> not_space_at c = true)
        /\ (b <> EmptyString
            /\ forall c, In c (list_ascii_of_string b) -> not_space_at c = true).
Proof.
  rewrite test_matches. unfold emailRegex. split.
  - intros H.
    apply matches_Seq_inv in H as (l & r1 & -> & Hl & H).
    apply matches_Seq_inv in H as (x & r2 & -> & Hx & H).
    apply matches_Chr in Hx as ->.
    apply matches_Seq_inv in H as (a & r3 & -> & Ha & H).
    apply matches_Seq_inv in H as (y & b & -> & Hy & Hb).
    apply matches_Chr in Hy as ->.
    exists l, a, b. split; [reflexivity|].
    by rewrite <- !matches_Plus_Chars.
  - intros (l & a & b & -> & Hl & Ha & Hb).
    apply matches_Plus_Chars in Hl, Ha, Hb.
    apply Regex.matches_Seq; [done|].
    apply (Regex.matches_Seq _ _ (String "@" EmptyString)); [by apply matches_Chr|].
    apply Regex.matches_Seq; [done|].
    apply (Regex.matches_Seq _ _ (String "." EmptyString)); [by apply matches_Chr|done].
Qed.

(** The user names that [isValidGmailUsername] accepts. *)
Lemma isValidGmailUsername_spec (username : string) :
  isValidGmailUsername username = true <-> username_rules username.
Proof.
  unfold isValidGmailUsername, username_rules, Js.startsWith.
  destruct (JsString.includes username "..") eqn:Hdots.
  { split; [by repeat case_match|].
    intros (_ & _ & _ & _ & H). exfalso. apply H. by apply includes_spec. }
  assert (Hnodots : ~ MessagePersonalizationService.occurs_in ".." username).
  { intros H. apply includes_spec in H. congruence. }
  destruct (String.prefix "." username) eqn:Hstart.
  { split; [by repeat case_match|].
    intros (_ & _ & H & _). apply prefix_spec in Hstart as [rest ->]. by destruct (H rest). }
  assert (Hnostart : forall rest, username <> "." +:+ rest).
  { intros rest ->. assert (String.prefix "." ("." +:+ rest) = true) as E; [|congruence].
    apply prefix_spec. by exists rest. }
  destruct (JsString.endsWith username ".") eqn:Hend.
  { split; [by repeat case_match|].
    intros (_ & _ & _ & H & _). apply endsWith_spec in Hend as [start ->].
    by destruct (H start). }
  assert (Hnoend : forall start, username <> start +:+ ".").
  { intros start ->. assert (JsString.endsWith (start +:+ ".") "." = true) as E; [|congruence].
    apply endsWith_spec. by exists start. }
  cbn [orb negb].
  destruct (Regex.test validCharsRegex username) eqn:Hchars; cbn [negb].
  2: { split; [by repeat case_match|].
       intros (Hlen & H & _). assert (Regex.test validCharsRegex username = true) as E;
         [|congruence].
       apply test_matches, matches_Plus_Chars. split; [|done].
       intros ->. simpl in Hlen. lia. }
  apply test_matches, matches_Plus_Chars in Hchars as [Hne Hall].
  destruct (String.eqb_spec username EmptyString) as [E|_]; [done|]. cbn [orb].
  destruct (Nat.ltb_spec (String.length username) 1) as [Hlt|Hge]; cbn [orb].
  { split; [done|]. intros (Hlen & _). lia. }
  destruct (Nat.ltb_spec 30 (String.length username)) as [Hlt|Hle].
  { split; [done|]. intros (Hlen & _). lia. }
  split; [|done]. intros _. repeat split; try done; lia.
Qed.

(** A domain that is [gmail.com] in lower case has the shape that
    [emailRegex] asks of a domain. *)
Lemma gmail_domain_shape (domain : string) :
  Js.toLowerCase domain = "gmail.com" ->
  exists a b,
    domain = a +:+ String "." b
    /\ (a <> EmptyString
        /\ forall c, In c (list_ascii_of_string a) -> not_space_at c = true)
    /\ (b <> EmptyString
        /\ forall c, In c (list_ascii_of_string b) -> not_space_at c = true).
Proof.
  intros H.
  destruct domain as [|c1 [|c2 [|c3 [|c4 [|c5 [|c6 [|c7 [|c8 [|c9 [|c10 d]]]]]]]]]];
    cbn [Js.toLowerCase] in H; try discriminate H.
  injection H as H1 H2 H3 H4 H5 H6 H7 H8 H9.
  apply lower_ascii_dot in H6 as ->.
  exists (String c1 (String c2 (String c3 (String c4 (String c5 EmptyString))))),
         (String c7 (String c8 (String c9 EmptyString))).
  split; [reflexivity|]. split; (split; [done|]); simpl; intros c Hc.
  - destruct Hc as [<-|[<-|[<-|[<-|[<-|[]]]]]]; apply lower_ascii_class.
    + by rewrite H1.
    + by rewrite H2.
    + by rewrite H3.
    + by rewrite H4.
    + by rewrite H5.
  - destruct Hc as [<-|[<-|[<-|[]]]]; apply lower_ascii_class.
    + by rewrite H7.
    + by rewrite H8.
    + by rewrite H9.
Qed.

End gmail_facts.

(** X17: the addresses that the Gmail validation accepts.
    [validateGmailAddress] answers [isValid] exactly for the addresses
    [username@domain] whose domain is [gmail.com] in any case of letters
    and whose user name has 1 to 30 characters, all of them letters,
    digits or dots, with no dot at its start or end and no two dots in a
    row.  [exists] is the same as [isValid]; an accepted address is
    reported as a Gmail address with the domain in lower case and
    without error, and a rejected one carries an error text. *)
Theorem validateGmailAddress_accepts_the_gmail_addresses :
  forall email : string,
    let result := GmailValidationService.validateGmailAddress email in
    (GmailValidationService.isValid result = true
     <-> exists username domain,
           email = username +:+ "@" +:+ domain
           /\ Js.toLowerCase domain = "gmail.com"
           /\ GmailValidationService.username_rules username)
    /\ GmailValidationService.exists_ result = GmailValidationService.isValid result
    /\ (GmailValidationService.isValid result = true ->
        GmailValidationService.error result = None
        /\ GmailValidationService.details result
           = {| GmailValidationService.email := email;
                GmailValidationService.domain := Some "gmail.com";
                GmailValidationService.isGmail := true;
                GmailValidationService.verificationStatus := Some "format_validated" |})
    /\ (GmailValidationService.isValid result = false ->
        is_Some (GmailValidationService.error result)).
Proof.
  intros email result. subst result.
  unfold GmailValidationService.validateGmailAddress.
  destruct (Regex.test GmailValidationService.emailRegex email) eqn:Hformat; cbn [negb].
  - apply emailRegex_spec in Hformat as (l & a & b & -> & [Hl Hlc] & [Ha Hac] & [Hb Hbc]).
    assert (Hsplit : JsString.split "@" (l +:+ String "@" (a +:+ String "." b))
                     = [l; a +:+ String "." b]).
    { rewrite split_app by (by apply class_no_at). f_equal. apply split_no_sep.
      rewrite has_char_app. cbn [Js.has_char].
      rewrite (class_no_at a), (class_no_at b) by done. reflexivity. }
    rewrite Hsplit.
    change ([l; a +:+ String "." b] !! 1%nat) with (Some (a +:+ String "." b)).
    change ([l; a +:+ String "." b] !! 0%nat) with (Some l).
    cbn [fmap option_fmap option_map default from_option id].
    assert (Hunique : forall username domain,
               l +:+ String "@" (a +:+ String "." b) = username +:+ "@" +:+ domain ->
               GmailValidationService.username_rules username ->
               Js.toLowerCase domain = "gmail.com" ->
               username = l /\ domain = a +:+ String "." b).
    { intros username domain E (_ & Hvalid & _) Hdomain.
      change (username +:+ "@" +:+ domain) with (username +:+ String "@" domain) in E.
      assert (Hs : JsString.split "@" (username +:+ String "@" domain)
                   = [username; domain]).
      { apply gmail_domain_shape in Hdomain as (a' & b' & -> & [_ Ha'] & [_ Hb']).
        rewrite split_app.
        - f_equal. apply split_no_sep. rewrite has_char_app. cbn [Js.has_char].
          rewrite (class_no_at a'), (class_no_at b') by done. reflexivity.
        - apply class_no_at. intros c Hc. by apply valid_char_class, Hvalid. }
      rewrite <- E, Hsplit in Hs. by injection Hs as <- <-. }
    destruct (bool_decide_reflect (Some (Js.toLowerCase (a +:+ String "." b))
                                   = Some "gmail.com")) as [Hgmail|Hother]; cbn [negb].
    + injection Hgmail as Hgmail.
      destruct (GmailValidationService.isValidGmailUsername l) eqn:Huser; cbn [negb].
      * cbn. rewrite Hgmail. repeat split; try done.
        intros _. exists l, (a +:+ String "." b).
        split; [done|]. split; [done|]. by apply isValidGmailUsername_spec.
      * cbn. repeat split; try done.
        intros (username & domain & E & Hdomain & Hrules).
        destruct (Hunique username domain E Hrules Hdomain) as [-> _].
        apply isValidGmailUsername_spec in Hrules. congruence.
    + cbn. repeat split; try done.
      intros (username & domain & E & Hdomain & Hrules).
      destruct (Hunique username domain E Hrules Hdomain) as [_ ->].
      destruct Hother. by rewrite Hdomain.
  - cbn. repeat split; try done.
    intros (username & domain & -> & Hdomain & Hrules).
    assert (Regex.test GmailValidationService.emailRegex (username +:+ "@" +:+ domain)
            = true) as E; [|congruence].
    apply gmail_domain_shape in Hdomain as (a & b & -> & Ha & Hb).
    apply emailRegex_spec. exists username, a, b. split; [reflexivity|].
    split; [|done]. destruct Hrules as (Hlen & Hvalid & _). split.
    + intros ->. simpl in Hlen. lia.
    + intros c Hc. by apply valid_char_class, Hvalid.
Qed.

(** The theorem on two addresses: [Ann.Lee@GMAIL.com] is accepted, and
    [ann..lee@gmail.com] is not. *)
Example validateGmailAddress_samples :
  GmailValidationService.isValid
    (GmailValidationService.validateGmailAddress "Ann.Lee@GMAIL.com") = true
  /\ GmailValidationService.error
       (GmailValidationService.validateGmailAddress "ann..lee@gmail.com")
     = Some "Invalid Gmail username format"
  /\ GmailValidationService.error
       (GmailValidationService.validateGmailAddress "ann@example.com")
     = Some "Only Gmail addresses are allowed for signup"
  /\ GmailValidationService.error
       (GmailValidationService.validateGmailAddress "ann lee@gmail.com")
     = Some "Invalid email format".
Proof. repeat split; vm_compute; reflexivity. Qed.

(** ** Whole numbers in binary64 *)

Section whole_facts.

Lemma round_even_of_whole x k : (x == inject_Z k)%Q -> Number.round_even x = k.
Proof.
  intros H. unfold Number.round_even.
  assert (Hf : Qfloor x = k) by (rewrite H; apply Qfloor_Z).
  rewrite Hf.
  assert (Hc : (x - inject_Z k ?= 1 # 2)%Q = Lt).
  { apply Qlt_alt. rewrite H.
    assert (E : (inject_Z k - inject_Z k == 0)%Q) by ring.
    rewrite E. reflexivity. }
  by rewrite Hc.
Qed.

Lemma exponent_inject n : 0 < n -> Number.exponent (inject_Z n) = Z.log2 n.
Proof.
  intros Hn. unfold Number.exponent.
  change (Qnum (inject_Z n)) with n. change (Z.pos (Qden (inject_Z n))) with 1.
  change (Z.log2 1) with 0. rewrite Z.sub_0_r.
  assert (H : Qle_bool (Number.pow2 (Z.log2 n)) (inject_Z n) = true).
  { apply Qle_bool_iff. rewrite pow2_inject by apply Z.log2_nonneg.
    rewrite <- Zle_Qle.
    by destruct (Z.log2_spec n Hn). }
  by rewrite H.
Qed.

Lemma pow2_neg e : 0 <= e -> (Number.pow2 (- e) * inject_Z (2 ^ e) == 1)%Q.
Proof.
  intros He. rewrite <- pow2_inject by exact He. rewrite <- pow2_add.
  replace (- e + e) with 0 by lia. reflexivity.
Qed.

(** The binary64 number nearest to a positive whole number. *)
Lemma nearest_pos_inject n :
  0 < n ->
  let e := Z.log2 n - 52 in
  (Number.nearest_pos (inject_Z n)
   == if e <=? 0 then inject_Z n
      else inject_Z (Number.round_even (inject_Z n / Number.pow2 e) * 2 ^ e))%Q.
Proof.
  intros Hn e. unfold Number.nearest_pos. rewrite Qred_correct.
  rewrite (exponent_inject n Hn).
  pose proof (Z.log2_nonneg n) as Hlog.
  rewrite Z.max_l by lia. fold e.
  destruct (Z.leb_spec e 0) as [He|He].
  - assert (Hx : (inject_Z n / Number.pow2 e == inject_Z (n * 2 ^ (- e)))%Q).
    { rewrite inject_Z_mult. pose proof (pow2_neg (- e) ltac:(lia)) as Hp.
      rewrite Z.opp_involutive in Hp. pose proof (pow2_pos e) as Hpos.
      rewrite <- (Qmult_1_r (inject_Z n)) at 1. rewrite <- Hp. field. lra. }
    rewrite (round_even_of_whole _ _ Hx). rewrite inject_Z_mult.
    pose proof (pow2_neg (- e) ltac:(lia)) as Hp.
    rewrite Z.opp_involutive in Hp.
    assert (E : (inject_Z n * inject_Z (2 ^ (- e)) * Number.pow2 e
                 == inject_Z n * (Number.pow2 e * inject_Z (2 ^ (- e))))%Q) by ring.
    rewrite E, Hp. ring.
  - rewrite inject_Z_mult. apply Qmult_comp; [reflexivity|].
    apply pow2_inject. lia.
Qed.

Lemma inject_Z_plus_eq a b : (inject_Z a + inject_Z b)%Q = inject_Z (a + b).
Proof. unfold Qplus, inject_Z. cbn [Qnum Qden]. by rewrite !Z.mul_1_r. Qed.

(** A whole number up to [2 ^ 53] is a binary64 number. *)
Lemma nearest_pos_exact n :
  0 < n <= 2 ^ 53 -> (Number.nearest_pos (inject_Z n) == inject_Z n)%Q.
Proof.
  intros [Hn Hle]. rewrite (nearest_pos_inject n Hn). cbv zeta.
  destruct (Z.leb_spec (Z.log2 n - 52) 0) as [He|He]; [reflexivity|].
  assert (Hlog : Z.log2 n <= 53).
  { change 53 with (Z.log2 (2 ^ 53)). by apply Z.log2_le_mono. }
  assert (E : Z.log2 n = 53) by lia.
  destruct (Z.log2_spec n Hn) as [Hlo _]. rewrite E in Hlo.
  assert (n = 2 ^ 53) as -> by lia.
  vm_compute. reflexivity.
Qed.

Lemma nearest_inject_whole n :
  exists k, (Number.nearest (inject_Z n) == inject_Z k)%Q.
Proof.
  unfold Number.nearest.
  destruct (Qcompare_spec (inject_Z n) 0) as [E|E|E].
  - by exists 0.
  - assert (Hn : 0 < - n).
    { change 0%Q with (inject_Z 0) in E. rewrite <- Zlt_Qlt in E. lia. }
    pose proof (nearest_pos_inject (- n) Hn) as H. cbv zeta in H.
    change (- inject_Z n)%Q with (inject_Z (- n)).
    destruct (_ <=? 0); eexists; rewrite Qred_correct, H, <- inject_Z_opp; reflexivity.
  - assert (Hn : 0 < n).
    { change 0%Q with (inject_Z 0) in E. by rewrite <- Zlt_Qlt in E. }
    pose proof (nearest_pos_inject n Hn) as H. cbv zeta in H.
    destruct (_ <=? 0); eexists; rewrite H; reflexivity.
Qed.

Lemma nearest_inject_exact n :
  - 2 ^ 53 <= n <= 2 ^ 53 -> (Number.nearest (inject_Z n) == inject_Z n)%Q.
Proof.
  intros Hn. unfold Number.nearest.
  destruct (Qcompare_spec (inject_Z n) 0) as [E|E|E].
  - by rewrite E.
  - assert (H0 : 0 < - n).
    { change 0%Q with (inject_Z 0) in E. rewrite <- Zlt_Qlt in E. lia. }
    rewrite Qred_correct. change (- inject_Z n)%Q with (inject_Z (- n)).
    rewrite nearest_pos_exact by lia. rewrite <- inject_Z_opp.
    by rewrite Z.opp_involutive.
  - assert (H0 : 0 < n).
    { change 0%Q with (inject_Z 0) in E. by rewrite <- Zlt_Qlt in E. }
    apply nearest_pos_exact. lia.
Qed.

(** The binary64 sum of two whole numbers is a whole number. *)
Lemma add_whole a b :
  (inject_Z (WholeNumber.add a b) == Number.add (inject_Z a) (inject_Z b))%Q.
Proof.
  unfold WholeNumber.add, Number.add. rewrite inject_Z_plus_eq.
  destruct (nearest_inject_whole (a + b)) as (k & Hk).
  rewrite (Qfloor_comp _ _ Hk), Qfloor_Z. symmetry. exact Hk.
Qed.

(** It is the sum when that is at most [2 ^ 53] in size. *)
Lemma add_exact a b :
  - 2 ^ 53 <= a + b <= 2 ^ 53 -> WholeNumber.add a b = a + b.
Proof.
  intros H. unfold WholeNumber.add, Number.add. rewrite inject_Z_plus_eq.
  rewrite (Qfloor_comp _ _ (nearest_inject_exact _ H)). apply Qfloor_Z.
Qed.

(** Above [2 ^ 53] it is the nearest binary64 number, a tie going to
    the even significand. *)
Example add_beyond_2_53 :
  WholeNumber.add (2 ^ 53) 1 = 2 ^ 53 /\ WholeNumber.add (2 ^ 53 + 2) 1 = 2 ^ 53 + 4.
Proof. split; vm_compute; reflexivity. Qed.

Lemma WholeNumber_agrees_with_Binary64 :
  forallb WholeNumber.agrees WholeNumber.pairs = true.
Proof. vm_compute. reflexivity. Qed.

End whole_facts.

(** ** The spend of the customers *)

Section owned_documents.
Context {A : Type}.
Variable id : A -> Z.

(** With distinct ids, a filter with the id of a stored document in it
    finds that document when the document satisfies the filter. *)
Lemma find_stored (q : A -> bool) (l : list A) (x : A) :
  List.NoDup (map id l) -> In x l -> q x = true ->
  List.find (fun y => (id y =? id x) && q y) l = Some x.
Proof.
  induction l as [|y l IH]; intros Hnd Hx Hq; [destruct Hx|].
  cbn [List.find].
  destruct (Z.eqb_spec (id y) (id x)) as [E|E].
  - assert (y = x) as ->.
    { apply (same_id_same_document id (y :: l)); try done. by left. }
    by rewrite Hq.
  - cbn [andb]. destruct Hx as [->|Hx]; [done|].
    inversion Hnd; subst. by apply IH.
Qed.

(** And an update with such a filter rewrites that document only. *)
Lemma updateOne_stored (q : A -> bool) (f : A -> A) (l : list A) (x : A) :
  List.NoDup (map id l) -> In x l -> q x = true ->
  Mongo.updateOne (fun y => (id y =? id x) && q y) f l
  = map (fun y => if id y =? id x then f y else y) l.
Proof.
  induction l as [|y l IH]; intros Hnd Hx Hq; [destruct Hx|].
  cbn [Mongo.updateOne map].
  inversion Hnd as [|? ? Hnotin Hnd']; subst.
  destruct (Z.eqb_spec (id y) (id x)) as [E|E].
  - assert (y = x) as ->.
    { apply (same_id_same_document id (y :: l)); try done. by left. }
    rewrite Hq. cbn [andb]. f_equal. symmetry. by apply map_other_ids.
  - cbn [andb]. destruct Hx as [->|Hx]; [done|]. f_equal. by apply IH.
Qed.

End owned_documents.

Section total_facts.

Lemma fold_amounts_ge (l : list OrderModel.t) :
  (forall o, In o l -> 0 <= OrderModel.amount o) ->
  forall acc, acc <= fold_left (fun sum order => sum + OrderModel.amount order) l acc.
Proof.
  induction l as [|o l IH]; intros Hl acc; [reflexivity|].
  cbn [fold_left].
  pose proof (Hl o (or_introl eq_refl)) as Ho.
  pose proof (IH (fun x Hx => Hl x (or_intror Hx)) (acc + OrderModel.amount o)) as H.
  lia.
Qed.

(** The running total of amounts that are not negative is their sum
    while that is at most [2 ^ 53]. *)
Lemma fold_amounts_exact (l : list OrderModel.t) :
  (forall o, In o l -> 0 <= OrderModel.amount o) ->
  forall acc,
    0 <= acc ->
    fold_left (fun sum order => sum + OrderModel.amount order) l acc <= 2 ^ 53 ->
    fold_left (fun sum order => WholeNumber.add sum (OrderModel.amount order)) l acc
    = fold_left (fun sum order => sum + OrderModel.amount order) l acc.
Proof.
  induction l as [|o l IH]; intros Hl acc Hacc Hsum; [reflexivity|].
  cbn [fold_left] in Hsum |- *.
  pose proof (Hl o (or_introl eq_refl)) as Ho.
  pose proof (fold_amounts_ge l (fun x Hx => Hl x (or_intror Hx))
                              (acc + OrderModel.amount o)) as Hge.
  rewrite add_exact by lia.
  apply IH; [intros x Hx; apply Hl; by right|lia|exact Hsum].
Qed.

Lemma calculateCustomerSpend_exact orders customerId userId :
  (forall o, In o orders -> 0 <= OrderModel.amount o) ->
  CustomerSpend.sum_of_amounts orders customerId userId <= 2 ^ 53 ->
  CustomerSpend.calculateCustomerSpend orders customerId userId
  = CustomerSpend.sum_of_amounts orders customerId userId.
Proof.
  intros Hpos Hsum. unfold CustomerSpend.calculateCustomerSpend.
  apply fold_amounts_exact; [|lia|exact Hsum].
  intros o Ho. apply Hpos. unfold CustomerSpend.orders_of in Ho.
  by apply filter_In in Ho as [Ho _].
Qed.

(** Above [2 ^ 53] the total is not the sum: two orders of [2 ^ 53] and
    of 1 give the total [2 ^ 53]. *)
Example calculateCustomerSpend_rounds :
  CustomerSpend.sum_of_amounts Samples.large_orders 11 (Some 1) = 2 ^ 53 + 1
  /\ CustomerSpend.calculateCustomerSpend Samples.large_orders 11 (Some 1) = 2 ^ 53.
Proof. split; vm_compute; reflexivity. Qed.

End total_facts.

Section spend_facts.
Import Async CustomerSpend.
Variable orders : list OrderModel.t.
Variable userId : option ObjectId.

(** The customer as a refresh leaves it. *)
Let refreshed (c : CustomerModel.t) : CustomerModel.t :=
  set_spend (calculateCustomerSpend orders (CustomerModel._id c) userId) c.

Let touched (ids : list ObjectId) (c : CustomerModel.t) : CustomerModel.t :=
  if existsb (Z.eqb (CustomerModel._id c)) ids then refreshed c else c.

Lemma map_touched_customer_ids ids (l : list CustomerModel.t) :
  map CustomerModel._id (map (touched ids) l) = map CustomerModel._id l.
Proof.
  rewrite map_map. apply map_ext. intros c. unfold touched.
  by destruct (existsb (Z.eqb (CustomerModel._id c)) ids).
Qed.

Lemma with_customers_same (db : DB) : Collection.with_customers db (customers db) = db.
Proof. by destruct db. Qed.

Lemma with_customers_twice (db : DB) l1 l2 :
  Collection.with_customers (Collection.with_customers db l1) l2
  = Collection.with_customers db l2.
Proof. reflexivity. Qed.

(** With distinct ids, the update of one stored customer in scope. *)
Lemma updateCustomerSpend_stored (c : CustomerModel.t) (db : DB) :
  List.NoDup (map CustomerModel._id (customers db)) ->
  In c (customers db) ->
  of_user CustomerModel.userId userId c = true ->
  updateCustomerSpend orders (CustomerModel._id c) userId db
  = (Resolved (refreshed c, calculateCustomerSpend orders (CustomerModel._id c) userId),
     Collection.with_customers db (map (touched [CustomerModel._id c]) (customers db))).
Proof.
  intros Hnd Hin Hscope. unfold updateCustomerSpend.
  rewrite (find_stored CustomerModel._id (of_user CustomerModel.userId userId)) by done.
  rewrite (updateOne_stored CustomerModel._id (of_user CustomerModel.userId userId)) by done.
  f_equal. f_equal. apply map_ext_in. intros y Hy. unfold touched, refreshed.
  cbn [existsb]. rewrite orb_false_r.
  destruct (Z.eqb_spec (CustomerModel._id y) (CustomerModel._id c)) as [E|_]; [|done].
  by rewrite E.
Qed.

(** The loop of [updateAllCustomersSpend] over stored customers in
    scope. *)
Lemma update_each_spec (todo : list CustomerModel.t) :
  forall db,
    List.NoDup (map CustomerModel._id (customers db)) ->
    List.NoDup (map CustomerModel._id todo) ->
    (forall c, In c todo ->
               In c (customers db) /\ of_user CustomerModel.userId userId c = true) ->
    update_each orders userId todo db
    = (Resolved
         (map (fun c => (refreshed c,
                         calculateCustomerSpend orders (CustomerModel._id c) userId))
              todo),
       Collection.with_customers db
         (map (touched (map CustomerModel._id todo)) (customers db))).
Proof.
  induction todo as [|c todo IH]; intros db Hnd Htodo Hin.
  - cbn [update_each map]. unfold mret, Async_ret, Async.ret. f_equal.
    assert (map (touched []) (customers db) = customers db) as ->.
    { rewrite <- (List.map_id (customers db)) at 2. by apply map_ext. }
    symmetry. apply with_customers_same.
  - cbn [update_each]. unfold mbind, Async_bind, Async.bind at 1.
    destruct (Hin c (or_introl eq_refl)) as [Hc Hscope].
    rewrite (updateCustomerSpend_stored c db Hnd Hc Hscope).
    inversion Htodo as [|? ? Hnotin Htodo']; subst.
    unfold Async.bind at 1. rewrite IH; cycle 1.
    + cbn [customers Collection.with_customers]. by rewrite map_touched_customer_ids.
    + done.
    + intros y Hy. destruct (Hin y (or_intror Hy)) as [Hy' Hyscope]. split; [|done].
      cbn [customers Collection.with_customers].
      apply in_map_iff. exists y. split; [|done].
      unfold touched. cbn [existsb]. rewrite orb_false_r.
      destruct (Z.eqb_spec (CustomerModel._id y) (CustomerModel._id c)) as [E|_]; [|done].
      exfalso. apply Hnotin. rewrite <- E. by apply in_map.
    + unfold mret, Async_ret, Async.ret. cbn [map]. f_equal.
      cbn [customers Collection.with_customers]. rewrite with_customers_twice.
      f_equal. rewrite map_map. apply map_ext. intros y.
      unfold touched at 1 3. cbn [map existsb].
      unfold touched. cbn [existsb]. rewrite orb_false_r.
      destruct (Z.eqb_spec (CustomerModel._id y) (CustomerModel._id c)) as [E|E];
        cbn [orb].
      * change (CustomerModel._id (refreshed y)) with (CustomerModel._id y).
        by destruct (existsb _ _).
      * reflexivity.
Qed.

(** With distinct ids, the ids of the customers that a filter selects
    are the ids of the customers that satisfy it. *)
Lemma selected_customer_ids (p : CustomerModel.t -> bool) (l : list CustomerModel.t)
      (c : CustomerModel.t) :
  List.NoDup (map CustomerModel._id l) -> In c l ->
  existsb (Z.eqb (CustomerModel._id c)) (map CustomerModel._id (List.filter p l)) = p c.
Proof.
  intros Hnd Hc. destruct (p c) eqn:Hsel.
  - apply existsb_exists. exists (CustomerModel._id c). split; [|apply Z.eqb_refl].
    apply in_map, filter_In. done.
  - apply not_true_iff_false. intros H.
    apply existsb_exists in H as (k & Hk & Heq). apply Z.eqb_eq in Heq. subst k.
    apply in_map_iff in Hk as (y & Hy & Hin). apply filter_In in Hin as [Hin Hysel].
    assert (y = c) as ->; [|congruence].
    by apply (same_id_same_document CustomerModel._id l).
Qed.

Lemma NoDup_filter_ids (p : CustomerModel.t -> bool) (l : list CustomerModel.t) :
  List.NoDup (map CustomerModel._id l) ->
  List.NoDup (map CustomerModel._id (List.filter p l)).
Proof.
  induction l as [|c l IH]; intros Hnd; [done|].
  inversion Hnd as [|? ? Hnotin Hnd']; subst. cbn [List.filter].
  destruct (p c); [|by apply IH]. cbn [map]. constructor; [|by apply IH].
  intros H. apply Hnotin. apply in_map_iff in H as (y & Hy & Hin).
  apply filter_In in Hin as [Hin _]. rewrite <- Hy. by apply in_map.
Qed.

(** What [updateAllCustomersSpend] does to a store with distinct
    customer ids. *)
Lemma updateAllCustomersSpend_spec (db : DB) :
  List.NoDup (map CustomerModel._id (customers db)) ->
  updateAllCustomersSpend orders userId db
  = (Resolved
       (map (fun c => (refreshed c,
                       calculateCustomerSpend orders (CustomerModel._id c) userId))
            (List.filter (of_user CustomerModel.userId userId) (customers db))),
     Collection.with_customers db
       (map (fun c => if of_user CustomerModel.userId userId c then refreshed c else c)
            (customers db))).
Proof.
  intros Hnd. unfold updateAllCustomersSpend.
  rewrite update_each_spec; try done.
  - f_equal. f_equal. apply map_ext_in. intros c Hc. unfold touched.
    by rewrite selected_customer_ids.
  - by apply NoDup_filter_ids.
  - intros c Hc. by apply filter_In in Hc.
Qed.

End spend_facts.

(** X20: a refresh sets the spend of every customer in scope to the
    total of the orders.  For orders whose amounts are whole numbers and
    with distinct customer ids, [refreshAllCustomersSpend] resolves; it
    changes nothing but the [spend] of the customers of the given owner
    (of all customers when no owner is given), which becomes the total
    that [calculateCustomerSpend] gives: the amounts of the orders of
    that customer (and owner) added one by one as binary64 numbers.  The
    other customers, and the order of the collection, stay as they are.
    The summary counts the customers in scope and lists, for each of
    them in order, the id, the name and the new spend.  When no amount
    is negative, the total of a customer is the sum of the amounts if
    that sum is at most [2 ^ 53]. *)
Theorem refreshAllCustomersSpend_sets_the_order_totals :
  forall orders userId db,
    List.NoDup (map CustomerModel._id (customers db)) ->
    let total c :=
      CustomerSpend.calculateCustomerSpend orders (CustomerModel._id c) userId in
    let in_scope := CustomerSpend.of_user CustomerModel.userId userId in
    exists summary,
      CustomerSpend.refreshAllCustomersSpend orders userId db
      = (Async.Resolved summary,
         Collection.with_customers db
           (map (fun c => if in_scope c then CustomerSpend.set_spend (total c) c else c)
                (customers db)))
      /\ CustomerSpend.updated summary = Mongo.countDocuments in_scope (customers db)
      /\ CustomerSpend.totalCustomers summary = CustomerSpend.updated summary
      /\ CustomerSpend.results summary
         = map (fun c => {| CustomerSpend.customerId := String_ (CustomerModel._id c);
                            CustomerSpend.name := CustomerModel.name c;
                            CustomerSpend.calculatedSpend := total c |})
               (List.filter in_scope (customers db))
      /\ (forall c,
            In c (customers (snd (CustomerSpend.refreshAllCustomersSpend orders userId db))) ->
            in_scope c = true ->
            CustomerModel.spend c = Some (total c))
      /\ ((forall o, In o orders -> 0 <= OrderModel.amount o) ->
          forall c,
            CustomerSpend.sum_of_amounts orders (CustomerModel._id c) userId <= 2 ^ 53 ->
            total c = CustomerSpend.sum_of_amounts orders (CustomerModel._id c) userId).
Proof.
  intros orders userId db Hnd total in_scope.
  unfold CustomerSpend.refreshAllCustomersSpend, mbind, Async_bind, Async.bind.
  rewrite updateAllCustomersSpend_spec by done.
  unfold mret, Async_ret, Async.ret. eexists. split; [reflexivity|].
  cbn [CustomerSpend.updated CustomerSpend.totalCustomers CustomerSpend.results snd
       customers Collection.with_customers].
  rewrite length_map, map_map.
  split; [reflexivity|]. split; [reflexivity|]. split; [reflexivity|].
  split.
  - intros c Hc Hscope. apply in_map_iff in Hc as (y & <- & Hy).
    fold in_scope in Hscope |- *.
    destruct (in_scope y) eqn:Hy_scope; [reflexivity|].
    congruence.
  - intros Hpos c Hsum. by apply calculateCustomerSpend_exact.
Qed.

(** The theorem on the sample store with two orders of Ann and one of
    Eve: the refresh for owner 1 sets the spend of Ann to 70. *)
Lemma refreshAllCustomersSpend_sets_the_order_totals_witness :
  exists summary,
    fst (CustomerSpend.refreshAllCustomersSpend Samples.orders (Some 1) Examples.db0)
    = Async.Resolved summary
    /\ CustomerSpend.updated summary = 2
    /\ map CustomerSpend.calculatedSpend (CustomerSpend.results summary) = [70; 0].
Proof.
  destruct (refreshAllCustomersSpend_sets_the_order_totals Samples.orders (Some 1)
              Examples.db0) as (summary & Hrun & Hupdated & _ & Hresults & _).
  - repeat constructor; simpl; intuition discriminate.
  - exists summary. rewrite Hrun, Hupdated, Hresults.
    split; [reflexivity|]. split; vm_compute; reflexivity.
Defined.

(** X21: after a refresh, a segment on the spend selects by the total
    of the orders.  For orders whose amounts are whole numbers and with
    distinct customer ids, when the spend of the customers of an owner
    has been refreshed, [populateSegmentCustomers] for a segment of that
    owner whose rule compares [spend] with a value stores the ids of
    exactly those customers of the owner for whom the total of
    [calculateCustomerSpend] (the amounts of the orders of that customer
    and owner, added one by one as binary64 numbers) is in that relation
    to the value, in the order of the collection, and returns their
    number.  When no amount is negative and no customer has orders that
    sum to more than [2 ^ 53], these are the customers whose orders sum
    to an amount in that relation to the value. *)
Theorem refreshed_spend_decides_the_segment :
  forall now orders owner segmentId op value db segment,
    List.NoDup (map CustomerModel._id (customers db)) ->
    List.find (fun s => SegmentModel._id s =? segmentId) (segments db) = Some segment ->
    SegmentModel.userId segment = owner ->
    SegmentModel.rules_json segment = SegmentRules.Rule SegmentRules.spend op value ->
    let db1 := snd (CustomerSpend.refreshAllCustomersSpend orders (Some owner) db) in
    let selected :=
      List.filter
        (fun c => (CustomerModel.userId c =? owner)
                  && SegmentRules.compare
                       (CustomerSpend.calculateCustomerSpend orders (CustomerModel._id c)
                                                             (Some owner))
                       (Some op) (Some value))
        (customers db) in
    exists db2 stored,
      SegmentPopulation.populateSegmentCustomers now segmentId db1
      = Some (db2, Z.of_nat (length selected))
      /\ List.find (fun s => SegmentModel._id s =? segmentId) (segments db2) = Some stored
      /\ SegmentModel.customer_ids stored
         = map (fun c => String_ (CustomerModel._id c)) selected
      /\ SegmentModel.customer_count stored = Z.of_nat (length selected)
      /\ ((forall o, In o orders -> 0 <= OrderModel.amount o) ->
          (forall c, In c (customers db) ->
                     CustomerSpend.sum_of_amounts orders (CustomerModel._id c) (Some owner)
                     <= 2 ^ 53) ->
          selected
          = List.filter
              (fun c => (CustomerModel.userId c =? owner)
                        && SegmentRules.compare
                             (CustomerSpend.sum_of_amounts orders (CustomerModel._id c)
                                                           (Some owner))
                             (Some op) (Some value))
              (customers db)).
Proof.
  intros now orders owner segmentId op value db segment Hnd Hfind Howner Hrules db1 selected.
  assert (Hexact :
            (forall o, In o orders -> 0 <= OrderModel.amount o) ->
            (forall c, In c (customers db) ->
                       CustomerSpend.sum_of_amounts orders (CustomerModel._id c) (Some owner)
                       <= 2 ^ 53) ->
            selected
            = List.filter
                (fun c => (CustomerModel.userId c =? owner)
                          && SegmentRules.compare
                               (CustomerSpend.sum_of_amounts orders (CustomerModel._id c)
                                                             (Some owner))
                               (Some op) (Some value))
                (customers db)).
  { intros Hpos Hsum. unfold selected. apply filter_ext_in. intros c Hc.
    by rewrite (calculateCustomerSpend_exact orders _ _ Hpos (Hsum c Hc)). }
  subst db1.
  unfold CustomerSpend.refreshAllCustomersSpend, mbind, Async_bind, Async.bind.
  rewrite updateAllCustomersSpend_spec by done.
  unfold mret, Async_ret, Async.ret. cbn [snd].
  set (g := fun c : CustomerModel.t =>
              if CustomerSpend.of_user CustomerModel.userId (Some owner) c
              then CustomerSpend.set_spend
                     (CustomerSpend.calculateCustomerSpend orders (CustomerModel._id c)
                                                           (Some owner)) c
              else c).
  set (db1 := Collection.with_customers db (map g (customers db))).
  assert (Hsel : map (fun c => String_ (CustomerModel._id c))
                     (CampaignDeliveryService.getCustomersForSegment now segment db1)
                 = map (fun c => String_ (CustomerModel._id c)) selected).
  { unfold CampaignDeliveryService.getCustomersForSegment, selected, db1.
    cbn [customers Collection.with_customers]. rewrite Howner, Hrules. clear.
    induction (customers db) as [|c l IH]; [done|].
    cbn [map List.filter].
    assert (Hu : CustomerModel.userId (g c) = CustomerModel.userId c).
    { unfold g. by destruct (CustomerSpend.of_user _ _ c). }
    assert (Hi : CustomerModel._id (g c) = CustomerModel._id c).
    { unfold g. by destruct (CustomerSpend.of_user _ _ c). }
    rewrite Hu. destruct (Z.eqb_spec (CustomerModel.userId c) owner) as [E|E]; [|exact IH].
    cbn [andb List.filter].
    assert (He : SegmentRules.evaluateRule now (g c)
                   (SegmentRules.Rule SegmentRules.spend op value)
                 = SegmentRules.compare
                     (CustomerSpend.calculateCustomerSpend orders (CustomerModel._id c)
                                                           (Some owner))
                     (Some op) (Some value)).
    { unfold g, CustomerSpend.of_user. rewrite (proj2 (Z.eqb_eq _ _) E). reflexivity. }
    rewrite He. destruct (SegmentRules.compare _ _ _); [|exact IH].
    cbn [map]. by rewrite Hi, IH. }
  assert (Hlen : length (CampaignDeliveryService.getCustomersForSegment now segment db1)
                 = length selected).
  { rewrite <- (length_map (fun c => String_ (CustomerModel._id c))), Hsel.
    apply length_map. }
  rewrite (populate_found now segmentId db1 segment) by exact Hfind.
  rewrite Hsel, Hlen.
  eexists _, _. split; [reflexivity|].
  cbn [segments Mongo.with_segments].
  rewrite find_updateOne_same by reflexivity.
  change (segments db1) with (segments db). rewrite Hfind. cbn [option_map].
  split; [reflexivity|]. split; [reflexivity|].
  split; [|exact Hexact].
  cbn. by rewrite length_map.
Qed.

(** The theorem on the sample store: after the refresh, the segment of
    those who spent more than 50 holds Ann, whose orders sum to 70, and
    not Bob, who has no order. *)
Lemma refreshed_spend_decides_the_segment_witness :
  exists db2 stored,
    SegmentPopulation.populateSegmentCustomers 0 31
      (snd (CustomerSpend.refreshAllCustomersSpend Samples.orders (Some 1)
              (Examples.db_with_rule
                 (SegmentRules.Rule SegmentRules.spend SegmentRules.gt 50))))
    = Some (db2, 1)
    /\ List.find (fun s => SegmentModel._id s =? 31) (segments db2) = Some stored
    /\ SegmentModel.customer_ids stored = [String_ 11].
Proof.
  destruct (refreshed_spend_decides_the_segment 0 Samples.orders 1 31 SegmentRules.gt 50
              (Examples.db_with_rule
                 (SegmentRules.Rule SegmentRules.spend SegmentRules.gt 50))
              (Examples.segment 31 1
                 (SegmentRules.Rule SegmentRules.spend SegmentRules.gt 50)))
    as (db2 & stored & Hpop & Hfind & Hids & _).
  - repeat constructor; simpl; intuition discriminate.
  - reflexivity.
  - reflexivity.
  - reflexivity.
  - exists db2, stored. split; [exact Hpop|]. split; [exact Hfind|exact Hids].
Defined.

(** ** The receipts of the vendor service *)

Section vendor_receipts.
Import VendorService.

(** One receipt applied to the logs; a receipt whose ids cannot be
    built is never applied. *)
Let apply (stamped : Z * DeliveryReceipt) (logs : list CommunicationLogModel.t)
  : list CommunicationLogModel.t :=
  match bulkOp (fst stamped) (snd stamped) with
  | Some op => op logs
  | None => logs
  end.

(** What a receipt does not change in a log. *)
Let core (l : CommunicationLogModel.t) :=
  (CommunicationLogModel._id l, CommunicationLogModel.userId l,
   CommunicationLogModel.campaign_id l, CommunicationLogModel.customer_id l,
   CommunicationLogModel.message l).

Lemma with_communication_log_same (db : DB) :
  Mongo.with_communication_log db (communication_log db) = db.
Proof. by destruct db. Qed.

Lemma updateOne_at_first {A : Type} (p : A -> bool) (f : A -> A) (l : list A)
      (i : nat) (x : A) :
  l !! i = Some x -> p x = true ->
  (forall (j : nat) y, (j < i)%nat -> l !! j = Some y -> p y = false) ->
  Mongo.updateOne p f l !! i = Some (f x).
Proof.
  revert i. induction l as [|a l IH]; intros [|i] Hi Hp Hfirst; try discriminate.
  - cbn in Hi. injection Hi as ->. cbn. by rewrite Hp.
  - cbn in Hi. cbn [Mongo.updateOne].
    rewrite (Hfirst 0%nat a) by (done || lia). cbn. apply IH; [done..|].
    intros j y Hj Hy. apply (Hfirst (S j) y); [lia|done].
Qed.

Lemma updateOne_lookup_inv {A : Type} (p : A -> bool) (f : A -> A) (l : list A)
      (j : nat) (y : A) :
  Mongo.updateOne p f l !! j = Some y ->
  exists x, l !! j = Some x /\ (y = x \/ y = f x).
Proof.
  revert j. induction l as [|a l IH]; intros j Hj; [by destruct j|].
  cbn [Mongo.updateOne] in Hj. destruct (p a).
  - destruct j as [|j]; cbn in Hj |- *.
    + injection Hj as <-. exists a. auto.
    + exists y. auto.
  - destruct j as [|j]; cbn in Hj |- *.
    + injection Hj as <-. exists a. auto.
    + by apply IH.
Qed.

Lemma updateOne_same_lookup {A : Type} (p : A -> bool) (f : A -> A) (l : list A)
      (i : nat) (x : A) :
  l !! i = Some x -> p x = false -> Mongo.updateOne p f l !! i = Some x.
Proof.
  revert i. induction l as [|a l IH]; intros [|i] Hi Hp; try discriminate; cbn in *.
  - injection Hi as ->. by rewrite Hp.
  - destruct (p a); [done|]. by apply IH.
Qed.

Lemma for_receipt_set_receipt campaign customer now r l :
  for_receipt campaign customer (set_receipt now r l) = for_receipt campaign customer l.
Proof. reflexivity. Qed.

Lemma for_receipt_key campaign customer l :
  for_receipt campaign customer l = true
  <-> CommunicationLogModel.campaign_id l = Some campaign
      /\ CommunicationLogModel.customer_id l = Some customer.
Proof.
  unfold for_receipt.
  destruct (CommunicationLogModel.campaign_id l) as [a|],
           (CommunicationLogModel.customer_id l) as [b|];
    try (split; [discriminate|by intros [? ?]]).
  rewrite andb_true_iff, !Z.eqb_eq. split; intros [? ?]; split; congruence.
Qed.

Lemma apply_core stamped logs : map core (apply stamped logs) = map core logs.
Proof.
  unfold apply, bulkOp.
  destruct (campaignId (snd stamped)), (customerId (snd stamped)); try done.
  induction logs as [|a logs IH]; [done|]. cbn [Mongo.updateOne].
  destruct (for_receipt _ _ a); cbn [map]; [done|]. by rewrite IH.
Qed.

Lemma fold_apply_core stamped : forall logs,
  map core (fold_left (fun logs s => apply s logs) stamped logs) = map core logs.
Proof.
  induction stamped as [|s stamped IH]; intros logs; [done|].
  cbn [fold_left]. by rewrite IH, apply_core.
Qed.

(** The receipts applied in their order: the first log of a campaign
    and customer shows the last receipt for them, and is untouched when
    there is none. *)
Lemma fold_apply_last (campaign customer : ObjectId) (stamped : list (Z * DeliveryReceipt)) :
  forall logs (i : nat) l,
    logs !! i = Some l ->
    for_receipt campaign customer l = true ->
    (forall (j : nat) l0, (j < i)%nat -> logs !! j = Some l0 ->
                          for_receipt campaign customer l0 = false) ->
    exists l',
      fold_left (fun logs s => apply s logs) stamped logs !! i = Some l'
      /\ match last (receipts_for campaign customer (map snd stamped)) with
         | Some r =>
             CommunicationLogModel.status l' = status r
             /\ CommunicationLogModel.vendor_message_id l' = Some (vendorMessageId r)
         | None => l' = l
         end.
Proof.
  induction stamped as [|[now r] stamped IH]; intros logs i l Hi Hkey Hfirst.
  - exists l. by split.
  - cbn [fold_left map snd].
    assert (Hfirst' : forall (j : nat) l0, (j < i)%nat ->
               apply (now, r) logs !! j = Some l0 ->
               for_receipt campaign customer l0 = false).
    { intros j l0 Hj Hl0. unfold apply, bulkOp in Hl0. cbn [fst snd] in Hl0.
      destruct (campaignId r) as [a|], (customerId r) as [b|]; eauto.
      apply updateOne_lookup_inv in Hl0 as (x & Hx & [->| ->]); eauto.
      rewrite for_receipt_set_receipt. eauto. }
    unfold receipts_for. cbn [List.filter]. fold (receipts_for campaign customer (map snd stamped)).
    destruct (bool_decide (campaignId r = Some campaign)
              && bool_decide (customerId r = Some customer)) eqn:Hr.
    + apply andb_prop in Hr as [Hca Hcu].
      apply bool_decide_eq_true in Hca, Hcu.
      assert (Hstep : apply (now, r) logs !! i = Some (set_receipt now r l)).
      { unfold apply, bulkOp. cbn [fst snd]. rewrite Hca, Hcu.
        by apply updateOne_at_first. }
      destruct (IH _ i _ Hstep Hkey Hfirst') as (l' & Hl' & Hlast).
      exists l'. split; [done|].
      destruct (receipts_for campaign customer (map snd stamped)) as [|r0 rs] eqn:Hrs.
      * cbn in Hlast |- *. by subst l'.
      * rewrite last_cons. destruct (last (r0 :: rs)); [done|].
        by subst l'.
    + assert (Hstep : apply (now, r) logs !! i = Some l).
      { unfold apply, bulkOp. cbn [fst snd].
        destruct (campaignId r) as [a|] eqn:Ea, (customerId r) as [b|] eqn:Eb; try done.
        apply updateOne_same_lookup; [done|].
        apply for_receipt_key in Hkey as [Hc1 Hc2].
        unfold for_receipt. rewrite Hc1, Hc2.
        apply andb_false_iff in Hr as [Hr|Hr]; apply bool_decide_eq_false in Hr.
        - destruct (Z.eqb_spec campaign a) as [->|_]; [by destruct Hr|done].
        - destruct (Z.eqb_spec customer b) as [->|_]; [by destruct Hr|].
          apply andb_false_r. }
      destruct (IH _ i _ Hstep Hkey Hfirst') as (l' & Hl' & Hlast).
      by exists l'.
Qed.

Lemma mapM_bulkOp_well_formed now (batch : list DeliveryReceipt) :
  forallb well_formed batch = true ->
  exists bulkOps,
    mapM (bulkOp now) batch = Some bulkOps
    /\ forall logs,
         bulkWrite bulkOps logs
         = fold_left (fun logs s => apply s logs) (map (pair now) batch) logs.
Proof.
  induction batch as [|r batch IH]; intros Hwf.
  - exists []. by split.
  - cbn [forallb] in Hwf. apply andb_prop in Hwf as [Hr Hwf].
    destruct (IH Hwf) as (ops & Hops & Hwrite).
    unfold well_formed in Hr.
    destruct (campaignId r) as [a|] eqn:Ea, (customerId r) as [b|] eqn:Eb; try discriminate.
    exists (Mongo.updateOne (for_receipt a b) (set_receipt now r) :: ops). split.
    + cbn [mapM]. rewrite Hops. unfold bulkOp. rewrite Ea, Eb. reflexivity.
    + intros logs. cbn [map fold_left]. unfold bulkWrite. cbn [fold_left].
      fold (bulkWrite ops). rewrite Hwrite. f_equal.
      unfold apply, bulkOp. cbn [fst snd]. by rewrite Ea, Eb.
Qed.

Lemma mapM_bulkOp_poisoned now (batch : list DeliveryReceipt) :
  Exists (fun r => well_formed r = false) batch -> mapM (bulkOp now) batch = None.
Proof.
  induction 1 as [r batch Hr|r batch _ IH]; cbn [mapM].
  - unfold bulkOp, well_formed in *.
    by destruct (campaignId r), (customerId r).
  - rewrite IH. by destruct (bulkOp now r).
Qed.

Lemma forallb_skipn {A : Type} (p : A -> bool) (n : nat) (l : list A) :
  forallb p l = true -> forallb p (skipn n l) = true.
Proof.
  revert l. induction n as [|n IH]; intros [|x l] H; try done.
  cbn in *. apply andb_prop in H as [_ H]. by apply IH.
Qed.

Lemma forallb_firstn {A : Type} (p : A -> bool) (n : nat) (l : list A) :
  forallb p l = true -> forallb p (firstn n l) = true.
Proof.
  revert l. induction n as [|n IH]; intros [|x l] H; try done.
  cbn in *. apply andb_prop in H as [Hx H]. rewrite Hx. by apply IH.
Qed.

(** With receipts whose ids can all be built, and enough rounds, the
    loop of [flushQueue] ends with an empty queue, and the logs are those
    after the receipts were applied one by one in their order. *)
Lemma flushQueue_spec (times : list Z) :
  forall this db,
    forallb well_formed (receiptQueue this) = true ->
    (length (receiptQueue this) <= BATCH_SIZE * length times)%nat ->
    exists stamped,
      map snd stamped = receiptQueue this
      /\ flushQueue times this db
         = Some ({| receiptQueue := [] |},
                 Mongo.with_communication_log db
                   (fold_left (fun logs s => apply s logs) stamped (communication_log db))).
Proof.
  induction times as [|now times IH]; intros [queue] db Hwf Hlen;
    cbn [receiptQueue] in *.
  - destruct queue; [|cbn in Hlen; lia].
    exists []. split; [done|]. cbn. by rewrite with_communication_log_same.
  - destruct queue as [|r queue].
    { exists []. split; [done|]. cbn. by rewrite with_communication_log_same. }
    cbn [flushQueue receiptQueue]. unfold processBatchReceipts. cbn [receiptQueue].
    set (q := r :: queue) in *.
    destruct (mapM_bulkOp_well_formed now (firstn BATCH_SIZE q)) as (ops & -> & Hwrite).
    { by apply forallb_firstn. }
    destruct (IH {| receiptQueue := skipn BATCH_SIZE q |}
                 (Mongo.with_communication_log db (bulkWrite ops (communication_log db))))
      as (stamped & Hsnd & Hflush).
    { by apply forallb_skipn. }
    { cbn [receiptQueue]. rewrite length_skipn. cbn [length] in Hlen. lia. }
    exists (map (pair now) (firstn BATCH_SIZE q) ++ stamped). split.
    + rewrite map_app, map_map. cbn [snd]. rewrite List.map_id, Hsnd.
      apply firstn_skipn.
    + rewrite Hflush. cbn [communication_log Mongo.with_communication_log].
      by rewrite fold_left_app, Hwrite.
Qed.

(** A batch with a receipt whose ids cannot be built is put back. *)
Lemma processBatchReceipts_poisoned now this db :
  Exists (fun r => well_formed r = false) (firstn BATCH_SIZE (receiptQueue this)) ->
  processBatchReceipts now this db = (this, db).
Proof.
  intros Hbad. unfold processBatchReceipts.
  destruct this as [queue]. cbn [receiptQueue] in *.
  destruct queue as [|r queue]; [done|].
  rewrite mapM_bulkOp_poisoned by done. by rewrite firstn_skipn.
Qed.

End vendor_receipts.

(** X22: the queue of receipts is flushed in its order.  When the ids
    of all queued receipts can be built and the loop is given at least
    one round for every ten receipts, [flushQueue] returns with an empty
    queue.  It changes only the communication logs, and of them neither
    the number nor the ids, owners, campaigns, customers and texts; the
    sent messages, and with them the message breakdown of every
    campaign, are what they were.  The
    first log of a campaign and customer then carries the status and the
    vendor message id of the last receipt queued for them, and is
    untouched when no receipt names them: a receipt is matched without
    regard to the owner of the log, and later logs of the same campaign
    and customer are never updated. *)
Theorem flushQueue_applies_the_receipts_in_order :
  forall times this db,
    forallb VendorService.well_formed (VendorService.receiptQueue this) = true ->
    (length (VendorService.receiptQueue this)
     <= VendorService.BATCH_SIZE * length times)%nat ->
    exists db',
      VendorService.flushQueue times this db
      = Some ({| VendorService.receiptQueue := [] |}, db')
      /\ (users db', customers db', segments db', campaigns db', sent_messages db')
         = (users db, customers db, segments db, campaigns db, sent_messages db)
      /\ (forall campaignId owner,
            CampaignStatsHelpers.getMessageBreakdown campaignId owner db'
            = CampaignStatsHelpers.getMessageBreakdown campaignId owner db)
      /\ map (fun l => (CommunicationLogModel._id l, CommunicationLogModel.userId l,
                        CommunicationLogModel.campaign_id l,
                        CommunicationLogModel.customer_id l,
                        CommunicationLogModel.message l)) (communication_log db')
         = map (fun l => (CommunicationLogModel._id l, CommunicationLogModel.userId l,
                          CommunicationLogModel.campaign_id l,
                          CommunicationLogModel.customer_id l,
                          CommunicationLogModel.message l)) (communication_log db)
      /\ (forall (i : nat) l campaign customer,
            communication_log db !! i = Some l ->
            CommunicationLogModel.campaign_id l = Some campaign ->
            CommunicationLogModel.customer_id l = Some customer ->
            (forall (j : nat) l0,
                (j < i)%nat -> communication_log db !! j = Some l0 ->
                VendorService.for_receipt campaign customer l0 = false) ->
            exists l',
              communication_log db' !! i = Some l'
              /\ match last (VendorService.receipts_for campaign customer
                               (VendorService.receiptQueue this)) with
                 | Some r =>
                     CommunicationLogModel.status l' = VendorService.status r
                     /\ CommunicationLogModel.vendor_message_id l'
                        = Some (VendorService.vendorMessageId r)
                 | None => l' = l
                 end).
Proof.
  intros times this db Hwf Hlen.
  destruct (flushQueue_spec times this db Hwf Hlen) as (stamped & Hsnd & Hflush).
  eexists. split; [exact Hflush|].
  cbn [users customers segments campaigns sent_messages communication_log
       Mongo.with_communication_log].
  split; [reflexivity|]. split; [reflexivity|]. split; [apply fold_apply_core|].
  intros i l campaign customer Hi Hca Hcu Hfirst. rewrite <- Hsnd.
  apply fold_apply_last; [done| |done].
  by apply for_receipt_key.
Qed.

(** The theorem on the sample store: two receipts for campaign 41 and
    customer 11 are queued, SENT and then FAILED; after the flush the log
    is FAILED. *)
Lemma flushQueue_applies_the_receipts_in_order_witness :
  exists db',
    VendorService.flushQueue [5]
      {| VendorService.receiptQueue :=
           [Samples.receipt (Some 41) SENT; Samples.receipt (Some 41) FAILED] |}
      Samples.deleted_customer_db
    = Some ({| VendorService.receiptQueue := [] |}, db')
    /\ map CommunicationLogModel.status (communication_log db') = [FAILED; FAILED].
Proof.
  destruct (flushQueue_applies_the_receipts_in_order [5]
              {| VendorService.receiptQueue :=
                   [Samples.receipt (Some 41) SENT; Samples.receipt (Some 41) FAILED] |}
              Samples.deleted_customer_db) as (db' & Hflush & _).
  - reflexivity.
  - cbn. lia.
  - exists db'. split; [exact Hflush|].
    cbn in Hflush. injection Hflush as <-. reflexivity.
Defined.

(** X23: a receipt whose id cannot be built blocks the queue.  When one
    of the first ten queued receipts has a campaign or customer id from
    which no ObjectId can be built, [processBatchReceipts] puts the whole
    batch back and writes nothing; so no wake-up of the timer changes the
    queue or the database, none of the receipts, the well-formed ones
    included, is ever applied, and the loop of [flushQueue] does not end,
    however many rounds it is given. *)
Theorem malformed_receipt_blocks_the_queue :
  forall this db,
    Exists (fun r => VendorService.well_formed r = false)
           (firstn VendorService.BATCH_SIZE (VendorService.receiptQueue this)) ->
    (forall now, VendorService.processBatchReceipts now this db = (this, db))
    /\ (forall times, VendorService.ticks times this db = (this, db))
    /\ (forall times, VendorService.flushQueue times this db = None).
Proof.
  intros this db Hbad.
  assert (Hne : exists r queue, VendorService.receiptQueue this = r :: queue).
  { destruct (VendorService.receiptQueue this) as [|r queue]; [|by eexists _, _].
    cbn in Hbad. inversion Hbad. }
  destruct Hne as (r & queue & Hq).
  split; [|split].
  - intros now. by apply processBatchReceipts_poisoned.
  - induction times as [|now times IH]; [done|].
    cbn [VendorService.ticks]. unfold VendorService.tick. rewrite Hq. cbn [length Nat.ltb Nat.leb].
    rewrite processBatchReceipts_poisoned by done. exact IH.
  - induction times as [|now times IH].
    + cbn. by rewrite Hq.
    + cbn [VendorService.flushQueue]. rewrite Hq.
      rewrite processBatchReceipts_poisoned by done. exact IH.
Qed.

(** The theorem on a queue of a well-formed receipt and one without a
    campaign id: three wake-ups leave both in the queue. *)
Lemma malformed_receipt_blocks_the_queue_witness :
  VendorService.ticks [5; 6; 7]
    {| VendorService.receiptQueue :=
         [Samples.receipt (Some 41) SENT; Samples.receipt None SENT] |}
    Samples.deleted_customer_db
  = ({| VendorService.receiptQueue :=
          [Samples.receipt (Some 41) SENT; Samples.receipt None SENT] |},
     Samples.deleted_customer_db).
Proof.
  apply (malformed_receipt_blocks_the_queue
           {| VendorService.receiptQueue :=
                [Samples.receipt (Some 41) SENT; Samples.receipt None SENT] |}
           Samples.deleted_customer_db).
  apply Exists_cons_tl, Exists_cons_hd. reflexivity.
Defined.

Section vendor_round_trip.
Import VendorService.

Lemma receipts_for_app campaign customer (q1 q2 : list DeliveryReceipt) :
  receipts_for campaign customer (q1 ++ q2)
  = receipts_for campaign customer q1 ++ receipts_for campaign customer q2.
Proof. apply List.filter_app. Qed.

Lemma forallb_snoc {A : Type} (p : A -> bool) (l : list A) (x : A) :
  forallb p l = true -> p x = true -> forallb p (l ++ [x]) = true.
Proof. intros Hl Hx. rewrite forallb_app, Hl. cbn. by rewrite Hx. Qed.

End vendor_round_trip.

(** X24: the answer of the vendor reaches the log.  [sendMessage]
    always answers [accepted], with the status SENT when the first
    random value is below 0.9 and FAILED otherwise, and queues one
    receipt.  When the ids of the message and of the receipts queued
    before can be built, a flush with enough rounds leaves in the first
    log of the campaign and customer the status and the vendor message
    id of that answer. *)
Theorem sendMessage_answer_reaches_the_log :
  forall now random1 random2 messageData this db times campaign customer (i : nat) l,
    VendorService.m_campaignId messageData = Some campaign ->
    VendorService.m_customerId messageData = Some customer ->
    forallb VendorService.well_formed (VendorService.receiptQueue this) = true ->
    (length (VendorService.receiptQueue this) + 1
     <= VendorService.BATCH_SIZE * length times)%nat ->
    communication_log db !! i = Some l ->
    VendorService.for_receipt campaign customer l = true ->
    (forall (j : nat) l0,
        (j < i)%nat -> communication_log db !! j = Some l0 ->
        VendorService.for_receipt campaign customer l0 = false) ->
    let sent := VendorService.sendMessage now random1 random2 messageData this in
    VendorService.accepted (snd sent) = true
    /\ VendorService.r_status (snd sent)
       = (if Qlt_le_dec random1 (9 # 10) then SENT else FAILED)
    /\ exists db' l',
         VendorService.flushQueue times (fst sent) db
         = Some ({| VendorService.receiptQueue := [] |}, db')
         /\ communication_log db' !! i = Some l'
         /\ CommunicationLogModel.status l' = VendorService.r_status (snd sent)
         /\ CommunicationLogModel.vendor_message_id l'
            = Some (VendorService.r_vendorMessageId (snd sent)).
Proof.
  intros now random1 random2 messageData this db times campaign customer i l
         Hca Hcu Hwf Hlen Hi Hkey Hfirst sent.
  subst sent. unfold VendorService.sendMessage, VendorService.queueDeliveryReceipt.
  cbn [fst snd VendorService.accepted VendorService.r_status
       VendorService.r_vendorMessageId].
  split; [reflexivity|]. split; [by destruct (Qlt_le_dec random1 (9 # 10))|].
  match goal with
  | |- context [VendorService.flushQueue times ?this1 db] =>
      destruct (flushQueue_spec times this1 db) as (stamped & Hsnd & Hflush)
  end.
  { cbn [VendorService.receiptQueue]. apply forallb_snoc; [done|].
    unfold VendorService.well_formed.
    cbn [VendorService.campaignId VendorService.customerId]. by rewrite Hca, Hcu. }
  { cbn [VendorService.receiptQueue]. rewrite length_app. cbn [length]. lia. }
  destruct (fold_apply_last campaign customer stamped _ i l Hi Hkey Hfirst)
    as (l' & Hl' & Hlast).
  exists (Mongo.with_communication_log db
            (fold_left
               (fun logs s =>
                  match VendorService.bulkOp (fst s) (snd s) with
                  | Some op => op logs
                  | None => logs
                  end) stamped (communication_log db))), l'.
  split; [exact Hflush|]. split; [exact Hl'|].
  rewrite Hsnd in Hlast. cbn [VendorService.receiptQueue] in Hlast.
  rewrite receipts_for_app in Hlast.
  unfold VendorService.receipts_for at 2 in Hlast. cbn [List.filter] in Hlast.
  cbn [VendorService.campaignId VendorService.customerId] in Hlast.
  rewrite Hca, Hcu, !bool_decide_eq_true_2 in Hlast by done.
  cbn [andb] in Hlast. rewrite last_snoc in Hlast.
  exact Hlast.
Qed.

(** The theorem on the sample store: the vendor fails the message for
    campaign 41 and customer 11, and the log that was SENT is FAILED
    after the flush. *)
Lemma sendMessage_answer_reaches_the_log_witness :
  exists db' l',
    VendorService.flushQueue [5]
      (fst (VendorService.sendMessage 5 (95 # 100) (1 # 2)
              {| VendorService.m_campaignId := Some 41;
                 VendorService.m_customerId := Some 11;
                 VendorService.m_message := "Sale";
                 VendorService.m_callbackUrl := "/api/receipt" |}
              {| VendorService.receiptQueue := [] |}))
      Samples.deleted_customer_db
    = Some ({| VendorService.receiptQueue := [] |}, db')
    /\ communication_log db' !! 0%nat = Some l'
    /\ CommunicationLogModel.status l' = FAILED.
Proof.
  destruct (sendMessage_answer_reaches_the_log 5 (95 # 100) (1 # 2)
              {| VendorService.m_campaignId := Some 41;
                 VendorService.m_customerId := Some 11;
                 VendorService.m_message := "Sale";
                 VendorService.m_callbackUrl := "/api/receipt" |}
              {| VendorService.receiptQueue := [] |}
              Samples.deleted_customer_db [5] 41 11 0%nat (Examples.log 11 SENT))
    as (_ & _ & db' & l' & Hflush & Hl' & Hstatus & _); try reflexivity.
  - cbn. lia.
  - intros j l0 Hj. lia.
  - exists db', l'. split; [exact Hflush|]. split; [exact Hl'|exact Hstatus].
Defined.

(** ** The suggested messages *)

(** X26: every suggested message can be used for a campaign.  Whatever
    the goal, [suggestMessages] returns three messages; each of them has
    between 1 and 1000 characters, as the schema of a campaign asks, is
    accepted by [validateTemplate] without an invalid placeholder, and
    uses no placeholder other than [{customerName}] and [{storeName}]. *)
Theorem suggestMessages_are_valid_templates :
  forall goal : string,
    length (Ai.suggestMessages goal) = 3%nat
    /\ Forall (fun m =>
                 (1 <= String.length m <= 1000)%nat
                 /\ MessagePersonalizationService.validateTemplate m
                    = {| MessagePersonalizationService.isValid := true;
                         MessagePersonalizationService.invalidPlaceholders := [] |}
                 /\ forall t,
                      In t (MessagePersonalizationService.match_placeholders 0 m) ->
                      t = "{customerName}" \/ t = "{storeName}")
              (Ai.suggestMessages goal).
Proof.
  intros goal. unfold Ai.suggestMessages, Ai.getFallbackMessages.
  set (g := Js.toLowerCase (Ai.trim goal)).
  destruct (JsString.includes g "inactive" || JsString.includes g "bring back");
    [|destruct (JsString.includes g "promote" || JsString.includes g "sale"
                || JsString.includes g "offer");
      [|destruct (JsString.includes g "new" || JsString.includes g "launch"
                  || JsString.includes g "product")]].
  all: split; [reflexivity|].
  all: repeat (apply List.Forall_cons;
               [split; [vm_compute; lia|split; [vm_compute; reflexivity|]]|]);
    try apply List.Forall_nil.
  all: intros t Ht; vm_compute in Ht;
    repeat (destruct Ht as [<-|Ht]; [auto|]); destruct Ht.
Qed.

(** A goal that names both a sale and inactive customers gets the
    messages for winning customers back. *)
Example suggestMessages_sample :
  nth_error (Ai.suggestMessages "  Sale for INACTIVE customers ") 0
  = Some "We miss you, {customerName}! Come back and enjoy 20% off your next order with code WELCOME20.".
Proof. vm_compute. reflexivity. Qed.

